(* ===== verification/_CoqProject ===== *)
-Q . S2P
Prelude.v
ControlProtocol.v
Acl.v
ProxyAuth.v
Ingress.v
EventQueue.v
RelayBuffer.v
TunnelRegistry.v
StreamLifetime.v
StreamShutdown.v
StreamCallbacks.v
Tuning.v
QuicAddress.v
UvSend.v
UvReceive.v
UvTerminal.v
UvWrite.v
UvRelay.v
UvHeld.v
UvFlow.v
UvMachine.v
UvStream.v
