(* ===== verification/Prelude.v ===== *)
(** * tcpquic-proxy: a verification library of its core

    The program (src/src) tunnels TCP connections over QUIC.  A client process accepts SOCKS5
    and HTTP CONNECT requests ([ingress/]), picks a QUIC connection to a peer and opens a
    stream on it with a control-protocol frame ([protocol/]); the server process checks the
    target against its ACL ([acl/]), dials it and answers; from then on the relay ([tunnel/])
    moves bytes between the TCP socket and the stream until both directions have ended, and
    the stream's owner sees to it that the stream terminates exactly once.  [config/tuning.cpp]
    turns the configuration and the machine's size into the relay's limits.

    ** Files and what they model

    - [Prelude]: machine-width integers as [Z] ([u8], [u16], [u32], [u64] are the reductions),
      byte vectors as lists, reads that may leave a buffer ([mem], [rd]), the C++ string
      functions the sources call, decimal printing and parsing, sums over lists, tactics
      ([widths], [dlia], [cases], [to_prop]) and the hint database [tq].
    - [ControlProtocol]: protocol/control_protocol.{h,cpp}.  All eight frames, encoders and
      decoders, with the caller's out object.  C3-C5: frames round trip, are canonical and
      never read outside the buffer; also what a rejected frame leaves behind.
    - [Acl]: acl/.  CIDR parsing and matching, literal and resolved targets.  C9-C11: parsing
      is exact, matching is agreement of prefix bits, what is returned is permitted; also that
      the literal and the resolving path decide alike.
    - [ProxyAuth]: ingress/proxy_auth.{h,cpp}.  C16-C18: Base64 inverts RFC 4648
      whatever white space is spread over the text, HTTP authorization is sound, and complete for
      user names without a colon; also that validated users are unambiguous.
    - [Ingress]: ingress/client_ingress_state, socks5_server, http_connect_server.  C21-C24:
      a client is ready only after a valid negotiation, chunk boundaries do not matter, a
      correct dialogue completes; also that every input gets an answer.
    - [EventQueue]: tunnel/linux_relay_event_queue.h ([Mpmc]) and libuv_relay_event_queue.h
      ([Uv]).  C26-C29: cells are exclusive, no event is lost or delivered twice, refusals
      are justified, no wake-up is lost; also that capacities are powers of two.
    - [RelayBuffer]: tunnel/relay_buffer.{h,cpp}.  C30: the byte budget is exact and kept.
    - [TunnelRegistry]: tunnel/tunnel_registry.{h,cpp}.  C31-C32: one abort per tunnel,
      unregistration is a barrier (but for a context that unregistered from inside its own abort
      call); also that identifiers are unambiguous.
    - [StreamLifetime], [StreamShutdown], [StreamCallbacks]: tunnel/stream_lifetime.{h,cpp} and
      terminal_convergence.{h,cpp}.  C33-C37: the terminal event is published once, each
      shutdown is accepted once and can be retried, a send completion is consumed once and
      delivered on the route it was registered on, detaching a callback target is a barrier; also
      that the connection is escalated once.
    - [Tuning]: config/tuning.{h,cpp}.  C38-C39: the computed profile is a closed form of its
      inputs with every field in its type and the queue's capacity as configured, the pool
      budget is shared down to one send per relay; also that run-time observations only tighten limits.
    - [QuicAddress]: protocol/quic_address.{h,cpp}.  C6, C15, C40: endpoint lists round trip,
      connection slots are shared evenly or the error names the first fault, the server binds what
      it admits, several addresses of one family and port as one wildcard.

    - The libuv relay, both directions and its terminal protocol
      (tunnel/libuv_relay_tcp_to_quic.cpp, libuv_relay_quic_to_tcp.cpp, libuv_relay_terminal.cpp
      and the parts of libuv_relay_worker.cpp that run them), in nine files:
      [UvSend], the sending half's state ([Data]), the byte budget and the ledgers, submission,
      retries and read buffers; [UvReceive], the receiving half's state ([Recv]), the queue of
      receives with its fallback chain, completions, pressure and admission; [UvTerminal], the
      triggers, the handoff of the stream, settling and the release ([Term]); [UvWrite], the
      processing of receives as a machine, writes and their completion; [UvRelay], the sending
      handlers and [run], any history of callbacks, scans, completions and receives;
      [UvHeld], the receiving half's books; [UvFlow], the stream it carries; [UvMachine], that
      the processing stops and leaves something to drive the queue; [UvStream], that every
      action keeps all this, and the properties.
      C1: what goes to MsQuic is what TCP delivered, ended at most once, and in the order of the
      reads when the resume threshold is zero.  C2: what goes to TCP is what MsQuic delivered, in
      order, itself or decompressed.  C7, C8: the counters and both ledgers of each direction are
      what the operations own; the receiving half's pressure also keeps what was lost with a write
      that could not be recorded.  C12: the processing of receives terminates.  C13, C14: queued
      receives and paused reading have something outstanding that drives them on.  C19: the
      terminal begins once, releases once, and a released relay owns nothing in either
      direction.  C20: the receive queue is well formed.  C25: a retry
      queued at a graceful stop is stranded.

    ** How state and effects are represented

    A function of the sources is a Rocq function of the same name, with [option], a sum or
    [mem] for failure and the final value of each out argument in its result.  A loop that is
    not structural has fuel: [S (length value)] for the endpoint list (every turn moves past a
    comma), 63 doublings for a queue capacity, the length of the text for header searches;
    theorems state that the fuel is enough or that the result is a value.  In the libuv relay
    the retry loop has the length of its queue, the loop of [AllocateViews] the number of bytes
    left ([AllocateViews_loop_fuel]), the mutual recursion of the terminal routines three
    levels, after which it returns ([terminal_recursion]), and the processing of receives the
    weight of its queue: the bytes and receives left, the retries left to the first of them and
    the decompression calls left in the budget, which every step lowers (C12).  Components that
    threads share are transition systems: a step is one atomic access ([EventQueue],
    [RelayBuffer]) or one critical section and one call between two of them ([TunnelRegistry],
    the stream files); threads interleave freely, an action of the environment (a callback of
    MsQuic, a spurious failure of a weak exchange, an allocation failure) is an argument of the
    step, and properties are invariants of every reachable state.  Memory orders weaker than
    sequential consistency are not represented.

    Code outside the repository is a parameter: the address functions and stream downcalls of
    MsQuic ([QuicAddrApi], [MsQuicApi]), [inet_pton], [getaddrinfo], [getifaddrs], [sysconf],
    the processor count, clocks and allocators, and for
    the libuv relay what libuv, the compressor and the stream's owner answer.  Where a theorem relies on their documented
    behaviour it is a class of laws or a hypothesis ([QuicAddrLaws], [ntop_not_star]), with an
    instance among the witnesses.

    ** Not modelled

    The Linux, Darwin and Windows relay workers, registration and worker threads of the libuv
    relay, the tunnel set-up of tcp_tunnel.cpp, the connection management of quic_session.cpp, the
    reactors, dialer and resolver, the configuration file reader, the admin server and console,
    tracing, metrics, the speed test, compression (a call into zstd) and platform code.  They
    are listed one by one in the manifest with the reason.  The unit-test hooks of the modelled
    components are left out. *)

From stdpp Require Import base list strings numbers sets.
From Stdlib Require Import ZArith Lia Ascii.

#[global] Open Scope Z_scope.

(** ** Machine-width integers *)

Definition u8 (z : Z) : Z := z mod 256.
Definition u16 (z : Z) : Z := z mod 65536.
Definition u32 (z : Z) : Z := z mod 4294967296.
Definition u64 (z : Z) : Z := z mod 18446744073709551616.

Definition is_u8 (z : Z) : Prop := 0 <= z < 256.
Definition is_u16 (z : Z) : Prop := 0 <= z < 65536.
Definition is_u32 (z : Z) : Prop := 0 <= z < 4294967296.
Definition is_u64 (z : Z) : Prop := 0 <= z < 18446744073709551616.

#[export] Instance is_u8_dec z : Decision (is_u8 z).
Proof. unfold is_u8; apply _. Defined.
#[export] Instance is_u16_dec z : Decision (is_u16 z).
Proof. unfold is_u16; apply _. Defined.
#[export] Instance is_u32_dec z : Decision (is_u32 z).
Proof. unfold is_u32; apply _. Defined.
#[export] Instance is_u64_dec z : Decision (is_u64 z).
Proof. unfold is_u64; apply _. Defined.

(** A [std::vector<uint8_t>] or [std::string]: its bytes. *)
Abbreviation bytes := (list Z).
Definition bytes_ok (l : bytes) : Prop := Forall is_u8 l.

#[export] Instance bytes_ok_dec l : Decision (bytes_ok l).
Proof. unfold bytes_ok; apply _. Defined.

(** The length of a vector as a [size_t]. *)
Definition size (l : bytes) : Z := Z.of_nat (length l).

(** A character or string literal of the sources, as bytes. *)
Definition chr (a : ascii) : Z := Z.of_N (N_of_ascii a).
Fixpoint str (s : string) : bytes :=
  match s with
  | EmptyString => []
  | String a s' => chr a :: str s'
  end.

(** ** Reads that may leave the buffer *)

(** [Oob] is an index outside the buffer, which C++ leaves undefined: a routine that
    never evaluates to [Oob] is memory safe for that input. *)
Inductive mem (A : Type) : Type :=
| Val (a : A)
| Oob.
Arguments Val {A} a.
Arguments Oob {A}.

#[export] Instance mem_ret : MRet mem := fun A a => Val a.
#[export] Instance mem_bind : MBind mem := fun A B k m =>
  match m with Val a => k a | Oob => Oob end.

Definition rd (l : bytes) (i : nat) : mem Z :=
  match l !! i with Some b => Val b | None => Oob end.

(** ** Tactics and automation *)

Create HintDb tq.
Create Rewrite HintDb tq.

#[global] Arguments u8 : simpl never.
#[global] Arguments u16 : simpl never.
#[global] Arguments u32 : simpl never.
#[global] Arguments u64 : simpl never.
#[global] Arguments size : simpl never.
#[global] Arguments Z.lor : simpl never.
#[global] Arguments Z.land : simpl never.
#[global] Arguments Z.shiftl : simpl never.
#[global] Arguments Z.shiftr : simpl never.

(** Unfolds the width predicates and closes the linear goal left. *)
Ltac widths :=
  unfold bytes_ok, is_u8, is_u16, is_u32, is_u64, size in *; lia.

(** [lia] after quotients and remainders by constants are written out as equations. *)
Ltac dlia := Z.to_euclidean_division_equations; lia.

(** Case analysis on every boolean test and [match] of the goal. *)
Ltac cases :=
  repeat (case_match; simplify_eq/=; try done).

(** Case analysis on the tests of the hypotheses too. *)
Ltac cases_in H :=
  repeat match type of H with
         | context [match ?x with _ => _ end] => destruct x eqn:?; simplify_eq/=; try done
         end.

(** Boolean comparisons on [Z] to propositions, in every hypothesis. *)
Ltac to_prop :=
  repeat match goal with
         | H : _ && _ = true |- _ => apply andb_true_iff in H as [? ?]
         | H : _ || _ = false |- _ => apply orb_false_iff in H as [? ?]
         | H : negb _ = true |- _ => apply negb_true_iff in H
         | H : negb _ = false |- _ => apply negb_false_iff in H
         | H : (_ =? _) = true |- _ => apply Z.eqb_eq in H
         | H : (_ =? _) = false |- _ => apply Z.eqb_neq in H
         | H : (_ <? _) = true |- _ => apply Z.ltb_lt in H
         | H : (_ <? _) = false |- _ => apply Z.ltb_ge in H
         | H : (_ <=? _) = true |- _ => apply Z.leb_le in H
         | H : (_ <=? _) = false |- _ => apply Z.leb_gt in H
         end.

(** The same for comparisons on [nat]. *)
Ltac to_prop_nat :=
  to_prop;
  repeat match goal with
         | H : (_ =? _)%nat = true |- _ => apply Nat.eqb_eq in H
         | H : (_ =? _)%nat = false |- _ => apply Nat.eqb_neq in H
         | H : (_ <? _)%nat = true |- _ => apply Nat.ltb_lt in H
         | H : (_ <? _)%nat = false |- _ => apply Nat.ltb_ge in H
         | H : (_ <=? _)%nat = true |- _ => apply Nat.leb_le in H
         | H : (_ <=? _)%nat = false |- _ => apply Nat.leb_gt in H
         | H : bool_decide _ = true |- _ => apply bool_decide_eq_true in H
         | H : bool_decide _ = false |- _ => apply bool_decide_eq_false in H
         end.

(** ** Bits *)

(** Or-ing a value into bits that a left shift cleared is addition. *)
Lemma lor_shiftl_add a b n :
  0 <= n -> 0 <= b < 2 ^ n -> Z.lor (Z.shiftl a n) b = a * 2 ^ n + b.
Proof.
  intros Hn Hb. rewrite <- Z.shiftl_mul_pow2 by lia.
  rewrite Z.add_nocarry_lxor, Z.lxor_lor; [done| |].
  all: apply Z.bits_inj'; intros i Hi; rewrite Z.land_spec, Z.bits_0.
  all: destruct (Z.lt_ge_cases i n);
    [ rewrite Z.shiftl_spec_low by lia; done
    | rewrite <- (Z.mod_small b (2 ^ n)) by lia;
      rewrite Z.mod_pow2_bits_high by lia; apply andb_false_r ].
Qed.

(** The same when the low bits of the left operand are known to be clear. *)
Lemma lor_add a b n :
  0 <= n -> a mod 2 ^ n = 0 -> 0 <= b < 2 ^ n -> Z.lor a b = a + b.
Proof.
  intros Hn Ha Hb.
  replace a with (Z.shiftl (a / 2 ^ n) n) at 1.
  - rewrite lor_shiftl_add by lia. rewrite (Z.div_mod a (2 ^ n)) at 2 by lia. lia.
  - rewrite Z.shiftl_mul_pow2 by lia. rewrite (Z.div_mod a (2 ^ n)) at 2 by lia. lia.
Qed.

Lemma land_255 v : Z.land v 255 = v mod 256.
Proof. change 255 with (Z.ones 8). rewrite Z.land_ones by lia. done. Qed.

Lemma u8_small z : is_u8 z -> u8 z = z.
Proof. unfold is_u8, u8. intros. apply Z.mod_small. lia. Qed.
Lemma u16_small z : is_u16 z -> u16 z = z.
Proof. unfold is_u16, u16. intros. apply Z.mod_small. lia. Qed.
Lemma u32_small z : is_u32 z -> u32 z = z.
Proof. unfold is_u32, u32. intros. apply Z.mod_small. lia. Qed.
Lemma u64_small z : is_u64 z -> u64 z = z.
Proof. unfold is_u64, u64. intros. apply Z.mod_small. lia. Qed.

Lemma u8_range z : is_u8 (u8 z).
Proof. unfold is_u8, u8. apply Z.mod_pos_bound. lia. Qed.
Lemma u16_range z : is_u16 (u16 z).
Proof. unfold is_u16, u16. apply Z.mod_pos_bound. lia. Qed.
Lemma u32_range z : is_u32 (u32 z).
Proof. unfold is_u32, u32. apply Z.mod_pos_bound. lia. Qed.
Lemma u64_range z : is_u64 (u64 z).
Proof. unfold is_u64, u64. apply Z.mod_pos_bound. lia. Qed.

#[export] Hint Resolve u8_range u16_range u32_range u64_range : tq.

(** ** Byte vectors *)

Lemma rd_lt l i : (i < length l)%nat -> exists b, rd l i = Val b /\ l !! i = Some b.
Proof.
  intros Hi. unfold rd. destruct (lookup_lt_is_Some_2 l i Hi) as [b Hb].
  exists b. by rewrite Hb.
Qed.

Lemma rd_app_l l k i : (i < length l)%nat -> rd (l ++ k) i = rd l i.
Proof. intros. unfold rd. by rewrite lookup_app_l. Qed.

Lemma rd_app_at l k i : i = length l -> rd (l ++ k) i = rd k 0.
Proof. intros ->. unfold rd. rewrite lookup_app_r by lia. by rewrite Nat.sub_diag. Qed.

Lemma bytes_ok_app l k : bytes_ok (l ++ k) <-> bytes_ok l /\ bytes_ok k.
Proof. apply Forall_app. Qed.

Lemma bytes_ok_lookup l i b : bytes_ok l -> l !! i = Some b -> is_u8 b.
Proof. intros Hl Hi. by eapply Forall_lookup_1 in Hl. Qed.

Lemma size_nonneg l : 0 <= size l.
Proof. unfold size. lia. Qed.

Lemma size_app l k : size (l ++ k) = size l + size k.
Proof. unfold size. rewrite length_app. lia. Qed.

#[export] Hint Rewrite size_app : tq.
#[export] Hint Resolve size_nonneg : tq.

Lemma chr_range a : is_u8 (chr a).
Proof. unfold chr, is_u8. pose proof (N_ascii_bounded a). lia. Qed.

Lemma str_ok s : bytes_ok (str s).
Proof. induction s; simpl; constructor; auto using chr_range. Qed.

#[export] Hint Resolve chr_range str_ok : tq.

(** ** C and C++ strings *)

(** [s.c_str()] as a C function reads it: up to the first NUL. *)
Fixpoint c_str (s : bytes) : bytes :=
  match s with
  | [] => []
  | b :: s' => if b =? 0 then [] else b :: c_str s'
  end.

(** [s.find(ch, pos)]: the first index at or after [pos] that holds [ch]. *)
Fixpoint find_char_from (s : bytes) (ch : Z) (i : nat) : option nat :=
  match s with
  | [] => None
  | b :: s' => if b =? ch then Some i else find_char_from s' ch (S i)
  end.
Definition find_char (s : bytes) (ch : Z) (pos : nat) : option nat :=
  find_char_from (drop pos s) ch pos.

(** [s.substr(pos, len)] for [pos <= s.size()]. *)
Definition substr (s : bytes) (pos len : nat) : bytes := take len (drop pos s).
Definition substr_from (s : bytes) (pos : nat) : bytes := drop pos s.

(** [std::isdigit] in the C locale. *)
Definition isdigit (c : Z) : bool := (48 <=? c) && (c <=? 57).

(** The number a string of decimal digits denotes. *)
Definition dec_value (s : bytes) : Z := fold_left (fun v c => v * 10 + (c - 48)) s 0.

(** The loop the sources write for decimal fields: stop at a character that is no digit and
    as soon as the value passes [max]. *)
Fixpoint dec_loop (max : Z) (s : bytes) (value : Z) : option Z :=
  match s with
  | [] => Some value
  | c :: s' =>
      if negb (isdigit c) then None
      else
        let value := value * 10 + (c - 48) in
        if max <? value then None else dec_loop max s' value
  end.

Lemma fold_dec_ge s v :
  forallb isdigit s = true -> 0 <= v -> v <= fold_left (fun v c => v * 10 + (c - 48)) s v.
Proof.
  revert v. induction s as [|c s IH]; simpl; intros v Hs Hv; [lia|].
  unfold isdigit in Hs. to_prop. etransitivity; [|apply IH; [done|lia]]. lia.
Qed.

(** The early exit never loses a value: the loop computes the denotation of the digits,
    or stops exactly when it is above [max]. *)
Lemma dec_loop_spec max s v :
  0 <= v <= max ->
  dec_loop max s v =
    (let r := fold_left (fun v c => v * 10 + (c - 48)) s v in
     if forallb isdigit s && (r <=? max) then Some r else None).
Proof.
  revert v. induction s as [|c s IH]; intros v Hv; simpl.
  - by rewrite (proj2 (Z.leb_le v max)) by lia.
  - destruct (isdigit c) eqn:Hc; simpl; [|done].
    assert (0 <= v * 10 + (c - 48)) by (unfold isdigit in Hc; to_prop; lia).
    destruct (Z.ltb_spec max (v * 10 + (c - 48))).
    + destruct (forallb isdigit s) eqn:Hs; simpl; [|done].
      pose proof (fold_dec_ge s (v * 10 + (c - 48)) Hs). by rewrite (proj2 (Z.leb_gt _ _)) by lia.
    + by rewrite IH by lia.
Qed.

Lemma find_char_from_spec s ch i :
  match find_char_from s ch i with
  | Some j => (i <= j < i + length s)%nat /\ s !! (j - i)%nat = Some ch /\
              ch ∉ take (j - i) s
  | None => ch ∉ s
  end.
Proof.
  revert i. induction s as [|b s IH]; intros i; simpl; [set_solver|].
  destruct (Z.eqb_spec b ch) as [->|Hne].
  - rewrite Nat.sub_diag. simpl. split_and!; [lia|lia|done|set_solver].
  - specialize (IH (S i)). destruct (find_char_from s ch (S i)) as [j|].
    + destruct IH as (H1 & H2 & H3). replace (j - i)%nat with (S (j - S i)) by lia. simpl.
      split_and!; [lia|lia|done|set_solver].
    + set_solver.
Qed.

(** [find(ch)] splits the string at the first occurrence. *)
Lemma find_char_0 s ch j :
  find_char s ch 0 = Some j ->
  s = substr s 0 j ++ (ch :: substr_from s (S j)) /\ ch ∉ substr s 0 j /\ (j < length s)%nat.
Proof.
  unfold find_char, substr, substr_from. rewrite drop_0. intros Hj.
  pose proof (find_char_from_spec s ch 0) as H. rewrite Hj in H.
  destruct H as (H1 & H2 & H3). rewrite Nat.sub_0_r in *. split_and!; [|done|lia].
  symmetry. by apply take_drop_middle.
Qed.

Lemma find_char_app p ch q : ch ∉ p -> find_char (p ++ (ch :: q)) ch 0 = Some (length p).
Proof.
  unfold find_char. rewrite drop_0. change (length p) with (0 + length p)%nat.
  generalize 0%nat. induction p as [|b p IH]; intros i Hp; simpl.
  - rewrite Z.eqb_refl. f_equal. lia.
  - rewrite (proj2 (Z.eqb_neq b ch)) by set_solver. rewrite IH by set_solver. f_equal. lia.
Qed.

(** [s.find(pat, pos)] for a string pattern: the first index at or after [pos] where [pat]
    starts. *)
Fixpoint starts_with (pat s : bytes) : bool :=
  match pat, s with
  | [], _ => true
  | p :: pat', b :: s' => (p =? b) && starts_with pat' s'
  | _ :: _, [] => false
  end.
Fixpoint find_str_from (pat s : bytes) (i : nat) : option nat :=
  if starts_with pat s then Some i
  else match s with
       | [] => None
       | _ :: s' => find_str_from pat s' (S i)
       end.
Definition find_str (s pat : bytes) (pos : nat) : option nat :=
  find_str_from pat (drop pos s) pos.

(** [std::tolower] in the C locale. *)
Definition tolower (c : Z) : Z := if (65 <=? c) && (c <=? 90) then c + 32 else c.

Lemma starts_with_spec pat s : starts_with pat s = true <-> exists rest, s = pat ++ rest.
Proof.
  revert s. induction pat as [|p pat IH]; intros s; simpl.
  { split; [eauto|done]. }
  destruct s as [|b s]; simpl; [naive_solver|].
  rewrite andb_true_iff, Z.eqb_eq, IH. naive_solver.
Qed.

Lemma find_str_from_spec pat s i j :
  find_str_from pat s i = Some j ->
  (i <= j <= i + length s)%nat /\ exists rest, s = take (j - i) s ++ pat ++ rest.
Proof.
  revert i. induction s as [|b s IH]; intros i; simpl.
  - destruct (starts_with pat []) eqn:Hs; [|done]. intros [= <-]. split; [lia|].
    rewrite Nat.sub_diag. by apply starts_with_spec in Hs.
  - destruct (starts_with pat (b :: s)) eqn:Hs.
    + intros [= <-]. split; [lia|]. rewrite Nat.sub_diag. by apply starts_with_spec in Hs.
    + intros [Hij (rest & Hr)]%IH. split; [lia|]. exists rest.
      replace (j - i)%nat with (S (j - S i)) by lia. simpl. by rewrite <- Hr.
Qed.

(** The result of a search is a position at which the pattern lies inside the string. *)
Lemma find_str_0 s pat j :
  find_str s pat 0 = Some j ->
  exists rest, s = take j s ++ pat ++ rest /\ (j + length pat <= length s)%nat.
Proof.
  unfold find_str. rewrite drop_0. intros [Hj (rest & Hr)]%find_str_from_spec.
  rewrite Nat.sub_0_r in Hr. exists rest. split; [done|].
  apply (f_equal length) in Hr. rewrite !length_app, length_take in Hr. lia.
Qed.

(** A pattern whose first byte does not occur in [l] cannot start inside [l]. *)
Lemma find_str_from_skip p pat l s i :
  p ∉ l -> find_str_from (p :: pat) (l ++ s) i = find_str_from (p :: pat) s (i + length l).
Proof.
  revert i. induction l as [|b l IH]; intros i Hl; [by rewrite Nat.add_0_r|].
  cbn [app find_str_from starts_with]. rewrite (proj2 (Z.eqb_neq p b)) by set_solver.
  simpl. rewrite IH by set_solver. f_equal. lia.
Qed.

Lemma find_str_from_hit pat s i : find_str_from pat (pat ++ s) i = Some i.
Proof.
  assert (H : starts_with pat (pat ++ s) = true) by (apply starts_with_spec; eauto).
  destruct (pat ++ s); simpl; by rewrite H.
Qed.

(** [s.rfind(ch)]: the last index that holds [ch]. *)
Fixpoint rfind_char (s : bytes) (ch : Z) : option nat :=
  match s with
  | [] => None
  | b :: s' =>
      match rfind_char s' ch with
      | Some i => Some (S i)
      | None => if b =? ch then Some 0%nat else None
      end
  end.

(** [n] bytes from index [i]; [Oob] when they are not all there. *)
Definition rd_range (l : bytes) (i n : nat) : mem bytes :=
  if (i + n <=? length l)%nat then Val (take n (drop i l)) else Oob.

(** [std::to_string] of an unsigned integer of at most [fuel] digits. *)
Fixpoint dec_digits (fuel : nat) (n : Z) (acc : bytes) : bytes :=
  match fuel with
  | O => acc
  | S fuel' => if n <? 10 then (48 + n) :: acc
               else dec_digits fuel' (n / 10) ((48 + n mod 10) :: acc)
  end.
Definition to_string (n : Z) : bytes := dec_digits 20 n [].

Lemma rfind_char_none s ch : rfind_char s ch = None <-> ch ∉ s.
Proof.
  induction s as [|b s IH]; simpl; [set_solver|].
  destruct (rfind_char s ch) as [i|].
  - split; [done|]. intros H. assert (ch ∉ s) by set_solver. by apply IH in H0.
  - destruct (Z.eqb_spec b ch); set_solver.
Qed.

Lemma rfind_char_app p ch q : ch ∉ q -> rfind_char (p ++ (ch :: q)) ch = Some (length p).
Proof.
  intros Hq. induction p as [|b p IH]; simpl.
  - rewrite (proj2 (rfind_char_none q ch)) by done. by rewrite Z.eqb_refl.
  - by rewrite IH.
Qed.

Lemma dec_digits_spec fuel n acc :
  0 <= n < 10 ^ Z.of_nat fuel -> (0 < fuel)%nat ->
  forallb isdigit acc = true ->
  forallb isdigit (dec_digits fuel n acc) = true /\ dec_digits fuel n acc <> [] /\
  dec_value (dec_digits fuel n acc) = fold_left (fun v c => v * 10 + (c - 48)) acc n.
Proof.
  assert (Hd : forall k, 0 <= k < 10 -> isdigit (48 + k) = true).
  { intros k Hk. unfold isdigit. rewrite !(proj2 (Z.leb_le _ _)) by lia. done. }
  revert n acc. induction fuel as [|fuel IH]; intros n acc Hn Hf Hacc; [lia|]. simpl.
  destruct (Z.ltb_spec n 10).
  - split_and!; [|done|]; simpl.
    + by rewrite Hd by lia.
    + unfold dec_value. simpl. f_equal. lia.
  - destruct (decide (fuel = 0%nat)) as [->|]; [simpl in Hn; lia|].
    destruct (IH (n / 10) ((48 + n mod 10) :: acc)) as (H1 & H2 & H3).
    + rewrite Nat2Z.inj_succ, Z.pow_succ_r in Hn by lia. dlia.
    + lia.
    + simpl. rewrite Hd; [done|]. dlia.
    + split_and!; [done..|]. rewrite H3. simpl. f_equal. dlia.
Qed.

(** Printing a number and reading it back. *)
Lemma dec_value_to_string n :
  is_u64 n -> forallb isdigit (to_string n) = true /\ to_string n <> [] /\
              dec_value (to_string n) = n.
Proof.
  unfold is_u64. intros Hn. unfold to_string.
  destruct (dec_digits_spec 20 n []) as (H1 & H2 & H3); [lia|lia|done|].
  split_and!; [done..|]. by rewrite H3.
Qed.

Lemma isdigit_not ch s : forallb isdigit s = true -> isdigit ch = false -> ch ∉ s.
Proof.
  intros Hs Hch Hin. rewrite forallb_forall in Hs. apply list_elem_of_In in Hin.
  apply Hs in Hin. congruence.
Qed.

(** Printing and reading a decimal number back. *)
Lemma dec_loop_to_string max n :
  is_u64 n -> n <= max -> to_string n <> [] /\ dec_loop max (to_string n) 0 = Some n.
Proof.
  intros Hn Hm. destruct (dec_value_to_string n Hn) as (Hd & Hne & Hv). split; [done|].
  rewrite dec_loop_spec by widths. unfold dec_value in Hv. cbv zeta. rewrite Hd, Hv.
  by rewrite (proj2 (Z.leb_le _ _)) by lia.
Qed.

Lemma to_string_free n ch : is_u64 n -> isdigit ch = false -> ch ∉ to_string n.
Proof. intros Hn Hch. apply isdigit_not; [|done]. by apply dec_value_to_string. Qed.

Lemma to_string_inj n k : is_u64 n -> is_u64 k -> to_string n = to_string k -> n = k.
Proof.
  intros Hn Hk He. destruct (dec_value_to_string n Hn) as (_ & _ & <-).
  destruct (dec_value_to_string k Hk) as (_ & _ & <-). by rewrite He.
Qed.

(** ** Memory safety *)

(** The computation ends with a value. *)
Definition safe {A} (m : mem A) : Prop := exists a, m = Val a.

Lemma safe_val {A} (a : A) : safe (Val a).
Proof. by exists a. Qed.

Lemma safe_bind {A B} (m : mem A) (k : A -> mem B) :
  safe m -> (forall a, m = Val a -> safe (k a)) -> safe (m ≫= k).
Proof. intros [a ->] Hk. by apply Hk. Qed.

Lemma safe_rd l i : (i < length l)%nat -> safe (rd l i).
Proof. intros (b & Hb & _)%rd_lt. by exists b. Qed.

Lemma safe_rd_range l i n : (i + n <= length l)%nat -> safe (rd_range l i n).
Proof. intros H. unfold rd_range. rewrite (proj2 (Nat.leb_le _ _)) by lia. apply safe_val. Qed.

#[export] Hint Resolve safe_val : tq.

Lemma rd_val l i b : rd l i = Val b <-> l !! i = Some b.
Proof. unfold rd. destruct (l !! i); naive_solver. Qed.

Lemma rd_val_u8 l i b : bytes_ok l -> rd l i = Val b -> is_u8 b.
Proof. rewrite rd_val. apply bytes_ok_lookup. Qed.

(** A read that succeeds is not changed by what follows in the buffer. *)
Lemma rd_val_app l k i b : rd l i = Val b -> rd (l ++ k) i = Val b.
Proof. rewrite !rd_val. apply lookup_app_l_Some. Qed.

Lemma rd_range_val l i n r :
  rd_range l i n = Val r <-> (i + n <= length l)%nat /\ r = take n (drop i l).
Proof.
  unfold rd_range. destruct (Nat.leb_spec (i + n) (length l)); [naive_solver|].
  split; [done|]. lia.
Qed.

Lemma rd_range_val_app l k i n r : rd_range l i n = Val r -> rd_range (l ++ k) i n = Val r.
Proof.
  rewrite !rd_range_val. intros [Hl ->]. rewrite length_app. split; [lia|].
  rewrite drop_app_le by lia. rewrite take_app_le; [done|]. rewrite length_drop. lia.
Qed.

Lemma bytes_ok_take n l : bytes_ok l -> bytes_ok (take n l).
Proof. apply Forall_take. Qed.
Lemma bytes_ok_drop n l : bytes_ok l -> bytes_ok (drop n l).
Proof. apply Forall_drop. Qed.
#[export] Hint Resolve bytes_ok_take bytes_ok_drop : tq.

Lemma size_lt_app l k n : (size l <? n) = false -> (size (l ++ k) <? n) = false.
Proof. rewrite size_app, !Z.ltb_ge. pose proof (size_nonneg k). lia. Qed.

(** ** More on searches *)

Lemma starts_with_app pat s k : starts_with pat s = true -> starts_with pat (s ++ k) = true.
Proof. rewrite !starts_with_spec. intros [r ->]. exists (r ++ k). by rewrite app_assoc. Qed.

Lemma starts_with_app_long pat s k :
  (length pat <= length s)%nat -> starts_with pat (s ++ k) = starts_with pat s.
Proof.
  revert s. induction pat as [|p pat IH]; intros [|b s] Hl; simpl in *; try done; try lia.
  by rewrite IH by lia.
Qed.

(** The first occurrence does not move when the string grows. *)
Lemma find_str_from_app pat s k i j :
  find_str_from pat s i = Some j -> find_str_from pat (s ++ k) i = Some j.
Proof.
  revert i. induction s as [|b s IH]; intros i Hs.
  - simpl in Hs. destruct (starts_with pat []) eqn:Hp; [|done].
    destruct pat; [|done]. simplify_eq. by destruct k.
  - pose proof (find_str_from_spec _ _ _ _ Hs) as [_ (rest & Hr)].
    assert (Hl : (length pat <= length (b :: s))%nat).
    { rewrite Hr, !length_app. lia. }
    cbn [app find_str_from] in *.
    change (b :: s ++ k) with ((b :: s) ++ k). rewrite starts_with_app_long by done.
    destruct (starts_with pat (b :: s)); [done|]. by apply IH.
Qed.

Lemma find_str_app s k pat j : find_str s pat 0 = Some j -> find_str (s ++ k) pat 0 = Some j.
Proof. unfold find_str. rewrite !drop_0. apply find_str_from_app. Qed.

Lemma find_str_from_none pat s i l r :
  find_str_from pat s i = None -> s = l ++ pat ++ r -> False.
Proof.
  revert i l. induction s as [|b s IH]; intros i l; simpl.
  - destruct (starts_with pat []) eqn:Hp; [done|]. intros _ H. symmetry in H.
    apply app_eq_nil in H as [-> H]. apply app_eq_nil in H as [-> _]. done.
  - destruct (starts_with pat (b :: s)) eqn:Hp; [done|]. intros Hn Heq.
    destruct l as [|c l].
    + assert (starts_with pat (b :: s) = true) by (apply starts_with_spec; eauto). congruence.
    + injection Heq as _ Heq. exact (IH _ _ Hn Heq).
Qed.

(** A pattern found only after the string has grown ends in the new part. *)
Lemma find_str_new s k pat j :
  find_str s pat 0 = None -> find_str (s ++ k) pat 0 = Some j ->
  (length s < j + length pat)%nat.
Proof.
  intros Hn (rest & Hr & Hl)%find_str_0. destruct (Nat.lt_ge_cases (length s) (j + length pat)); [done|].
  exfalso. unfold find_str in Hn. rewrite drop_0 in Hn.
  eapply (find_str_from_none _ _ _ (take j s) (drop (j + length pat) s)); [exact Hn|].
  rewrite take_app_le in Hr by lia.
  apply (f_equal (take (length s))) in Hr. rewrite take_app_length in Hr.
  rewrite take_app_ge, take_app_ge in Hr by (rewrite ?length_take; lia).
  rewrite length_take, Nat.min_l in Hr by lia.
  rewrite Hr at 1. do 2 f_equal. apply (f_equal (drop (j + length pat))) in Hr.
  rewrite app_assoc, drop_app_ge in Hr by (rewrite length_app, length_take; lia).
  rewrite length_app, length_take, Nat.min_l, Nat.sub_diag, drop_0 in Hr by lia. done.
Qed.

Lemma find_char_from_app p ch q i :
  ch ∉ p -> find_char_from (p ++ (ch :: q)) ch i = Some (i + length p)%nat.
Proof.
  revert i. induction p as [|b p IH]; intros i Hp; simpl.
  - rewrite Z.eqb_refl. f_equal. lia.
  - rewrite (proj2 (Z.eqb_neq b ch)) by set_solver. rewrite IH by set_solver. f_equal. lia.
Qed.

Lemma find_char_from_none p ch i : ch ∉ p -> find_char_from p ch i = None.
Proof.
  intros Hp. pose proof (find_char_from_spec p ch i) as H.
  destruct (find_char_from p ch i) as [j|]; [|done]. destruct H as (_ & Hj & _).
  by apply list_elem_of_lookup_2 in Hj.
Qed.

Lemma find_str_absent s p pat : p ∉ s -> find_str s (p :: pat) 0 = None.
Proof.
  intros Hs. unfold find_str. rewrite drop_0. pose proof (find_str_from_skip p pat s [] 0 Hs) as H.
  rewrite app_nil_r in H. by rewrite H.
Qed.

Lemma rd_cons b l i : rd (b :: l) (S i) = rd l i.
Proof. done. Qed.

(** ** Counting over lists *)

(** The number of times [f] counts over a list. *)
Definition total {A} (f : A -> nat) (l : list A) : nat := sum_list_with f l.

Lemma total_insert {A} (f : A -> nat) (l : list A) t x y :
  l !! t = Some x -> (total f (<[t := y]> l) + f x = total f l + f y)%nat.
Proof.
  revert t; induction l as [|z l IH]; intros [|t] Hl; try discriminate.
  - injection Hl as ->. unfold total; simpl. lia.
  - simpl in Hl. unfold total in *; simpl. specialize (IH t Hl). lia.
Qed.

Lemma total_le {A} (f : A -> nat) (l : list A) t x :
  l !! t = Some x -> (f x <= total f l)%nat.
Proof.
  revert t; induction l as [|z l IH]; intros [|t] Hl; try discriminate; unfold total in *; simpl.
  - injection Hl as ->. lia.
  - specialize (IH t Hl). lia.
Qed.

Lemma total_zero {A} (f : A -> nat) (l : list A) :
  (forall x, x ∈ l -> f x = 0%nat) -> total f l = 0%nat.
Proof.
  induction l as [|z l IH]; intros Hz; [done|]. unfold total in *; simpl.
  rewrite (Hz z) by (left). apply IH. intros x Hx. apply Hz. by right.
Qed.

Lemma total_app {A} (f : A -> nat) (l k : list A) : total f (l ++ k) = (total f l + total f k)%nat.
Proof. unfold total. induction l; simpl; lia. Qed.

Lemma total_perm {A} (f : A -> nat) (l k : list A) : l ≡ₚ k -> total f l = total f k.
Proof. unfold total. induction 1; simpl; lia. Qed.
