(* ===== verification/ControlProtocol.v ===== *)
(** The control protocol (src/src/protocol/control_protocol.h and .cpp): the frames that
    open a tunnel, announce a client and drive a speed test.  A decoder takes the buffer
    ([None] is a null pointer) and the caller's [out] object, and returns the boolean with
    the [out] it leaves behind; an index outside the buffer is [Oob]. *)

From stdpp Require Import base list strings numbers.
From Stdlib Require Import ZArith Lia.
From S2P Require Import Prelude.

(** ** Constants *)

Definition TQ_MAGIC_0 : Z := 0x54.
Definition TQ_MAGIC_1 : Z := 0x51.
Definition TQ_VERSION : Z := 0x01.
Definition TQ_CMD_OPEN : Z := 0x01.
Definition TQ_CMD_OPEN_OK : Z := 0x02.
Definition TQ_CMD_OPEN_FAIL : Z := 0x03.
Definition TQ_CMD_SPEED_START : Z := 0x10.
Definition TQ_CMD_SPEED_READY : Z := 0x11.
Definition TQ_CMD_SPEED_FINISH : Z := 0x12.
Definition TQ_CMD_SPEED_RESULT : Z := 0x13.
Definition TQ_CMD_SPEED_ERROR : Z := 0x14.
Definition TQ_CMD_CLIENT_HELLO : Z := 0x20.

Definition TQ_ADDR_IPV4 : Z := 0x01.
Definition TQ_ADDR_IPV6 : Z := 0x02.
Definition TQ_ADDR_DOMAIN : Z := 0x03.

Definition TQ_FLAG_COMPRESS : Z := 0x01.
Definition TQ_FLAG_DNS_REMOTE : Z := 0x04.

Definition TQ_OPEN_RESPONSE_SIZE : Z := 9.
Definition TQ_SPEED_START_SIZE : Z := 16.
Definition TQ_SPEED_READY_MIN_SIZE : Z := 13.
Definition TQ_SPEED_FINISH_SIZE : Z := 24.
Definition TQ_SPEED_RESULT_SIZE : Z := 33.
Definition TQ_SPEED_ERROR_MIN_SIZE : Z := 11.
Definition TQ_SPEED_ERROR_MAX_MESSAGE_LEN : Z := 1024.
Definition TQ_CLIENT_HELLO_MIN_SIZE : Z := 6.
Definition TQ_CLIENT_HELLO_MAX_NAME_LEN : Z := 64.

(** An [enum class : uint8_t] holds every byte a [static_cast] puts in it, so the enums are
    their underlying byte with a constant per enumerator. *)
Definition TqSpeedDirection_Download : Z := 1.
Definition TqSpeedDirection_Upload : Z := 2.
Definition TqSpeedError_Ok : Z := 0x00.

Definition TqOpenError_Ok : Z := 0x00.
Definition TqOpenError_AclDenied : Z := 0x01.
Definition TqOpenError_DnsFailed : Z := 0x02.
Definition TqOpenError_TcpTimeout : Z := 0x03.
Definition TqOpenError_TcpRefused : Z := 0x04.
Definition TqOpenError_Internal : Z := 0x05.

(** ** Messages *)

Record TqOpenRequest := {
  or_Flags : Z; or_AddrType : Z; or_Port : Z; or_Addr : bytes }.

Record TqOpenResponse := { os_Ok : bool; os_Error : Z; os_ConnId : Z }.

Record TqSpeedStart := {
  ss_SessionId : Z; ss_Direction : Z; ss_DurationSec : Z; ss_Parallel : Z; ss_Flags : Z }.

Record TqSpeedReady := {
  sr_SessionId : Z; sr_AddrType : Z; sr_Port : Z; sr_Addr : bytes }.

Record TqSpeedFinish := {
  sf_SessionId : Z; sf_ClientBytes : Z; sf_ClientElapsedUs : Z }.

Record TqSpeedResult := {
  st_SessionId : Z; st_ServerBytes : Z; st_ServerElapsedUs : Z;
  st_AcceptedConnections : Z; st_ClosedConnections : Z; st_Status : Z }.

Record TqSpeedErrorMessage := { se_SessionId : Z; se_Error : Z; se_Message : bytes }.

Record TqClientHello := { ch_ClientName : bytes }.

(** ** Big-endian integers *)

Definition WriteU16BE (out : bytes) (v : Z) : bytes :=
  out ++ [u8 (Z.shiftr v 8); u8 (Z.land v 0xFF)].

Definition WriteU32BE (out : bytes) (v : Z) : bytes :=
  out ++ [u8 (Z.shiftr v 24); u8 (Z.land (Z.shiftr v 16) 0xFF);
          u8 (Z.land (Z.shiftr v 8) 0xFF); u8 (Z.land v 0xFF)].

Definition WriteU64BE (out : bytes) (v : Z) : bytes :=
  out ++ [u8 (Z.shiftr v 56); u8 (Z.land (Z.shiftr v 48) 0xFF);
          u8 (Z.land (Z.shiftr v 40) 0xFF); u8 (Z.land (Z.shiftr v 32) 0xFF);
          u8 (Z.land (Z.shiftr v 24) 0xFF); u8 (Z.land (Z.shiftr v 16) 0xFF);
          u8 (Z.land (Z.shiftr v 8) 0xFF); u8 (Z.land v 0xFF)].

Definition ReadU16BE (p : bytes) (o : nat) : mem Z :=
  p0 ← rd p o; p1 ← rd p (o + 1);
  mret (u16 (Z.lor (Z.shiftl p0 8) p1)).

Definition ReadU32BE (p : bytes) (o : nat) : mem Z :=
  p0 ← rd p o; p1 ← rd p (o + 1); p2 ← rd p (o + 2); p3 ← rd p (o + 3);
  mret (Z.lor (Z.lor (Z.lor (u32 (Z.shiftl p0 24)) (u32 (Z.shiftl p1 16)))
                (u32 (Z.shiftl p2 8))) p3).

Definition ReadU64BE (p : bytes) (o : nat) : mem Z :=
  p0 ← rd p o; p1 ← rd p (o + 1); p2 ← rd p (o + 2); p3 ← rd p (o + 3);
  p4 ← rd p (o + 4); p5 ← rd p (o + 5); p6 ← rd p (o + 6); p7 ← rd p (o + 7);
  mret (Z.lor (Z.lor (Z.lor (Z.lor (Z.lor (Z.lor (Z.lor
          (u64 (Z.shiftl p0 56)) (u64 (Z.shiftl p1 48))) (u64 (Z.shiftl p2 40)))
          (u64 (Z.shiftl p3 32))) (u64 (Z.shiftl p4 24))) (u64 (Z.shiftl p5 16)))
          (u64 (Z.shiftl p6 8))) p7).

(** ** Validation *)

Definition IsValidSpeedDirection (v : Z) : bool :=
  (v =? TqSpeedDirection_Download) || (v =? TqSpeedDirection_Upload).

Definition IsValidSpeedErrorFrameCode (v : Z) : bool := negb (v =? TqSpeedError_Ok).

Definition ValidateAddr (req : TqOpenRequest) : bool :=
  if or_AddrType req =? TQ_ADDR_IPV4 then size (or_Addr req) =? 4
  else if or_AddrType req =? TQ_ADDR_IPV6 then size (or_Addr req) =? 16
  else if or_AddrType req =? TQ_ADDR_DOMAIN then
    if (size (or_Addr req) =? 0) || (255 <? size (or_Addr req)) then false
    else negb (Z.land (or_Flags req) TQ_FLAG_DNS_REMOTE =? 0)
  else false.

Definition ValidateSpeedStart (msg : TqSpeedStart) : bool :=
  IsValidSpeedDirection (ss_Direction msg) &&
  (1 <=? ss_DurationSec msg) && (ss_DurationSec msg <=? 86400) &&
  (1 <=? ss_Parallel msg) && (ss_Parallel msg <=? 128) &&
  (ss_Flags msg =? 0).

Definition ValidateSpeedReady (msg : TqSpeedReady) : bool :=
  if sr_AddrType msg =? TQ_ADDR_IPV4 then size (sr_Addr msg) =? 4
  else if sr_AddrType msg =? TQ_ADDR_IPV6 then size (sr_Addr msg) =? 16
  else false.

Definition ValidateSpeedError (msg : TqSpeedErrorMessage) : bool :=
  IsValidSpeedErrorFrameCode (se_Error msg) &&
  (size (se_Message msg) <=? TQ_SPEED_ERROR_MAX_MESSAGE_LEN).

Definition client_name_char_ok (ch : Z) : bool :=
  ((65 <=? ch) && (ch <=? 90)) || ((97 <=? ch) && (ch <=? 122)) ||
  ((48 <=? ch) && (ch <=? 57)) ||
  (ch =? 46) || (ch =? 95) || (ch =? 45) || (ch =? 58).

Definition TqIsValidClientName (name : bytes) : bool :=
  if (size name =? 0) || (TQ_CLIENT_HELLO_MAX_NAME_LEN <? size name) then false
  else forallb client_name_char_ok name.

(** ** Frames *)

(** [data == nullptr || len < min]. *)
Definition null_or_shorter (data : option bytes) (min : Z) : bool :=
  match data with None => true | Some d => size d <? min end.

Definition null_or_not_len (data : option bytes) (len : Z) : bool :=
  match data with None => true | Some d => negb (size d =? len) end.

Definition frame (data : option bytes) : bytes :=
  match data with Some d => d | None => [] end.

(** [out.assign(data + o, data + o + n)]; [Oob] when the range leaves the buffer. *)
Definition assign (data : bytes) (o : nat) (n : Z) : mem bytes := rd_range data o (Z.to_nat n).

Definition TqEncodeOpenRequest (req : TqOpenRequest) (out : bytes) : bool * bytes :=
  if negb (ValidateAddr req) then (false, out)
  else
    let out := [TQ_MAGIC_0; TQ_MAGIC_1; TQ_VERSION; TQ_CMD_OPEN; or_Flags req; or_AddrType req] in
    let out := WriteU16BE out (or_Port req) in
    let out := WriteU16BE out (u16 (size (or_Addr req))) in
    (true, out ++ or_Addr req ++ [0]).

Definition TqDecodeOpenRequest (data : option bytes) (out : TqOpenRequest)
    : mem (bool * TqOpenRequest) :=
  if null_or_shorter data 11 then mret (false, out)
  else
    let d := frame data in
    d0 ← rd d 0; d1 ← rd d 1;
    if negb (d0 =? TQ_MAGIC_0) || negb (d1 =? TQ_MAGIC_1) then mret (false, out)
    else d2 ← rd d 2;
    if negb (d2 =? TQ_VERSION) then mret (false, out)
    else d3 ← rd d 3;
    if negb (d3 =? TQ_CMD_OPEN) then mret (false, out)
    else addrLen ← ReadU16BE d 8;
    if negb (size d =? 11 + addrLen) then mret (false, out)
    else d4 ← rd d 4; d5 ← rd d 5; port ← ReadU16BE d 6;
    addr ← assign d 10 addrLen;
    let out := {| or_Flags := d4; or_AddrType := d5; or_Port := port; or_Addr := addr |} in
    auth ← rd d (10 + Z.to_nat addrLen);
    if negb (auth =? 0) then mret (false, out)
    else mret (ValidateAddr out, out).

Definition TqEncodeOpenResponse (resp : TqOpenResponse) (out : bytes) : bool * bytes :=
  if (if os_Ok resp then negb (os_Error resp =? TqOpenError_Ok)
      else os_Error resp =? TqOpenError_Ok)
  then (false, out)
  else
    let out := [TQ_MAGIC_0; TQ_MAGIC_1; TQ_VERSION;
                if os_Ok resp then TQ_CMD_OPEN_OK else TQ_CMD_OPEN_FAIL;
                if os_Ok resp then TqOpenError_Ok else os_Error resp] in
    let out := WriteU32BE out (os_ConnId resp) in
    (size out =? TQ_OPEN_RESPONSE_SIZE, out).

Definition TqDecodeOpenResponse (data : option bytes) (out : TqOpenResponse)
    : mem (bool * TqOpenResponse) :=
  if null_or_not_len data TQ_OPEN_RESPONSE_SIZE then mret (false, out)
  else
    let d := frame data in
    d0 ← rd d 0; d1 ← rd d 1;
    if negb (d0 =? TQ_MAGIC_0) || negb (d1 =? TQ_MAGIC_1) then mret (false, out)
    else d2 ← rd d 2;
    if negb (d2 =? TQ_VERSION) then mret (false, out)
    else cmd ← rd d 3;
    if (cmd =? TQ_CMD_OPEN_OK) || (cmd =? TQ_CMD_OPEN_FAIL) then
      let ok := cmd =? TQ_CMD_OPEN_OK in
      errorCode ← rd d 4; connId ← ReadU32BE d 5;
      let out := {| os_Ok := ok; os_Error := errorCode; os_ConnId := connId |} in
      mret (if ok then errorCode =? TqOpenError_Ok else negb (errorCode =? TqOpenError_Ok), out)
    else mret (false, out).

Definition TqEncodeClientHello (msg : TqClientHello) (out : bytes) : bool * bytes :=
  if negb (TqIsValidClientName (ch_ClientName msg)) then (false, out)
  else
    let out := [TQ_MAGIC_0; TQ_MAGIC_1; TQ_VERSION; TQ_CMD_CLIENT_HELLO] in
    let out := WriteU16BE out (u16 (size (ch_ClientName msg))) in
    let out := out ++ ch_ClientName msg in
    (size out =? TQ_CLIENT_HELLO_MIN_SIZE + size (ch_ClientName msg), out).

Definition TqDecodeClientHello (data : option bytes) (out : TqClientHello)
    : mem (bool * TqClientHello) :=
  if null_or_shorter data TQ_CLIENT_HELLO_MIN_SIZE then mret (false, out)
  else
    let d := frame data in
    d0 ← rd d 0; d1 ← rd d 1;
    if negb (d0 =? TQ_MAGIC_0) || negb (d1 =? TQ_MAGIC_1) then mret (false, out)
    else d2 ← rd d 2; d3 ← rd d 3;
    if negb (d2 =? TQ_VERSION) || negb (d3 =? TQ_CMD_CLIENT_HELLO) then mret (false, out)
    else nameLen ← ReadU16BE d 4;
    if (nameLen =? 0) || (TQ_CLIENT_HELLO_MAX_NAME_LEN <? nameLen) then mret (false, out)
    else if negb (size d =? TQ_CLIENT_HELLO_MIN_SIZE + nameLen) then mret (false, out)
    else name ← assign d 6 nameLen;
      let msg := {| ch_ClientName := name |} in
      if negb (TqIsValidClientName (ch_ClientName msg)) then mret (false, out)
      else mret (true, msg).

Definition TqEncodeSpeedStart (msg : TqSpeedStart) (out : bytes) : bool * bytes :=
  if negb (ValidateSpeedStart msg) then (false, out)
  else
    let out := [TQ_MAGIC_0; TQ_MAGIC_1; TQ_VERSION; TQ_CMD_SPEED_START] in
    let out := WriteU32BE out (ss_SessionId msg) in
    let out := out ++ [ss_Direction msg] in
    let out := WriteU32BE out (ss_DurationSec msg) in
    let out := WriteU16BE out (ss_Parallel msg) in
    let out := out ++ [ss_Flags msg] in
    (size out =? TQ_SPEED_START_SIZE, out).

Definition TqDecodeSpeedStart (data : option bytes) (out : TqSpeedStart)
    : mem (bool * TqSpeedStart) :=
  if null_or_not_len data TQ_SPEED_START_SIZE then mret (false, out)
  else
    let d := frame data in
    d0 ← rd d 0; d1 ← rd d 1;
    if negb (d0 =? TQ_MAGIC_0) || negb (d1 =? TQ_MAGIC_1) then mret (false, out)
    else d2 ← rd d 2; d3 ← rd d 3;
    if negb (d2 =? TQ_VERSION) || negb (d3 =? TQ_CMD_SPEED_START) then mret (false, out)
    else d8 ← rd d 8;
    if negb (IsValidSpeedDirection d8) then mret (false, out)
    else d15 ← rd d 15;
    if negb (d15 =? 0) then mret (false, out)
    else sid ← ReadU32BE d 4; dur ← ReadU32BE d 9; par ← ReadU16BE d 13;
    let msg := {| ss_SessionId := sid; ss_Direction := d8; ss_DurationSec := dur;
                  ss_Parallel := par; ss_Flags := d15 |} in
    if negb (ValidateSpeedStart msg) then mret (false, out)
    else mret (true, msg).

Definition TqEncodeSpeedReady (msg : TqSpeedReady) (out : bytes) : bool * bytes :=
  if negb (ValidateSpeedReady msg) then (false, out)
  else
    let out := [TQ_MAGIC_0; TQ_MAGIC_1; TQ_VERSION; TQ_CMD_SPEED_READY] in
    let out := WriteU32BE out (sr_SessionId msg) in
    let out := out ++ [sr_AddrType msg] in
    let out := WriteU16BE out (sr_Port msg) in
    let out := WriteU16BE out (u16 (size (sr_Addr msg))) in
    let out := out ++ sr_Addr msg in
    (size out =? TQ_SPEED_READY_MIN_SIZE + size (sr_Addr msg), out).

Definition TqDecodeSpeedReady (data : option bytes) (out : TqSpeedReady)
    : mem (bool * TqSpeedReady) :=
  if null_or_shorter data TQ_SPEED_READY_MIN_SIZE then mret (false, out)
  else
    let d := frame data in
    d0 ← rd d 0; d1 ← rd d 1;
    if negb (d0 =? TQ_MAGIC_0) || negb (d1 =? TQ_MAGIC_1) then mret (false, out)
    else d2 ← rd d 2; d3 ← rd d 3;
    if negb (d2 =? TQ_VERSION) || negb (d3 =? TQ_CMD_SPEED_READY) then mret (false, out)
    else addrLen ← ReadU16BE d 11;
    if negb (size d =? TQ_SPEED_READY_MIN_SIZE + addrLen) then mret (false, out)
    else sid ← ReadU32BE d 4; at_ ← rd d 8; port ← ReadU16BE d 9;
    addr ← assign d 13 addrLen;
    let msg := {| sr_SessionId := sid; sr_AddrType := at_; sr_Port := port; sr_Addr := addr |} in
    if negb (ValidateSpeedReady msg) then mret (false, out)
    else mret (true, msg).

Definition TqEncodeSpeedFinish (msg : TqSpeedFinish) (out : bytes) : bool * bytes :=
  let out := [TQ_MAGIC_0; TQ_MAGIC_1; TQ_VERSION; TQ_CMD_SPEED_FINISH] in
  let out := WriteU32BE out (sf_SessionId msg) in
  let out := WriteU64BE out (sf_ClientBytes msg) in
  let out := WriteU64BE out (sf_ClientElapsedUs msg) in
  (size out =? TQ_SPEED_FINISH_SIZE, out).

Definition TqDecodeSpeedFinish (data : option bytes) (out : TqSpeedFinish)
    : mem (bool * TqSpeedFinish) :=
  if null_or_not_len data TQ_SPEED_FINISH_SIZE then mret (false, out)
  else
    let d := frame data in
    d0 ← rd d 0; d1 ← rd d 1;
    if negb (d0 =? TQ_MAGIC_0) || negb (d1 =? TQ_MAGIC_1) then mret (false, out)
    else d2 ← rd d 2; d3 ← rd d 3;
    if negb (d2 =? TQ_VERSION) || negb (d3 =? TQ_CMD_SPEED_FINISH) then mret (false, out)
    else sid ← ReadU32BE d 4; b ← ReadU64BE d 8; us ← ReadU64BE d 16;
    mret (true, {| sf_SessionId := sid; sf_ClientBytes := b; sf_ClientElapsedUs := us |}).

Definition TqEncodeSpeedResult (msg : TqSpeedResult) (out : bytes) : bool * bytes :=
  let out := [TQ_MAGIC_0; TQ_MAGIC_1; TQ_VERSION; TQ_CMD_SPEED_RESULT] in
  let out := WriteU32BE out (st_SessionId msg) in
  let out := WriteU64BE out (st_ServerBytes msg) in
  let out := WriteU64BE out (st_ServerElapsedUs msg) in
  let out := WriteU32BE out (st_AcceptedConnections msg) in
  let out := WriteU32BE out (st_ClosedConnections msg) in
  let out := out ++ [st_Status msg] in
  (size out =? TQ_SPEED_RESULT_SIZE, out).

Definition TqDecodeSpeedResult (data : option bytes) (out : TqSpeedResult)
    : mem (bool * TqSpeedResult) :=
  if null_or_not_len data TQ_SPEED_RESULT_SIZE then mret (false, out)
  else
    let d := frame data in
    d0 ← rd d 0; d1 ← rd d 1;
    if negb (d0 =? TQ_MAGIC_0) || negb (d1 =? TQ_MAGIC_1) then mret (false, out)
    else d2 ← rd d 2; d3 ← rd d 3;
    if negb (d2 =? TQ_VERSION) || negb (d3 =? TQ_CMD_SPEED_RESULT) then mret (false, out)
    else sid ← ReadU32BE d 4; b ← ReadU64BE d 8; us ← ReadU64BE d 16;
    acc ← ReadU32BE d 24; clo ← ReadU32BE d 28; stat ← rd d 32;
    mret (true, {| st_SessionId := sid; st_ServerBytes := b; st_ServerElapsedUs := us;
                   st_AcceptedConnections := acc; st_ClosedConnections := clo;
                   st_Status := stat |}).

Definition TqEncodeSpeedError (msg : TqSpeedErrorMessage) (out : bytes) : bool * bytes :=
  if negb (ValidateSpeedError msg) then (false, out)
  else
    let out := [TQ_MAGIC_0; TQ_MAGIC_1; TQ_VERSION; TQ_CMD_SPEED_ERROR] in
    let out := WriteU32BE out (se_SessionId msg) in
    let out := out ++ [se_Error msg] in
    let out := WriteU16BE out (u16 (size (se_Message msg))) in
    let out := out ++ se_Message msg in
    (size out =? TQ_SPEED_ERROR_MIN_SIZE + size (se_Message msg), out).

Definition TqDecodeSpeedError (data : option bytes) (out : TqSpeedErrorMessage)
    : mem (bool * TqSpeedErrorMessage) :=
  if null_or_shorter data TQ_SPEED_ERROR_MIN_SIZE then mret (false, out)
  else
    let d := frame data in
    d0 ← rd d 0; d1 ← rd d 1;
    if negb (d0 =? TQ_MAGIC_0) || negb (d1 =? TQ_MAGIC_1) then mret (false, out)
    else d2 ← rd d 2; d3 ← rd d 3;
    if negb (d2 =? TQ_VERSION) || negb (d3 =? TQ_CMD_SPEED_ERROR) then mret (false, out)
    else messageLen ← ReadU16BE d 9;
    if negb (size d =? TQ_SPEED_ERROR_MIN_SIZE + messageLen) ||
       (TQ_SPEED_ERROR_MAX_MESSAGE_LEN <? messageLen) then mret (false, out)
    else d8 ← rd d 8;
    if negb (IsValidSpeedErrorFrameCode d8) then mret (false, out)
    else sid ← ReadU32BE d 4; message ← assign d 11 messageLen;
    mret (true, {| se_SessionId := sid; se_Error := d8; se_Message := message |}).

(** ** Big-endian lemmas *)

(** A byte shifted into place does not overflow the word it is cast to. *)
Lemma shiftl_u32 b n : is_u8 b -> 0 <= n <= 24 -> u32 (Z.shiftl b n) = b * 2 ^ n.
Proof.
  unfold is_u8. intros Hb Hn. rewrite Z.shiftl_mul_pow2 by lia.
  apply u32_small. unfold is_u32. pose proof (Z.pow_le_mono_r 2 n 24). nia.
Qed.

Lemma shiftl_u64 b n : is_u8 b -> 0 <= n <= 56 -> u64 (Z.shiftl b n) = b * 2 ^ n.
Proof.
  unfold is_u8. intros Hb Hn. rewrite Z.shiftl_mul_pow2 by lia.
  apply u64_small. unfold is_u64. pose proof (Z.pow_le_mono_r 2 n 56). nia.
Qed.

(** What the readers compute: the positional value of the bytes. *)
Lemma value_u16 a b :
  is_u8 a -> is_u8 b -> u16 (Z.lor (Z.shiftl a 8) b) = a * 256 + b.
Proof.
  unfold is_u8. intros. rewrite lor_shiftl_add by lia. apply u16_small. unfold is_u16. lia.
Qed.

Lemma value_u32 a b c d :
  is_u8 a -> is_u8 b -> is_u8 c -> is_u8 d ->
  Z.lor (Z.lor (Z.lor (u32 (Z.shiftl a 24)) (u32 (Z.shiftl b 16))) (u32 (Z.shiftl c 8))) d
  = a * 16777216 + b * 65536 + c * 256 + d.
Proof.
  intros Ha Hb Hc Hd. rewrite !shiftl_u32 by (done || lia). unfold is_u8 in *.
  rewrite (lor_add (a * 2 ^ 24) _ 24) by dlia.
  rewrite (lor_add _ (c * 2 ^ 8) 16) by dlia.
  rewrite (lor_add _ d 8) by dlia. lia.
Qed.

Lemma value_u64 a b c d e f g h :
  is_u8 a -> is_u8 b -> is_u8 c -> is_u8 d -> is_u8 e -> is_u8 f -> is_u8 g -> is_u8 h ->
  Z.lor (Z.lor (Z.lor (Z.lor (Z.lor (Z.lor (Z.lor
    (u64 (Z.shiftl a 56)) (u64 (Z.shiftl b 48))) (u64 (Z.shiftl c 40)))
    (u64 (Z.shiftl d 32))) (u64 (Z.shiftl e 24))) (u64 (Z.shiftl f 16)))
    (u64 (Z.shiftl g 8))) h
  = a * 2 ^ 56 + b * 2 ^ 48 + c * 2 ^ 40 + d * 2 ^ 32 + e * 2 ^ 24 + f * 2 ^ 16 + g * 2 ^ 8 + h.
Proof.
  intros Ha Hb Hc Hd He Hf Hg Hh. rewrite !shiftl_u64 by (done || lia). unfold is_u8 in *.
  rewrite (lor_add (a * 2 ^ 56) _ 56) by dlia.
  rewrite (lor_add _ (c * 2 ^ 40) 48) by dlia.
  rewrite (lor_add _ (d * 2 ^ 32) 40) by dlia.
  rewrite (lor_add _ (e * 2 ^ 24) 32) by dlia.
  rewrite (lor_add _ (f * 2 ^ 16) 24) by dlia.
  rewrite (lor_add _ (g * 2 ^ 8) 16) by dlia.
  rewrite (lor_add _ h 8) by dlia. lia.
Qed.

(** What the writers push: the base-256 digits of the value. *)
Lemma digit_top v k m :
  0 <= k -> 0 <= v < m -> m = 256 * 2 ^ k -> u8 (Z.shiftr v k) = v / 2 ^ k.
Proof.
  intros Hk Hv ->. rewrite Z.shiftr_div_pow2 by lia. apply u8_small. unfold is_u8.
  split; [apply Z.div_pos; lia | apply Z.div_lt_upper_bound; lia].
Qed.

Lemma digit_mid v k : 0 <= k -> u8 (Z.land (Z.shiftr v k) 0xFF) = v / 2 ^ k mod 256.
Proof.
  intros Hk. rewrite land_255, Z.shiftr_div_pow2 by lia. unfold u8. by rewrite Zmod_mod.
Qed.

Lemma digit_low v : u8 (Z.land v 0xFF) = v mod 256.
Proof. rewrite land_255. unfold u8. by rewrite Zmod_mod. Qed.

(** Joining what a writer pushed gives the value back. *)
Lemma join_u16 v :
  is_u16 v -> u16 (Z.lor (Z.shiftl (u8 (Z.shiftr v 8)) 8) (u8 (Z.land v 0xFF))) = v.
Proof.
  unfold is_u16. intros Hv. rewrite value_u16 by auto with tq.
  rewrite (digit_top v 8 65536), digit_low by lia. dlia.
Qed.

Lemma join_u32 v :
  is_u32 v ->
  Z.lor (Z.lor (Z.lor (u32 (Z.shiftl (u8 (Z.shiftr v 24)) 24))
                      (u32 (Z.shiftl (u8 (Z.land (Z.shiftr v 16) 0xFF)) 16)))
               (u32 (Z.shiftl (u8 (Z.land (Z.shiftr v 8) 0xFF)) 8)))
        (u8 (Z.land v 0xFF)) = v.
Proof.
  unfold is_u32. intros Hv. rewrite value_u32 by auto with tq.
  rewrite (digit_top v 24 4294967296), !digit_mid, digit_low by lia. dlia.
Qed.

Lemma join_u64 v :
  is_u64 v ->
  Z.lor (Z.lor (Z.lor (Z.lor (Z.lor (Z.lor (Z.lor
    (u64 (Z.shiftl (u8 (Z.shiftr v 56)) 56))
    (u64 (Z.shiftl (u8 (Z.land (Z.shiftr v 48) 0xFF)) 48)))
    (u64 (Z.shiftl (u8 (Z.land (Z.shiftr v 40) 0xFF)) 40)))
    (u64 (Z.shiftl (u8 (Z.land (Z.shiftr v 32) 0xFF)) 32)))
    (u64 (Z.shiftl (u8 (Z.land (Z.shiftr v 24) 0xFF)) 24)))
    (u64 (Z.shiftl (u8 (Z.land (Z.shiftr v 16) 0xFF)) 16)))
    (u64 (Z.shiftl (u8 (Z.land (Z.shiftr v 8) 0xFF)) 8)))
    (u8 (Z.land v 0xFF)) = v.
Proof.
  unfold is_u64. intros Hv. rewrite value_u64 by auto with tq.
  rewrite (digit_top v 56 18446744073709551616), !digit_mid, digit_low by lia.
  change (2 ^ 56) with (2 ^ 48 * 256). change (2 ^ 48) with (2 ^ 40 * 256).
  change (2 ^ 40) with (2 ^ 32 * 256). change (2 ^ 32) with (2 ^ 24 * 256).
  change (2 ^ 24) with (2 ^ 16 * 256). change (2 ^ 16) with (2 ^ 8 * 256).
  rewrite <- !Z.div_div by lia. change (2 ^ 8) with 256. dlia.
Qed.

(** Splitting what a reader joined gives the bytes back. *)
Lemma split_u16 a b (Ha : is_u8 a) (Hb : is_u8 b) (v := u16 (Z.lor (Z.shiftl a 8) b)) :
  is_u16 v /\ [u8 (Z.shiftr v 8); u8 (Z.land v 0xFF)] = [a; b].
Proof.
  subst v. rewrite value_u16 by done. unfold is_u8, is_u16 in *. split; [lia|].
  rewrite (digit_top _ 8 65536), digit_low by lia. repeat f_equal; dlia.
Qed.

Lemma split_u32 a b c d (Ha : is_u8 a) (Hb : is_u8 b) (Hc : is_u8 c) (Hd : is_u8 d)
    (v := Z.lor (Z.lor (Z.lor (u32 (Z.shiftl a 24)) (u32 (Z.shiftl b 16)))
                       (u32 (Z.shiftl c 8))) d) :
  is_u32 v /\
  [u8 (Z.shiftr v 24); u8 (Z.land (Z.shiftr v 16) 0xFF);
   u8 (Z.land (Z.shiftr v 8) 0xFF); u8 (Z.land v 0xFF)] = [a; b; c; d].
Proof.
  subst v. rewrite value_u32 by done. unfold is_u8, is_u32 in *. split; [lia|].
  rewrite (digit_top _ 24 4294967296), !digit_mid, digit_low by lia.
  repeat f_equal; dlia.
Qed.

Lemma split_u64 a b c d e f g h
    (Ha : is_u8 a) (Hb : is_u8 b) (Hc : is_u8 c) (Hd : is_u8 d)
    (He : is_u8 e) (Hf : is_u8 f) (Hg : is_u8 g) (Hh : is_u8 h)
    (v := Z.lor (Z.lor (Z.lor (Z.lor (Z.lor (Z.lor (Z.lor
      (u64 (Z.shiftl a 56)) (u64 (Z.shiftl b 48))) (u64 (Z.shiftl c 40)))
      (u64 (Z.shiftl d 32))) (u64 (Z.shiftl e 24))) (u64 (Z.shiftl f 16)))
      (u64 (Z.shiftl g 8))) h) :
  is_u64 v /\
  [u8 (Z.shiftr v 56); u8 (Z.land (Z.shiftr v 48) 0xFF);
   u8 (Z.land (Z.shiftr v 40) 0xFF); u8 (Z.land (Z.shiftr v 32) 0xFF);
   u8 (Z.land (Z.shiftr v 24) 0xFF); u8 (Z.land (Z.shiftr v 16) 0xFF);
   u8 (Z.land (Z.shiftr v 8) 0xFF); u8 (Z.land v 0xFF)] = [a; b; c; d; e; f; g; h].
Proof.
  subst v. rewrite value_u64 by done. unfold is_u8, is_u64 in *. split; [lia|].
  rewrite (digit_top _ 56 18446744073709551616), !digit_mid, digit_low by lia.
  repeat f_equal; dlia.
Qed.

(** The bytes a value is written as are bytes. *)
Lemma WriteU16BE_ok out v : bytes_ok out -> bytes_ok (WriteU16BE out v).
Proof. intros. apply bytes_ok_app; split; [done|]. repeat constructor; auto with tq; apply u8_range. Qed.

(** ** What a codec promises *)

(** The interface of the frame types: the widths of the fields, the two functions, and the
    command bytes that belong to the type. *)
Class WireCodec (M : Type) := {
  wc_wf : M -> Prop;
  wc_encode : M -> bytes -> bool * bytes;
  wc_decode : option bytes -> M -> mem (bool * M);
  wc_cmd : Z -> bool }.

Class WireCodecLaws (M : Type) `{WireCodec M} := {
  (** no read outside the buffer, whatever the peer sent *)
  wc_safe : forall data out, exists r, wc_decode data out = Val r;
  (** what an encoder accepts, a decoder reads back *)
  wc_roundtrip : forall m out out' d,
    wc_wf m -> wc_encode m out = (true, d) -> wc_decode (Some d) out' = Val (true, m);
  (** what a decoder accepts is the encoding of what it returns *)
  wc_canonical : forall d out m,
    bytes_ok d -> wc_decode (Some d) out = Val (true, m) ->
    wc_wf m /\ forall out', wc_encode m out' = (true, d);
  (** an accepted frame carries one of the type's commands *)
  wc_decode_cmd : forall d out m,
    wc_decode (Some d) out = Val (true, m) -> exists c, d !! 3%nat = Some c /\ wc_cmd c = true }.

(** The frame sizes, as numbers. *)
Ltac sizes :=
  unfold TQ_OPEN_RESPONSE_SIZE, TQ_SPEED_START_SIZE, TQ_SPEED_READY_MIN_SIZE,
    TQ_SPEED_FINISH_SIZE, TQ_SPEED_RESULT_SIZE, TQ_SPEED_ERROR_MIN_SIZE,
    TQ_SPEED_ERROR_MAX_MESSAGE_LEN, TQ_CLIENT_HELLO_MIN_SIZE,
    TQ_CLIENT_HELLO_MAX_NAME_LEN in *.

(** Peels the bytes of [d], whose length [H] bounds below. *)
Ltac peel d H :=
  let b := fresh "b" in
  destruct d as [|b d]; [exfalso; unfold size in H; simpl in H; lia|].

(** Runs a routine over peeled bytes. *)
Ltac run :=
  unfold ReadU16BE, ReadU32BE, ReadU64BE, WriteU16BE, WriteU32BE, WriteU64BE in *;
  unfold mret, mem_ret in *;
  cbn [rd lookup list_lookup mbind mem_bind Nat.add app frame
       null_or_shorter null_or_not_len] in *.

(** The guards a decoder passed. *)
Ltac guards H :=
  repeat match type of H with
         | (if ?c then _ else _) = _ => destruct c eqn:?; [by simplify_eq|]
         end; to_prop.

Lemma bytes_ok_cons b l : bytes_ok (b :: l) <-> is_u8 b /\ bytes_ok l.
Proof. apply Forall_cons_iff. Qed.

(** Takes a well-formed buffer apart. *)
Ltac ok_bytes :=
  repeat match goal with
         | H : bytes_ok (_ :: _) |- _ => apply bytes_ok_cons in H as [? H]
         end.

Lemma size_cons b l : size (b :: l) = 1 + size l.
Proof. unfold size. simpl. lia. Qed.

Lemma size_nil : size [] = 0.
Proof. done. Qed.

#[export] Hint Rewrite size_cons size_nil : tq.

Lemma size_0 l : size l = 0 -> l = [].
Proof. unfold size. destruct l; simpl; [done|lia]. Qed.

Lemma assign_cons b l o n : assign (b :: l) (S o) n = assign l o n.
Proof. done. Qed.

#[export] Hint Rewrite rd_cons assign_cons : tq.

(** Splits the length check that opens a decoder and peels its fixed bytes. *)
Tactic Notation "open_frame" ident(d) int_or_var(n) "as" ident(Hl) :=
  match goal with
  | |- context [if ?c then _ else _] => destruct c eqn:Hl
  end;
  [ try done; try by eexists
  | cbn [null_or_shorter null_or_not_len] in Hl; sizes; to_prop; do n peel d Hl; run ].

(** The same in a hypothesis [H] that says the decoder accepted. *)
Tactic Notation "accepted" hyp(H) "frame" ident(d) int_or_var(n) "as" ident(Hl) :=
  match type of H with
  | (if ?c then _ else _) = _ => destruct c eqn:Hl; [done|]
  end;
  cbn [null_or_shorter null_or_not_len] in Hl; sizes; to_prop; do n peel d Hl; run; guards H;
  subst; ok_bytes; autorewrite with tq in *.

(** The guards a decoder tests, on the way to a result. *)
Ltac pass_guards :=
  repeat match goal with
         | |- exists _, (if ?c then _ else _) = _ => destruct c eqn:?; [by eexists|]
         end; to_prop.

Lemma assign_prefix l k n : n = size l -> assign (l ++ k) 0 n = Val l.
Proof.
  intros ->. apply rd_range_val. unfold size. rewrite Nat2Z.id, length_app, drop_0, take_app_length.
  split; [lia|done].
Qed.

Lemma assign_all l n : n = size l -> assign l 0 n = Val l.
Proof. intros ->. rewrite <- (app_nil_r l) at 1. by apply assign_prefix. Qed.

Lemma rd_after l k : rd (l ++ k) (Z.to_nat (size l)) = rd k 0.
Proof. apply rd_app_at. unfold size. lia. Qed.

(** A buffer one byte longer than a prefix is the prefix and that byte. *)
Lemma assign_last d n a :
  0 <= n -> size d = 1 + n -> rd d (Z.to_nat n) = Val a ->
  exists x, assign d 0 n = Val x /\ x ++ [a] = d /\ size x = n.
Proof.
  unfold size, rd. intros Hn Hs Ha. exists (take (Z.to_nat n) d).
  rewrite length_take. split; [apply rd_range_val; rewrite drop_0; split; [lia|done]|].
  split; [|lia].
  destruct (d !! Z.to_nat n) as [a'|] eqn:Hl; simplify_eq.
  rewrite <- (take_drop (Z.to_nat n) d) at 2. f_equal.
  rewrite (drop_S d a (Z.to_nat n)) by done.
  rewrite (drop_ge d (S (Z.to_nat n))) by lia. done.
Qed.

Lemma assign_some d n : 0 <= n <= size d -> exists x, assign d 0 n = Val x.
Proof. unfold size. intros. apply safe_rd_range. lia. Qed.

Lemma bytes_ok_assign d o n x : bytes_ok d -> assign d o n = Val x -> bytes_ok x.
Proof. intros Hd [_ ->]%rd_range_val. by apply Forall_take, Forall_drop. Qed.

(** A copy whose range is in the buffer. *)
Ltac copies :=
  match goal with
  | |- context [assign ?d 0 (u16 ?z)] =>
      let x := fresh "x" in
      pose proof (u16_range z); autorewrite with tq in *;
      destruct (assign_some d (u16 z)) as [x ->]; [widths|cbn [mbind mem_bind]]
  end.

Lemma u16_u16 z : u16 (u16 z) = u16 z.
Proof. apply u16_small, u16_range. Qed.

(** Rewrites the digits of a joined value back to the bytes it came from. *)
Ltac rebuild :=
  repeat match goal with H : u8 _ = _ |- _ => rewrite H; clear H end.

(** Discharges the guards of a decoder that a well-formed frame passes. *)
Ltac fail_guards :=
  repeat (rewrite ?Z.eqb_refl; cbn [negb orb andb]; cbv iota;
          match goal with
          | |- (if ?c then _ else _) = _ =>
              replace c with false
                by (symmetry; first
                      [ apply Z.ltb_ge; widths
                      | apply negb_false_iff, Z.eqb_eq; widths
                      | apply orb_false_iff; split; [apply Z.eqb_neq | apply Z.ltb_ge]; widths
                      | apply orb_false_iff; split;
                          [apply negb_false_iff, Z.eqb_eq | apply Z.ltb_ge]; widths
                      | apply negb_false_iff; done ])
          end; cbv iota).

(** ** The open request *)

#[export] Instance OpenRequest_codec : WireCodec TqOpenRequest := {
  wc_wf m := is_u8 (or_Flags m) /\ is_u8 (or_AddrType m) /\ is_u16 (or_Port m) /\
             bytes_ok (or_Addr m);
  wc_encode := TqEncodeOpenRequest;
  wc_decode := TqDecodeOpenRequest;
  wc_cmd c := c =? TQ_CMD_OPEN }.

(** An address the validator accepts has a length that fits its 16-bit field. *)
Lemma ValidateAddr_size req :
  ValidateAddr req = true -> is_u16 (size (or_Addr req)).
Proof. unfold ValidateAddr, is_u16. intros. pose proof (size_nonneg (or_Addr req)). cases; to_prop; lia. Qed.

Lemma open_request_safe data out : exists r, TqDecodeOpenRequest data out = Val r.
Proof.
  destruct data as [d|]; [|by eexists]. unfold TqDecodeOpenRequest.
  open_frame d 10 as Hl.
  pass_guards.
  autorewrite with tq. copies.
  edestruct rd_lt as (a & Ha & _); [|rewrite Ha; cbn [mbind mem_bind]; case_match; by eexists].
  widths.
Qed.

Lemma open_request_decode m out out' d :
  wc_wf m -> TqEncodeOpenRequest m out = (true, d) ->
  TqDecodeOpenRequest (Some d) out' = Val (true, m).
Proof.
  intros (Hf & Ht & Hp & Ha) He. unfold TqEncodeOpenRequest in He. guards He.
  match goal with H : ValidateAddr m = true |- _ => rename H into Hv end.
  pose proof (ValidateAddr_size _ Hv) as Hs. simplify_eq.
  unfold TqDecodeOpenRequest. run.
  rewrite (u16_small (size (or_Addr m))), !join_u16 by done.
  autorewrite with tq. fail_guards.
  rewrite assign_prefix by done. cbn [mbind mem_bind]. rewrite rd_after.
  cbn [rd lookup list_lookup mbind mem_bind]. fail_guards. destruct m. cbn [or_Flags or_AddrType or_Port or_Addr] in *. by rewrite Hv.
Qed.

Lemma open_request_canonical d out m :
  bytes_ok d -> TqDecodeOpenRequest (Some d) out = Val (true, m) ->
  wc_wf m /\ forall out', TqEncodeOpenRequest m out' = (true, d).
Proof.
  unfold TqDecodeOpenRequest. intros Hd Hm.
  accepted Hm frame d 10 as Hl.
  destruct (split_u16 b5 b6) as [Hp Ep]; [done..|].
  destruct (split_u16 b7 b8) as [Hn En]; [done..|].
  set (n := u16 (Z.lor (b7 ≪ 8) b8)) in *.
  destruct (assign d 0 n) as [x|] eqn:Hx; [|done]. cbn [mbind mem_bind] in Hm.
  destruct (rd d (Z.to_nat n)) as [a|] eqn:Ha; [|done]. cbn [mbind mem_bind] in Hm.
  guards Hm. subst.
  destruct (assign_last d n 0) as (y & Ey & Ed & Es); [unfold is_u16 in *; lia..|done|].
  rewrite Hx in Ey. simplify_eq/=. split.
  { split_and!; [done..|by eapply bytes_ok_assign]. }
  intros out'. unfold TqEncodeOpenRequest. rewrite Hm. run.
  cbn [negb or_Flags or_AddrType or_Port or_Addr]. rewrite Es, u16_u16.
  by rebuild.
Qed.

Lemma open_request_cmd d out m :
  TqDecodeOpenRequest (Some d) out = Val (true, m) ->
  exists c, d !! 3%nat = Some c /\ (c =? TQ_CMD_OPEN) = true.
Proof.
  unfold TqDecodeOpenRequest. intros Hm.
  accepted Hm frame d 10 as Hl. by eexists.
Qed.

#[export] Instance OpenRequest_laws : WireCodecLaws TqOpenRequest.
Proof.
  split; [exact open_request_safe | exact open_request_decode | exact open_request_canonical | exact open_request_cmd].
Qed.

(** ** The open response *)

#[export] Instance OpenResponse_codec : WireCodec TqOpenResponse := {
  wc_wf m := is_u8 (os_Error m) /\ is_u32 (os_ConnId m);
  wc_encode := TqEncodeOpenResponse;
  wc_decode := TqDecodeOpenResponse;
  wc_cmd c := (c =? TQ_CMD_OPEN_OK) || (c =? TQ_CMD_OPEN_FAIL) }.

Lemma open_response_safe data out : exists r, TqDecodeOpenResponse data out = Val r.
Proof.
  destruct data as [d|]; [|by eexists]. unfold TqDecodeOpenResponse.
  open_frame d 9 as Hl. pass_guards. by eexists.
Qed.

Lemma open_response_decode m out out' d :
  wc_wf m -> TqEncodeOpenResponse m out = (true, d) ->
  TqDecodeOpenResponse (Some d) out' = Val (true, m).
Proof.
  intros [Hf Hc] He. unfold TqEncodeOpenResponse in He.
  destruct m as [ok err cid]; cbn [os_Ok os_Error os_ConnId wc_wf OpenResponse_codec] in *.
  guards He. simplify_eq. unfold TqDecodeOpenResponse. run. rewrite join_u32 by done.
  destruct ok; to_prop; subst; [done|].
  by rewrite (proj2 (Z.eqb_neq err TqOpenError_Ok)).
Qed.

Lemma open_response_canonical d out m :
  bytes_ok d -> TqDecodeOpenResponse (Some d) out = Val (true, m) ->
  wc_wf m /\ forall out', TqEncodeOpenResponse m out' = (true, d).
Proof.
  unfold TqDecodeOpenResponse. intros Hd Hm.
  accepted Hm frame d 9 as Hl.
  assert (d = []) as -> by (apply size_0; lia).
  destruct (split_u32 b4 b5 b6 b7) as [Hp Ep]; [done..|].
  destruct (b2 =? TQ_CMD_OPEN_OK) eqn:E2; simpl in Hm; to_prop; subst; simplify_eq/=.
  - to_prop; subst. split; [done|]. intros out'. unfold TqEncodeOpenResponse. run.
    cbn [os_Ok os_Error os_ConnId]. by rebuild.
  - destruct (b2 =? TQ_CMD_OPEN_FAIL) eqn:E3; [|done]. to_prop; subst. simplify_eq/=. to_prop.
    split; [done|]. intros out'. unfold TqEncodeOpenResponse. run.
    cbn [os_Ok os_Error os_ConnId]. rewrite (proj2 (Z.eqb_neq b3 TqOpenError_Ok)) by done.
    by rebuild.
Qed.

Lemma open_response_cmd d out m :
  TqDecodeOpenResponse (Some d) out = Val (true, m) ->
  exists c, d !! 3%nat = Some c /\ (c =? TQ_CMD_OPEN_OK) || (c =? TQ_CMD_OPEN_FAIL) = true.
Proof.
  unfold TqDecodeOpenResponse. intros Hm.
  accepted Hm frame d 9 as Hl. exists b2. split; [done|].
  by destruct (_ || _).
Qed.

#[export] Instance OpenResponse_laws : WireCodecLaws TqOpenResponse.
Proof.
  split; [exact open_response_safe | exact open_response_decode | exact open_response_canonical | exact open_response_cmd].
Qed.

(** ** The client hello *)

#[export] Instance ClientHello_codec : WireCodec TqClientHello := {
  wc_wf m := bytes_ok (ch_ClientName m);
  wc_encode := TqEncodeClientHello;
  wc_decode := TqDecodeClientHello;
  wc_cmd c := c =? TQ_CMD_CLIENT_HELLO }.

Lemma client_name_size name :
  TqIsValidClientName name = true -> 1 <= size name <= TQ_CLIENT_HELLO_MAX_NAME_LEN.
Proof.
  unfold TqIsValidClientName. intros. pose proof (size_nonneg name). cases; to_prop. lia.
Qed.

Lemma client_hello_safe data out : exists r, TqDecodeClientHello data out = Val r.
Proof.
  destruct data as [d|]; [|by eexists]. unfold TqDecodeClientHello.
  open_frame d 6 as Hl. pass_guards. autorewrite with tq. copies.
  pass_guards. by eexists.
Qed.

Lemma client_hello_decode m out out' d :
  wc_wf m -> TqEncodeClientHello m out = (true, d) ->
  TqDecodeClientHello (Some d) out' = Val (true, m).
Proof.
  intros Hf He. unfold TqEncodeClientHello in He. guards He. simplify_eq.
  match goal with H : TqIsValidClientName _ = true |- _ =>
    rename H into Hv; pose proof (client_name_size _ Hv) as Hs end.
  unfold TqDecodeClientHello. run. sizes.
  rewrite (u16_small (size (ch_ClientName m))), join_u16 by widths.
  autorewrite with tq. rewrite assign_all by done. cbn [mbind mem_bind ch_ClientName].
  fail_guards.
  by destruct m.
Qed.

Lemma client_hello_canonical d out m :
  bytes_ok d -> TqDecodeClientHello (Some d) out = Val (true, m) ->
  wc_wf m /\ forall out', TqEncodeClientHello m out' = (true, d).
Proof.
  unfold TqDecodeClientHello. intros Hd Hm. accepted Hm frame d 6 as Hl.
  destruct (split_u16 b3 b4) as [Hn En]; [done..|].
  rewrite assign_all in Hm by lia. cbn [mbind mem_bind ch_ClientName] in Hm. guards Hm. simplify_eq.
  split; [done|]. intros out'. unfold TqEncodeClientHello. run. cbn [ch_ClientName].
  match goal with H : TqIsValidClientName d = true |- _ => rewrite H end. cbn [negb].
  replace (size d) with (u16 (Z.lor (b3 ≪ 8) b4)) by lia. rewrite u16_u16. rebuild.
  autorewrite with tq. f_equal. apply Z.eqb_eq. sizes. lia.
Qed.

Lemma client_hello_cmd d out m :
  TqDecodeClientHello (Some d) out = Val (true, m) ->
  exists c, d !! 3%nat = Some c /\ (c =? TQ_CMD_CLIENT_HELLO) = true.
Proof. unfold TqDecodeClientHello. intros Hm. accepted Hm frame d 6 as Hl. by eexists. Qed.

#[export] Instance ClientHello_laws : WireCodecLaws TqClientHello.
Proof.
  split; [exact client_hello_safe | exact client_hello_decode
         | exact client_hello_canonical | exact client_hello_cmd].
Qed.

(** ** The speed-test frames *)

#[export] Instance SpeedStart_codec : WireCodec TqSpeedStart := {
  wc_wf m := is_u32 (ss_SessionId m) /\ is_u8 (ss_Direction m) /\ is_u32 (ss_DurationSec m) /\
             is_u16 (ss_Parallel m) /\ is_u8 (ss_Flags m);
  wc_encode := TqEncodeSpeedStart;
  wc_decode := TqDecodeSpeedStart;
  wc_cmd c := c =? TQ_CMD_SPEED_START }.

Lemma speed_start_safe data out : exists r, TqDecodeSpeedStart data out = Val r.
Proof.
  destruct data as [d|]; [|by eexists]. unfold TqDecodeSpeedStart.
  open_frame d 16 as Hl. pass_guards. by eexists.
Qed.

Lemma ValidateSpeedStart_fields m :
  ValidateSpeedStart m = true ->
  IsValidSpeedDirection (ss_Direction m) = true /\ ss_Flags m = 0.
Proof. unfold ValidateSpeedStart. intros. to_prop. done. Qed.

Lemma speed_start_decode m out out' d :
  wc_wf m -> TqEncodeSpeedStart m out = (true, d) ->
  TqDecodeSpeedStart (Some d) out' = Val (true, m).
Proof.
  intros (H1 & H2 & H3 & H4 & H5) He. unfold TqEncodeSpeedStart in He. guards He. simplify_eq.
  match goal with H : ValidateSpeedStart m = true |- _ =>
    rename H into Hv; pose proof (ValidateSpeedStart_fields _ Hv) as [Hd Hg] end.
  unfold TqDecodeSpeedStart. run. rewrite !join_u32, join_u16 by done.
  fail_guards. by destruct m.
Qed.

Lemma speed_start_canonical d out m :
  bytes_ok d -> TqDecodeSpeedStart (Some d) out = Val (true, m) ->
  wc_wf m /\ forall out', TqEncodeSpeedStart m out' = (true, d).
Proof.
  unfold TqDecodeSpeedStart. intros Hd Hm. accepted Hm frame d 16 as Hl.
  assert (d = []) as -> by (apply size_0; lia).
  destruct (split_u32 b3 b4 b5 b6) as [Hs Es]; [done..|].
  destruct (split_u32 b8 b9 b10 b11) as [Hu Eu]; [done..|].
  destruct (split_u16 b12 b13) as [Hn En]; [done..|]. simplify_eq.
  split; [done|]. intros out'. unfold TqEncodeSpeedStart.
  match goal with H : ValidateSpeedStart _ = true |- _ => rewrite H end. run.
  cbn [ss_SessionId ss_Direction ss_DurationSec ss_Parallel ss_Flags negb]. by rebuild.
Qed.

Lemma speed_start_cmd d out m :
  TqDecodeSpeedStart (Some d) out = Val (true, m) ->
  exists c, d !! 3%nat = Some c /\ (c =? TQ_CMD_SPEED_START) = true.
Proof. unfold TqDecodeSpeedStart. intros Hm. accepted Hm frame d 16 as Hl. by eexists. Qed.

#[export] Instance SpeedStart_laws : WireCodecLaws TqSpeedStart.
Proof.
  split; [exact speed_start_safe | exact speed_start_decode
         | exact speed_start_canonical | exact speed_start_cmd].
Qed.

#[export] Instance SpeedReady_codec : WireCodec TqSpeedReady := {
  wc_wf m := is_u32 (sr_SessionId m) /\ is_u8 (sr_AddrType m) /\ is_u16 (sr_Port m) /\
             bytes_ok (sr_Addr m);
  wc_encode := TqEncodeSpeedReady;
  wc_decode := TqDecodeSpeedReady;
  wc_cmd c := c =? TQ_CMD_SPEED_READY }.

Lemma ValidateSpeedReady_size m :
  ValidateSpeedReady m = true -> is_u16 (size (sr_Addr m)).
Proof. unfold ValidateSpeedReady, is_u16. intros. cases; to_prop; lia. Qed.

Lemma speed_ready_safe data out : exists r, TqDecodeSpeedReady data out = Val r.
Proof.
  destruct data as [d|]; [|by eexists]. unfold TqDecodeSpeedReady.
  open_frame d 13 as Hl. pass_guards. autorewrite with tq. copies.
  pass_guards. by eexists.
Qed.

Lemma speed_ready_decode m out out' d :
  wc_wf m -> TqEncodeSpeedReady m out = (true, d) ->
  TqDecodeSpeedReady (Some d) out' = Val (true, m).
Proof.
  intros (H1 & H2 & H3 & H4) He. unfold TqEncodeSpeedReady in He. guards He. simplify_eq.
  match goal with H : ValidateSpeedReady m = true |- _ =>
    rename H into Hv; pose proof (ValidateSpeedReady_size _ Hv) as Hs end.
  unfold TqDecodeSpeedReady. run. sizes.
  rewrite (u16_small (size (sr_Addr m))), !join_u16, join_u32 by done.
  autorewrite with tq. rewrite assign_all by done. cbn [mbind mem_bind].
  fail_guards. by destruct m.
Qed.

Lemma speed_ready_canonical d out m :
  bytes_ok d -> TqDecodeSpeedReady (Some d) out = Val (true, m) ->
  wc_wf m /\ forall out', TqEncodeSpeedReady m out' = (true, d).
Proof.
  unfold TqDecodeSpeedReady. intros Hd Hm. accepted Hm frame d 13 as Hl.
  destruct (split_u32 b3 b4 b5 b6) as [Hs Es]; [done..|].
  destruct (split_u16 b8 b9) as [Hp Ep]; [done..|].
  destruct (split_u16 b10 b11) as [Hn En]; [done..|].
  rewrite assign_all in Hm by lia. cbn [mbind mem_bind] in Hm. guards Hm. simplify_eq.
  split; [done|]. intros out'. unfold TqEncodeSpeedReady.
  match goal with H : ValidateSpeedReady _ = true |- _ => rewrite H end. run.
  cbn [sr_SessionId sr_AddrType sr_Port sr_Addr negb].
  replace (size d) with (u16 (Z.lor (b10 ≪ 8) b11)) by lia. rewrite u16_u16. rebuild.
  autorewrite with tq. f_equal. apply Z.eqb_eq. sizes. lia.
Qed.

Lemma speed_ready_cmd d out m :
  TqDecodeSpeedReady (Some d) out = Val (true, m) ->
  exists c, d !! 3%nat = Some c /\ (c =? TQ_CMD_SPEED_READY) = true.
Proof. unfold TqDecodeSpeedReady. intros Hm. accepted Hm frame d 13 as Hl. by eexists. Qed.

#[export] Instance SpeedReady_laws : WireCodecLaws TqSpeedReady.
Proof.
  split; [exact speed_ready_safe | exact speed_ready_decode
         | exact speed_ready_canonical | exact speed_ready_cmd].
Qed.

#[export] Instance SpeedFinish_codec : WireCodec TqSpeedFinish := {
  wc_wf m := is_u32 (sf_SessionId m) /\ is_u64 (sf_ClientBytes m) /\
             is_u64 (sf_ClientElapsedUs m);
  wc_encode := TqEncodeSpeedFinish;
  wc_decode := TqDecodeSpeedFinish;
  wc_cmd c := c =? TQ_CMD_SPEED_FINISH }.

Lemma speed_finish_safe data out : exists r, TqDecodeSpeedFinish data out = Val r.
Proof.
  destruct data as [d|]; [|by eexists]. unfold TqDecodeSpeedFinish.
  open_frame d 24 as Hl. pass_guards. by eexists.
Qed.

Lemma speed_finish_decode m out out' d :
  wc_wf m -> TqEncodeSpeedFinish m out = (true, d) ->
  TqDecodeSpeedFinish (Some d) out' = Val (true, m).
Proof.
  intros (H1 & H2 & H3) He. unfold TqEncodeSpeedFinish in He. simplify_eq.
  unfold TqDecodeSpeedFinish. run. rewrite join_u32, !join_u64 by done.
  fail_guards. by destruct m.
Qed.

Lemma speed_finish_canonical d out m :
  bytes_ok d -> TqDecodeSpeedFinish (Some d) out = Val (true, m) ->
  wc_wf m /\ forall out', TqEncodeSpeedFinish m out' = (true, d).
Proof.
  unfold TqDecodeSpeedFinish. intros Hd Hm. accepted Hm frame d 24 as Hl.
  assert (d = []) as -> by (apply size_0; lia).
  destruct (split_u32 b3 b4 b5 b6) as [Hs Es]; [done..|].
  destruct (split_u64 b7 b8 b9 b10 b11 b12 b13 b14) as [Hb Eb]; [done..|].
  destruct (split_u64 b15 b16 b17 b18 b19 b20 b21 b22) as [Hu Eu]; [done..|]. simplify_eq.
  split; [done|]. intros out'. unfold TqEncodeSpeedFinish. run.
  cbn [sf_SessionId sf_ClientBytes sf_ClientElapsedUs]. by rebuild.
Qed.

Lemma speed_finish_cmd d out m :
  TqDecodeSpeedFinish (Some d) out = Val (true, m) ->
  exists c, d !! 3%nat = Some c /\ (c =? TQ_CMD_SPEED_FINISH) = true.
Proof. unfold TqDecodeSpeedFinish. intros Hm. accepted Hm frame d 24 as Hl. by eexists. Qed.

#[export] Instance SpeedFinish_laws : WireCodecLaws TqSpeedFinish.
Proof.
  split; [exact speed_finish_safe | exact speed_finish_decode
         | exact speed_finish_canonical | exact speed_finish_cmd].
Qed.

#[export] Instance SpeedResult_codec : WireCodec TqSpeedResult := {
  wc_wf m := is_u32 (st_SessionId m) /\ is_u64 (st_ServerBytes m) /\
             is_u64 (st_ServerElapsedUs m) /\ is_u32 (st_AcceptedConnections m) /\
             is_u32 (st_ClosedConnections m) /\ is_u8 (st_Status m);
  wc_encode := TqEncodeSpeedResult;
  wc_decode := TqDecodeSpeedResult;
  wc_cmd c := c =? TQ_CMD_SPEED_RESULT }.

Lemma speed_result_safe data out : exists r, TqDecodeSpeedResult data out = Val r.
Proof.
  destruct data as [d|]; [|by eexists]. unfold TqDecodeSpeedResult.
  open_frame d 33 as Hl. pass_guards. by eexists.
Qed.

Lemma speed_result_decode m out out' d :
  wc_wf m -> TqEncodeSpeedResult m out = (true, d) ->
  TqDecodeSpeedResult (Some d) out' = Val (true, m).
Proof.
  intros (H1 & H2 & H3 & H4 & H5 & H6) He. unfold TqEncodeSpeedResult in He. simplify_eq.
  unfold TqDecodeSpeedResult. run. rewrite !join_u32, !join_u64 by done.
  fail_guards. by destruct m.
Qed.

Lemma speed_result_canonical d out m :
  bytes_ok d -> TqDecodeSpeedResult (Some d) out = Val (true, m) ->
  wc_wf m /\ forall out', TqEncodeSpeedResult m out' = (true, d).
Proof.
  unfold TqDecodeSpeedResult. intros Hd Hm. accepted Hm frame d 33 as Hl.
  assert (d = []) as -> by (apply size_0; lia).
  destruct (split_u32 b3 b4 b5 b6) as [Hs Es]; [done..|].
  destruct (split_u64 b7 b8 b9 b10 b11 b12 b13 b14) as [Hb Eb]; [done..|].
  destruct (split_u64 b15 b16 b17 b18 b19 b20 b21 b22) as [Hu Eu]; [done..|].
  destruct (split_u32 b23 b24 b25 b26) as [Ha Ea]; [done..|].
  destruct (split_u32 b27 b28 b29 b30) as [Hc Ec]; [done..|]. simplify_eq.
  split; [done|]. intros out'. unfold TqEncodeSpeedResult. run.
  cbn [st_SessionId st_ServerBytes st_ServerElapsedUs st_AcceptedConnections
       st_ClosedConnections st_Status]. by rebuild.
Qed.

Lemma speed_result_cmd d out m :
  TqDecodeSpeedResult (Some d) out = Val (true, m) ->
  exists c, d !! 3%nat = Some c /\ (c =? TQ_CMD_SPEED_RESULT) = true.
Proof. unfold TqDecodeSpeedResult. intros Hm. accepted Hm frame d 33 as Hl. by eexists. Qed.

#[export] Instance SpeedResult_laws : WireCodecLaws TqSpeedResult.
Proof.
  split; [exact speed_result_safe | exact speed_result_decode
         | exact speed_result_canonical | exact speed_result_cmd].
Qed.

#[export] Instance SpeedError_codec : WireCodec TqSpeedErrorMessage := {
  wc_wf m := is_u32 (se_SessionId m) /\ is_u8 (se_Error m) /\ bytes_ok (se_Message m);
  wc_encode := TqEncodeSpeedError;
  wc_decode := TqDecodeSpeedError;
  wc_cmd c := c =? TQ_CMD_SPEED_ERROR }.

Lemma speed_error_safe data out : exists r, TqDecodeSpeedError data out = Val r.
Proof.
  destruct data as [d|]; [|by eexists]. unfold TqDecodeSpeedError.
  open_frame d 11 as Hl. pass_guards. autorewrite with tq. copies.
  pass_guards. by eexists.
Qed.

Lemma speed_error_decode m out out' d :
  wc_wf m -> TqEncodeSpeedError m out = (true, d) ->
  TqDecodeSpeedError (Some d) out' = Val (true, m).
Proof.
  intros (H1 & H2 & H3) He. unfold TqEncodeSpeedError in He. guards He. simplify_eq.
  match goal with H : ValidateSpeedError m = true |- _ =>
    rename H into Hv; apply andb_true_iff in Hv as [Hc Hs] end.
  sizes. to_prop. unfold TqDecodeSpeedError. run. sizes.
  rewrite (u16_small (size (se_Message m))), join_u16, join_u32 by widths.
  autorewrite with tq. rewrite assign_all by done. cbn [mbind mem_bind].
  fail_guards. by destruct m.
Qed.

Lemma speed_error_canonical d out m :
  bytes_ok d -> TqDecodeSpeedError (Some d) out = Val (true, m) ->
  wc_wf m /\ forall out', TqEncodeSpeedError m out' = (true, d).
Proof.
  unfold TqDecodeSpeedError. intros Hd Hm. accepted Hm frame d 11 as Hl.
  destruct (split_u32 b3 b4 b5 b6) as [Hs Es]; [done..|].
  destruct (split_u16 b8 b9) as [Hn En]; [done..|].
  rewrite assign_all in Hm by lia. cbn [mbind mem_bind] in Hm. simplify_eq.
  split; [done|]. intros out'. unfold TqEncodeSpeedError, ValidateSpeedError. run.
  cbn [se_SessionId se_Error se_Message]. sizes.
  match goal with H : IsValidSpeedErrorFrameCode _ = true |- _ => rewrite H end.
  rewrite (proj2 (Z.leb_le (size d) 1024)) by lia. cbn [negb andb].
  replace (size d) with (u16 (Z.lor (b8 ≪ 8) b9)) by lia. rewrite u16_u16. rebuild.
  autorewrite with tq. f_equal. apply Z.eqb_eq. lia.
Qed.

Lemma speed_error_cmd d out m :
  TqDecodeSpeedError (Some d) out = Val (true, m) ->
  exists c, d !! 3%nat = Some c /\ (c =? TQ_CMD_SPEED_ERROR) = true.
Proof. unfold TqDecodeSpeedError. intros Hm. accepted Hm frame d 11 as Hl. by eexists. Qed.

#[export] Instance SpeedError_laws : WireCodecLaws TqSpeedErrorMessage.
Proof.
  split; [exact speed_error_safe | exact speed_error_decode
         | exact speed_error_canonical | exact speed_error_cmd].
Qed.

(** ** Claims *)

Definition memory_safe (M : Type) `{WireCodec M} : Prop :=
  forall data out, exists r, wc_decode data out = Val r.

(** Every message the encoder accepts is read back, whatever the caller's objects held. *)
Definition round_trips (M : Type) `{WireCodec M} : Prop :=
  forall (m : M) out out' d,
    wc_wf m -> wc_encode m out = (true, d) -> wc_decode (Some d) out' = Val (true, m).

(** Every frame the decoder accepts is the one frame of the message it returns. *)
Definition canonical (M : Type) `{WireCodec M} : Prop :=
  forall d (out m : M),
    bytes_ok d -> wc_decode (Some d) out = Val (true, m) ->
    wc_wf m /\ forall out', wc_encode m out' = (true, d).

(** The decoder leaves the caller's object alone when it rejects. *)
Definition reject_keeps_out (M : Type) `{WireCodec M} : Prop :=
  forall data (out m : M), wc_decode data out = Val (false, m) -> m = out.

Definition accepts (M : Type) `{WireCodec M} (d : bytes) : Prop :=
  exists (out m : M), wc_decode (Some d) out = Val (true, m).

Lemma accepts_cmd M `{WireCodecLaws M} d :
  accepts M d -> exists c, d !! 3%nat = Some c /\ wc_cmd c = true.
Proof. intros (out & m & Hm). by eapply wc_decode_cmd. Qed.

(** Two frame types with no command in common never accept the same frame. *)
Lemma accepts_disjoint M1 M2 `{WireCodecLaws M1} `{WireCodecLaws M2} d :
  (forall c, wc_cmd (M := M1) c = true -> wc_cmd (M := M2) c = true -> False) ->
  accepts M1 d -> accepts M2 d -> False.
Proof.
  intros Hdis Ha1 Ha2. destruct (accepts_cmd M1 d Ha1) as (c1 & Hc1 & E1).
  destruct (accepts_cmd M2 d Ha2) as (c2 & Hc2 & E2). simplify_eq. by eapply Hdis.
Qed.

(** The frame types, and which of them a buffer is accepted as. *)
Inductive frame_kind :=
| KOpenRequest | KOpenResponse | KClientHello | KSpeedStart | KSpeedReady | KSpeedFinish
| KSpeedResult | KSpeedError.

Definition accepted_as (k : frame_kind) (d : bytes) : Prop :=
  match k with
  | KOpenRequest => accepts TqOpenRequest d
  | KOpenResponse => accepts TqOpenResponse d
  | KClientHello => accepts TqClientHello d
  | KSpeedStart => accepts TqSpeedStart d
  | KSpeedReady => accepts TqSpeedReady d
  | KSpeedFinish => accepts TqSpeedFinish d
  | KSpeedResult => accepts TqSpeedResult d
  | KSpeedError => accepts TqSpeedErrorMessage d
  end.

Ltac disjoint_cmds :=
  refine (accepts_disjoint _ _ _ _); simpl;
  intros c Hc1 Hc2; repeat (apply orb_true_iff in Hc1 as [Hc1|Hc1] || to_prop);
  repeat (apply orb_true_iff in Hc2 as [Hc2|Hc2] || to_prop); subst; done.

(** A decoder that stores into a local and assigns [out] last, on a frame it rejected. *)
Tactic Notation "rejected" hyp(H) "frame" ident(d) int_or_var(n) "as" ident(Hl) :=
  match type of H with
  | (if ?c then _ else _) = _ => destruct c eqn:Hl; [by inversion H|]
  end;
  cbn [null_or_shorter null_or_not_len] in Hl; sizes; to_prop; do n peel d Hl; run;
  repeat match type of H with
         | (if ?c then _ else _) = _ => destruct c; [by inversion H|]
         | assign ?l ?o ?n ≫= _ = _ => destruct (assign l o n); [cbn [mbind mem_bind] in H|done]
         end; by inversion H.

Tactic Notation "keeps_out" constr(f) ident(d) int_or_var(n) :=
  intros [d|] out m Hm; [|by inversion Hm];
  simpl in Hm; cbv delta [f] in Hm; cbv beta in Hm; rejected Hm frame d n as Hl.

(** A valid open request, with its fields in their widths, is encoded, its frame has
    the length the header says, and decoding that frame into any object succeeds and gives
    the request back. *)
Theorem open_request_roundtrip (m out' : TqOpenRequest) (out : bytes) :
  is_u8 (or_Flags m) -> is_u8 (or_AddrType m) -> is_u16 (or_Port m) -> bytes_ok (or_Addr m) ->
  ValidateAddr m = true ->
  exists d, TqEncodeOpenRequest m out = (true, d) /\ size d = 11 + size (or_Addr m) /\
            TqDecodeOpenRequest (Some d) out' = Val (true, m).
Proof.
  intros Hf Ht Hp Ha Hv. eexists. split_and!.
  - unfold TqEncodeOpenRequest. by rewrite Hv.
  - run. autorewrite with tq. lia.
  - eapply open_request_decode; [done|]. unfold TqEncodeOpenRequest. by rewrite Hv.
  Unshelve. exact [].
Qed.

Definition sample_request : TqOpenRequest :=
  {| or_Flags := 4; or_AddrType := TQ_ADDR_DOMAIN; or_Port := 443; or_Addr := str "a.example" |}.

Lemma open_request_roundtrip_witness :
  exists d, TqEncodeOpenRequest sample_request [7; 7] = (true, d) /\ size d = 20 /\
            TqDecodeOpenRequest (Some d) sample_request = Val (true, sample_request).
Proof.
  apply (open_request_roundtrip sample_request sample_request [7; 7]);
    [| | |apply str_ok|reflexivity]; vm_compute; split; (discriminate || reflexivity).
Defined.

(** C3.  Every frame type of the protocol round-trips: whatever an encoder accepts, the
    decoder of the same type reads back as the same message. *)
Theorem frames_round_trip :
  round_trips TqOpenRequest /\ round_trips TqOpenResponse /\ round_trips TqClientHello /\
  round_trips TqSpeedStart /\ round_trips TqSpeedReady /\ round_trips TqSpeedFinish /\
  round_trips TqSpeedResult /\ round_trips TqSpeedErrorMessage.
Proof. split_and!; intros m out out' d; apply wc_roundtrip. Qed.

(** C4.  No decoder reads outside the received buffer, whatever bytes and however many the
    peer sent, a null pointer included. *)
Theorem decoders_memory_safe :
  memory_safe TqOpenRequest /\ memory_safe TqOpenResponse /\ memory_safe TqClientHello /\
  memory_safe TqSpeedStart /\ memory_safe TqSpeedReady /\ memory_safe TqSpeedFinish /\
  memory_safe TqSpeedResult /\ memory_safe TqSpeedErrorMessage.
Proof. split_and!; intros data out; apply wc_safe. Qed.

(** C5.  Every frame type is canonical: a frame a decoder accepts is exactly what the encoder
    produces for the message decoded, so no two frames decode to one message, and the message
    has its fields in their widths. *)
Theorem frames_canonical :
  canonical TqOpenRequest /\ canonical TqOpenResponse /\ canonical TqClientHello /\
  canonical TqSpeedStart /\ canonical TqSpeedReady /\ canonical TqSpeedFinish /\
  canonical TqSpeedResult /\ canonical TqSpeedErrorMessage.
Proof. split_and!; intros d out m; apply wc_canonical. Qed.

(** The command byte separates the frame types: a buffer is accepted as at most one of
    the eight. *)
Theorem frame_kind_unique d k1 k2 : accepted_as k1 d -> accepted_as k2 d -> k1 = k2.
Proof.
  destruct k1, k2; simpl; try done; intros H1 H2; exfalso; revert H1 H2; disjoint_cmds.
Qed.

Lemma frame_kind_unique_witness :
  KClientHello = KClientHello /\ accepted_as KClientHello [84; 81; 1; 32; 0; 2; 110; 49].
Proof.
  assert (accepted_as KClientHello [84; 81; 1; 32; 0; 2; 110; 49]) as H.
  { exists {| ch_ClientName := [] |}, {| ch_ClientName := [110; 49] |}. vm_compute. reflexivity. }
  split; [exact (frame_kind_unique _ _ _ H H) | exact H].
Defined.

(** The client-hello and the speed-test decoders leave the caller's object unchanged
    when they reject a frame; the open-request decoder does not: it has already stored the
    fields of a frame whose trailing byte it then refuses. *)
Theorem rejection_and_the_out_object :
  reject_keeps_out TqClientHello /\ reject_keeps_out TqSpeedStart /\
  reject_keeps_out TqSpeedReady /\ reject_keeps_out TqSpeedFinish /\
  reject_keeps_out TqSpeedResult /\ reject_keeps_out TqSpeedErrorMessage /\
  ~ reject_keeps_out TqOpenRequest.
Proof.
  split_and!; [keeps_out TqDecodeClientHello d 6 | keeps_out TqDecodeSpeedStart d 16
             | keeps_out TqDecodeSpeedReady d 13 | keeps_out TqDecodeSpeedFinish d 24
             | keeps_out TqDecodeSpeedResult d 33 | keeps_out TqDecodeSpeedError d 11 |].
  intros Hk.
  pose (z := {| or_Flags := 0; or_AddrType := 0; or_Port := 0; or_Addr := [] |}).
  specialize (Hk (Some [84; 81; 1; 1; 4; 3; 0; 80; 0; 1; 97; 9]) z
    {| or_Flags := 4; or_AddrType := 3; or_Port := 80; or_Addr := [97] |}).
  by specialize (Hk ltac:(vm_compute; reflexivity)).
Qed.
