(* ===== verification/Acl.v ===== *)
(** The target ACL (src/src/acl): CIDR parsing, prefix matching, and the filter that decides
    which resolved addresses a tunnel may be dialled to.  [inet_pton] and [getaddrinfo] are
    parameters: the C library's, of which only the documented result sizes are used. *)

From stdpp Require Import base list strings numbers.
From Stdlib Require Import ZArith Lia.
From S2P Require Import Prelude.

(** The address families the sources compare; their numeric values do not matter. *)
Inductive family := AF_UNSPEC | AF_INET | AF_INET6 | AF_OTHER.

#[export] Instance family_eq_dec : EqDecision family.
Proof. solve_decision. Defined.

Record ParsedCidr := { pc_Family : family; pc_Addr : bytes; pc_PrefixLen : Z }.

(** What the sources read and write of a [sockaddr_storage]: the family, the port in network
    order ([sin_port] and [sin6_port] are the same two bytes), the address of each overlay,
    and the remaining bytes, which are copied along. *)
Record sockaddr_storage := {
  ss_family : family; ss_port : bytes; ss_in_addr : bytes; ss_in6_addr : bytes;
  ss_rest : bytes }.

Record TqAcl := { AllowCidrs : list bytes; DenyCidrs : list bytes }.

(** One entry of the list [getaddrinfo] returns. *)
Record addrinfo := { ai_addrlen : Z; ai_addr : sockaddr_storage }.

Definition sizeof_sockaddr_storage : Z := 128.

Definition ParsePrefix (s : bytes) : option Z :=
  match s with
  | [] => None
  | _ => dec_loop 128 s 0
  end.

(** [addrBytes[i]] and [network[i]] of a [uint8_t[16]]. *)
Definition at_ (a : bytes) (i : nat) : Z := nth i a 0.

(** The loop over whole bytes, [i] from [i] for [n] more iterations. *)
Fixpoint match_full_bytes (byteCount : nat) (addrBytes network : bytes) (i n : nat) : bool :=
  match n with
  | O => true
  | S n' =>
      if (byteCount <=? i)%nat then false
      else if negb (at_ addrBytes i =? at_ network i) then false
      else match_full_bytes byteCount addrBytes network (S i) n'
  end.

Definition IpMatchesCidr (fam : family) (addrBytes : bytes) (cidr : ParsedCidr) : bool :=
  if negb (bool_decide (fam = pc_Family cidr)) then false
  else
    let byteCount := if bool_decide (fam = AF_INET) then 4%nat else 16%nat in
    let network := pc_Addr cidr in
    let prefix := pc_PrefixLen cidr in
    let fullBytes := Z.to_nat (prefix / 8) in
    let remBits := prefix mod 8 in
    if negb (match_full_bytes byteCount addrBytes network 0 fullBytes) then false
    else if remBits =? 0 then true
    else if (byteCount <=? fullBytes)%nat then false
    else
      let mask := u8 (Z.shiftl 0xFF (8 - remBits)) in
      Z.land (at_ addrBytes fullBytes) mask =? Z.land (at_ network fullBytes) mask.

(** [memset] to zero and the four or sixteen address bytes copied in front. *)
Definition ExtractIpBytes (ss : sockaddr_storage) : option (family * bytes) :=
  match ss_family ss with
  | AF_INET => Some (AF_INET, ss_in_addr ss ++ replicate 12 0)
  | AF_INET6 => Some (AF_INET6, ss_in6_addr ss)
  | _ => None
  end.

Definition SetSockaddrPort (ss : sockaddr_storage) (port : Z) : sockaddr_storage :=
  let netPort := [port / 256; port mod 256] in
  match ss_family ss with
  | AF_INET | AF_INET6 =>
      {| ss_family := ss_family ss; ss_port := netPort; ss_in_addr := ss_in_addr ss;
         ss_in6_addr := ss_in6_addr ss; ss_rest := ss_rest ss |}
  | _ => ss
  end.

Definition IpBytesAllowed (fam : family) (addr : bytes) (deny allow : list ParsedCidr) : bool :=
  if existsb (IpMatchesCidr fam addr) deny then false
  else match allow with
       | [] => false
       | _ => existsb (IpMatchesCidr fam addr) allow
       end.

(** The first loop: an extractable candidate that a deny entry matches ends the evaluation. *)
Definition candidate_denied (deny : list ParsedCidr) (candidate : sockaddr_storage) : bool :=
  match ExtractIpBytes candidate with
  | None => false
  | Some (fam, addr) => existsb (IpMatchesCidr fam addr) deny
  end.

(** The second loop keeps the candidates an allow entry matches. *)
Definition candidate_allowed (allow : list ParsedCidr) (candidate : sockaddr_storage) : bool :=
  match ExtractIpBytes candidate with
  | None => false
  | Some (fam, addr) => IpBytesAllowed fam addr [] allow
  end.

Definition EvaluateCandidates (deny allow : list ParsedCidr)
    (candidates : list sockaddr_storage) : bool * list sockaddr_storage :=
  match allow with
  | [] => (false, [])
  | _ =>
      if existsb (candidate_denied deny) candidates then (false, [])
      else
        let outAllowed := List.filter (candidate_allowed allow) candidates in
        (match outAllowed with [] => false | _ => true end, outAllowed)
  end.

Section WithLibc.
(** [TqInetPton(AF_INET, text, &v4)] and [TqInetPton(AF_INET6, text, &v6)]: the bytes
    stored on success. *)
Context (inet_pton4 inet_pton6 : bytes -> option bytes).
(** [getaddrinfo(host, port_str, &hints, &result)]: the result list, [None] on error. *)
Context (getaddrinfo : bytes -> Z -> option (list addrinfo)).

Definition ParseCidr (cidr : bytes) : option ParsedCidr :=
  match find_char cidr 47 0 with
  | None => None
  | Some slash =>
      let addrStr := substr cidr 0 slash in
      match ParsePrefix (substr_from cidr (slash + 1)) with
      | None => None
      | Some prefix =>
          match inet_pton4 (c_str addrStr) with
          | Some v4 =>
              if (prefix <? 0) || (32 <? prefix) then None
              else Some {| pc_Family := AF_INET; pc_Addr := v4 ++ replicate 12 0;
                           pc_PrefixLen := u8 prefix |}
          | None =>
              match inet_pton6 (c_str addrStr) with
              | Some v6 =>
                  if (prefix <? 0) || (128 <? prefix) then None
                  else Some {| pc_Family := AF_INET6; pc_Addr := v6;
                               pc_PrefixLen := u8 prefix |}
              | None => None
              end
          end
      end
  end.

Definition ParseCidrList (cidrs : list bytes) : list ParsedCidr := omap ParseCidr cidrs.

(** The result and the error text. *)
Fixpoint TqValidateCidrList (cidrs : list bytes) : bool * bytes :=
  match cidrs with
  | [] => (true, [])
  | cidr :: rest =>
      match cidr with
      | [] => (false, str "empty CIDR entry")
      | _ =>
          match ParseCidr cidr with
          | None => (false, str "invalid CIDR: " ++ cidr)
          | Some _ => TqValidateCidrList rest
          end
      end
  end.

Definition ParseIpLiteral (host : bytes) : option sockaddr_storage :=
  match inet_pton4 (c_str host) with
  | Some v4 =>
      Some {| ss_family := AF_INET; ss_port := [0; 0]; ss_in_addr := v4;
              ss_in6_addr := replicate 16 0; ss_rest := [] |}
  | None =>
      match inet_pton6 (c_str host) with
      | Some v6 =>
          Some {| ss_family := AF_INET6; ss_port := [0; 0]; ss_in_addr := replicate 4 0;
                  ss_in6_addr := v6; ss_rest := [] |}
      | None => None
      end
  end.

Definition IsAllowed (acl : TqAcl) (host : bytes) (port : Z) : bool :=
  match ParseIpLiteral host with
  | None => false
  | Some ss =>
      match ExtractIpBytes ss with
      | None => false
      | Some (fam, addr) =>
          IpBytesAllowed fam addr (ParseCidrList (DenyCidrs acl)) (ParseCidrList (AllowCidrs acl))
      end
  end.

Definition TqAclFilterResolvedAddresses (acl : TqAcl) (candidates : list sockaddr_storage)
    (port : Z) : bool * list sockaddr_storage :=
  match EvaluateCandidates (ParseCidrList (DenyCidrs acl)) (ParseCidrList (AllowCidrs acl))
          candidates with
  | (false, _) => (false, [])
  | (true, out) => (true, map (fun a => SetSockaddrPort a port) out)
  end.

Definition TqAclResolveAndFilter (acl : TqAcl) (host : bytes) (port : Z)
    : bool * list sockaddr_storage :=
  let deny := ParseCidrList (DenyCidrs acl) in
  let allow := ParseCidrList (AllowCidrs acl) in
  match ParseIpLiteral host with
  | Some literal =>
      match EvaluateCandidates deny allow [SetSockaddrPort literal port] with
      | (false, _) => (false, [])
      | (true, out) => (true, map (fun a => SetSockaddrPort a port) out)
      end
  | None =>
      match getaddrinfo (c_str host) port with
      | None => (false, [])
      | Some result =>
          let candidates :=
            map ai_addr (List.filter (fun ai => ai_addrlen ai <=? sizeof_sockaddr_storage) result) in
          match candidates with
          | [] => (false, [])
          | _ =>
              match EvaluateCandidates deny allow candidates with
              | (false, _) => (false, [])
              | (true, out) => (true, map (fun a => SetSockaddrPort a port) out)
              end
          end
      end
  end.
End WithLibc.

(** ** Prefix matching against the definition of a CIDR block *)

(** Bit [i] of an address, counted from the most significant bit of its first byte. *)
Definition addr_bit (a : bytes) (i : nat) : bool :=
  Z.testbit (at_ a (i / 8)) (7 - Z.of_nat (i mod 8)).

(** A CIDR block holds the addresses of its family that agree with it on the first
    [PrefixLen] bits. *)
Definition in_cidr (fam : family) (a : bytes) (cidr : ParsedCidr) : Prop :=
  fam = pc_Family cidr /\
  forall i, (i < Z.to_nat (pc_PrefixLen cidr))%nat -> addr_bit a i = addr_bit (pc_Addr cidr) i.

(** The prefix lengths [ParseCidr] lets through. *)
Definition cidr_ok (cidr : ParsedCidr) : Prop :=
  0 <= pc_PrefixLen cidr <= (if bool_decide (pc_Family cidr = AF_INET) then 32 else 128) /\
  bytes_ok (pc_Addr cidr).

Lemma at_ok a i : bytes_ok a -> is_u8 (at_ a i).
Proof.
  unfold at_. intros Ha. destruct (nth_in_or_default i a 0) as [Hi| ->]; [|done].
  by apply (proj1 (List.Forall_forall is_u8 a)).
Qed.

Lemma testbit_u8_high x k : is_u8 x -> 8 <= k -> Z.testbit x k = false.
Proof.
  unfold is_u8. intros Hx Hk. rewrite <- (Z.mod_small x (2 ^ 8)) by lia.
  apply Z.mod_pow2_bits_high. lia.
Qed.

Lemma byte_eq_bits x y :
  is_u8 x -> is_u8 y ->
  x = y <-> (forall k, 0 <= k < 8 -> Z.testbit x k = Z.testbit y k).
Proof.
  intros Hx Hy. split; [by intros ->|]. intros Hk. apply Z.bits_inj'. intros k Hk0.
  destruct (Z.lt_ge_cases k 8); [by apply Hk|]. by rewrite !testbit_u8_high.
Qed.

(** The mask keeps exactly the top [r] bits of a byte. *)
Lemma mask_bits r k :
  0 < r < 8 -> 0 <= k -> Z.testbit (u8 (Z.shiftl 0xFF (8 - r))) k = (8 - r <=? k) && (k <? 8).
Proof.
  intros Hr Hk. unfold u8. change 256 with (2 ^ 8). rewrite Z.testbit_mod_pow2 by lia.
  destruct (Z.ltb_spec k 8); [|by rewrite andb_false_r]. rewrite andb_true_r, andb_true_l.
  destruct (Z.leb_spec (8 - r) k).
  - rewrite Z.shiftl_spec by lia. change 255 with (Z.ones 8). apply Z.ones_spec_low. lia.
  - apply Z.shiftl_spec_low. lia.
Qed.

Lemma masked_eq_bits x y r :
  is_u8 x -> is_u8 y -> 0 < r < 8 ->
  Z.land x (u8 (Z.shiftl 0xFF (8 - r))) = Z.land y (u8 (Z.shiftl 0xFF (8 - r))) <->
  (forall k, 8 - r <= k < 8 -> Z.testbit x k = Z.testbit y k).
Proof.
  intros Hx Hy Hr. split.
  - intros He k Hk. apply (f_equal (fun z => Z.testbit z k)) in He.
    rewrite !Z.land_spec, mask_bits in He by lia.
    rewrite (proj2 (Z.leb_le _ _)), (proj2 (Z.ltb_lt k 8)) in He by lia.
    by rewrite !andb_true_r in He.
  - intros Hk. apply Z.bits_inj'. intros k Hk0. rewrite !Z.land_spec, mask_bits by lia.
    destruct (Z.leb_spec (8 - r) k); simpl; [|by rewrite !andb_false_r].
    destruct (Z.ltb_spec k 8); [|by rewrite !andb_false_r]. by rewrite Hk by lia.
Qed.

Lemma match_full_bytes_spec bc a net i n :
  (i + n <= bc)%nat ->
  match_full_bytes bc a net i n = true <->
  (forall j, (i <= j < i + n)%nat -> at_ a j = at_ net j).
Proof.
  revert i. induction n as [|n IH]; intros i Hi; simpl.
  { split; [intros _ j Hj; lia | done]. }
  destruct (Nat.leb_spec bc i); [lia|].
  destruct (Z.eqb_spec (at_ a i) (at_ net i)) as [Heq|Hne]; simpl.
  - rewrite IH by lia. split.
    + intros Hj j ?. destruct (decide (j = i)) as [->|]; [done|]. apply Hj. lia.
    + intros Hj j ?. apply Hj. lia.
  - split; [done|]. intros Hj. destruct Hne. apply Hj. lia.
Qed.

(** A prefix of [8 * q + r] bits is [q] whole bytes and the top [r] bits of the next. *)
Lemma prefix_bits a net q r :
  bytes_ok a -> bytes_ok net -> (r < 8)%nat ->
  (forall i, (i < 8 * q + r)%nat -> addr_bit a i = addr_bit net i) <->
  (forall j, (j < q)%nat -> at_ a j = at_ net j) /\
  (forall k, 8 - Z.of_nat r <= k < 8 -> Z.testbit (at_ a q) k = Z.testbit (at_ net q) k).
Proof.
  intros Ha Hn Hr. unfold addr_bit.
  assert (Hat : forall j k, 0 <= k < 8 ->
    ((8 * j + Z.to_nat (7 - k)) / 8 = j)%nat /\
    7 - Z.of_nat ((8 * j + Z.to_nat (7 - k)) mod 8) = k).
  { intros j k Hk. split.
    - symmetry. apply Nat.div_unique with (r := Z.to_nat (7 - k)); lia.
    - rewrite <- (Nat.mod_unique _ 8 j (Z.to_nat (7 - k))); lia. }
  split.
  - intros Hb. split.
    + intros j Hj. apply byte_eq_bits; [by apply at_ok..|]. intros k Hk.
      destruct (Hat j k Hk) as [H1 H2]. specialize (Hb (8 * j + Z.to_nat (7 - k))%nat).
      rewrite H1, H2 in Hb. apply Hb. lia.
    + intros k Hk. destruct (Hat q k) as [H1 H2]; [lia|].
      specialize (Hb (8 * q + Z.to_nat (7 - k))%nat). rewrite H1, H2 in Hb. apply Hb. lia.
  - intros [Hfull Hrem] i Hi.
    pose proof (Nat.div_mod_eq i 8) as Hdm. pose proof (Nat.mod_upper_bound i 8).
    destruct (decide (i / 8 < q)%nat) as [Hlt|Hge]; [by rewrite Hfull|].
    assert ((i / 8)%nat = q) as -> by lia. apply Hrem. lia.
Qed.

Lemma IpMatchesCidr_in_cidr fam a cidr :
  bytes_ok a -> cidr_ok cidr -> IpMatchesCidr fam a cidr = true <-> in_cidr fam a cidr.
Proof.
  intros Ha [Hp Hn]. unfold IpMatchesCidr, in_cidr.
  destruct (decide (fam = pc_Family cidr)) as [->|Hf].
  2:{ rewrite bool_decide_eq_false_2 by done. simpl. split; [done|]. intros [? _]. done. }
  rewrite bool_decide_eq_true_2 by done. simpl negb. cbv iota.
  set (bc := if bool_decide (pc_Family cidr = AF_INET) then 4%nat else 16%nat) in *.
  set (p := pc_PrefixLen cidr) in *.
  assert (Hbc : 0 <= p <= 8 * Z.of_nat bc) by (subst bc; case_bool_decide; lia).
  pose proof (Z.div_mod p 8 ltac:(lia)) as Hdm. pose proof (Z.mod_pos_bound p 8 ltac:(lia)).
  assert (Hq : 0 <= p / 8 <= Z.of_nat bc) by dlia.
  replace (Z.to_nat p) with (8 * Z.to_nat (p / 8) + Z.to_nat (p mod 8))%nat by lia.
  rewrite prefix_bits by (done || lia). rewrite (Z2Nat.id (p mod 8)) by lia.
  pose proof (match_full_bytes_spec bc a (pc_Addr cidr) 0 (Z.to_nat (p / 8))) as Hm.
  destruct (match_full_bytes _ _ _ _ _) eqn:Hfull; simpl.
  2:{ split; [done|]. intros (_ & Hj & _). apply Hm; [lia|]. intros; apply Hj; lia. }
  assert (Hj : forall j, (j < Z.to_nat (p / 8))%nat -> at_ a j = at_ (pc_Addr cidr) j).
  { intros j Hlt. apply (proj1 (Hm ltac:(lia)) eq_refl). lia. }
  destruct (Z.eqb_spec (p mod 8) 0) as [->|Hr].
  { split; [|done]. intros _. split_and!; [done|done|]. intros; lia. }
  destruct (Nat.leb_spec bc (Z.to_nat (p / 8))); [dlia|].
  rewrite Z.eqb_eq, masked_eq_bits by (lia || by apply at_ok). tauto.
Qed.

(** ** What the parameters promise *)

(** [inet_pton] stores a [struct in_addr] of four bytes or a [struct in6_addr] of sixteen. *)
Class InetPton (inet_pton4 inet_pton6 : bytes -> option bytes) := {
  inet_pton4_size s v : inet_pton4 s = Some v -> length v = 4%nat /\ bytes_ok v;
  inet_pton6_size s v : inet_pton6 s = Some v -> length v = 16%nat /\ bytes_ok v }.

(** The address bytes a socket address holds are bytes, four and sixteen of them. *)
Definition sockaddr_ok (ss : sockaddr_storage) : Prop :=
  length (ss_in_addr ss) = 4%nat /\ bytes_ok (ss_in_addr ss) /\
  length (ss_in6_addr ss) = 16%nat /\ bytes_ok (ss_in6_addr ss).

(** [getaddrinfo] returns well-formed socket addresses. *)
Class GetAddrInfo (getaddrinfo : bytes -> Z -> option (list addrinfo)) := {
  getaddrinfo_ok host port l :
    getaddrinfo host port = Some l -> Forall (fun ai => sockaddr_ok (ai_addr ai)) l }.

(** ** The decision, abstractly *)

(** Deny wins over allow, and nothing is allowed by default. *)
Definition permitted (deny allow : list ParsedCidr) (ss : sockaddr_storage) : Prop :=
  exists fam addr, ExtractIpBytes ss = Some (fam, addr) /\
    Forall (fun c => ~ in_cidr fam addr c) deny /\ Exists (in_cidr fam addr) allow.

Definition denied (deny : list ParsedCidr) (ss : sockaddr_storage) : Prop :=
  exists fam addr, ExtractIpBytes ss = Some (fam, addr) /\ Exists (in_cidr fam addr) deny.

Lemma ExtractIpBytes_ok ss fam addr :
  sockaddr_ok ss -> ExtractIpBytes ss = Some (fam, addr) -> bytes_ok addr.
Proof.
  intros (_ & H4 & _ & H6) He. unfold ExtractIpBytes in He. cases_in He.
  apply bytes_ok_app. split; [done|]. by apply (bool_decide_unpack _).
Qed.

Lemma existsb_in_cidr fam addr cs :
  bytes_ok addr -> Forall cidr_ok cs ->
  existsb (IpMatchesCidr fam addr) cs = true <-> Exists (in_cidr fam addr) cs.
Proof.
  intros Ha. induction 1 as [|c cs Hc Hcs IH]; simpl; [by rewrite Exists_nil|].
  by rewrite orb_true_iff, Exists_cons, IH, IpMatchesCidr_in_cidr.
Qed.

Lemma candidate_denied_spec deny ss :
  sockaddr_ok ss -> Forall cidr_ok deny -> candidate_denied deny ss = true <-> denied deny ss.
Proof.
  intros Hss Hd. unfold candidate_denied, denied.
  destruct (ExtractIpBytes ss) as [[fam addr]|] eqn:He; [|naive_solver].
  rewrite existsb_in_cidr by eauto using ExtractIpBytes_ok. naive_solver.
Qed.

Lemma IpBytesAllowed_spec fam addr deny allow :
  bytes_ok addr -> Forall cidr_ok deny -> Forall cidr_ok allow ->
  IpBytesAllowed fam addr deny allow = true <->
  Forall (fun c => ~ in_cidr fam addr c) deny /\ Exists (in_cidr fam addr) allow.
Proof.
  intros Ha Hd Hal. rewrite <- (existsb_in_cidr fam addr allow) by done.
  rewrite List.Forall_Exists_neg, <- (existsb_in_cidr fam addr deny) by done.
  unfold IpBytesAllowed. destruct (existsb _ deny), allow; naive_solver.
Qed.

(** A candidate that survives both loops is permitted. *)
Lemma candidate_allowed_spec deny allow ss :
  sockaddr_ok ss -> Forall cidr_ok deny -> Forall cidr_ok allow ->
  candidate_denied deny ss = false ->
  candidate_allowed allow ss = true <-> permitted deny allow ss.
Proof.
  intros Hss Hd Hal Hnd. unfold candidate_denied, candidate_allowed, permitted in *.
  destruct (ExtractIpBytes ss) as [[fam addr]|] eqn:He; [|naive_solver].
  assert (Ha : bytes_ok addr) by eauto using ExtractIpBytes_ok.
  rewrite IpBytesAllowed_spec by (done || constructor).
  assert (Hn : Forall (fun c => ~ in_cidr fam addr c) deny).
  { rewrite List.Forall_Exists_neg, <- existsb_in_cidr by done. by rewrite Hnd. }
  naive_solver.
Qed.

(** [EvaluateCandidates] on every branch. *)
Lemma EvaluateCandidates_spec deny allow cands ok out :
  Forall sockaddr_ok cands -> Forall cidr_ok deny -> Forall cidr_ok allow ->
  EvaluateCandidates deny allow cands = (ok, out) ->
  (Exists (denied deny) cands -> ok = false /\ out = []) /\
  (~ Exists (denied deny) cands ->
     (forall ss, In ss out <-> In ss cands /\ permitted deny allow ss) /\
     (ok = true <-> Exists (permitted deny allow) cands)).
Proof.
  intros Hc Hd Hal He.
  assert (Hden : existsb (candidate_denied deny) cands = true <-> Exists (denied deny) cands).
  { rewrite existsb_exists, List.Exists_exists. rewrite List.Forall_forall in Hc.
    split; intros (ss & Hin & H); exists ss; split; auto; by apply candidate_denied_spec; auto. }
  unfold EvaluateCandidates in He. destruct allow as [|a allow'] eqn:Hallow.
  { simplify_eq. split; [done|]. intros _. unfold permitted.
    assert (Hno : forall ss, ~ (exists fam addr, ExtractIpBytes ss = Some (fam, addr) /\
              Forall (fun c => ~ in_cidr fam addr c) deny /\ Exists (in_cidr fam addr) [])).
    { intros ss (? & ? & _ & _ & H). by apply Exists_nil in H. }
    split; [naive_solver|]. rewrite List.Exists_exists. naive_solver. }
  rewrite <- Hallow in *. destruct (existsb (candidate_denied deny) cands) eqn:Hb.
  { simplify_eq. split; [done|]. intros Hn. exfalso. apply Hn, Hden. done. }
  split; [intros Hx; apply Hden in Hx; discriminate|]. intros Hn.
  assert (Hin : forall ss, In ss (List.filter (candidate_allowed allow) cands) <->
                           In ss cands /\ permitted deny allow ss).
  { intros ss. rewrite filter_In. rewrite List.Forall_forall in Hc.
    assert (Hnd : In ss cands -> candidate_denied deny ss = false).
    { intros Hi. destruct (candidate_denied deny ss) eqn:Hcd; [|done].
      rewrite <- Hb. symmetry. apply existsb_exists. eauto. }
    split; intros [Hi Hp]; (split; [done|]); by apply (candidate_allowed_spec deny); auto. }
  simplify_eq. split; [done|]. rewrite List.Exists_exists.
  destruct (List.filter _ _) as [|x l] eqn:Hf; split; [done| |intros _|done].
  - intros (ss & H1 & H2). by destruct (proj2 (Hin ss)).
  - exists x. apply Hin. by left.
Qed.

(** ** What the parser lets through *)

Lemma ParsePrefix_spec s :
  ParsePrefix s =
    if negb (bool_decide (s = [])) && forallb isdigit s && (dec_value s <=? 128)
    then Some (dec_value s) else None.
Proof.
  destruct s as [|c s]; [done|]. unfold ParsePrefix.
  rewrite dec_loop_spec by lia. by rewrite bool_decide_eq_false_2.
Qed.

Lemma dec_value_nonneg s : forallb isdigit s = true -> 0 <= dec_value s.
Proof. intros. unfold dec_value. by apply fold_dec_ge. Qed.

(** What it takes for a text to denote the block [c]: an address, a slash, a decimal prefix
    length within the width of the address family. *)
Definition cidr_text (p4 p6 : bytes -> option bytes) (s : bytes) (c : ParsedCidr) : Prop :=
  exists addr pre, s = addr ++ (47 :: pre) /\ 47 ∉ addr /\ pre <> [] /\
    forallb isdigit pre = true /\ pc_PrefixLen c = dec_value pre /\
    ((exists v, p4 (c_str addr) = Some v /\ pc_Family c = AF_INET /\
                pc_Addr c = v ++ replicate 12 0 /\ dec_value pre <= 32) \/
     (p4 (c_str addr) = None /\
      exists v, p6 (c_str addr) = Some v /\ pc_Family c = AF_INET6 /\
                pc_Addr c = v /\ dec_value pre <= 128)).

Lemma ParseCidr_text p4 p6 s c : ParseCidr p4 p6 s = Some c -> cidr_text p4 p6 s c.
Proof.
  unfold ParseCidr. destruct (find_char s 47 0) as [j|] eqn:Hj; [|done].
  apply find_char_0 in Hj as (Hs & Hn & _). replace (j + 1)%nat with (S j) by lia.
  rewrite ParsePrefix_spec. destruct (_ && _) eqn:Hb; [|done]. intros Hc.
  to_prop. apply bool_decide_eq_false in H.
  pose proof (dec_value_nonneg _ H1) as H0'.
  exists (substr s 0 j), (substr_from s (S j)). cases_in Hc; to_prop.
  - rewrite u8_small by widths. split_and!; try done. left. eauto with lia.
  - rewrite u8_small by widths. split_and!; try done. right. split; [done|]. eauto with lia.
Qed.

Lemma ParseCidr_of_text p4 p6 s c : cidr_text p4 p6 s c -> ParseCidr p4 p6 s = Some c.
Proof.
  intros (addr & pre & -> & Hn & Hne & Hdig & Hlen & Hf). unfold ParseCidr.
  rewrite find_char_app by done. unfold substr, substr_from. rewrite drop_0, take_app_length.
  rewrite drop_app_ge by lia. replace (length addr + 1 - length addr)%nat with 1%nat by lia.
  change (drop 1 (47 :: pre)) with pre. rewrite ParsePrefix_spec, bool_decide_eq_false_2, Hdig by done.
  pose proof (dec_value_nonneg _ Hdig).
  destruct c as [f a n]; simpl in *; subst n.
  destruct Hf as [(v & -> & -> & -> & Hb)|(-> & v & -> & -> & -> & Hb)].
  all: rewrite (proj2 (Z.leb_le _ _)) by lia; simpl.
  all: rewrite (proj2 (Z.ltb_ge _ _)), (proj2 (Z.ltb_ge _ _)), u8_small by widths; done.
Qed.

Section Promises.
Context {p4 p6 : bytes -> option bytes} `{!InetPton p4 p6}.

Lemma ParseCidr_ok s c : ParseCidr p4 p6 s = Some c -> cidr_ok c.
Proof.
  intros (addr & pre & _ & _ & _ & Hdig & Hlen & Hf)%ParseCidr_text.
  pose proof (dec_value_nonneg _ Hdig). unfold cidr_ok. rewrite Hlen.
  destruct Hf as [(v & Hv & -> & -> & Hb)|(_ & v & Hv & -> & -> & Hb)].
  - apply inet_pton4_size in Hv as [_ Hv]. rewrite bool_decide_eq_true_2 by done.
    split; [lia|]. apply bytes_ok_app. split; [done|]. by apply (bool_decide_unpack _).
  - apply inet_pton6_size in Hv as [_ Hv]. by rewrite bool_decide_eq_false_2.
Qed.

Lemma ParseCidrList_ok l : Forall cidr_ok (ParseCidrList p4 p6 l).
Proof.
  unfold ParseCidrList. induction l as [|s l IH]; csimpl; [constructor|].
  destruct (ParseCidr p4 p6 s) eqn:Hs; [|done].
  constructor; [by eapply ParseCidr_ok | done].
Qed.

Lemma ParseIpLiteral_ok host ss : ParseIpLiteral p4 p6 host = Some ss -> sockaddr_ok ss.
Proof.
  unfold ParseIpLiteral. intros H. cases_in H.
  - destruct (inet_pton4_size _ _ Heqo). split_and!; (done || by apply (bool_decide_unpack _)).
  - destruct (inet_pton6_size _ _ Heqo0). split_and!; (done || by apply (bool_decide_unpack _)).
Qed.
End Promises.

Lemma ExtractIpBytes_port ss p : ExtractIpBytes (SetSockaddrPort ss p) = ExtractIpBytes ss.
Proof. unfold SetSockaddrPort, ExtractIpBytes. by destruct ss as [[]]. Qed.

Lemma permitted_port deny allow ss p :
  permitted deny allow (SetSockaddrPort ss p) <-> permitted deny allow ss.
Proof. unfold permitted. by setoid_rewrite ExtractIpBytes_port. Qed.

Lemma denied_port deny ss p : denied deny (SetSockaddrPort ss p) <-> denied deny ss.
Proof. unfold denied. by setoid_rewrite ExtractIpBytes_port. Qed.

Lemma sockaddr_ok_port ss p : sockaddr_ok ss -> sockaddr_ok (SetSockaddrPort ss p).
Proof. unfold SetSockaddrPort, sockaddr_ok. by destruct ss as [[]]. Qed.

(** An address that is permitted has a family, so the port was stored into it. *)
Lemma permitted_has_port deny allow ss p :
  permitted deny allow ss -> ss_port (SetSockaddrPort ss p) = [p / 256; p mod 256].
Proof.
  intros (fam & addr & He & _). unfold ExtractIpBytes, SetSockaddrPort in *. by cases_in He.
Qed.

(** The tail the three entry points share: evaluate, then store the port. *)
Lemma evaluate_and_set_port_spec deny allow cands port ok out :
  Forall sockaddr_ok cands -> Forall cidr_ok deny -> Forall cidr_ok allow ->
  (let '(b, kept) := EvaluateCandidates deny allow cands in
   if b then (true, map (fun a => SetSockaddrPort a port) kept) else (false, [])) = (ok, out) ->
  (ok = true <-> out <> []) /\
  Forall (fun ss => permitted deny allow ss /\ ss_port ss = [port / 256; port mod 256]) out /\
  (ok = true <-> ~ Exists (denied deny) cands /\ Exists (permitted deny allow) cands).
Proof.
  intros Hc Hd Hal. destruct (EvaluateCandidates deny allow cands) as [b kept] eqn:He.
  destruct (EvaluateCandidates_spec _ _ _ _ _ Hc Hd Hal He) as [Hden Hndn].
  assert (Hex : Exists (denied deny) cands \/ ~ Exists (denied deny) cands).
  { destruct (existsb (candidate_denied deny) cands) eqn:Hb.
    - left. apply existsb_exists in Hb as (ss & Hi & Hss). apply List.Exists_exists.
      exists ss. split; [done|]. apply candidate_denied_spec; [|done..].
      rewrite List.Forall_forall in Hc. auto.
    - right. rewrite List.Exists_exists. intros (ss & Hi & Hss).
      rewrite List.Forall_forall in Hc. apply candidate_denied_spec in Hss; [|auto..].
      assert (existsb (candidate_denied deny) cands = true) by (apply existsb_exists; eauto).
      congruence. }
  destruct Hex as [Hx|Hx].
  { destruct (Hden Hx) as [-> ->]. intros [= <- <-]. split; [done|]. split; [done|]. split; [done|tauto]. }
  destruct (Hndn Hx) as [Hin Hok]. intros Hres.
  destruct b; simplify_eq; cycle 1.
  { split; [done|]. split; [constructor|]. split; [done|]. intros [_ H]. by apply Hok in H. }
  split_and!.
  - split; [|done]. intros _. destruct kept; [|done].
    destruct (proj1 (List.Exists_exists _ _) (proj1 Hok eq_refl)) as (ss & H).
    by apply Hin in H.
  - apply List.Forall_forall. intros ss' (ss & <- & Hi)%in_map_iff.
    apply Hin in Hi as [_ Hp]. split; [by apply permitted_port | by eapply permitted_has_port].
  - tauto.
Qed.

Lemma permitted_not_denied deny allow ss : permitted deny allow ss -> ~ denied deny ss.
Proof.
  intros (fam & addr & He & Hn & _) (fam' & addr' & He' & Hex). simplify_eq.
  by apply List.Forall_Exists_neg in Hn.
Qed.

(** ** Theorems *)

(** C9.  [ParseCidr] accepts exactly the texts of an address, a slash and a decimal prefix
    length within the width of the address family, and what it stores is that block; the
    early exit of the digit loop and the narrowing to [uint8_t] lose nothing. *)
Theorem parse_cidr_exact p4 p6 s c : ParseCidr p4 p6 s = Some c <-> cidr_text p4 p6 s c.
Proof. split; [apply ParseCidr_text | apply ParseCidr_of_text]. Qed.

(** C10.  For every block the parser accepts, the byte loop with its partial last byte and
    mask decides membership bit by bit: it answers true exactly for the addresses of the
    block's family that agree with it on the first [PrefixLen] bits. *)
Theorem cidr_match_is_prefix_agreement p4 p6 `{!InetPton p4 p6} s c fam a :
  ParseCidr p4 p6 s = Some c -> bytes_ok a ->
  IpMatchesCidr fam a c = true <-> in_cidr fam a c.
Proof. intros Hc Ha. apply IpMatchesCidr_in_cidr; [done|by eapply ParseCidr_ok]. Qed.

(** C11.  The resolver's filter enforces the access list whatever the resolver answers: on
    success there is at least one address, each of them outside every deny block, inside
    some allow block and carrying the requested port; on failure none is handed out; and a
    single denied address among the answers fails the whole resolution. *)
Theorem resolve_and_filter_enforces_acl p4 p6 gai `{!InetPton p4 p6} `{!GetAddrInfo gai}
    acl host port ok out :
  TqAclResolveAndFilter p4 p6 gai acl host port = (ok, out) ->
  let deny := ParseCidrList p4 p6 (DenyCidrs acl) in
  let allow := ParseCidrList p4 p6 (AllowCidrs acl) in
  (ok = true <-> out <> []) /\
  Forall (fun ss => permitted deny allow ss /\ ss_port ss = [port / 256; port mod 256]) out /\
  (forall ss, ParseIpLiteral p4 p6 host = Some ss ->
     ok = true <-> permitted deny allow ss) /\
  (forall l, ParseIpLiteral p4 p6 host = None -> gai (c_str host) port = Some l ->
     Exists (fun ai => ai_addrlen ai <= sizeof_sockaddr_storage /\ denied deny (ai_addr ai)) l ->
     ok = false).
Proof.
  intros Hr deny allow. unfold TqAclResolveAndFilter in Hr. fold deny allow in Hr.
  pose proof (ParseCidrList_ok (DenyCidrs acl) : Forall cidr_ok deny) as Hd.
  pose proof (ParseCidrList_ok (AllowCidrs acl) : Forall cidr_ok allow) as Ha.
  destruct (ParseIpLiteral p4 p6 host) as [lit|] eqn:Hl.
  - apply ParseIpLiteral_ok in Hl. apply sockaddr_ok_port with (p := port) in Hl.
    apply evaluate_and_set_port_spec in Hr as (H1 & H2 & H3); [|constructor; [done|constructor]|done..].
    split_and!; [apply H1..|done| |done]. intros ss [= <-].
    rewrite H3, !Exists_cons, !Exists_nil, permitted_port, denied_port.
    split; [tauto|]. intros Hp. split; [|tauto]. intros [Hdn|[]]. by eapply permitted_not_denied.
  - destruct (gai (c_str host) port) as [l|] eqn:Hg; [|by simplify_eq].
    apply getaddrinfo_ok in Hg.
    set (cands := map ai_addr _) in Hr.
    assert (Hcok : Forall sockaddr_ok cands).
    { rewrite List.Forall_forall in *. intros ss (ai & <- & Hi)%in_map_iff.
      apply filter_In in Hi as [Hi _]. auto. }
    destruct cands as [|c0 cs] eqn:Hcands.
    { simplify_eq. split_and!; [done..|constructor|done|done]. }
    rewrite <- Hcands in *.
    apply evaluate_and_set_port_spec in Hr as (H1 & H2 & H3); [|done..].
    split_and!; [apply H1..|done|done|]. intros l' _ [= <-] Hex.
    apply not_true_iff_false. rewrite H3. intros [Hn _]. apply Hn.
    apply List.Exists_exists in Hex as (ai & Hi & Hlen & Hden). apply List.Exists_exists.
    exists (ai_addr ai). split; [|done]. subst cands. apply in_map, filter_In.
    split; [done|]. by apply Z.leb_le.
Qed.

(** A C library with three addresses and one host name, to instantiate the parameters. *)
Module DemoLibc.
Definition pton4 (s : bytes) : option bytes :=
  if bool_decide (s = str "10.0.0.0") then Some [10; 0; 0; 0]
  else if bool_decide (s = str "10.1.2.3") then Some [10; 1; 2; 3] else None.
Definition pton6 (s : bytes) : option bytes :=
  if bool_decide (s = str "::1") then Some (replicate 15 0 ++ [1]) else None.
Definition v4 (v : bytes) : sockaddr_storage :=
  {| ss_family := AF_INET; ss_port := [0; 0]; ss_in_addr := v;
     ss_in6_addr := replicate 16 0; ss_rest := [] |}.
Definition resolve (host : bytes) (port : Z) : option (list addrinfo) :=
  if bool_decide (host = str "db.internal")
  then Some [{| ai_addrlen := 16; ai_addr := v4 [10; 1; 2; 3] |};
             {| ai_addrlen := 16; ai_addr := v4 [192; 168; 0; 1] |}]
  else None.

#[global] Instance pton_ok : InetPton pton4 pton6.
Proof.
  split; intros s v; unfold pton4, pton6; intros H; cases_in H; split; try done;
    by apply (bool_decide_unpack _).
Qed.
#[global] Instance resolve_ok : GetAddrInfo resolve.
Proof.
  split. unfold resolve. intros host port l H. cases_in H.
  repeat constructor; try done; by apply (bool_decide_unpack _).
Qed.

Definition acl : TqAcl := {| AllowCidrs := [str "10.0.0.0/8"]; DenyCidrs := [str "::1/128"] |}.
Definition block : ParsedCidr :=
  {| pc_Family := AF_INET; pc_Addr := 10 :: replicate 15 0; pc_PrefixLen := 8 |}.
End DemoLibc.

Lemma cidr_match_is_prefix_agreement_witness :
  IpMatchesCidr AF_INET ([10; 1; 2; 3] ++ replicate 12 0) DemoLibc.block = true <->
  in_cidr AF_INET ([10; 1; 2; 3] ++ replicate 12 0) DemoLibc.block.
Proof.
  apply (cidr_match_is_prefix_agreement DemoLibc.pton4 DemoLibc.pton6 (str "10.0.0.0/8"));
    [vm_compute; reflexivity|].
  apply (bool_decide_unpack _). vm_compute. exact I.
Defined.

Lemma resolve_and_filter_enforces_acl_witness :
  exists out,
    TqAclResolveAndFilter DemoLibc.pton4 DemoLibc.pton6 DemoLibc.resolve DemoLibc.acl
      (str "db.internal") 443 = (true, out) /\ out <> [].
Proof.
  eexists. split; [vm_compute; reflexivity|].
  refine (proj1 (proj1 (resolve_and_filter_enforces_acl DemoLibc.pton4 DemoLibc.pton6
    DemoLibc.resolve DemoLibc.acl (str "db.internal") 443 true _ _)) eq_refl).
  vm_compute. reflexivity.
Defined.

(** The two decision procedures agree where both apply: for a literal address
    [IsAllowed] answers what the resolving filter answers, and a host name that is no
    literal is refused by [IsAllowed] without being resolved. *)
Theorem is_allowed_agrees_with_filter p4 p6 gai acl host port :
  IsAllowed p4 p6 acl host port =
    match ParseIpLiteral p4 p6 host with
    | Some _ => fst (TqAclResolveAndFilter p4 p6 gai acl host port)
    | None => false
    end.
Proof.
  unfold IsAllowed, TqAclResolveAndFilter. destruct (ParseIpLiteral _ _ _) as [ss|] eqn:Hl; [|done].
  assert (exists fam addr, ExtractIpBytes ss = Some (fam, addr)) as (fam & addr & He).
  { unfold ParseIpLiteral in Hl. cases_in Hl; eexists _, _; reflexivity. }
  generalize (ParseCidrList p4 p6 (DenyCidrs acl)), (ParseCidrList p4 p6 (AllowCidrs acl)).
  intros deny allow. unfold EvaluateCandidates, candidate_denied, candidate_allowed, IpBytesAllowed.
  simpl. rewrite !ExtractIpBytes_port, He. rewrite orb_false_r.
  destruct allow as [|c allow]; [by destruct (existsb _ deny)|].
  destruct (existsb _ deny); [done|]. simpl. by destruct (_ || _).
Qed.

(** Validation at configuration time is what makes the run-time parsing safe: if it
    passes, [ParseCidrList] drops no entry of the list, block for block; if it fails, some
    entry does not parse and the error text is the one for the first such entry. *)
Theorem validated_lists_are_kept_whole p4 p6 cidrs :
  match TqValidateCidrList p4 p6 cidrs with
  | (true, err) => err = [] /\ Forall2 (cidr_text p4 p6) cidrs (ParseCidrList p4 p6 cidrs)
  | (false, err) =>
      exists good bad rest, cidrs = good ++ (bad :: rest) /\
        Forall (fun s => is_Some (ParseCidr p4 p6 s)) good /\ ParseCidr p4 p6 bad = None /\
        err = (if bool_decide (bad = []) then str "empty CIDR entry"
               else str "invalid CIDR: " ++ bad)
  end.
Proof.
  unfold ParseCidrList. induction cidrs as [|s l IH]; cbn -[str].
  { split; [done|constructor]. }
  destruct s as [|b s'].
  { exists [], [], l. split_and!; [done|constructor|done|done]. }
  destruct (ParseCidr p4 p6 (b :: s')) as [c|] eqn:Hc; cbn -[str].
  - destruct (TqValidateCidrList p4 p6 l) as [[] err].
    + destruct IH as [-> IH]. split; [done|]. constructor; [by apply ParseCidr_text|done].
    + destruct IH as (good & bad & rest & -> & Hg & Hb & He).
      exists ((b :: s') :: good), bad, rest. split_and!; [done|by constructor|done|done].
  - exists [], (b :: s'), l. split_and!; [done|constructor|done|done].
Qed.
