(* ===== verification/ProxyAuth.v ===== *)
(** Proxy authentication (src/src/ingress/proxy_auth.cpp): Base64, the header search, Basic
    credentials, the user table and its validation.

    A [char] is modelled by its byte value; the sources compare it only with characters below
    128, for which the signed and the unsigned reading agree. *)

From stdpp Require Import base list strings numbers gmap.
From Stdlib Require Import ZArith Lia.
From S2P Require Import Prelude.

Record TqProxyAuthUser := { Username : bytes; Password : bytes }.

(** [TqProxyAuthTable]: its [Users_]. *)
Definition TqProxyAuthTable : Type := list TqProxyAuthUser.
Definition kMaxUsers : Z := 64.
Definition kMaxFieldBytes : Z := 255.

Inductive TqHttpConnectAuthResult :=
| Authorized | Disabled | MissingHeader | InvalidHeader | InvalidCredentials.

#[export] Instance TqHttpConnectAuthResult_eq_dec : EqDecision TqHttpConnectAuthResult.
Proof. solve_decision. Defined.

(** ** Base64 *)

Definition TqBase64Value (ch : Z) : bool :=
  if (65 <=? ch) && (ch <=? 90) then true
  else if (97 <=? ch) && (ch <=? 122) then true
  else if (48 <=? ch) && (ch <=? 57) then true
  else (ch =? 43) || (ch =? 47).

Definition TqBase64DecodeByte (ch : Z) : Z :=
  if (65 <=? ch) && (ch <=? 90) then ch - 65
  else if (97 <=? ch) && (ch <=? 122) then ch - 97 + 26
  else if (48 <=? ch) && (ch <=? 57) then ch - 48 + 52
  else if ch =? 43 then 62
  else if ch =? 47 then 63
  else -1.

Definition is_ws (ch : Z) : bool := (ch =? 32) || (ch =? 9) || (ch =? 13) || (ch =? 10).

(** The first loop: alphabet and padding characters are kept, white space is dropped, any
    other character ends the decoding. *)
Fixpoint clean (input : bytes) : option bytes :=
  match input with
  | [] => Some []
  | ch :: rest =>
      if ch =? 61 then cons ch <$> clean rest
      else if TqBase64Value ch then cons ch <$> clean rest
      else if is_ws ch then clean rest
      else None
  end.

(** The second loop, four characters of [cleaned] at a time; a window that reaches past the
    end is [Oob]. The output so far is kept when a quantum is rejected. *)
Fixpoint decode_quanta (cleaned out : bytes) : mem (bool * bytes) :=
  match cleaned with
  | [] => Val (negb (bool_decide (out = [])), out)
  | c0 :: c1 :: c2 :: c3 :: rest =>
      let b0 := TqBase64DecodeByte c0 in
      let b1 := TqBase64DecodeByte c1 in
      let b2 := if c2 =? 61 then 0 else TqBase64DecodeByte c2 in
      let b3 := if c3 =? 61 then 0 else TqBase64DecodeByte c3 in
      if (b0 <? 0) || (b1 <? 0) || (negb (c2 =? 61) && (b2 <? 0)) || (negb (c3 =? 61) && (b3 <? 0))
      then Val (false, out)
      else
        let triple := Z.lor (Z.lor (Z.lor (u32 (Z.shiftl (u32 b0) 18)) (u32 (Z.shiftl (u32 b1) 12)))
                                   (u32 (Z.shiftl (u32 b2) 6))) (u32 b3) in
        let out := out ++ [Z.land (Z.shiftr triple 16) 0xFF] in
        let out := if negb (c2 =? 61) then out ++ [Z.land (Z.shiftr triple 8) 0xFF] else out in
        let out := if negb (c3 =? 61) then out ++ [Z.land triple 0xFF] else out in
        decode_quanta rest out
  | _ => Oob
  end.

(** The [padding] counter of the source is at most 2 and has no effect. *)
Definition TqBase64Decode (input : bytes) : mem (bool * bytes) :=
  match input with
  | [] => Val (false, [])
  | _ =>
      match clean input with
      | None => Val (false, [])
      | Some cleaned =>
          if bool_decide (cleaned = []) || negb (size cleaned mod 4 =? 0) then Val (false, [])
          else decode_quanta cleaned []
      end
  end.

(** ** Comparisons *)

Fixpoint TqEqualsIgnoreCase_loop (left right : bytes) : bool :=
  match left, right with
  | a :: left', b :: right' =>
      if negb (tolower a =? tolower b) then false else TqEqualsIgnoreCase_loop left' right'
  | _, _ => true
  end.

Definition TqEqualsIgnoreCase (left right : bytes) : bool :=
  if negb (size left =? size right) then false else TqEqualsIgnoreCase_loop left right.

Fixpoint constant_time_loop (left right : bytes) (diff : Z) : Z :=
  match left, right with
  | a :: left', b :: right' => constant_time_loop left' right' (Z.lor diff (u8 (Z.lxor a b)))
  | _, _ => diff
  end.

Definition TqConstantTimeEquals (left right : bytes) : bool :=
  if negb (size left =? size right) then false else constant_time_loop left right 0 =? 0.

(** ** Header search *)

Definition CRLF : bytes := [13; 10].

Fixpoint skip_blanks (s : bytes) : bytes :=
  match s with
  | b :: s' => if (b =? 32) || (b =? 9) then skip_blanks s' else s
  | [] => []
  end.

(** [while (pos < headerEnd)]; [None] is a loop that has not ended within [fuel] rounds. *)
Fixpoint find_header_loop (fuel : nat) (request headerName : bytes) (headerEnd pos : nat)
    : option (option bytes) :=
  match fuel with
  | O => None
  | S fuel' =>
      if (pos <? headerEnd)%nat then
        match find_str request CRLF pos with
        | None => Some None
        | Some lineEnd =>
            if (headerEnd <? lineEnd)%nat then Some None
            else
              let line := substr request pos (lineEnd - pos) in
              match find_char line 58 0 with
              | Some colon =>
                  if TqEqualsIgnoreCase (substr line 0 colon) headerName
                  then Some (Some (skip_blanks (substr_from line (colon + 1))))
                  else find_header_loop fuel' request headerName headerEnd (lineEnd + 2)
              | None => find_header_loop fuel' request headerName headerEnd (lineEnd + 2)
              end
        end
      else Some None
  end.

Definition TqFindHttpHeaderValue (request headerName : bytes) : option (option bytes) :=
  match find_str request (CRLF ++ CRLF) 0 with
  | None => Some None
  | Some headerEnd =>
      match find_str request CRLF 0 with
      | None => Some None
      | Some pos => find_header_loop (S (length request)) request headerName headerEnd (pos + 2)
      end
  end.

Definition kBasic : bytes := str "Basic ".

Definition TqParseHttpProxyAuthorization (headerValue : bytes) : mem (option (bytes * bytes)) :=
  if (size headerValue <? size kBasic) ||
     negb (TqEqualsIgnoreCase (substr headerValue 0 (length kBasic)) kBasic)
  then Val None
  else
    '(ok, decoded) ← TqBase64Decode (substr_from headerValue (length kBasic));
    if negb ok then Val None
    else
      match find_char decoded 58 0 with
      | None => Val None
      | Some colon =>
          if (colon =? 0)%nat then Val None
          else
            let user := substr decoded 0 colon in
            let pass := substr_from decoded (colon + 1) in
            if bool_decide (user = []) || (kMaxFieldBytes <? size user) ||
               (kMaxFieldBytes <? size pass)
            then Val None
            else Val (Some (user, pass))
      end.

(** ** The user table *)

Definition Enabled (t : TqProxyAuthTable) : bool := negb (bool_decide (length t = 0%nat)).

(** Every entry is compared, whatever the earlier ones gave. *)
Definition Validate (t : TqProxyAuthTable) (user pass : bytes) : bool :=
  if negb (Enabled t) then true
  else if bool_decide (user = []) || bool_decide (pass = []) then false
  else
    fold_left (fun matched entry =>
      let userOk := TqConstantTimeEquals (Username entry) user in
      let passOk := TqConstantTimeEquals (Password entry) pass in
      matched || (userOk && passOk)) t false.

(** [None] is a header search that has not ended, [Oob] a read outside a buffer. *)
Definition TqHttpConnectRequestAuthResult (request : bytes) (auth : TqProxyAuthTable)
    : option (mem TqHttpConnectAuthResult) :=
  if negb (Enabled auth) then Some (Val Disabled)
  else
    match TqFindHttpHeaderValue request (str "Proxy-Authorization") with
    | None => None
    | Some None => Some (Val MissingHeader)
    | Some (Some authHeader) => Some (
        parsed ← TqParseHttpProxyAuthorization authHeader;
        match parsed with
        | None => Val InvalidHeader
        | Some (user, pass) =>
            if negb (Validate auth user pass) then Val InvalidCredentials else Val Authorized
        end)
    end.

Definition TqHttpConnectRequestAuthorized (request : bytes) (auth : TqProxyAuthTable)
    : option (mem bool) :=
  m ← TqHttpConnectRequestAuthResult request auth;
  Some (result ← m;
        Val (bool_decide (result = Authorized) || bool_decide (result = Disabled))).

(** [err] is the caller's string, written only on failure. *)
Fixpoint validate_users_loop (users : list TqProxyAuthUser) (seen : gset bytes) (err : bytes)
    : bool * bytes :=
  match users with
  | [] => (true, err)
  | user :: rest =>
      if bool_decide (Username user = []) || bool_decide (Password user = []) then
        (false, str "proxy_auth username and password must be non-empty")
      else if (kMaxFieldBytes <? size (Username user)) || (kMaxFieldBytes <? size (Password user)) then
        (false, str "proxy_auth username or password too long")
      else if bool_decide (Username user ∈ seen) then
        (false, str "duplicate proxy_auth username: " ++ Username user)
      else validate_users_loop rest ({[ Username user ]} ∪ seen) err
  end.

Definition TqValidateProxyAuthUsers (users : list TqProxyAuthUser) (err : bytes) : bool * bytes :=
  if kMaxUsers <? Z.of_nat (length users) then
    (false, str "proxy_auth exceeds maximum user count")
  else validate_users_loop users ∅ err.

(** ** Base64 against the encoding of RFC 4648 *)

Definition b64_char (v : Z) : Z :=
  if v <? 26 then v + 65
  else if v <? 52 then v - 26 + 97
  else if v <? 62 then v - 52 + 48
  else if v =? 62 then 43 else 47.

Fixpoint b64_encode (s : bytes) : bytes :=
  match s with
  | [] => []
  | [a] => [b64_char (a / 4); b64_char (a mod 4 * 16); 61; 61]
  | [a; b] =>
      [b64_char (a / 4); b64_char (a mod 4 * 16 + b / 16); b64_char (b mod 16 * 4); 61]
  | a :: b :: c :: s' =>
      [b64_char (a / 4); b64_char (a mod 4 * 16 + b / 16); b64_char (b mod 16 * 4 + c / 64);
       b64_char (c mod 64)] ++ b64_encode s'
  end.

Example b64_man : b64_encode (str "Many") = str "TWFueQ==".
Proof. reflexivity. Qed.
Example b64_dec : TqBase64Decode (str " TWFueQ==") = Val (true, str "Many").
Proof. reflexivity. Qed.

(** The values of the alphabet. *)
Definition is_b64 (v : Z) : Prop := 0 <= v < 64.

Lemma b64_char_spec v :
  is_b64 v ->
  TqBase64DecodeByte (b64_char v) = v /\ TqBase64Value (b64_char v) = true /\
  (b64_char v =? 61) = false.
Proof.
  unfold is_b64. intros Hv.
  assert (H : forallb (fun n => (TqBase64DecodeByte (b64_char (Z.of_nat n)) =? Z.of_nat n) &&
    TqBase64Value (b64_char (Z.of_nat n)) && negb (b64_char (Z.of_nat n) =? 61)) (seq 0 64) = true)
    by reflexivity.
  rewrite forallb_forall in H. specialize (H (Z.to_nat v)). rewrite Z2Nat.id in H by lia.
  specialize (H ltac:(apply in_seq; lia)).
  apply andb_true_iff in H as [[H1 H2]%andb_true_iff H3%negb_true_iff].
  by apply Z.eqb_eq in H1.
Qed.

(** Or-ing the four shifted sextets is the 24-bit number they spell. *)
Lemma b64_value_char ch : TqBase64Value ch = true -> exists v, is_b64 v /\ ch = b64_char v.
Proof.
  intros H. exists (TqBase64DecodeByte ch). unfold TqBase64Value, TqBase64DecodeByte, is_b64, b64_char in *.
  repeat match goal with |- context [if ?b then _ else _] => destruct b eqn:?; to_prop end; try lia.
  all: repeat match goal with H : context [if ?b then _ else _] |- _ => destruct b eqn:?; to_prop end; lia.
Qed.

Definition sextets (b0 b1 b2 b3 : Z) : Z :=
  Z.lor (Z.lor (Z.lor (u32 (Z.shiftl (u32 b0) 18)) (u32 (Z.shiftl (u32 b1) 12)))
               (u32 (Z.shiftl (u32 b2) 6))) (u32 b3).

Lemma sextets_add b0 b1 b2 b3 :
  is_b64 b0 -> is_b64 b1 -> is_b64 b2 -> is_b64 b3 ->
  sextets b0 b1 b2 b3 = b0 * 262144 + b1 * 4096 + b2 * 64 + b3.
Proof.
  unfold is_b64, sextets. intros H0 H1 H2 H3. rewrite !(u32_small b0), !(u32_small b1),
    !(u32_small b2), !(u32_small b3) by widths.
  rewrite !Z.shiftl_mul_pow2 by lia.
  rewrite !u32_small by widths.
  rewrite (lor_add _ (b1 * 2 ^ 12) 18) by dlia.
  rewrite (lor_add _ (b2 * 2 ^ 6) 12) by dlia.
  rewrite (lor_add _ b3 6) by dlia. lia.
Qed.

Lemma sextets_bytes b0 b1 b2 b3 (t := sextets b0 b1 b2 b3) :
  is_b64 b0 -> is_b64 b1 -> is_b64 b2 -> is_b64 b3 ->
  Z.land (Z.shiftr t 16) 0xFF = b0 * 4 + b1 / 16 /\
  Z.land (Z.shiftr t 8) 0xFF = b1 mod 16 * 16 + b2 / 4 /\
  Z.land t 0xFF = b2 mod 4 * 64 + b3.
Proof.
  intros H0 H1 H2 H3. subst t. rewrite sextets_add by done. rewrite !land_255.
  rewrite !Z.shiftr_div_pow2 by lia. unfold is_b64 in *. split_and!; dlia.
Qed.

(** One quantum of the decoder, on characters of the alphabet. *)
Lemma decode_quanta_full v0 v1 v2 v3 rest out :
  is_b64 v0 -> is_b64 v1 -> is_b64 v2 -> is_b64 v3 ->
  decode_quanta ([b64_char v0; b64_char v1; b64_char v2; b64_char v3] ++ rest) out =
  decode_quanta rest (out ++ [v0 * 4 + v1 / 16; v1 mod 16 * 16 + v2 / 4; v2 mod 4 * 64 + v3]).
Proof.
  intros H0 H1 H2 H3. cbn [app decode_quanta].
  destruct (b64_char_spec v0 H0) as (-> & _ & _), (b64_char_spec v1 H1) as (-> & _ & _),
    (b64_char_spec v2 H2) as (-> & _ & ->), (b64_char_spec v3 H3) as (-> & _ & ->).
  destruct (sextets_bytes v0 v1 v2 v3) as (E0 & E1 & E2); [done..|]. unfold sextets in *.
  unfold is_b64 in *.
  rewrite !(proj2 (Z.ltb_ge _ _)) by lia. cbn [orb andb negb].
  rewrite E0, E1, E2. by rewrite <- !app_assoc.
Qed.

Lemma decode_quanta_pad1 v0 v1 v2 out :
  is_b64 v0 -> is_b64 v1 -> is_b64 v2 ->
  decode_quanta [b64_char v0; b64_char v1; b64_char v2; 61] out =
  Val (true, out ++ [v0 * 4 + v1 / 16; v1 mod 16 * 16 + v2 / 4]).
Proof.
  intros H0 H1 H2. cbn [decode_quanta].
  destruct (b64_char_spec v0 H0) as (-> & _ & _), (b64_char_spec v1 H1) as (-> & _ & _),
    (b64_char_spec v2 H2) as (-> & _ & ->).
  destruct (sextets_bytes v0 v1 v2 0) as (E0 & E1 & _); [done..|]. unfold sextets in *.
  unfold is_b64 in *. cbn [Z.eqb Pos.eqb].
  rewrite !(proj2 (Z.ltb_ge _ _)) by lia. cbn [orb andb negb].
  rewrite E0, E1. rewrite <- !app_assoc. rewrite bool_decide_eq_false_2; [done|].
  by destruct out.
Qed.

Lemma decode_quanta_pad2 v0 v1 out :
  is_b64 v0 -> is_b64 v1 ->
  decode_quanta [b64_char v0; b64_char v1; 61; 61] out = Val (true, out ++ [v0 * 4 + v1 / 16]).
Proof.
  intros H0 H1. cbn [decode_quanta].
  destruct (b64_char_spec v0 H0) as (-> & _ & _), (b64_char_spec v1 H1) as (-> & _ & _).
  destruct (sextets_bytes v0 v1 0 0) as (E0 & _ & _); [done..|]. unfold sextets in *.
  unfold is_b64 in *. cbn [Z.eqb Pos.eqb].
  rewrite !(proj2 (Z.ltb_ge _ _)) by lia. cbn [orb andb negb].
  rewrite E0. rewrite bool_decide_eq_false_2; [done|]. by destruct out.
Qed.

(** Induction over a byte string, three bytes at a time. *)
Lemma triples_ind (P : bytes -> Prop) :
  P [] -> (forall a, P [a]) -> (forall a b, P [a; b]) ->
  (forall a b c s, P s -> P (a :: b :: c :: s)) -> forall s, P s.
Proof.
  intros H0 H1 H2 H3. fix IH 1. intros [|a [|b [|c s]]];
    [exact H0 | apply H1 | apply H2 | apply H3, IH].
Qed.

Lemma b64_encode_clean s : bytes_ok s -> clean (b64_encode s) = Some (b64_encode s).
Proof.
  assert (Hc : forall v l l', is_b64 v -> clean l = Some l' ->
            clean (b64_char v :: l) = Some (b64_char v :: l')).
  { intros v l l' Hv Hl. simpl. destruct (b64_char_spec v Hv) as (_ & -> & ->). by rewrite Hl. }
  induction s as [|a|a b|a b c s IH] using triples_ind; intros Hs; [done|..].
  all: unfold bytes_ok in Hs; rewrite !Forall_cons_iff in Hs; unfold is_u8 in Hs; cbn [b64_encode app].
  3: specialize (IH (proj2 (proj2 (proj2 Hs)))).
  all: repeat (apply Hc; [unfold is_b64; dlia|]); try done.
Qed.

Lemma b64_encode_size s : size (b64_encode s) mod 4 = 0.
Proof.
  unfold size. induction s as [|a|a b|a b c s IH] using triples_ind; [done..|].
  cbn [b64_encode app length]. rewrite !Nat2Z.inj_succ. dlia.
Qed.

Lemma decode_quanta_encode s out :
  bytes_ok s -> s <> [] -> decode_quanta (b64_encode s) out = Val (true, out ++ s).
Proof.
  revert out. induction s as [|a|a b|a b c s IH] using triples_ind; intros out Hs Hne; [done|..].
  all: unfold bytes_ok in Hs; rewrite !Forall_cons_iff in Hs; unfold is_u8 in Hs; cbn [b64_encode].
  - rewrite decode_quanta_pad2 by (unfold is_b64; dlia). do 3 f_equal. f_equal. dlia.
  - rewrite decode_quanta_pad1 by (unfold is_b64; dlia). do 3 f_equal. f_equal; [dlia|f_equal; dlia].
  - rewrite decode_quanta_full by (unfold is_b64; dlia).
    replace (a / 4 * 4 + (a mod 4 * 16 + b / 16) / 16) with a by dlia.
    replace ((a mod 4 * 16 + b / 16) mod 16 * 16 + (b mod 16 * 4 + c / 64) / 4) with b by dlia.
    replace ((b mod 16 * 4 + c / 64) mod 4 * 64 + c mod 64) with c by dlia.
    destruct s as [|d s']; [|rewrite IH; [by rewrite <- app_assoc|tauto|done]].
    cbn [b64_encode decode_quanta]. rewrite bool_decide_eq_false_2; [done|]. by destruct out.
Qed.

Lemma decode_encode s : bytes_ok s -> s <> [] -> TqBase64Decode (b64_encode s) = Val (true, s).
Proof.
  intros Hs Hne. unfold TqBase64Decode. rewrite b64_encode_clean, b64_encode_size by done.
  destruct (b64_encode s) as [|c e] eqn:He; [by destruct s as [|a [|b [|c' s']]]|].
  rewrite <- He, bool_decide_eq_false_2 by congruence. simpl. by rewrite decode_quanta_encode.
Qed.

(** A window of four never leaves a string whose length is a multiple of four. *)
(** Text with white space in it. *)
Definition white_space : list Z := [32; 9; 13; 10].

Lemma is_ws_spec ch : is_ws ch = true <-> ch ∈ white_space.
Proof. unfold is_ws, white_space. rewrite !elem_of_cons, elem_of_nil, !orb_true_iff, !Z.eqb_eq. tauto. Qed.

Lemma clean_spaces text : clean text = clean (filter (fun ch => ch ∉ white_space) text).
Proof.
  induction text as [|ch text IH]; [done|]. rewrite filter_cons. destruct (decide _) as [Hn|Hin].
  - cbn [clean]. rewrite IH. destruct (is_ws ch) eqn:E; [|done]. by apply is_ws_spec in E.
  - assert (Hws : is_ws ch = true) by (apply is_ws_spec; by destruct (decide (ch ∈ white_space))).
    rewrite <- IH. cbn [clean]. rewrite Hws. unfold is_ws in Hws. to_prop.
    assert (ch = 32 \/ ch = 9 \/ ch = 13 \/ ch = 10) as [-> |[-> |[-> | -> ]]] by lia; done.
Qed.

Lemma decode_spaced text s :
  bytes_ok s -> s <> [] -> filter (fun ch => ch ∉ white_space) text = b64_encode s ->
  TqBase64Decode text = Val (true, s).
Proof.
  intros Hb Hne Ht. rewrite <- (decode_encode s Hb Hne). unfold TqBase64Decode.
  rewrite (clean_spaces text), Ht. destruct text as [|c text].
  - cbn in Ht. by rewrite <- Ht.
  - destruct (b64_encode s) eqn:He; [|done]. cbn. done.
Qed.

Lemma clean_refuses text ch :
  ch ∈ text -> ch ∉ white_space -> ch <> 61 -> (forall v, is_b64 v -> ch <> b64_char v) ->
  clean text = None.
Proof.
  intros Hin Hws Hpad Hch. assert (Hv : TqBase64Value ch = false).
  { destruct (TqBase64Value ch) eqn:E; [|done]. apply b64_value_char in E as (v & Hv & ->).
    by destruct (Hch v Hv). }
  induction text as [|c text IH]; [by apply elem_of_nil in Hin|]. cbn [clean].
  apply elem_of_cons in Hin as [<-|Hin].
  - rewrite Hv, (proj2 (Z.eqb_neq _ _)) by done. destruct (is_ws ch) eqn:E; [|done].
    by apply is_ws_spec in E.
  - rewrite IH by done. by repeat case_match.
Qed.

Lemma decode_quanta_safe n cleaned out :
  length cleaned = (4 * n)%nat -> exists r, decode_quanta cleaned out = Val r.
Proof.
  revert cleaned out. induction n as [|n IH]; intros cleaned out Hl.
  { destruct cleaned; [|done]. eauto. }
  destruct cleaned as [|c0 [|c1 [|c2 [|c3 rest]]]]; simpl in Hl; try lia.
  cbn [decode_quanta]. destruct (_ || _); [eauto|]. apply IH. lia.
Qed.

Lemma TqBase64Decode_safe input : exists r, TqBase64Decode input = Val r.
Proof.
  unfold TqBase64Decode. destruct input; [eauto|]. destruct (clean _) as [cl|]; [|eauto].
  destruct (_ || _) eqn:Hb; [eauto|]. to_prop.
  apply (decode_quanta_safe (length cl / 4)). unfold size in *.
  pose proof (Nat.div_mod_eq (length cl) 4).
  change 4 with (Z.of_nat 4) in H0. rewrite <- Nat2Z.inj_mod in H0. lia.
Qed.

(** ** Constant-time comparison *)

Lemma u8_lxor a b : is_u8 a -> is_u8 b -> u8 (Z.lxor a b) = Z.lxor a b.
Proof.
  unfold u8. change 256 with (2 ^ 8). unfold is_u8. intros Ha Hb. apply Z.bits_inj'. intros k Hk.
  rewrite Z.testbit_mod_pow2 by lia. destruct (Z.ltb_spec k 8); [done|]. simpl.
  rewrite <- (Z.mod_small a (2 ^ 8)), <- (Z.mod_small b (2 ^ 8)) by lia.
  by rewrite Z.lxor_spec, !Z.mod_pow2_bits_high by lia.
Qed.

Lemma constant_time_loop_spec l r d :
  bytes_ok l -> bytes_ok r -> length l = length r ->
  constant_time_loop l r d = 0 <-> d = 0 /\ l = r.
Proof.
  revert r d. induction l as [|a l IH]; intros [|b r] d Hl Hr Hlen; simpl in *; try lia.
  { tauto. }
  apply Forall_cons_iff in Hl as [Ha Hl], Hr as [Hb Hr].
  rewrite IH, u8_lxor, Z.lor_eq_0_iff, Z.lxor_eq_0_iff by (done || lia). naive_solver.
Qed.

(** Accumulating the differences decides equality, whatever position differs. *)
Lemma TqConstantTimeEquals_eq l r :
  bytes_ok l -> bytes_ok r -> TqConstantTimeEquals l r = true <-> l = r.
Proof.
  intros Hl Hr. unfold TqConstantTimeEquals, size.
  destruct (Z.eqb_spec (Z.of_nat (length l)) (Z.of_nat (length r))) as [He|Hne]; simpl.
  - rewrite Z.eqb_eq, constant_time_loop_spec by (done || lia). tauto.
  - split; [done|]. intros ->. done.
Qed.

(** ** The user table *)

Definition user_ok (u : TqProxyAuthUser) : Prop := bytes_ok (Username u) /\ bytes_ok (Password u).

Lemma fold_orb {A} (f : A -> bool) l b :
  fold_left (fun m x => m || f x) l b = b || existsb f l.
Proof.
  revert b. induction l as [|x l IH]; intros b; simpl; [by rewrite orb_false_r|].
  by rewrite IH, orb_assoc.
Qed.

Lemma Enabled_false t : Enabled t = false <-> t = [].
Proof. unfold Enabled. rewrite negb_false_iff, bool_decide_eq_true. by destruct t. Qed.

(** With users configured, exactly the configured pairs pass. *)
Lemma Validate_spec t user pass :
  Forall user_ok t -> bytes_ok user -> bytes_ok pass -> Enabled t = true ->
  Validate t user pass = true <->
  user <> [] /\ pass <> [] /\ In {| Username := user; Password := pass |} t.
Proof.
  intros Ht Hu Hp He. unfold Validate. rewrite He. simpl.
  destruct (_ || _) eqn:Hb.
  { split; [done|]. intros (H1 & H2 & _). by rewrite !bool_decide_eq_false_2 in Hb. }
  to_prop. apply bool_decide_eq_false in H, H0.
  rewrite fold_orb. simpl. rewrite existsb_exists. rewrite List.Forall_forall in Ht. split.
  - intros ([u p] & Hin & Hx). destruct (Ht _ Hin). simpl in *.
    rewrite andb_true_iff, !TqConstantTimeEquals_eq in Hx by done. destruct Hx. by subst.
  - intros (_ & _ & Hin). eexists. split; [done|]. destruct (Ht _ Hin). simpl in *.
    by rewrite andb_true_iff, !TqConstantTimeEquals_eq by done.
Qed.

Lemma validate_users_loop_spec users seen err :
  validate_users_loop users seen err = (true, err) \/
  fst (validate_users_loop users seen err) = false.
Proof.
  revert seen. induction users as [|u l IH]; intros seen; simpl; [by left|]. cases; auto.
Qed.

Definition field_ok (s : bytes) : Prop := s <> [] /\ size s <= kMaxFieldBytes.

Lemma validate_users_loop_true users seen err :
  fst (validate_users_loop users seen err) = true <->
  Forall (fun u => field_ok (Username u) /\ field_ok (Password u)) users /\
  NoDup (map Username users) /\ (forall u, In u users -> Username u ∉ seen).
Proof.
  revert seen. induction users as [|u l IH]; intros seen; simpl.
  { split; [|done]. intros _. split_and!; [constructor|constructor|done]. }
  rewrite Forall_cons_iff, NoDup_cons. unfold field_ok at 1 2.
  destruct (bool_decide _ || bool_decide _) eqn:He.
  { apply orb_true_iff in He. rewrite !bool_decide_eq_true in He. split; [done|]. tauto. }
  to_prop. apply bool_decide_eq_false in H, H0.
  destruct (_ || _) eqn:Hlong.
  { apply orb_true_iff in Hlong. rewrite !Z.ltb_lt in Hlong. split; [done|]. lia. }
  to_prop. case_bool_decide as Hseen.
  { split; [done|]. intros (_ & _ & Hn). exfalso. by apply (Hn u (or_introl eq_refl)). }
  rewrite IH. split.
  - intros (Hf & Hnd & Hn). split_and!; try done.
    + rewrite list_elem_of_In, in_map_iff. intros (v & Hv & Hin).
      apply (Hn v Hin). rewrite Hv. set_solver.
    + intros v [<-|Hin]; [done|]. specialize (Hn v Hin). set_solver.
  - intros ((_ & Hf) & (Hni & Hnd) & Hn). split_and!; [done..|]. intros v Hin.
    rewrite not_elem_of_union, not_elem_of_singleton. split; [|by apply Hn; right].
    intros Heq. apply Hni. rewrite <- Heq. apply list_elem_of_In. by apply in_map.
Qed.

(** ** Header search *)

(** The loop ends: each round moves [pos] past a line, and [pos] stays below [headerEnd]. *)
Lemma find_header_loop_ends fuel request name headerEnd pos :
  (headerEnd - pos < fuel)%nat -> is_Some (find_header_loop fuel request name headerEnd pos).
Proof.
  revert pos. induction fuel as [|fuel IH]; intros pos Hf; simpl; [lia|].
  destruct (Nat.ltb_spec pos headerEnd); [|eauto].
  destruct (find_str request CRLF pos) as [le|] eqn:Hle; [|eauto].
  apply find_str_from_spec in Hle as [Hle _].
  destruct (Nat.ltb_spec headerEnd le); [eauto|].
  destruct (find_char _ 58 0); [destruct (TqEqualsIgnoreCase _ _); [eauto|]|]; apply IH; lia.
Qed.

Lemma TqFindHttpHeaderValue_ends request name : is_Some (TqFindHttpHeaderValue request name).
Proof.
  unfold TqFindHttpHeaderValue. destruct (find_str request _ 0) as [he|] eqn:Hhe; [|eauto].
  destruct (find_str request CRLF 0); [|eauto]. apply find_header_loop_ends.
  apply find_str_0 in Hhe as (_ & _ & Hl). lia.
Qed.

Lemma skip_blanks_split s :
  exists blanks, s = blanks ++ skip_blanks s /\ Forall (fun b => b = 32 \/ b = 9) blanks.
Proof.
  induction s as [|b s (bl & IH & Hbl)]; simpl; [by exists []|].
  destruct (_ || _) eqn:Hb; [|by exists []].
  exists (b :: bl). simpl. rewrite <- IH. split; [done|]. constructor; [|done].
  apply orb_true_iff in Hb. by rewrite !Z.eqb_eq in Hb.
Qed.

(** [request] has a header line with the given name and the value [v]. *)
Definition has_header (request name v : bytes) : Prop :=
  exists pre nm blanks post,
    request = pre ++ CRLF ++ nm ++ [58] ++ blanks ++ v ++ CRLF ++ post /\
    TqEqualsIgnoreCase nm name = true /\ 58 ∉ nm /\ Forall (fun b => b = 32 \/ b = 9) blanks.

(** What the loop returns is the value of a line of the request, for any request. *)
Lemma find_header_loop_sound fuel p q name he v :
  find_header_loop fuel (p ++ CRLF ++ q) name he (length p + 2) = Some (Some v) ->
  has_header (p ++ CRLF ++ q) name v.
Proof.
  revert p q. induction fuel as [|fuel IH]; intros p q; simpl; [done|].
  change (p ++ 13 :: 10 :: q) with (p ++ CRLF ++ q) in *.
  assert (Hdrop : drop (length p + 2) (p ++ CRLF ++ q) = q).
  { rewrite app_assoc, drop_app_length'; [done|]. by rewrite length_app. }
  destruct (_ <? _)%nat; [|done].
  unfold find_str, substr. rewrite Hdrop.
  destruct (find_str_from CRLF q _) as [le|] eqn:Hle; [|done].
  destruct (_ <? _)%nat; [done|].
  apply find_str_from_spec in Hle as [Hle (post & Hq)].
  set (line := take (le - (length p + 2)) q) in *.
  assert (Hnext : find_header_loop fuel (p ++ CRLF ++ q) name he (le + 2) = Some (Some v) ->
                  has_header (p ++ CRLF ++ q) name v).
  { rewrite Hq, (app_assoc p), (app_assoc _ line).
    replace (le + 2)%nat with (length ((p ++ CRLF) ++ line) + 2)%nat; [apply IH|].
    subst line. rewrite !length_app, length_take. simpl. lia. }
  destruct (find_char line 58 0) as [colon|] eqn:Hc; [|done].
  destruct (TqEqualsIgnoreCase _ _) eqn:He; [|done]. intros [= <-]. clear Hnext IH.
  apply find_char_0 in Hc as (Hline & Hn & _). rewrite Nat.add_1_r.
  destruct (skip_blanks_split (substr_from line (S colon))) as (bl & Hbl & Hblank).
  eexists p, _, bl, post. split_and!; [|done..]. f_equal. f_equal.
  etransitivity; [exact Hq|]. rewrite Hline at 1. rewrite Hbl at 1.
  rewrite <- !app_assoc. cbn [app]. by rewrite <- !app_assoc.
Qed.

Lemma TqFindHttpHeaderValue_sound request name v :
  TqFindHttpHeaderValue request name = Some (Some v) -> has_header request name v.
Proof.
  unfold TqFindHttpHeaderValue. destruct (find_str request (_ ++ _) 0) as [he|]; [|done].
  destruct (find_str request CRLF 0) as [pos|] eqn:Hpos; [|done].
  apply find_str_0 in Hpos as (rest & Hr & Hl). intros Hf. rewrite Hr in Hf |- *.
  eapply find_header_loop_sound. rewrite length_take, Nat.min_l by (simpl in Hl; lia). exact Hf.
Qed.

(** ** A request as it is written *)

(** Header lines, each closed by CRLF, then the empty line. *)
Definition header_lines (lines : list bytes) : bytes := concat (map (fun l => l ++ CRLF) lines).
Definition http_request (requestLine : bytes) (lines : list bytes) : bytes :=
  requestLine ++ CRLF ++ header_lines lines ++ CRLF.

Definition line_ok (l : bytes) : Prop := l <> [] /\ 13 ∉ l.

(** The value of the first line with that name. *)
Fixpoint first_header (lines : list bytes) (name : bytes) : option bytes :=
  match lines with
  | [] => None
  | l :: lines' =>
      match find_char l 58 0 with
      | Some colon =>
          if TqEqualsIgnoreCase (substr l 0 colon) name
          then Some (skip_blanks (substr_from l (colon + 1)))
          else first_header lines' name
      | None => first_header lines' name
      end
  end.

Lemma find_header_end l lines rest i :
  13 ∉ l -> Forall line_ok lines ->
  find_str_from (CRLF ++ CRLF) (l ++ CRLF ++ header_lines lines ++ CRLF ++ rest) i =
  Some (i + length l + length (header_lines lines))%nat.
Proof.
  revert l i. induction lines as [|m lines IH]; intros l i Hl Hlines.
  - unfold CRLF at 1. cbn [app]. rewrite find_str_from_skip by done.
    unfold header_lines. cbn [map concat app length]. rewrite Nat.add_0_r.
    apply (find_str_from_hit (CRLF ++ CRLF)).
  - apply Forall_cons_iff in Hlines as [[Hm Hm13] Hlines].
    unfold CRLF at 1. cbn [app]. rewrite find_str_from_skip by done.
    unfold header_lines. cbn [map concat]. fold (header_lines lines).
    rewrite <- !app_assoc. destruct m as [|b m]; [done|].
    assert (13 <> b) as Hb by set_solver.
    cbn [app CRLF find_str_from starts_with]. rewrite (proj2 (Z.eqb_neq 13 b)) by done.
    cbn [Z.eqb Pos.eqb andb].
    specialize (IH (b :: m) (S (S (i + length l))) Hm13 Hlines).
    cbn [app CRLF find_str_from starts_with] in IH.
    rewrite (proj2 (Z.eqb_neq 13 b)) in IH by done. cbn [andb] in IH. rewrite IH.
    f_equal. cbn [length]. rewrite !length_app. cbn [length]. lia.
Qed.

Lemma find_header_loop_lines fuel p lines rest name he :
  Forall line_ok lines -> (length lines < fuel)%nat ->
  (he + 2 = length p + length (header_lines lines))%nat ->
  find_header_loop fuel (p ++ header_lines lines ++ CRLF ++ rest) name he (length p) =
  Some (first_header lines name).
Proof.
  revert fuel p. induction lines as [|m lines IH]; intros fuel p Hlines Hf Hhe.
  { destruct fuel as [|fuel]; [simpl in Hf; lia|]. simpl in *.
    by rewrite (proj2 (Nat.ltb_ge _ _)) by lia. }
  apply Forall_cons_iff in Hlines as [[Hm Hm13] Hlines].
  destruct fuel as [|fuel]; [simpl in Hf; lia|]. cbn [length] in Hf.
  unfold header_lines in *. cbn [map concat] in *. fold (header_lines lines) in *.
  rewrite !length_app in Hhe. rewrite <- !app_assoc. cbn [find_header_loop].
  assert (length m <> 0%nat) by (by destruct m). simpl (length CRLF) in Hhe.
  rewrite (proj2 (Nat.ltb_lt _ _)) by lia.
  unfold find_str. rewrite drop_app_length.
  unfold CRLF at 1. rewrite find_str_from_skip by done.
  fold CRLF. rewrite (find_str_from_hit CRLF).
  rewrite (proj2 (Nat.ltb_ge _ _)) by lia.
  replace (length p + length m - length p)%nat with (length m) by lia.
  assert (Hline : forall s, substr (p ++ m ++ s) (length p) (length m) = m).
  { intros s. unfold substr. by rewrite drop_app_length, take_app_length. }
  rewrite Hline. cbv zeta. cbn [first_header].
  assert (Hnext : find_header_loop fuel (p ++ m ++ CRLF ++ header_lines lines ++ CRLF ++ rest)
                    name he (length p + length m + 2) = Some (first_header lines name)).
  { rewrite (app_assoc p), (app_assoc (p ++ m)).
    replace (length p + length m + 2)%nat with (length ((p ++ m) ++ CRLF))
      by (rewrite !length_app; simpl; lia).
    apply IH; [done|lia|]. rewrite !length_app. simpl. lia. }
  destruct (find_char m 58 0); [|done]. by destruct (TqEqualsIgnoreCase _ _).
Qed.

Lemma find_header_of_request requestLine lines name :
  13 ∉ requestLine -> Forall line_ok lines ->
  TqFindHttpHeaderValue (http_request requestLine lines) name = Some (first_header lines name).
Proof.
  intros Hr Hlines. unfold TqFindHttpHeaderValue, http_request, find_str. rewrite !drop_0.
  pose proof (find_header_end requestLine lines [] 0 Hr Hlines) as He.
  rewrite app_nil_r in He. rewrite He. unfold CRLF at 1. rewrite find_str_from_skip by done.
  fold CRLF. rewrite (find_str_from_hit CRLF).
  replace (0 + length requestLine + 2)%nat with (length (requestLine ++ CRLF))
    by (rewrite length_app; simpl; lia).
  pose proof (find_header_loop_lines) as Hl.
  specialize (Hl (S (length (requestLine ++ CRLF ++ header_lines lines ++ CRLF)))
    (requestLine ++ CRLF) lines [] name
    (0 + length requestLine + length (header_lines lines))%nat Hlines).
  rewrite app_nil_r, <- app_assoc in Hl. apply Hl.
  - rewrite !length_app. enough (length lines <= length (header_lines lines))%nat by lia.
    clear. unfold header_lines. induction lines as [|l lines IH]; simpl; [lia|].
    rewrite !length_app. simpl. lia.
  - rewrite length_app. simpl. lia.
Qed.

(** ** Credentials *)

Lemma land_255_u8 z : is_u8 (Z.land z 0xFF).
Proof. rewrite land_255. apply u8_range. Qed.

Lemma decode_quanta_bytes n cleaned out ok r :
  length cleaned = n -> bytes_ok out -> decode_quanta cleaned out = Val (ok, r) -> bytes_ok r.
Proof.
  revert cleaned out. induction n as [n IH] using lt_wf_ind. intros cleaned out Hn Hout.
  destruct cleaned as [|c0 [|c1 [|c2 [|c3 rest]]]]; try done; cbn [decode_quanta].
  { by intros [= _ <-]. }
  destruct (_ || _); [by intros [= _ <-]|]. apply (IH (length rest)); [simpl in Hn; lia|done|].
  repeat case_match; rewrite ?bytes_ok_app; split_and?; try done.
  all: apply Forall_singleton, land_255_u8.
Qed.

Lemma TqBase64Decode_bytes input ok r : TqBase64Decode input = Val (ok, r) -> bytes_ok r.
Proof.
  unfold TqBase64Decode. intros H. cases_in H; try constructor.
  by eapply decode_quanta_bytes; [done|constructor|].
Qed.

Lemma TqParseHttpProxyAuthorization_sound v user pass :
  TqParseHttpProxyAuthorization v = Val (Some (user, pass)) ->
  exists basic enc, v = basic ++ enc /\ TqEqualsIgnoreCase basic kBasic = true /\
    TqBase64Decode enc = Val (true, user ++ [58] ++ pass) /\ 58 ∉ user /\
    bytes_ok user /\ bytes_ok pass.
Proof.
  unfold TqParseHttpProxyAuthorization. destruct (_ || _) eqn:Hb; [done|]. to_prop.
  destruct (TqBase64Decode _) as [[ok dec]|] eqn:Hd; [|done]. simpl.
  destruct ok; [|done]. simpl. destruct (find_char dec 58 0) as [colon|] eqn:Hc; [|done].
  destruct (colon =? 0)%nat; [done|]. destruct (_ || _); [done|]. intros [= <- <-].
  apply find_char_0 in Hc as (Hdec & Hn & _). rewrite Nat.add_1_r.
  exists (substr v 0 (length kBasic)), (substr_from v (length kBasic)).
  pose proof (TqBase64Decode_bytes _ _ _ Hd) as Hok. rewrite Hdec in Hok.
  apply bytes_ok_app in Hok as [Hu Hp]. apply Forall_cons_iff in Hp as [_ Hp].
  split_and!; try done. 2: by rewrite Hd, Hdec at 1.
  symmetry. apply take_drop.
Qed.

Lemma TqParseHttpProxyAuthorization_safe v : exists r, TqParseHttpProxyAuthorization v = Val r.
Proof.
  unfold TqParseHttpProxyAuthorization. destruct (_ || _); [eauto|].
  destruct (TqBase64Decode_safe (substr_from v (length kBasic))) as [[ok dec] ->]. simpl.
  cases; eauto.
Qed.

Lemma TqParseHttpProxyAuthorization_complete user pass :
  bytes_ok user -> bytes_ok pass -> field_ok user -> size pass <= kMaxFieldBytes -> 58 ∉ user ->
  TqParseHttpProxyAuthorization (kBasic ++ b64_encode (user ++ [58] ++ pass)) =
  Val (Some (user, pass)).
Proof.
  intros Hu Hp [Hne Hlu] Hlp Hn. unfold TqParseHttpProxyAuthorization.
  unfold substr, substr_from. rewrite drop_0, take_app_length, drop_app_length.
  rewrite (proj2 (Z.ltb_ge _ _)) by (rewrite size_app; pose proof (size_nonneg (b64_encode (user ++ [58] ++ pass))); lia).
  change (TqEqualsIgnoreCase kBasic kBasic) with true. cbn [orb negb].
  rewrite decode_encode.
  2:{ rewrite !bytes_ok_app. split_and!; [done| |done]. by apply (bool_decide_unpack _). }
  2:{ by destruct user. }
  simpl. rewrite find_char_app by done.
  destruct user as [|b user']; [done|]. set (user := b :: user') in *.
  rewrite (proj2 (Nat.eqb_neq _ _)) by done. rewrite drop_0, take_app_length.
  rewrite bool_decide_eq_false_2 by done. rewrite drop_app_ge by lia.
  replace (length user + 1 - length user)%nat with 1%nat by lia.
  change (drop 1 (58 :: pass)) with pass. by rewrite !(proj2 (Z.ltb_ge _ _)) by lia.
Qed.

Lemma first_header_app before l lines name :
  first_header before name = None ->
  first_header (before ++ l :: lines) name = first_header (l :: lines) name.
Proof.
  induction before as [|m before IH]; [done|]. cbn [first_header app].
  destruct (find_char m 58 0); [destruct (TqEqualsIgnoreCase _ _); [done|]|]; exact IH.
Qed.

(** ** Theorems *)

(** C16.  The Base64 decoder never reads outside its input, whatever the input.  It undoes the
    encoding of RFC 4648, padding included, for every non-empty byte string, with any blanks,
    tabs and line ends spread over the text; and it refuses, with nothing decoded, a text with
    any other character that is not of the alphabet or padding. *)
Theorem base64_decodes_rfc4648 input text s :
  (exists r, TqBase64Decode input = Val r) /\
  (bytes_ok s -> s <> [] -> filter (fun ch => ch ∉ white_space) text = b64_encode s ->
   TqBase64Decode text = Val (true, s)) /\
  (forall ch, ch ∈ text -> ch ∉ white_space -> ch <> 61 ->
   (forall v, is_b64 v -> ch <> b64_char v) -> TqBase64Decode text = Val (false, [])).
Proof.
  split; [apply TqBase64Decode_safe|]. split; [intros; by apply decode_spaced|].
  intros ch Hin Hws Hpad Hch. unfold TqBase64Decode. destruct text as [|c text]; [done|].
  by rewrite (clean_refuses _ ch).
Qed.

Lemma base64_decodes_rfc4648_witness :
  TqBase64Decode (str "dXNl cjpz ZWNyZXQ=") = Val (true, str "user:secret").
Proof.
  apply (base64_decodes_rfc4648 [] (str "dXNl cjpz ZWNyZXQ=") (str "user:secret")).
  - apply (bool_decide_unpack _). vm_compute. exact I.
  - discriminate.
  - vm_compute. reflexivity.
Defined.

(** The line a client sends for a user. *)
Definition authorization_line (u : TqProxyAuthUser) : bytes :=
  str "Proxy-Authorization: Basic " ++ b64_encode (Username u ++ [58] ++ Password u).

(** C17.  No request gets through an enabled table without the credentials of one of its
    users: the decision is always reached, and a positive one means the request has a
    [Proxy-Authorization] line whose Basic token decodes to that user's name, a colon and
    password. *)
Theorem http_authorization_sound request auth :
  Forall user_ok auth ->
  exists b, TqHttpConnectRequestAuthorized request auth = Some (Val b) /\
    (b = true -> auth <> [] ->
     exists u basic enc, In u auth /\
       has_header request (str "Proxy-Authorization") (basic ++ enc) /\
       TqEqualsIgnoreCase basic kBasic = true /\
       TqBase64Decode enc = Val (true, Username u ++ [58] ++ Password u)).
Proof.
  intros Hauth. unfold TqHttpConnectRequestAuthorized, TqHttpConnectRequestAuthResult.
  destruct (Enabled auth) eqn:He; cbn [negb].
  2:{ eexists. split; [done|]. intros _ Hne. by apply Enabled_false in He. }
  destruct (TqFindHttpHeaderValue_ends request (str "Proxy-Authorization")) as [r Hr].
  rewrite Hr.
  destruct r as [v|]; simpl; [|eexists; split; [done|by intros]].
  destruct (TqParseHttpProxyAuthorization_safe v) as [p Hp]. rewrite Hp. simpl.
  destruct p as [[user pass]|]; simpl; [|eexists; split; [done|by intros]].
  destruct (Validate auth user pass) eqn:Hv; simpl; [|eexists; split; [done|by intros]].
  eexists. split; [done|]. intros _ _.
  apply TqParseHttpProxyAuthorization_sound in Hp as (basic & enc & -> & Hb & Hd & _ & Hu & Hpw).
  apply Validate_spec in Hv as (_ & _ & Hin); [|done..].
  eexists _, basic, enc. split; [exact Hin|]. split_and!; [|done|done].
  by apply TqFindHttpHeaderValue_sound.
Qed.

Module DemoAuth.
Definition alice : TqProxyAuthUser :=
  {| Username := str "alice"; Password := str "secret" |}.
Definition bob : TqProxyAuthUser := {| Username := str "bob"; Password := str "p:w" |}.
Definition requestLine : bytes := str "CONNECT db:5432 HTTP/1.1".
End DemoAuth.

Lemma http_authorization_sound_witness :
  exists b, TqHttpConnectRequestAuthorized
    (http_request DemoAuth.requestLine [authorization_line DemoAuth.bob])
    [DemoAuth.alice; DemoAuth.bob] = Some (Val b) /\ b = true.
Proof.
  destruct (http_authorization_sound
    (http_request DemoAuth.requestLine [authorization_line DemoAuth.bob])
    [DemoAuth.alice; DemoAuth.bob]) as (b & Hb & _).
  - repeat constructor; apply (bool_decide_unpack _); vm_compute; exact I.
  - exists b. split; [exact Hb|]. vm_compute in Hb. congruence.
Defined.

(** C18.  Every configured user whose name has no colon, and whose name and password have 1 to
    255 bytes, gets through: a request in whose header the first [Proxy-Authorization] line is
    the one a client sends for that user is authorized.  (A name with a colon passes the
    validation but can never authenticate: [colon_name_is_refused].) *)
Theorem http_authorization_complete requestLine before after auth u :
  Forall user_ok auth -> In u auth -> field_ok (Username u) -> field_ok (Password u) ->
  58 ∉ Username u -> 13 ∉ requestLine ->
  Forall line_ok (before ++ authorization_line u :: after) ->
  first_header before (str "Proxy-Authorization") = None ->
  TqHttpConnectRequestAuthResult
    (http_request requestLine (before ++ authorization_line u :: after)) auth =
  Some (Val Authorized).
Proof.
  intros Hauth Hin Hu Hp Hcolon Hrl Hlines Hbefore. unfold TqHttpConnectRequestAuthResult.
  destruct (Enabled auth) eqn:He; cbn [negb]; [|by apply Enabled_false in He; subst].
  rewrite find_header_of_request, first_header_app by done.
  assert (Huok : user_ok u) by (by eapply List.Forall_forall in Hauth). destruct Huok as [Huo Hpo].
  assert (Hf : first_header (authorization_line u :: after) (str "Proxy-Authorization") =
               Some (kBasic ++ b64_encode (Username u ++ [58] ++ Password u))).
  { cbn [first_header]. unfold authorization_line.
    change (str "Proxy-Authorization: Basic ") with
      (str "Proxy-Authorization" ++ 58 :: 32 :: kBasic).
    rewrite <- app_assoc. cbn [app]. rewrite find_char_app.
    2:{ apply (bool_decide_unpack _). vm_compute. exact I. }
    unfold substr, substr_from. rewrite drop_0, take_app_length.
    change (TqEqualsIgnoreCase (str "Proxy-Authorization") (str "Proxy-Authorization")) with true.
    cbv iota. rewrite drop_app_ge by lia.
    replace (length (str "Proxy-Authorization") + 1 - length (str "Proxy-Authorization"))%nat
      with 1%nat by lia. reflexivity. }
  rewrite Hf. destruct Hp as [Hpne Hpl].
  rewrite TqParseHttpProxyAuthorization_complete by done. simpl.
  rewrite (proj2 (Validate_spec auth _ _ Hauth Huo Hpo He)); [done|]. destruct Hu.
  split_and!; [done..|]. by destruct u.
Qed.

Lemma http_authorization_complete_witness :
  TqHttpConnectRequestAuthResult
    (http_request DemoAuth.requestLine
       ([str "Host: db:5432"] ++ authorization_line DemoAuth.bob :: [str "Via: x"]))
    [DemoAuth.alice; DemoAuth.bob] = Some (Val Authorized).
Proof.
  apply (http_authorization_complete DemoAuth.requestLine [str "Host: db:5432"] [str "Via: x"]
           [DemoAuth.alice; DemoAuth.bob] DemoAuth.bob).
  - repeat constructor; apply (bool_decide_unpack _); vm_compute; exact I.
  - right. left. reflexivity.
  - split; [discriminate | vm_compute; discriminate].
  - split; [discriminate | vm_compute; discriminate].
  - apply (bool_decide_unpack _). vm_compute. exact I.
  - apply (bool_decide_unpack _). vm_compute. exact I.
  - repeat constructor; try discriminate; apply (bool_decide_unpack _); vm_compute; exact I.
  - reflexivity.
Defined.

(** A name with a colon is accepted in the configuration, and its own credentials refused. *)
Example colon_name_is_refused :
  let u := {| Username := str "a:b"; Password := str "secret" |} in
  fst (TqValidateProxyAuthUsers [u] []) = true /\
  TqHttpConnectRequestAuthorized (http_request DemoAuth.requestLine [authorization_line u]) [u] =
    Some (Val false).
Proof. by vm_compute. Qed.

(** A user list passes validation exactly when it is short enough, every name and
    password is non-empty and at most 255 bytes, and no name occurs twice; then every user
    validates, with one password only. *)
Theorem validated_users_are_unambiguous users err :
  Forall user_ok users ->
  (fst (TqValidateProxyAuthUsers users err) = true <->
   (Z.of_nat (length users) <= kMaxUsers /\
    Forall (fun u => field_ok (Username u) /\ field_ok (Password u)) users /\
    NoDup (map Username users))) /\
  (fst (TqValidateProxyAuthUsers users err) = true ->
   forall u pass, In u users -> bytes_ok pass ->
     Validate users (Username u) pass = true <-> pass = Password u).
Proof.
  intros Hok.
  assert (Hiff : fst (TqValidateProxyAuthUsers users err) = true <->
    (Z.of_nat (length users) <= kMaxUsers /\
     Forall (fun u => field_ok (Username u) /\ field_ok (Password u)) users /\
     NoDup (map Username users))).
  { unfold TqValidateProxyAuthUsers. destruct (Z.ltb_spec kMaxUsers (Z.of_nat (length users))).
    - split; [done|lia].
    - rewrite validate_users_loop_true. set_solver. }
  split; [done|]. intros (_ & Hf & Hnd)%Hiff u pass Hin Hpass.
  rewrite List.Forall_forall in Hok, Hf. destruct (Hok u Hin) as [Hu Hp].
  rewrite Validate_spec; [|by rewrite List.Forall_forall|done|done|].
  2:{ destruct (Enabled users) eqn:He; [done|]. apply Enabled_false in He. by subst. }
  destruct (Hf u Hin) as [[Hun _] [Hpn _]]. split.
  - intros (_ & _ & Hin'). 
    assert (Heq : {| Username := Username u; Password := pass |} = u).
    { apply list_elem_of_In, list_elem_of_lookup in Hin as [i Hi].
      apply list_elem_of_In, list_elem_of_lookup in Hin' as [j Hj].
      assert (i = j); [|congruence].
      eapply NoDup_lookup; [exact Hnd|..]; rewrite list_lookup_fmap; [by rewrite Hi|by rewrite Hj]. }
    by rewrite <- Heq.
  - intros ->. split_and!; [done..|]. by destruct u.
Qed.

Lemma validated_users_are_unambiguous_witness :
  fst (TqValidateProxyAuthUsers [DemoAuth.alice; DemoAuth.bob] []) = true /\
  (Validate [DemoAuth.alice; DemoAuth.bob] (str "bob") (str "guess") = true <->
   str "guess" = str "p:w").
Proof.
  destruct (validated_users_are_unambiguous [DemoAuth.alice; DemoAuth.bob] []) as [_ H].
  - repeat constructor; apply (bool_decide_unpack _); vm_compute; exact I.
  - assert (Ht : fst (TqValidateProxyAuthUsers [DemoAuth.alice; DemoAuth.bob] []) = true)
      by reflexivity.
    split; [exact Ht|]. apply (H Ht DemoAuth.bob); [right; left; reflexivity|].
    apply (bool_decide_unpack _). vm_compute. exact I.
Defined.

(** Padding is not checked to come last: a quantum may have it in the third place only, or
    before further quanta, so that several texts decode to the same bytes. *)
Example base64_accepts_misplaced_padding :
  TqBase64Decode (str "QQ=B") = Val (true, [65; 1]) /\
  TqBase64Decode (str "QQ==QQ==") = TqBase64Decode (str "QUE=").
Proof. split; reflexivity. Qed.
