(* ===== verification/Ingress.v ===== *)
(** The client ingress (src/src/ingress): the SOCKS5 and HTTP CONNECT request parsers and the
    handshake state machine [TqClientIngressState] that the ingress reactor feeds with what it
    receives and whose pending bytes it sends.

    Every index into a buffer goes through [rd] or [rd_range], so a run that reads past a
    buffer is [Oob]; [stuck_if_none] puts a header search that does not end in the same place,
    so that a [Val] result means neither happened. *)

From stdpp Require Import base list strings numbers sets.
From Stdlib Require Import ZArith Lia.
From S2P Require Import Prelude ControlProtocol ProxyAuth.

(** [struct TunnelRequest]; [tr_Host] is the whole [char Host[256]]. *)
Record TunnelRequest := {
  tr_AddrType : Z; tr_Host : bytes; tr_Port : Z; tr_CompressFlags : Z; tr_IngressTraceProto : Z }.

Definition sizeof_Host : nat := 256.

(** [TunnelRequest parsed{}]. *)
Definition TunnelRequest_zero : TunnelRequest :=
  {| tr_AddrType := 0; tr_Host := replicate sizeof_Host 0; tr_Port := 0; tr_CompressFlags := 0;
     tr_IngressTraceProto := 0 |}.

(** [memcpy(parsed.Host, host.c_str(), host.size() + 1)] into the zeroed array. *)
Definition copy_host (host : bytes) : mem bytes :=
  if (length host + 1 <=? sizeof_Host)%nat
  then Val (host ++ 0 :: replicate (sizeof_Host - length host - 1) 0) else Oob.

Definition TqSocks5Version : Z := 5.
Definition TqSocks5CmdConnect : Z := 1.
Definition TqSocks5Rsv : Z := 0.
Definition TqSocks5AtypIpv4 : Z := 1.
Definition TqSocks5AtypDomain : Z := 3.
Definition TqSocks5AtypIpv6 : Z := 4.
Definition TqSocks5NoAuth : Z := 0.
Definition TqSocks5UserPass : Z := 2.
Definition TqSocks5NoAcceptable : Z := 255.
Definition TqSocks5UserPassVersion : Z := 1.
Definition TqSocks5AuthSuccess : Z := 0.
Definition TqSocks5AuthFailure : Z := 1.
Definition TqHttpConnectHeaderCap : Z := 16 * 1024.

Definition TqSocks5RepForOpenError (error : Z) : Z :=
  if error =? TqOpenError_Ok then 0
  else if error =? TqOpenError_AclDenied then 2
  else if error =? TqOpenError_DnsFailed then 4
  else if error =? TqOpenError_TcpRefused then 5
  else if error =? TqOpenError_TcpTimeout then 6
  else 1.

Definition TqHttpStatusForOpenError (error : Z) : Z :=
  if error =? TqOpenError_Ok then 200
  else if error =? TqOpenError_AclDenied then 403
  else if error =? TqOpenError_DnsFailed then 502
  else if error =? TqOpenError_TcpRefused then 502
  else if error =? TqOpenError_TcpTimeout then 504
  else 500.

(** ** [host:port] *)

Definition TqParsePort (text : bytes) : option Z :=
  match text with
  | [] => None
  | _ =>
      match dec_loop 65535 text 0 with
      | None => None
      | Some value => if value =? 0 then None else Some (u16 value)
      end
  end.

Definition TqParseHostPort (target : bytes) : mem (option (bytes * Z)) :=
  match target with
  | [] => Val None
  | front :: _ =>
      match find_str target (str "://") 0 with
      | Some _ => Val None
      | None =>
          split ←
            (if front =? 91 then
               match find_char target 93 0 with
               | None => Val None
               | Some close =>
                   if size target <=? Z.of_nat (close + 1) then Val None
                   else
                     c ← rd target (close + 1);
                     if negb (c =? 58) then Val None
                     else Val (Some (substr target 1 (close - 1), substr_from target (close + 2)))
               end
             else
               match rfind_char target 58 with
               | None => Val None
               | Some colon =>
                   if (colon =? 0)%nat || (size target <=? Z.of_nat (colon + 1)) then Val None
                   else
                     let host := substr target 0 colon in
                     match find_char host 58 0 with
                     | Some _ => Val None
                     | None => Val (Some (host, substr_from target (colon + 1)))
                     end
               end);
          match split with
          | None => Val None
          | Some (host, portText) =>
              match host with
              | [] => Val None
              | _ =>
                  match TqParsePort portText with
                  | None => Val None
                  | Some port => Val (Some (host, port))
                  end
              end
          end
      end
  end.

Section WithInet.
(** [TqInetPton] and [TqInetNtop] of the socket layer, by family. *)
Context (inet_pton4 inet_pton6 : bytes -> option bytes).
Context (inet_ntop4 inet_ntop6 : bytes -> option bytes).

Definition TqAddrTypeForHost (host : bytes) : Z :=
  match inet_pton4 (c_str host) with
  | Some _ => TQ_ADDR_IPV4
  | None =>
      match inet_pton6 (c_str host) with
      | Some _ => TQ_ADDR_IPV6
      | None => TQ_ADDR_DOMAIN
      end
  end.

Definition TqParseHttpConnectRequest (request : bytes) : mem (option TunnelRequest) :=
  match find_str request (CRLF ++ CRLF) 0 with
  | None => Val None
  | Some headerEnd =>
      match find_str request CRLF 0 with
      | None => Val None
      | Some lineEnd =>
          if (lineEnd =? 0)%nat || (headerEnd <? lineEnd)%nat then Val None
          else
            let line := substr request 0 lineEnd in
            match find_char line 32 0 with
            | None => Val None
            | Some methodEnd =>
                match find_char line 32 (methodEnd + 1) with
                | None => Val None
                | Some targetEnd =>
                    match find_char line 32 (targetEnd + 1) with
                    | Some _ => Val None
                    | None =>
                        let method := substr line 0 methodEnd in
                        let target := substr line (methodEnd + 1) (targetEnd - methodEnd - 1) in
                        let version := substr_from line (targetEnd + 1) in
                        if negb (bool_decide (method = str "CONNECT")) ||
                           negb (starts_with (str "HTTP/1.") version) ||
                           negb (size version =? 8)
                        then Val None
                        else
                          hostPort ← TqParseHostPort target;
                          match hostPort with
                          | None => Val None
                          | Some (host, port) =>
                              if (sizeof_Host <=? length host)%nat then Val None
                              else
                                h ← copy_host host;
                                Val (Some {| tr_AddrType := TqAddrTypeForHost host; tr_Host := h;
                                             tr_Port := port; tr_CompressFlags := 0;
                                             tr_IngressTraceProto := 0 |})
                          end
                    end
                end
            end
      end
  end.

(** The host, the address type and the offset behind the address. *)
Definition socks5_address (request : bytes) : mem (option (bytes * Z * nat)) :=
  atyp ← rd request 3;
  if atyp =? TqSocks5AtypIpv4 then
    if negb (size request =? 10) then Val None
    else
      a ← rd_range request 4 4;
      Val ((fun text => (c_str text, TQ_ADDR_IPV4, 8%nat)) <$> inet_ntop4 a)
  else if atyp =? TqSocks5AtypDomain then
    len ← rd request 4;
    if (len =? 0) || negb (size request =? 7 + len) then Val None
    else
      h ← rd_range request 5 (Z.to_nat len);
      Val (Some (h, TQ_ADDR_DOMAIN, (5 + Z.to_nat len)%nat))
  else if atyp =? TqSocks5AtypIpv6 then
    if negb (size request =? 22) then Val None
    else
      a ← rd_range request 4 16;
      Val ((fun text => (c_str text, TQ_ADDR_IPV6, 20%nat)) <$> inet_ntop6 a)
  else Val None.

Definition TqParseSocks5ConnectRequest (request : bytes) : mem (option TunnelRequest) :=
  if size request <? 7 then Val None
  else
    b0 ← rd request 0;
    if negb (b0 =? TqSocks5Version) then Val None
    else
      b1 ← rd request 1;
      if negb (b1 =? TqSocks5CmdConnect) then Val None
      else
        b2 ← rd request 2;
        if negb (b2 =? TqSocks5Rsv) then Val None
        else
          address ← socks5_address request;
          match address with
          | None => Val None
          | Some (host, addrType, offset) =>
              if bool_decide (host = []) || (sizeof_Host <=? length host)%nat ||
                 negb (offset + 2 =? length request)%nat
              then Val None
              else
                hi ← rd request offset;
                lo ← rd request (offset + 1);
                let port := u16 (Z.lor (u16 (Z.shiftl hi 8)) lo) in
                if port =? 0 then Val None
                else
                  h ← copy_host host;
                  Val (Some {| tr_AddrType := addrType; tr_Host := h; tr_Port := port;
                               tr_CompressFlags := 0; tr_IngressTraceProto := 0 |})
          end.
End WithInet.

(** ** The handshake state machine *)

Inductive TqClientIngressProto := Socks5 | HttpConnect.
Inductive TqClientIngressResult := NeedRead | NeedWrite | ReadyToOpen | Close.

#[export] Instance TqClientIngressResult_eq_dec : EqDecision TqClientIngressResult.
Proof. solve_decision. Defined.

Record TqClientIngressState := {
  Proto : TqClientIngressProto;
  Auth : TqProxyAuthTable;
  ReadBuffer : bytes;
  WriteBuffer : bytes;
  ParsedRequest : TunnelRequest;
  SocksGreetingDone : bool;
  SocksAuthPending : bool;
  CloseAfterWrite : bool;
  Ready : bool }.

(** The constructor; no table stands for a default one, which is empty. *)
Definition TqClientIngressState_init (proto : TqClientIngressProto)
    (auth : option TqProxyAuthTable) : TqClientIngressState :=
  {| Proto := proto; Auth := match auth with Some a => a | None => [] end;
     ReadBuffer := []; WriteBuffer := []; ParsedRequest := TunnelRequest_zero;
     SocksGreetingDone := false; SocksAuthPending := false; CloseAfterWrite := false;
     Ready := false |}.

Definition set_ReadBuffer (b : bytes) (st : TqClientIngressState) : TqClientIngressState :=
  {| Proto := Proto st; Auth := Auth st; ReadBuffer := b; WriteBuffer := WriteBuffer st;
     ParsedRequest := ParsedRequest st; SocksGreetingDone := SocksGreetingDone st;
     SocksAuthPending := SocksAuthPending st; CloseAfterWrite := CloseAfterWrite st;
     Ready := Ready st |}.

(** The reply is queued, the buffer cut, and the handshake flags set. *)
Definition reply (w rest : bytes) (greetingDone authPending closeAfter : bool)
    (st : TqClientIngressState) : TqClientIngressState :=
  {| Proto := Proto st; Auth := Auth st; ReadBuffer := rest; WriteBuffer := w;
     ParsedRequest := ParsedRequest st; SocksGreetingDone := greetingDone;
     SocksAuthPending := authPending; CloseAfterWrite := closeAfter; Ready := Ready st |}.

Definition mark_ready (req : TunnelRequest) (rest : bytes) (st : TqClientIngressState)
    : TqClientIngressState :=
  {| Proto := Proto st; Auth := Auth st; ReadBuffer := rest; WriteBuffer := WriteBuffer st;
     ParsedRequest := req; SocksGreetingDone := SocksGreetingDone st;
     SocksAuthPending := SocksAuthPending st; CloseAfterWrite := CloseAfterWrite st;
     Ready := true |}.

Definition with_proto (p : Z) (r : TunnelRequest) : TunnelRequest :=
  {| tr_AddrType := tr_AddrType r; tr_Host := tr_Host r; tr_Port := tr_Port r;
     tr_CompressFlags := tr_CompressFlags r; tr_IngressTraceProto := p |}.

(** [None]: more bytes are needed; [Some 0]: the request is malformed. *)
Definition TqSocks5RequestLength (data : bytes) : mem (option Z) :=
  if size data <? 4 then Val None
  else
    atyp ← rd data 3;
    if atyp =? TqSocks5AtypIpv4 then Val (Some 10)
    else if atyp =? TqSocks5AtypDomain then
      if size data <? 5 then Val None
      else
        len ← rd data 4;
        if len =? 0 then Val (Some 0) else Val (Some (7 + len))
    else if atyp =? TqSocks5AtypIpv6 then Val (Some 22)
    else Val (Some 0).

Definition stuck_if_none {A} (m : option (mem A)) : mem A :=
  match m with Some m => m | None => Oob end.

(** The [SocksAuthPending] part of [FeedSocks5]: the RFC 1929 sub-negotiation. *)
Definition FeedSocks5_auth (st : TqClientIngressState)
    : mem (TqClientIngressResult * TqClientIngressState) :=
  let buf := ReadBuffer st in
  if size buf <? 2 then Val (NeedRead, st)
  else
    ver ← rd buf 0;
    if negb (ver =? TqSocks5UserPassVersion) then Val (Close, st)
    else
      usernameLen ← rd buf 1;
      if (usernameLen =? 0) || (kMaxFieldBytes <? usernameLen) then Val (Close, st)
      else if size buf <? 2 + usernameLen + 1 then Val (NeedRead, st)
      else
        let passwordLenOffset := 2 + usernameLen in
        passwordLen ← rd buf (Z.to_nat passwordLenOffset);
        if (passwordLen =? 0) || (kMaxFieldBytes <? passwordLen) then Val (Close, st)
        else
          let authLen := 2 + usernameLen + 1 + passwordLen in
          if size buf <? authLen then Val (NeedRead, st)
          else
            username ← rd_range buf 2 (Z.to_nat usernameLen);
            password ← rd_range buf (Z.to_nat (passwordLenOffset + 1)) (Z.to_nat passwordLen);
            let valid := Validate (Auth st) username password in
            Val (NeedWrite,
                 reply [TqSocks5UserPassVersion;
                        if valid then TqSocks5AuthSuccess else TqSocks5AuthFailure]
                       (drop (Z.to_nat authLen) buf) valid false (negb valid) st).

(** The greeting part of [FeedSocks5]. *)
Definition FeedSocks5_greeting (st : TqClientIngressState)
    : mem (TqClientIngressResult * TqClientIngressState) :=
  let buf := ReadBuffer st in
  if size buf <? 2 then Val (NeedRead, st)
  else
    ver ← rd buf 0;
    if negb (ver =? TqSocks5Version) then Val (Close, st)
    else
      methodsLen ← rd buf 1;
      let greetingLen := 2 + methodsLen in
      if size buf <? greetingLen then Val (NeedRead, st)
      else
        methods ← rd_range buf 2 (Z.to_nat methodsLen);
        let hasNoAuth := existsb (fun m => m =? TqSocks5NoAuth) methods in
        let hasUserPass := existsb (fun m => m =? TqSocks5UserPass) methods in
        let rest := drop (Z.to_nat greetingLen) buf in
        if negb (Enabled (Auth st)) then
          if negb hasNoAuth then
            Val (NeedWrite, reply [TqSocks5Version; TqSocks5NoAcceptable] rest
                                  (SocksGreetingDone st) (SocksAuthPending st) true st)
          else
            Val (NeedWrite, reply [5; 0] rest true (SocksAuthPending st) (CloseAfterWrite st) st)
        else if negb hasUserPass then
          Val (NeedWrite, reply [TqSocks5Version; TqSocks5NoAcceptable] rest
                                (SocksGreetingDone st) (SocksAuthPending st) true st)
        else
          Val (NeedWrite, reply [5; 2] rest (SocksGreetingDone st) true (CloseAfterWrite st) st).

Section Machine.
Context (inet_pton4 inet_pton6 : bytes -> option bytes).
Context (inet_ntop4 inet_ntop6 : bytes -> option bytes).

(** The part of [FeedSocks5] behind the greeting: the request. *)
Definition FeedSocks5_request (st : TqClientIngressState)
    : mem (TqClientIngressResult * TqClientIngressState) :=
  let buf := ReadBuffer st in
  len ← TqSocks5RequestLength buf;
  match len with
  | None => Val (NeedRead, st)
  | Some requestLen =>
      if requestLen =? 0 then Val (Close, st)
      else if size buf <? requestLen then Val (NeedRead, st)
      else
        request ← rd_range buf 0 (Z.to_nat requestLen);
        parsed ← TqParseSocks5ConnectRequest inet_ntop4 inet_ntop6 request;
        match parsed with
        | None => Val (Close, st)
        | Some parsed =>
            Val (ReadyToOpen,
                 mark_ready (with_proto 1 parsed) (drop (Z.to_nat requestLen) buf) st)
        end
  end.

Definition FeedSocks5 (st : TqClientIngressState)
    : mem (TqClientIngressResult * TqClientIngressState) :=
  if negb (bool_decide (WriteBuffer st = [])) then Val (NeedWrite, st)
  else if CloseAfterWrite st then Val (Close, st)
  else if negb (SocksGreetingDone st) then
    if SocksAuthPending st then FeedSocks5_auth st else FeedSocks5_greeting st
  else FeedSocks5_request st.

Definition http_407 : bytes :=
  str "HTTP/1.1 407 Proxy Authentication Required" ++ CRLF ++
  str "Proxy-Authenticate: Basic realm=" ++ [34] ++ str "tcpquic-proxy" ++ [34] ++ CRLF ++ CRLF.

Definition FeedHttpConnect (st : TqClientIngressState)
    : mem (TqClientIngressResult * TqClientIngressState) :=
  if negb (bool_decide (WriteBuffer st = [])) then Val (NeedWrite, st)
  else if CloseAfterWrite st then Val (Close, st)
  else
    let request := ReadBuffer st in
    match find_str request (CRLF ++ CRLF) 0 with
    | None =>
        if TqHttpConnectHeaderCap <=? size (ReadBuffer st) then Val (Close, st)
        else Val (NeedRead, st)
    | Some headerEnd =>
        let headerSize := (headerEnd + 4)%nat in
        if TqHttpConnectHeaderCap <? Z.of_nat headerSize then Val (Close, st)
        else
          let header := substr request 0 headerSize in
          parsed ← TqParseHttpConnectRequest inet_pton4 inet_pton6 header;
          match parsed with
          | None => Val (Close, st)
          | Some parsed =>
              authorized ← stuck_if_none (TqHttpConnectRequestAuthorized header (Auth st));
              if negb authorized then
                Val (NeedWrite, reply http_407 (ReadBuffer st) (SocksGreetingDone st)
                                      (SocksAuthPending st) true st)
              else
                Val (ReadyToOpen,
                     mark_ready (with_proto 2 parsed) (drop headerSize (ReadBuffer st)) st)
          end
    end.

Definition Feed (data : bytes) (st : TqClientIngressState)
    : mem (TqClientIngressResult * TqClientIngressState) :=
  let st := set_ReadBuffer (ReadBuffer st ++ data) st in
  if Ready st then Val (ReadyToOpen, st)
  else match Proto st with
       | Socks5 => FeedSocks5 st
       | HttpConnect => FeedHttpConnect st
       end.
End Machine.

Definition MarkWriteComplete (n : Z) (st : TqClientIngressState) : TqClientIngressState :=
  let eraseBytes := Z.min n (size (WriteBuffer st)) in
  {| Proto := Proto st; Auth := Auth st; ReadBuffer := ReadBuffer st;
     WriteBuffer := drop (Z.to_nat eraseBytes) (WriteBuffer st);
     ParsedRequest := ParsedRequest st; SocksGreetingDone := SocksGreetingDone st;
     SocksAuthPending := SocksAuthPending st; CloseAfterWrite := CloseAfterWrite st;
     Ready := Ready st |}.

Definition TakeBufferedData (st : TqClientIngressState) : bytes * TqClientIngressState :=
  (ReadBuffer st, set_ReadBuffer [] st).

(** What may happen to a state: the reactor feeds received bytes (none, after a write) or
    reports bytes sent. *)
Inductive event := EvFeed (data : bytes) | EvSent (n : Z).

Definition apply_event p4 p6 n4 n6 (e : event) (st : TqClientIngressState)
    : mem (TqClientIngressResult * TqClientIngressState) :=
  match e with
  | EvFeed data => Feed p4 p6 n4 n6 data st
  | EvSent n => Val (NeedWrite, MarkWriteComplete n st)
  end.

(** The states a fresh connection goes through, with the bytes received so far. *)
Inductive reachable p4 p6 n4 n6 (proto : TqClientIngressProto) (auth : TqProxyAuthTable)
    : bytes -> TqClientIngressState -> Prop :=
| reach_init : reachable p4 p6 n4 n6 proto auth [] (TqClientIngressState_init proto (Some auth))
| reach_step received st e r st' :
    reachable p4 p6 n4 n6 proto auth received st ->
    apply_event p4 p6 n4 n6 e st = Val (r, st') ->
    reachable p4 p6 n4 n6 proto auth
      (received ++ match e with EvFeed data => data | EvSent _ => [] end) st'.

Example socks5_no_auth :
  (fun r => match r with Val (res, st) => (res, WriteBuffer st) | Oob => (Close, []) end)
    (Feed (fun _ => None) (fun _ => None) (fun _ => None) (fun _ => None) [5; 1; 0]
       (TqClientIngressState_init Socks5 None)) = (NeedWrite, [5; 0]).
Proof. reflexivity. Qed.

(** ** No read leaves a buffer *)

(** Walks down a computation: returns are safe, reads are discharged by arithmetic on the
    tests met so far. *)
Ltac safe_go :=
  repeat match goal with
    | |- safe (Val _) => apply safe_val
    | |- safe (_ ≫= _) => apply safe_bind; [|intros ? ?]
    | |- safe (rd _ _) => apply safe_rd
    | |- safe (rd_range _ _ _) => apply safe_rd_range
    | |- safe (if ?b then _ else _) => destruct b eqn:?
    | |- safe (match ?x with _ => _ end) => destruct x eqn:?
    end.

Lemma copy_host_safe host : (length host < sizeof_Host)%nat -> safe (copy_host host).
Proof.
  intros H. unfold copy_host. rewrite (proj2 (Nat.leb_le _ _)) by lia. apply safe_val.
Qed.

Lemma TqParseHostPort_safe target : safe (TqParseHostPort target).
Proof. unfold TqParseHostPort. safe_go. to_prop. widths. Qed.

Lemma TqParseHttpConnectRequest_safe p4 p6 request :
  safe (TqParseHttpConnectRequest p4 p6 request).
Proof.
  unfold TqParseHttpConnectRequest. safe_go; [apply TqParseHostPort_safe|].
  apply copy_host_safe. apply Nat.leb_gt. done.
Qed.

Lemma socks5_address_safe n4 n6 request :
  7 <= size request -> safe (socks5_address n4 n6 request).
Proof.
  intros Hl. unfold socks5_address. safe_go; to_prop; widths.
Qed.

Lemma TqParseSocks5ConnectRequest_safe n4 n6 request :
  safe (TqParseSocks5ConnectRequest n4 n6 request).
Proof.
  unfold TqParseSocks5ConnectRequest. safe_go; to_prop_nat; try widths;
    [by apply socks5_address_safe | by apply copy_host_safe].
Qed.

Lemma TqSocks5RequestLength_safe data : safe (TqSocks5RequestLength data).
Proof. unfold TqSocks5RequestLength. safe_go; to_prop; widths. Qed.

Ltac rd_widths Hb :=
  repeat match goal with
    | H : rd _ _ = Val _ |- _ => apply (rd_val_u8 _ _ _ Hb) in H
    end; widths.

Lemma FeedSocks5_safe n4 n6 st :
  bytes_ok (ReadBuffer st) -> safe (FeedSocks5 n4 n6 st).
Proof.
  intros Hb. unfold FeedSocks5, FeedSocks5_auth, FeedSocks5_greeting, FeedSocks5_request.
  safe_go; to_prop; try rd_widths Hb.
  - apply TqSocks5RequestLength_safe.
  - apply TqParseSocks5ConnectRequest_safe.
Qed.

Lemma TqHttpConnectRequestAuthorized_safe request auth :
  safe (stuck_if_none (TqHttpConnectRequestAuthorized request auth)).
Proof.
  unfold TqHttpConnectRequestAuthorized, TqHttpConnectRequestAuthResult.
  destruct (Enabled auth); cbn [negb]; [|simpl; auto with tq].
  destruct (TqFindHttpHeaderValue_ends request (str "Proxy-Authorization")) as [r ->].
  destruct r as [v|]; simpl; [|auto with tq].
  destruct (TqParseHttpProxyAuthorization_safe v) as [p ->]. simpl. safe_go.
Qed.

Lemma FeedHttpConnect_safe p4 p6 st : safe (FeedHttpConnect p4 p6 st).
Proof.
  unfold FeedHttpConnect. cbv zeta. safe_go;
    [apply TqParseHttpConnectRequest_safe | apply TqHttpConnectRequestAuthorized_safe].
Qed.

Lemma Feed_safe p4 p6 n4 n6 data st :
  bytes_ok (ReadBuffer st) -> bytes_ok data -> safe (Feed p4 p6 n4 n6 data st).
Proof.
  intros Hb Hd. unfold Feed. safe_go; [|apply FeedHttpConnect_safe].
  apply FeedSocks5_safe. simpl. by apply bytes_ok_app.
Qed.

(** ** The machine reads a stream *)

Definition append_input (k : bytes) (st : TqClientIngressState) : TqClientIngressState :=
  set_ReadBuffer (ReadBuffer st ++ k) st.

(** [m] keeps its answer, unless that is [NeedRead], when [k] is behind the input. *)
Definition stable (step : TqClientIngressState -> mem (TqClientIngressResult * TqClientIngressState))
    (k : bytes) (st : TqClientIngressState) : Prop :=
  forall r st', step st = Val (r, st') ->
  (r = NeedRead /\ st' = st) \/
  (r <> NeedRead /\ step (append_input k st) = Val (r, append_input k st')).

(** Replays the reads and tests of a run on the longer buffer. *)
Ltac replay k :=
  repeat match goal with
    | H : mbind _ ?m = Val _ |- _ =>
        let a := fresh "a" in let Ha := fresh "Hrd" in
        destruct m as [a|] eqn:Ha; [|discriminate H]; cbn [mbind mem_bind] in H
    | H : (if ?b then _ else _) = Val _ |- _ => destruct b eqn:?
    end.

(** Reruns the goal's computation on the longer buffer with the answers of the shorter one. *)
Ltac rerun :=
  repeat (match goal with
    | H : rd ?l ?i = Val _ |- context [rd (?l ++ ?k) ?i] => rewrite (rd_val_app l k i _ H)
    | H : rd_range ?l ?i ?n = Val _ |- context [rd_range (?l ++ ?k) ?i ?n] =>
        rewrite (rd_range_val_app l k i n _ H)
    | H : (size ?l <? ?n) = false |- context [size (?l ++ ?k) <? ?n] =>
        rewrite (size_lt_app l k n H)
    | H : ?e = true |- context [?e] => rewrite H
    | H : ?e = false |- context [?e] => rewrite H
    end; cbn [mbind mem_bind]).

Ltac stable_start k :=
  let H := fresh "H" in intros ? ? H; replay k; simplify_eq; auto;
  right; (split; [done|]); cbn [append_input set_ReadBuffer ReadBuffer Auth]; rerun;
  try reflexivity.

Lemma FeedSocks5_auth_stable k st : stable FeedSocks5_auth k st.
Proof.
  unfold stable, FeedSocks5_auth. stable_start k.
  rewrite drop_app_le by (to_prop; widths). reflexivity.
Qed.

Lemma FeedSocks5_greeting_stable k st : stable FeedSocks5_greeting k st.
Proof.
  unfold stable, FeedSocks5_greeting. stable_start k.
  all: rewrite drop_app_le by (to_prop; widths); reflexivity.
Qed.

Lemma TqSocks5RequestLength_app buf k n :
  TqSocks5RequestLength buf = Val (Some n) -> TqSocks5RequestLength (buf ++ k) = Val (Some n).
Proof. unfold TqSocks5RequestLength. intros H. replay k; simplify_eq; rerun; reflexivity. Qed.

Lemma FeedSocks5_request_stable n4 n6 k st : stable (FeedSocks5_request n4 n6) k st.
Proof.
  unfold stable, FeedSocks5_request. intros r st' H. replay k.
  destruct a as [n|]; [|simplify_eq; by left]. replay k; simplify_eq; auto.
  all: cbn [append_input set_ReadBuffer ReadBuffer].
  all: rewrite (TqSocks5RequestLength_app _ k _ Hrd); cbn [mbind mem_bind].
  { right. split; [done|]. by rerun. }
  destruct a0 as [t|]; simplify_eq; right; (split; [done|]); rerun; rewrite Hrd1; cbn [mbind mem_bind].
  - rewrite drop_app_le by (to_prop; widths). reflexivity.
  - reflexivity.
Qed.

Lemma FeedSocks5_stable n4 n6 k st : stable (FeedSocks5 n4 n6) k st.
Proof.
  unfold stable, FeedSocks5. intros r st'.
  change (WriteBuffer (append_input k st)) with (WriteBuffer st).
  change (CloseAfterWrite (append_input k st)) with (CloseAfterWrite st).
  change (SocksGreetingDone (append_input k st)) with (SocksGreetingDone st).
  change (SocksAuthPending (append_input k st)) with (SocksAuthPending st).
  destruct (negb (bool_decide _)); [intros; simplify_eq; auto|].
  destruct (CloseAfterWrite st); [intros; simplify_eq; auto|].
  destruct (negb (SocksGreetingDone st)); [destruct (SocksAuthPending st)|].
  - apply FeedSocks5_auth_stable.
  - apply FeedSocks5_greeting_stable.
  - apply FeedSocks5_request_stable.
Qed.

Lemma FeedHttpConnect_stable p4 p6 k st : stable (FeedHttpConnect p4 p6) k st.
Proof.
  unfold stable, FeedHttpConnect. intros r st'. cbv zeta.
  change (WriteBuffer (append_input k st)) with (WriteBuffer st).
  change (CloseAfterWrite (append_input k st)) with (CloseAfterWrite st).
  change (Auth (append_input k st)) with (Auth st).
  change (ReadBuffer (append_input k st)) with (ReadBuffer st ++ k).
  destruct (negb (bool_decide _)); [intros; simplify_eq; auto|].
  destruct (CloseAfterWrite st); [intros; simplify_eq; auto|].
  destruct (find_str (ReadBuffer st) _ 0) as [he|] eqn:Hhe.
  - rewrite (find_str_app _ k _ _ Hhe). destruct (_ <? _); [intros; simplify_eq; auto|].
    apply find_str_0 in Hhe as (_ & _ & Hl). simpl length in Hl.
    assert (Hsub : substr (ReadBuffer st ++ k) 0 (he + 4) = substr (ReadBuffer st) 0 (he + 4)).
    { unfold substr. rewrite !drop_0, take_app_le by lia. done. }
    rewrite Hsub. destruct (TqParseHttpConnectRequest _ _ _) as [[t|]|]; cbn [mbind mem_bind].
    + destruct (stuck_if_none _) as [[]|]; cbn [mbind mem_bind negb]; intros; simplify_eq;
        right; (split; [done|]); [rewrite drop_app_le by lia|]; reflexivity.
    + intros; simplify_eq; auto.
    + intros; simplify_eq.
  - destruct (Z.leb_spec TqHttpConnectHeaderCap (size (ReadBuffer st))); intros; simplify_eq; auto.
    right. split; [done|]. destruct (find_str (_ ++ k) _ 0) as [he|] eqn:Hk.
    + apply find_str_new in Hk; [|done]. simpl length in Hk.
      rewrite (proj2 (Z.ltb_lt _ _)) by widths. done.
    + rewrite (proj2 (Z.leb_le _ _)); [done|]. rewrite size_app. pose proof (size_nonneg k). lia.
Qed.

(** ** What a client must have sent *)

Definition socks5_greeting (methods : bytes) : bytes := 5 :: size methods :: methods.
Definition socks5_userpass (user pass : bytes) : bytes :=
  1 :: size user :: user ++ size pass :: pass.

(** The bytes before the request: a greeting that offers "no authentication" when no users
    are configured, else one that offers user/password followed by a configured pair. *)
Definition negotiated (auth : TqProxyAuthTable) (sent : bytes) : Prop :=
  (auth = [] /\ exists methods, sent = socks5_greeting methods /\ In TqSocks5NoAuth methods) \/
  (exists methods u, sent = socks5_greeting methods ++ socks5_userpass (Username u) (Password u) /\
     In TqSocks5UserPass methods /\ In u auth).

Definition socks5_inv n4 n6 (auth : TqProxyAuthTable) (received : bytes)
    (st : TqClientIngressState) : Prop :=
  Proto st = Socks5 /\ Auth st = auth /\
  if Ready st then
    exists sent request t, received = sent ++ request ++ ReadBuffer st /\ negotiated auth sent /\
      TqParseSocks5ConnectRequest n4 n6 request = Val (Some t) /\
      ParsedRequest st = with_proto 1 t
  else if CloseAfterWrite st then True
  else if SocksGreetingDone st then
    exists sent, received = sent ++ ReadBuffer st /\ negotiated auth sent
  else if SocksAuthPending st then
    auth <> [] /\
    exists methods, received = socks5_greeting methods ++ ReadBuffer st /\ In TqSocks5UserPass methods
  else received = ReadBuffer st.

Definition http_inv p4 p6 (auth : TqProxyAuthTable) (received : bytes)
    (st : TqClientIngressState) : Prop :=
  Proto st = HttpConnect /\ Auth st = auth /\
  if Ready st then
    exists header t, received = header ++ ReadBuffer st /\
      (exists text, header = text ++ CRLF ++ CRLF) /\
      TqParseHttpConnectRequest p4 p6 header = Val (Some t) /\
      ParsedRequest st = with_proto 2 t /\
      TqHttpConnectRequestAuthorized header auth = Some (Val true)
  else received = ReadBuffer st.

Lemma inv_received_bytes n4 n6 auth received st :
  bytes_ok received -> socks5_inv n4 n6 auth received st -> Ready st = false ->
  CloseAfterWrite st = false -> bytes_ok (ReadBuffer st).
Proof.
  intros Hok (_ & _ & H) Hr Hc. rewrite Hr, Hc in H.
  destruct (SocksGreetingDone st), (SocksAuthPending st);
    repeat match goal with H : _ /\ _ |- _ => destruct H | H : exists _, _ |- _ => destruct H end;
    subst; try done; apply bytes_ok_app in Hok as [_ Hok]; done.
Qed.

(** Splitting a length-prefixed field off a buffer. *)
Lemma split_field buf i len f :
  is_u8 len -> rd_range buf i (Z.to_nat len) = Val f ->
  size f = len /\ drop i buf = f ++ drop (i + Z.to_nat len) buf.
Proof.
  intros Hlen [Hl ->]%rd_range_val. unfold is_u8 in Hlen. split.
  - unfold size. rewrite length_take, length_drop. lia.
  - rewrite <- drop_drop. by rewrite take_drop.
Qed.

Lemma rd_drop buf i b : rd buf i = Val b -> drop i buf = b :: drop (S i) buf.
Proof. intros H%rd_val. by apply drop_S. Qed.

Lemma existsb_In v methods : existsb (fun m => m =? v) methods = true <-> In v methods.
Proof.
  rewrite existsb_exists. split; [intros (x & Hx & ->%Z.eqb_eq); done|].
  intros H. exists v. by rewrite Z.eqb_refl.
Qed.

Lemma greeting_step n4 n6 auth received st r st' :
  bytes_ok (ReadBuffer st) -> socks5_inv n4 n6 auth received st ->
  Ready st = false -> CloseAfterWrite st = false -> SocksGreetingDone st = false ->
  SocksAuthPending st = false ->
  FeedSocks5_greeting st = Val (r, st') -> socks5_inv n4 n6 auth received st'.
Proof.
  intros Hb Hinv HR HC HG HA. pose proof Hinv as (Hp & Hauth & H). rewrite HR, HC, HG, HA in H.
  unfold FeedSocks5_greeting. intros Hrun. replay st; simplify_eq; try exact Hinv.
  all: assert (Hlen : is_u8 a0) by (by eapply rd_val_u8).
  all: destruct (split_field _ _ _ _ Hlen Hrd1) as [Hsz Hsplit].
  all: assert (Hbuf : ReadBuffer st =
         socks5_greeting a1 ++ drop (Z.to_nat (2 + a0)) (ReadBuffer st))
    by (unfold socks5_greeting; rewrite Hsz; simpl; to_prop; subst a;
        rewrite <- (drop_0 (ReadBuffer st)) at 1; rewrite (rd_drop _ _ _ Hrd), (rd_drop _ _ _ Hrd0);
        rewrite Hsplit; unfold TqSocks5Version, is_u8 in *;
        replace (Z.to_nat (2 + a0)) with (2 + Z.to_nat a0)%nat by lia; done).
  all: to_prop; split_and!; [done..|]; cbn; rewrite ?HR, ?HG, ?HA, ?HC; try done.
  - eexists. split; [exact Hbuf|]. left.
    match goal with He : Enabled _ = false |- _ => apply Enabled_false in He end.
    split; [done|]. eexists. split; [done|]. by apply existsb_In.
  - split; [|eexists; split; [exact Hbuf|by apply existsb_In]].
    intros Hn. apply Enabled_false in Hn. congruence.
Qed.

Lemma auth_step n4 n6 auth received st r st' :
  Forall user_ok auth ->
  bytes_ok (ReadBuffer st) -> socks5_inv n4 n6 auth received st ->
  Ready st = false -> CloseAfterWrite st = false -> SocksGreetingDone st = false ->
  SocksAuthPending st = true ->
  FeedSocks5_auth st = Val (r, st') -> socks5_inv n4 n6 auth received st'.
Proof.
  intros Hok Hb Hinv HR HC HG HA. pose proof Hinv as (Hp & Hauth & H).
  rewrite HR, HC, HG, HA in H. destruct H as (Hne & methods & Hrec & Hm).
  unfold FeedSocks5_auth. intros Hrun. replay st; simplify_eq; try exact Hinv.
  destruct (Validate _ _ _) eqn:Hv; cbn [negb].
  2:{ split_and!; [done..|]. cbn. by rewrite HR. }
  assert (Hlen : is_u8 a0) by (by eapply rd_val_u8).
  assert (Hplen : is_u8 a1) by (by eapply rd_val_u8).
  destruct (split_field _ _ _ _ Hlen Hrd2) as [Hsz Hsplit].
  destruct (split_field _ _ _ _ Hplen Hrd3) as [Hpsz Hpsplit].
  assert (Hbuf : ReadBuffer st =
    socks5_userpass a2 a3 ++ drop (Z.to_nat (2 + a0 + 1 + a1)) (ReadBuffer st)).
  { unfold socks5_userpass. rewrite Hsz, Hpsz. to_prop. subst a. unfold is_u8 in *.
    rewrite <- (drop_0 (ReadBuffer st)) at 1. rewrite (rd_drop _ _ _ Hrd), (rd_drop _ _ _ Hrd0).
    rewrite Hsplit. replace (2 + Z.to_nat a0)%nat with (Z.to_nat (2 + a0)) by lia.
    rewrite (rd_drop _ _ _ Hrd1).
    replace (S (Z.to_nat (2 + a0))) with (Z.to_nat (2 + a0 + 1)) by lia.
    rewrite Hpsplit. replace (Z.to_nat (2 + a0 + 1) + Z.to_nat a1)%nat
      with (Z.to_nat (2 + a0 + 1 + a1)) by lia.
    unfold TqSocks5UserPassVersion. cbn [app]. rewrite <- app_assoc. done. }
  assert (He : Enabled (Auth st) = true).
  { destruct (Enabled (Auth st)) eqn:He; [done|]. by apply Enabled_false in He. }
  apply rd_range_val in Hrd2 as [_ Ha2], Hrd3 as [_ Ha3].
  apply Validate_spec in Hv as (_ & _ & Hin); [|done|subst; auto with tq..|done].
  split_and!; [done..|]. cbn. rewrite HR.
  exists (socks5_greeting methods ++ socks5_userpass a2 a3). split.
  { rewrite <- app_assoc. rewrite <- Hbuf. done. }
  right. eexists methods, _. split_and!; [|done|exact Hin]. done.
Qed.

Lemma request_step n4 n6 auth received st r st' :
  socks5_inv n4 n6 auth received st ->
  Ready st = false -> CloseAfterWrite st = false -> SocksGreetingDone st = true ->
  FeedSocks5_request n4 n6 st = Val (r, st') -> socks5_inv n4 n6 auth received st'.
Proof.
  intros Hinv HR HC HG. pose proof Hinv as (Hp & Hauth & H). rewrite HR, HC, HG in H.
  destruct H as (sent & Hrec & Hneg). unfold FeedSocks5_request. intros Hrun. replay st.
  destruct a as [n|]; [|by simplify_eq]. replay st; simplify_eq; try exact Hinv.
  destruct a0 as [t|]; simplify_eq; [|exact Hinv].
  apply rd_range_val in Hrd0 as [_ Ha]. rewrite drop_0 in Ha.
  split_and!; [done..|]. cbn. exists sent, a, t. split_and!; [|done..].
  rewrite Ha. by rewrite take_drop.
Qed.

Lemma socks5_inv_append n4 n6 auth received data st :
  socks5_inv n4 n6 auth received st ->
  socks5_inv n4 n6 auth (received ++ data) (append_input data st).
Proof.
  intros (Hp & Ha & H). split_and!; [done..|]. cbn.
  destruct (Ready st).
  { destruct H as (sent & rq & t & -> & ?). exists sent, rq, t. by rewrite <- !app_assoc. }
  destruct (CloseAfterWrite st); [done|]. destruct (SocksGreetingDone st).
  { destruct H as (sent & -> & ?). exists sent. by rewrite <- !app_assoc. }
  destruct (SocksAuthPending st); [|by subst].
  destruct H as (? & m & -> & ?). split; [done|]. exists m. by rewrite <- !app_assoc.
Qed.

Lemma socks5_inv_feed p4 p6 n4 n6 auth received data st r st' :
  Forall user_ok auth -> bytes_ok (received ++ data) -> socks5_inv n4 n6 auth received st ->
  Feed p4 p6 n4 n6 data st = Val (r, st') -> socks5_inv n4 n6 auth (received ++ data) st'.
Proof.
  intros Hok Hb Hinv Hf. apply (socks5_inv_append _ _ _ _ data) in Hinv. unfold Feed in Hf.
  fold (append_input data st) in Hf. revert Hinv Hf. generalize (append_input data st) as s.
  intros s Hinv Hf. destruct (Ready s) eqn:HR; [by simplify_eq|].
  pose proof Hinv as (Hp & _). rewrite Hp in Hf. unfold FeedSocks5 in Hf.
  destruct (negb (bool_decide _)); [by simplify_eq|].
  destruct (CloseAfterWrite s) eqn:HC; [by simplify_eq|].
  pose proof (inv_received_bytes _ _ _ _ _ Hb Hinv HR HC).
  destruct (SocksGreetingDone s) eqn:HG; simpl in Hf; [by eapply request_step|].
  destruct (SocksAuthPending s) eqn:HA; [by eapply auth_step | by eapply greeting_step].
Qed.

Lemma socks5_inv_reachable p4 p6 n4 n6 auth received st :
  Forall user_ok auth -> bytes_ok received ->
  reachable p4 p6 n4 n6 Socks5 auth received st -> socks5_inv n4 n6 auth received st.
Proof.
  intros Hok Hb Hr. induction Hr as [|received st e r st' Hr IH He].
  { split_and!; done. }
  pose proof (proj1 (proj1 (bytes_ok_app _ _) Hb)) as Hb'. specialize (IH Hb').
  destruct e as [data|n]; simpl in He.
  - by eapply socks5_inv_feed.
  - simplify_eq. rewrite app_nil_r. exact IH.
Qed.

Lemma http_inv_feed p4 p6 n4 n6 auth received data st r st' :
  http_inv p4 p6 auth received st ->
  Feed p4 p6 n4 n6 data st = Val (r, st') -> http_inv p4 p6 auth (received ++ data) st'.
Proof.
  intros (Hp & Ha & H) Hf. unfold Feed in Hf. cbn [Ready Proto set_ReadBuffer] in Hf.
  destruct (Ready st) eqn:HR.
  { simplify_eq. split_and!; [done..|]. cbn. rewrite HR.
    destruct H as (hd & t & -> & ?). exists hd, t. by rewrite <- app_assoc. }
  subst received. set (s := set_ReadBuffer _ st) in Hf.
  assert (Hs : http_inv p4 p6 auth (ReadBuffer st ++ data) s) by (split_and!; [done..|]; cbn; by rewrite HR).
  assert (HRs : Ready s = false) by done. assert (Has : Auth s = auth) by done.
  assert (HB : ReadBuffer st ++ data = ReadBuffer s) by done. clearbody s.
  rewrite HB in Hs |- *. rewrite Hp in Hf. clear HB Ha. unfold FeedHttpConnect in Hf.
  destruct (negb (bool_decide _)); [by simplify_eq|].
  destruct (CloseAfterWrite s); [by simplify_eq|]. cbv zeta in Hf.
  destruct (find_str _ _ 0) as [he|] eqn:Hhe; [|destruct (_ <=? _); by simplify_eq].
  destruct (_ <? _); [by simplify_eq|].
  destruct (TqParseHttpConnectRequest p4 p6 _) as [[t|]|] eqn:Ht; cbn [mbind mem_bind] in Hf; [|by simplify_eq..].
  rewrite Has in Hf. destruct (TqHttpConnectRequestAuthorized _ auth) as [[[]|]|] eqn:Hauth;
    cbn [mbind mem_bind stuck_if_none negb] in Hf; simplify_eq.
  2:{ destruct Hs as (? & ? & Hs). rewrite HRs in Hs. split_and!; [done..|]. cbn. by rewrite HRs. }
  destruct Hs as (? & _). split_and!; [done..|]. cbn.
  apply find_str_0 in Hhe as (rest & Hrest & Hl). simpl length in Hl.
  exists (substr (ReadBuffer s) 0 (he + 4)), t. unfold substr in *. rewrite drop_0 in *.
  split_and!; [by rewrite take_drop| |done..].
  exists (take he (ReadBuffer s)). rewrite Hrest at 1.
  rewrite take_app_ge by (rewrite length_take; lia). f_equal. rewrite length_take, Nat.min_l by lia.
  replace (he + 4 - he)%nat with 4%nat by lia. done.
Qed.

Lemma http_inv_reachable p4 p6 n4 n6 auth received st :
  reachable p4 p6 n4 n6 HttpConnect auth received st -> http_inv p4 p6 auth received st.
Proof.
  intros Hr. induction Hr as [|received st e r st' Hr IH He].
  { split_and!; done. }
  destruct e as [data|n]; simpl in He.
  - by eapply http_inv_feed.
  - simplify_eq. rewrite app_nil_r. exact IH.
Qed.

(** ** Theorems *)

(** C21.  Whatever way a SOCKS5 connection's bytes are cut into reads and its replies into
    writes, the machine asks for a tunnel only after the client has negotiated: the bytes
    received are a greeting (offering "no authentication" when no users are configured, else
    user/password and the pair of a configured user), one CONNECT request that parses to the
    request handed out, and exactly the bytes kept in the buffer. *)
Theorem socks5_ready_only_after_negotiation p4 p6 n4 n6 auth received st :
  Forall user_ok auth -> bytes_ok received ->
  reachable p4 p6 n4 n6 Socks5 auth received st -> Ready st = true ->
  exists sent request t,
    received = sent ++ request ++ ReadBuffer st /\ negotiated auth sent /\
    TqParseSocks5ConnectRequest n4 n6 request = Val (Some t) /\ ParsedRequest st = with_proto 1 t.
Proof.
  intros Hok Hb (_ & _ & H)%socks5_inv_reachable HR; [|done..]. by rewrite HR in H.
Qed.

(** C22.  The same for HTTP CONNECT: the bytes received are one header up to its empty line,
    which parses to the request handed out and passes the authorization check, and exactly the
    bytes kept in the buffer. *)
Theorem http_ready_only_when_authorized p4 p6 n4 n6 auth received st :
  reachable p4 p6 n4 n6 HttpConnect auth received st -> Ready st = true ->
  exists header t,
    received = header ++ ReadBuffer st /\ (exists text, header = text ++ CRLF ++ CRLF) /\
    TqParseHttpConnectRequest p4 p6 header = Val (Some t) /\ ParsedRequest st = with_proto 2 t /\
    TqHttpConnectRequestAuthorized header auth = Some (Val true).
Proof. intros (_ & _ & H)%http_inv_reachable HR. by rewrite HR in H. Qed.

(** C23.  Chunk boundaries do not matter: feeding two pieces one after the other, or both at
    once, gives the same answer and the same state when the first asked for more; when it did
    not, the second piece is only kept behind the buffer. *)
Theorem chunk_boundaries_do_not_matter p4 p6 n4 n6 a b st r st1 :
  Feed p4 p6 n4 n6 a st = Val (r, st1) ->
  Feed p4 p6 n4 n6 (a ++ b) st =
    if bool_decide (r = NeedRead) then Feed p4 p6 n4 n6 b st1
    else Val (r, append_input b st1).
Proof.
  unfold Feed. rewrite app_assoc. fold (append_input a st).
  change (set_ReadBuffer ((ReadBuffer st ++ a) ++ b) st) with (append_input b (append_input a st)).
  generalize (append_input a st) as s. intros s. cbn [Ready Proto append_input set_ReadBuffer].
  fold (append_input b s). fold (append_input b st1).
  destruct (Ready s) eqn:HR; [intros; by simplify_eq|].
  assert (Hs : stable (match Proto s with Socks5 => FeedSocks5 n4 n6 | HttpConnect =>
            FeedHttpConnect p4 p6 end) b s).
  { destruct (Proto s); [apply FeedSocks5_stable | apply FeedHttpConnect_stable]. }
  intros Hrun. specialize (Hs r st1).
  destruct Hs as [[-> ->]|[Hr Hs]]; [by destruct (Proto s)|..].
  - rewrite bool_decide_eq_true_2 by done. rewrite HR. by destruct (Proto s).
  - rewrite bool_decide_eq_false_2 by done. by destruct (Proto s).
Qed.

Lemma Feed_suffix p4 p6 n4 n6 data st r st' :
  Feed p4 p6 n4 n6 data st = Val (r, st') ->
  exists n, ReadBuffer st' = drop n (ReadBuffer st ++ data).
Proof.
  unfold Feed. set (s := set_ReadBuffer _ st). change (ReadBuffer st ++ data) with (ReadBuffer s).
  clearbody s. unfold FeedSocks5, FeedSocks5_auth, FeedSocks5_greeting, FeedSocks5_request,
    FeedHttpConnect. cbv zeta. intros Hrun.
  repeat match goal with
    | H : mbind _ ?m = Val _ |- _ =>
        destruct m eqn:?; [|discriminate H]; cbn [mbind mem_bind] in H
    | H : match ?x with _ => _ end = Val _ |- _ => destruct x
    end; simplify_eq; first [by exists 0%nat | eexists; reflexivity].
Qed.

Lemma reachable_bytes p4 p6 n4 n6 proto auth received st :
  bytes_ok received -> reachable p4 p6 n4 n6 proto auth received st -> bytes_ok (ReadBuffer st).
Proof.
  intros Hb Hr. induction Hr as [|received st e r st' Hr IH He]; [constructor|].
  apply bytes_ok_app in Hb as [Hb Hd]. specialize (IH Hb). destruct e as [data|n]; simpl in He.
  - apply Feed_suffix in He as [n ->]. apply bytes_ok_drop, bytes_ok_app. done.
  - by simplify_eq.
Qed.

(**  The machine never reads outside its buffer and never hangs: in every state a
    connection can reach, feeding any bytes gives an answer, for both protocols. *)
Theorem ingress_always_answers p4 p6 n4 n6 proto auth received st data :
  bytes_ok received -> reachable p4 p6 n4 n6 proto auth received st -> bytes_ok data ->
  exists r st', Feed p4 p6 n4 n6 data st = Val (r, st').
Proof.
  intros Hb Hr Hd. destruct (Feed_safe p4 p6 n4 n6 data st) as [[r st'] H];
    [exact (reachable_bytes _ _ _ _ _ _ _ _ Hb Hr) | done | eauto].
Qed.

(** A list of events, executed. *)
Fixpoint run p4 p6 n4 n6 (es : list event) (st : TqClientIngressState) : mem TqClientIngressState :=
  match es with
  | [] => Val st
  | e :: es' => '(_, st') ← apply_event p4 p6 n4 n6 e st; run p4 p6 n4 n6 es' st'
  end.

Definition fed (es : list event) : bytes :=
  concat (map (fun e => match e with EvFeed data => data | EvSent _ => [] end) es).

Lemma run_reachable p4 p6 n4 n6 proto auth es received st st' :
  reachable p4 p6 n4 n6 proto auth received st -> run p4 p6 n4 n6 es st = Val st' ->
  reachable p4 p6 n4 n6 proto auth (received ++ fed es) st'.
Proof.
  revert received st. induction es as [|e es IH]; intros received st Hr Hrun; simpl in Hrun.
  { simplify_eq. by rewrite app_nil_r. }
  destruct (apply_event _ _ _ _ e st) as [[r s]|] eqn:He; simpl in Hrun; [|done].
  unfold fed. cbn [map concat]. rewrite app_assoc. eapply IH; [|done].
  by eapply reach_step.
Qed.

Module DemoIngress.
Definition none (s : bytes) : option bytes := None.
Definition alice : TqProxyAuthUser := {| Username := str "al"; Password := str "pw" |}.
Definition request : bytes := [5; 1; 0; 3; 2] ++ str "db" ++ [21; 56].
Definition socks : list event :=
  [EvFeed [5]; EvFeed [2; 0; 2; 1; 2]; EvSent 2; EvFeed [];
   EvFeed (str "al" ++ [2] ++ str "pw"); EvSent 1; EvSent 1; EvFeed (request ++ [9; 9])].
Definition line : bytes := str "CONNECT db:5432 HTTP/1.1".
Definition http : list event :=
  [EvFeed (http_request line [str "Proxy-Authorization: Basic YWw6cHc="] ++ [1; 2])].
Definition final (es : list event) (proto : TqClientIngressProto) : TqClientIngressState :=
  let st := TqClientIngressState_init proto (Some [alice]) in
  match run none none none none es st with Val st' => st' | Oob => st end.
End DemoIngress.

Lemma socks5_ready_only_after_negotiation_witness :
  exists sent request t,
    fed DemoIngress.socks = sent ++ request ++ ReadBuffer (DemoIngress.final DemoIngress.socks Socks5) /\
    negotiated [DemoIngress.alice] sent /\
    TqParseSocks5ConnectRequest DemoIngress.none DemoIngress.none request = Val (Some t) /\
    ParsedRequest (DemoIngress.final DemoIngress.socks Socks5) = with_proto 1 t.
Proof.
  apply (socks5_ready_only_after_negotiation DemoIngress.none DemoIngress.none DemoIngress.none
    DemoIngress.none).
  - repeat constructor; apply (bool_decide_unpack _); vm_compute; exact I.
  - apply (bool_decide_unpack _). vm_compute. exact I.
  - apply (run_reachable _ _ _ _ _ _ DemoIngress.socks [] _ _ (reach_init _ _ _ _ _ _)).
    vm_compute. reflexivity.
  - vm_compute. reflexivity.
Defined.

Lemma http_ready_only_when_authorized_witness :
  exists header t,
    fed DemoIngress.http = header ++ ReadBuffer (DemoIngress.final DemoIngress.http HttpConnect) /\
    (exists text, header = text ++ CRLF ++ CRLF) /\
    TqParseHttpConnectRequest DemoIngress.none DemoIngress.none header = Val (Some t) /\
    ParsedRequest (DemoIngress.final DemoIngress.http HttpConnect) = with_proto 2 t /\
    TqHttpConnectRequestAuthorized header [DemoIngress.alice] = Some (Val true).
Proof.
  apply (http_ready_only_when_authorized DemoIngress.none DemoIngress.none DemoIngress.none
    DemoIngress.none).
  - apply (run_reachable _ _ _ _ _ _ DemoIngress.http [] _ _ (reach_init _ _ _ _ _ _)).
    vm_compute. reflexivity.
  - vm_compute. reflexivity.
Defined.

Lemma chunk_boundaries_do_not_matter_witness :
  let st := TqClientIngressState_init Socks5 None in
  Feed DemoIngress.none DemoIngress.none DemoIngress.none DemoIngress.none ([5; 1] ++ [0]) st =
  Feed DemoIngress.none DemoIngress.none DemoIngress.none DemoIngress.none [0]
    (append_input [5; 1] st).
Proof.
  apply (chunk_boundaries_do_not_matter DemoIngress.none DemoIngress.none DemoIngress.none
    DemoIngress.none [5; 1] [0] (TqClientIngressState_init Socks5 None) NeedRead).
  vm_compute. reflexivity.
Defined.

Lemma ingress_always_answers_witness :
  exists r st', Feed DemoIngress.none DemoIngress.none DemoIngress.none DemoIngress.none [255; 0]
    (TqClientIngressState_init Socks5 (Some [])) = Val (r, st').
Proof.
  apply (ingress_always_answers _ _ _ _ Socks5 [] []);
    [constructor | apply reach_init | apply (bool_decide_unpack _); vm_compute; exact I].
Defined.

(** ** A well-formed dialogue gets through *)

Lemma rd_range_at (l m r : bytes) i n :
  i = length l -> n = length m -> rd_range (l ++ m ++ r) i n = Val m.
Proof.
  intros -> ->. apply rd_range_val. rewrite !length_app. split; [lia|].
  by rewrite drop_app_length, take_app_length.
Qed.

(** Lengths of concatenations. *)
Ltac len :=
  unfold size; repeat (progress (rewrite ?length_app; cbn [length app])); lia.

Lemma greeting_completes methods rest st :
  ReadBuffer st = socks5_greeting methods ++ rest -> Enabled (Auth st) = true ->
  In TqSocks5UserPass methods ->
  FeedSocks5_greeting st =
    Val (NeedWrite, reply [5; 2] rest (SocksGreetingDone st) true (CloseAfterWrite st) st).
Proof.
  intros Hb He Hm. unfold FeedSocks5_greeting, socks5_greeting in *. rewrite Hb. cbn [app].
  rewrite (proj2 (Z.ltb_ge _ _)) by len. cbn.
  rewrite (proj2 (Z.ltb_ge _ _)) by len.
  change (5 :: size methods :: methods ++ rest) with ([5; size methods] ++ methods ++ rest).
  rewrite rd_range_at by (done || len).
  cbn [mbind mem_bind]. rewrite He, (proj2 (existsb_In _ _) Hm). cbn [negb].
  rewrite app_assoc, drop_app_length' by len. done.
Qed.

Lemma auth_completes u rest st :
  ReadBuffer st = socks5_userpass (Username u) (Password u) ++ rest ->
  user_ok u -> Forall user_ok (Auth st) -> In u (Auth st) ->
  field_ok (Username u) -> field_ok (Password u) ->
  FeedSocks5_auth st = Val (NeedWrite, reply [1; 0] rest true false false st).
Proof.
  intros Hb [Hou Hop] Hok Hin [Hun Hul] [Hpn Hpl]. destruct u as [u p].
  unfold FeedSocks5_auth, socks5_userpass, kMaxFieldBytes in *. simpl in Hb, Hou, Hop, Hun, Hul, Hpn, Hpl.
  assert (size u <> 0) by (destruct u; [done|len]). assert (size p <> 0) by (destruct p; [done|len]).
  pose proof (size_nonneg u). pose proof (size_nonneg p).
  rewrite Hb. cbn [app]. rewrite (proj2 (Z.ltb_ge _ _)) by len. cbn -[Validate].
  rewrite (proj2 (Z.eqb_neq (size u) 0)), (proj2 (Z.ltb_ge 255 (size u))) by lia. cbn -[Validate].
  rewrite (proj2 (Z.ltb_ge _ (2 + size u + 1))) by len.
  rewrite <- app_assoc. cbn [app].
  change (1 :: size u :: u ++ size p :: p ++ rest) with ([1; size u] ++ u ++ size p :: p ++ rest).
  rewrite (app_assoc [1; size u] u).
  rewrite rd_app_at by len. cbn [rd lookup list_lookup mbind mem_bind].
  rewrite (proj2 (Z.eqb_neq (size p) 0)), (proj2 (Z.ltb_ge 255 (size p))) by lia. cbn [orb].
  rewrite (proj2 (Z.ltb_ge _ (2 + size u + 1 + size p))) by len.
  rewrite <- (app_assoc [1; size u] u).
  rewrite (rd_range_at [1; size u] u _ 2) by (done || len). cbn [mbind mem_bind].
  change ([1; size u] ++ u ++ size p :: p ++ rest) with ([1; size u] ++ u ++ [size p] ++ p ++ rest).
  rewrite (app_assoc u), (app_assoc [1; size u]).
  rewrite (rd_range_at ([1; size u] ++ u ++ [size p]) p rest) by (done || len).
  cbn [mbind mem_bind].
  assert (He : Enabled (Auth st) = true).
  { destruct (Enabled (Auth st)) eqn:He; [done|]. apply Enabled_false in He. by rewrite He in Hin. }
  rewrite (proj2 (Validate_spec _ _ _ Hok Hou Hop He)) by done.
  rewrite app_assoc, drop_app_length' by len. done.
Qed.

Lemma request_length_of_parsed n4 n6 request t :
  TqParseSocks5ConnectRequest n4 n6 request = Val (Some t) ->
  TqSocks5RequestLength request = Val (Some (size request)) /\ size request <> 0.
Proof.
  unfold TqParseSocks5ConnectRequest, socks5_address, TqSocks5RequestLength. intros H.
  destruct (Z.ltb_spec (size request) 7); [done|]. split; [|lia].
  rewrite (proj2 (Z.ltb_ge _ 4)), (proj2 (Z.ltb_ge _ 5)) by lia.
  destruct (rd request 0) as [b0|]; [|done]. cbn [mbind mem_bind] in H. destruct (negb _); [done|].
  destruct (rd request 1) as [b1|]; [|done]. cbn [mbind mem_bind] in H. destruct (negb _); [done|].
  destruct (rd request 2) as [b2|]; [|done]. cbn [mbind mem_bind] in H. destruct (negb _); [done|].
  destruct (rd request 3) as [atyp|]; [|done]. cbn [mbind mem_bind] in *.
  destruct (atyp =? TqSocks5AtypIpv4); [destruct (Z.eqb_spec (size request) 10); [congruence|done]|].
  destruct (atyp =? TqSocks5AtypDomain).
  { destruct (rd request 4) as [len|]; [|done]. cbn [mbind mem_bind] in *.
    destruct (len =? 0); [done|]. destruct (Z.eqb_spec (size request) (7 + len)); [congruence|done]. }
  destruct (atyp =? TqSocks5AtypIpv6); [destruct (Z.eqb_spec (size request) 22); [congruence|done]|done].
Qed.

Lemma request_completes n4 n6 request t rest st :
  ReadBuffer st = request ++ rest ->
  TqParseSocks5ConnectRequest n4 n6 request = Val (Some t) ->
  FeedSocks5_request n4 n6 st = Val (ReadyToOpen, mark_ready (with_proto 1 t) rest st).
Proof.
  intros Hb Ht. destruct (request_length_of_parsed _ _ _ _ Ht) as [Hlen Hne].
  unfold FeedSocks5_request. rewrite Hb, (TqSocks5RequestLength_app _ _ _ Hlen).
  cbn [mbind mem_bind]. rewrite (proj2 (Z.eqb_neq _ _)), (proj2 (Z.ltb_ge _ _)) by (lia || len).
  change (request ++ rest) with ([] ++ request ++ rest) at 2. rewrite rd_range_at by (done || len).
  cbn [mbind mem_bind]. rewrite Ht. cbn [mbind mem_bind].
  rewrite drop_app_length' by len. done.
Qed.

(** C24.  A client that follows the protocol gets through: a greeting that offers
    user/password is answered with that method, a configured pair with success, and the
    request then opens the tunnel, with the bytes sent after it left in the buffer. *)
Theorem socks5_dialogue_completes p4 p6 n4 n6 auth u methods request t rest :
  Forall user_ok auth -> In u auth -> field_ok (Username u) -> field_ok (Password u) ->
  In TqSocks5UserPass methods ->
  TqParseSocks5ConnectRequest n4 n6 request = Val (Some t) ->
  exists st1 st2 st3,
    Feed p4 p6 n4 n6 (socks5_greeting methods) (TqClientIngressState_init Socks5 (Some auth)) =
      Val (NeedWrite, st1) /\ WriteBuffer st1 = [5; 2] /\
    Feed p4 p6 n4 n6 (socks5_userpass (Username u) (Password u)) (MarkWriteComplete 2 st1) =
      Val (NeedWrite, st2) /\ WriteBuffer st2 = [1; 0] /\
    Feed p4 p6 n4 n6 (request ++ rest) (MarkWriteComplete 2 st2) = Val (ReadyToOpen, st3) /\
    Ready st3 = true /\ ParsedRequest st3 = with_proto 1 t /\ ReadBuffer st3 = rest.
Proof.
  intros Hok Hin Hu Hp Hm Ht.
  assert (He : Enabled auth = true).
  { destruct (Enabled auth) eqn:He; [done|]. apply Enabled_false in He. by rewrite He in Hin. }
  eexists _, _, _. split_and!.
  - cbn. unfold FeedSocks5. cbn. apply (greeting_completes methods []); [by rewrite app_nil_r|done..].
  - reflexivity.
  - cbn. unfold FeedSocks5. cbn. apply (auth_completes u []); try done; [by rewrite app_nil_r|].
    rewrite List.Forall_forall in Hok. auto.
  - reflexivity.
  - cbn. unfold FeedSocks5. cbn. by eapply request_completes.
  - reflexivity.
  - reflexivity.
  - reflexivity.
Qed.

Lemma socks5_dialogue_completes_witness :
  exists t st1 st2 st3,
    Feed DemoIngress.none DemoIngress.none DemoIngress.none DemoIngress.none
      (socks5_greeting [2]) (TqClientIngressState_init Socks5 (Some [DemoIngress.alice])) =
      Val (NeedWrite, st1) /\ WriteBuffer st1 = [5; 2] /\
    Feed DemoIngress.none DemoIngress.none DemoIngress.none DemoIngress.none
      (socks5_userpass (str "al") (str "pw")) (MarkWriteComplete 2 st1) =
      Val (NeedWrite, st2) /\ WriteBuffer st2 = [1; 0] /\
    Feed DemoIngress.none DemoIngress.none DemoIngress.none DemoIngress.none
      (DemoIngress.request ++ [7]) (MarkWriteComplete 2 st2) = Val (ReadyToOpen, st3) /\
    Ready st3 = true /\ ParsedRequest st3 = with_proto 1 t /\ ReadBuffer st3 = [7].
Proof.
  eexists. apply (socks5_dialogue_completes _ _ _ _ [DemoIngress.alice] DemoIngress.alice [2]
    DemoIngress.request _ [7]).
  - repeat constructor; apply (bool_decide_unpack _); vm_compute; exact I.
  - left. reflexivity.
  - split; [discriminate | vm_compute; discriminate].
  - split; [discriminate | vm_compute; discriminate].
  - left. reflexivity.
  - vm_compute. reflexivity.
Defined.

(** ** A CONNECT request as a client writes it *)

(** A host that may stand before a colon, and one that needs brackets. *)
Definition plain_host (h : bytes) : Prop :=
  h <> [] /\ 58 ∉ h /\ 47 ∉ h /\ 32 ∉ h /\ 13 ∉ h /\ head h <> Some 91.
Definition bracketed_host (h : bytes) : Prop :=
  h <> [] /\ 93 ∉ h /\ 47 ∉ h /\ 32 ∉ h /\ 13 ∉ h.

Definition host_port (brackets : bool) (host : bytes) (port : Z) : bytes :=
  if brackets then [91] ++ host ++ [93; 58] ++ to_string port
  else host ++ [58] ++ to_string port.

Definition connect_line (brackets : bool) (host : bytes) (port : Z) : bytes :=
  str "CONNECT" ++ [32] ++ host_port brackets host port ++ [32] ++ str "HTTP/1.1".

Definition host_ok (brackets : bool) (host : bytes) : Prop :=
  if brackets then bracketed_host host else plain_host host.

Lemma TqParsePort_to_string port :
  1 <= port <= 65535 -> TqParsePort (to_string port) = Some port.
Proof.
  intros Hp. destruct (dec_loop_to_string 65535 port) as [Hne Hv]; [widths|lia|].
  unfold TqParsePort. rewrite Hv. destruct (to_string port); [done|].
  rewrite (proj2 (Z.eqb_neq _ _)) by lia. by rewrite u16_small by widths.
Qed.

Lemma TqParseHostPort_complete brackets host port :
  host_ok brackets host -> 1 <= port <= 65535 ->
  TqParseHostPort (host_port brackets host port) = Val (Some (host, port)).
Proof.
  intros Hh Hp. pose proof (TqParsePort_to_string port Hp) as Hport.
  destruct (dec_value_to_string port) as (_ & Hne & _); [widths|].
  pose proof (to_string_free port 58 ltac:(widths) eq_refl) as H58.
  pose proof (to_string_free port 47 ltac:(widths) eq_refl) as H47.
  assert (Htl : (0 < length (to_string port))%nat) by (destruct (to_string port); [done|simpl; lia]).
  unfold host_port, TqParseHostPort. destruct brackets; cbn [host_ok] in Hh.
  - destruct Hh as (Hn & H93 & H47' & _). cbn [app].
    assert (Hs : forall s, find_str (91 :: host ++ 93 :: 58 :: to_string port) (58 :: 47 :: s) 0 = None).
    { intros s. destruct (find_str _ _ 0) as [j|] eqn:Hj; [|done]. exfalso.
      apply find_str_0 in Hj as (rest & Hr & _).
      assert (47 ∈ 91 :: host ++ 93 :: 58 :: to_string port) as Hin by (rewrite Hr; set_solver).
      set_solver. }
    change (str "://") with [58; 47; 47]. rewrite Hs. cbn [Z.eqb Pos.eqb].
    change (91 :: host ++ 93 :: 58 :: to_string port)
      with ((91 :: host) ++ 93 :: 58 :: to_string port).
    rewrite find_char_app by set_solver. rewrite (proj2 (Z.leb_gt _ _)) by len.
    change ((91 :: host) ++ 93 :: 58 :: to_string port)
      with ((91 :: host) ++ [93] ++ 58 :: to_string port).
    rewrite (app_assoc (91 :: host) [93]).
    rewrite rd_app_at by len. cbn [rd lookup list_lookup mbind mem_bind Z.eqb Pos.eqb negb].
    rewrite <- app_assoc. unfold substr, substr_from. cbn [length].
    replace (S (length host) - 1)%nat with (length host) by lia.
    change (drop 1 ((91 :: host) ++ [93] ++ 58 :: to_string port))
      with (host ++ [93] ++ 58 :: to_string port).
    rewrite take_app_length.
    change ((91 :: host) ++ [93] ++ 58 :: to_string port)
      with ((91 :: host) ++ [93; 58] ++ to_string port).
    rewrite app_assoc, drop_app_length' by len. destruct host; [done|]. by rewrite Hport.
  - destruct Hh as (Hn & H58' & H47' & _ & _ & Hhd). cbn [app].
    assert (Hs : forall s, find_str (host ++ 58 :: to_string port) (58 :: 47 :: s) 0 = None).
    { intros s. destruct (find_str _ _ 0) as [j|] eqn:Hj; [|done]. exfalso.
      apply find_str_0 in Hj as (rest & Hr & _).
      assert (47 ∈ host ++ 58 :: to_string port) as Hin by (rewrite Hr; set_solver).
      set_solver. }
    change (str "://") with [58; 47; 47].
    destruct host as [|c host']; [done|]. cbn [app]. 
    change (c :: host' ++ 58 :: to_string port) with ((c :: host') ++ 58 :: to_string port).
    rewrite Hs. rewrite (proj2 (Z.eqb_neq c 91)) by (simpl in Hhd; congruence).
    rewrite rfind_char_app by done. rewrite (proj2 (Z.leb_gt _ _)) by len.
    cbn [length Nat.eqb orb]. unfold substr, substr_from. rewrite drop_0.
    change (S (length host')) with (length (c :: host')). rewrite take_app_length.
    unfold find_char. rewrite drop_0, find_char_from_none by done. cbn [mbind mem_bind].
    change ((c :: host') ++ 58 :: to_string port) with ((c :: host') ++ [58] ++ to_string port).
    rewrite app_assoc, drop_app_length' by len. by rewrite Hport.
Qed.

Lemma copy_host_val host :
  (length host < sizeof_Host)%nat ->
  copy_host host = Val (host ++ replicate (sizeof_Host - length host) 0).
Proof.
  intros H. unfold copy_host. rewrite (proj2 (Nat.leb_le _ _)) by lia.
  change (0 :: replicate (sizeof_Host - length host - 1) 0)
    with (replicate (S (sizeof_Host - length host - 1)) 0). do 3 f_equal. lia.
Qed.

Lemma host_port_free brackets host port ch :
  host_ok brackets host -> is_u64 port -> ch = 32 \/ ch = 13 -> ch ∉ host_port brackets host port.
Proof.
  intros Hh Hp Hch. assert (Hd : isdigit ch = false) by (by destruct Hch as [->| ->]).
  pose proof (to_string_free port ch Hp Hd). unfold host_port, host_ok, plain_host, bracketed_host in *.
  destruct brackets, Hch as [->| ->]; set_solver.
Qed.

(** Three words separated by single spaces, as the parser cuts them. *)
Lemma line_words (m t v : bytes) (line := m ++ [32] ++ t ++ [32] ++ v) :
  32 ∉ m -> 32 ∉ t -> 32 ∉ v ->
  find_char line 32 0 = Some (length m) /\
  find_char line 32 (length m + 1) = Some (length m + 1 + length t)%nat /\
  find_char line 32 (length m + 1 + length t + 1) = None /\
  substr line 0 (length m) = m /\
  substr line (length m + 1) (length m + 1 + length t - length m - 1) = t /\
  substr_from line (length m + 1 + length t + 1) = v.
Proof.
  intros Hm Ht Hv. subst line. cbn [app].
  assert (D1 : drop (length m + 1) (m ++ 32 :: t ++ 32 :: v) = t ++ 32 :: v).
  { change (m ++ 32 :: t ++ 32 :: v) with (m ++ [32] ++ t ++ 32 :: v).
    by rewrite app_assoc, drop_app_length' by len. }
  assert (D2 : drop (length m + 1 + length t + 1) (m ++ 32 :: t ++ 32 :: v) = v).
  { rewrite <- (Nat.add_assoc (length m + 1)), <- drop_drop, D1.
    change (t ++ 32 :: v) with (t ++ [32] ++ v). by rewrite app_assoc, drop_app_length' by len. }
  unfold find_char, substr, substr_from. rewrite D1, D2, drop_0.
  rewrite !find_char_from_app, find_char_from_none, take_app_length by done.
  split_and!; try done. replace (length m + 1 + length t - length m - 1)%nat with (length t) by lia.
  by rewrite take_app_length.
Qed.

(** A CONNECT request as clients write it, with a host name or a bracketed address and a
    port, followed by any header lines, parses to exactly that host and port. *)
Theorem http_connect_round_trip p4 p6 brackets host port lines :
  host_ok brackets host -> (length host < sizeof_Host)%nat -> 1 <= port <= 65535 ->
  Forall line_ok lines ->
  TqParseHttpConnectRequest p4 p6 (http_request (connect_line brackets host port) lines) =
  Val (Some {| tr_AddrType := TqAddrTypeForHost p4 p6 host;
               tr_Host := host ++ replicate (sizeof_Host - length host) 0;
               tr_Port := port; tr_CompressFlags := 0; tr_IngressTraceProto := 0 |}).
Proof.
  intros Hh Hl Hp Hlines.
  pose proof (host_port_free brackets host port 32 Hh ltac:(widths) ltac:(by left)) as H32.
  pose proof (host_port_free brackets host port 13 Hh ltac:(widths) ltac:(by right)) as H13.
  pose proof (TqParseHostPort_complete _ _ _ Hh Hp) as Hhp.
  assert (Hl13 : 13 ∉ connect_line brackets host port).
  { unfold connect_line. rewrite !not_elem_of_app.
    split_and!; try done; apply (bool_decide_unpack _); vm_compute; exact I. }
  destruct (line_words (str "CONNECT") (host_port brackets host port) (str "HTTP/1.1"))
    as (F1 & F2 & F3 & S1 & S2 & S3);
    [apply (bool_decide_unpack _); vm_compute; exact I | done |
     apply (bool_decide_unpack _); vm_compute; exact I |].
  fold (connect_line brackets host port) in *.
  assert (Hlen : length (connect_line brackets host port) <> 0%nat) by (unfold connect_line; len).
  generalize dependent (connect_line brackets host port). intros line Hl13 F1 F2 F3 S1 S2 S3 Hlen.
  unfold TqParseHttpConnectRequest, http_request.
  pose proof (find_header_end line lines [] 0 Hl13 Hlines) as He.
  rewrite app_nil_r in He. unfold find_str. rewrite !drop_0, He.
  unfold CRLF at 1. rewrite find_str_from_skip by done. fold CRLF. rewrite (find_str_from_hit CRLF).
  rewrite (proj2 (Nat.eqb_neq _ _)), (proj2 (Nat.ltb_ge _ _)) by lia. cbn [orb Nat.add].
  assert (Hsub : forall s, substr (line ++ s) 0 (length line) = line).
  { intros s. unfold substr. by rewrite drop_0, take_app_length. }
  cbv zeta. rewrite Hsub, F1, F2, F3, S1, S2, S3.
  rewrite bool_decide_eq_true_2 by done.
  change (starts_with (str "HTTP/1.") (str "HTTP/1.1")) with true.
  change (size (str "HTTP/1.1") =? 8) with true. cbn [negb orb]. rewrite Hhp. cbn [mbind mem_bind].
  rewrite (proj2 (Nat.leb_gt _ _)) by done. by rewrite copy_host_val by done.
Qed.

Lemma http_connect_round_trip_witness :
  TqParseHttpConnectRequest DemoIngress.none DemoIngress.none
    (http_request (connect_line true (str "2001:db8::1") 443) [str "Host: x"]) =
  Val (Some {| tr_AddrType := TqAddrTypeForHost DemoIngress.none DemoIngress.none (str "2001:db8::1");
               tr_Host := str "2001:db8::1" ++ replicate (sizeof_Host - length (str "2001:db8::1")) 0;
               tr_Port := 443; tr_CompressFlags := 0; tr_IngressTraceProto := 0 |}).
Proof.
  apply (http_connect_round_trip _ _ true (str "2001:db8::1") 443 [str "Host: x"]).
  - split; [discriminate|]. split_and!; apply (bool_decide_unpack _); vm_compute; exact I.
  - vm_compute. lia.
  - lia.
  - repeat constructor; [discriminate | apply (bool_decide_unpack _); vm_compute; exact I].
Defined.
