(* ===== verification/EventQueue.v ===== *)
(** The relay event queues.

    [Module Mpmc] is src/src/tunnel/linux_relay_event_queue.h, the bounded lock-free queue
    between MsQuic callbacks and a Linux relay worker: [TryPush] and [TryPop] as the sequences
    of atomic accesses they perform, interleaved by a scheduler over any number of threads.
    Each access is one step on one shared store, that is, the accesses are taken to be
    sequentially consistent; the release store and acquire load of [Sequence] are what makes
    the plain accesses to [Event] ordered in the sources.  Positions are 64-bit and wrap;
    executions are followed up to 2^62 pushes, so that no position comes back.

    [Module Uv] is src/src/tunnel/libuv_relay_event_queue.h, the mutex-protected queue of the
    libuv worker, one critical section per operation. *)

From stdpp Require Import base list numbers.
From Stdlib Require Import ZArith Lia.
From S2P Require Import Prelude.

Module Mpmc.

(** [static_cast<intptr_t>] of a [size_t]. *)
Definition intptr (z : Z) : Z := (z + 2 ^ 63) mod 2 ^ 64 - 2 ^ 63.

(** [while (normalized < capacity) normalized <<= 1]; [None] when it has not ended. *)
Fixpoint normalize_loop (fuel : nat) (normalized capacity : Z) : option Z :=
  if normalized <? capacity then
    match fuel with
    | O => None
    | S fuel' => normalize_loop fuel' (u64 (Z.shiftl normalized 1)) capacity
    end
  else Some normalized.
Definition NormalizeCapacity (capacity : Z) : option Z := normalize_loop 63 2 capacity.

Section Queue.
(** [TqLinuxRelayEvent], of which the queue uses the default value and moves. *)
Context {E : Type} (no_event : E).

Record Cell := { Sequence : Z; Event : E }.

(** Where a thread is in [TryPush] or [TryPop]: before the access the name says. *)
Inductive pc :=
| Idle
| PushLoad (ev : E)
| PushSeq (ev : E) (position : Z)
| PushCas (ev : E) (position : Z)
| PushWrite (ev : E) (position : Z)
| PushPublish (position : Z)
| PushDone (ok : bool)
| PopLoad
| PopSeq (position : Z)
| PopCas (position : Z)
| PopRead (position : Z)
| PopClear (position : Z) (ev : E)
| PopPublish (position : Z) (ev : E)
| PopDone (r : option E).

(** The queue, the threads, and two histories the code does not have: the events in the
    order their positions were claimed, and what pops returned, with the position. *)
Record state := {
  CapacityValue : Z; Mask : Z; Slots : list Cell; EnqueuePos : Z; DequeuePos : Z;
  PushCasRetries : Z; PopCasRetries : Z;
  threads : list pc;
  pushed : list E; delivered : list (Z * E) }.

(** The constructor, with [n] threads that have called nothing. *)
Definition init (capacity : Z) (n : nat) : option state :=
  cap ← NormalizeCapacity capacity;
  Some {| CapacityValue := cap; Mask := cap - 1;
          Slots := map (fun i => {| Sequence := Z.of_nat i; Event := no_event |})
                       (seq 0 (Z.to_nat cap));
          EnqueuePos := 0; DequeuePos := 0; PushCasRetries := 0; PopCasRetries := 0;
          threads := replicate n Idle; pushed := []; delivered := [] |}.

Definition set_pc (t : nat) (p : pc) (s : state) : state :=
  {| CapacityValue := CapacityValue s; Mask := Mask s; Slots := Slots s;
     EnqueuePos := EnqueuePos s; DequeuePos := DequeuePos s;
     PushCasRetries := PushCasRetries s; PopCasRetries := PopCasRetries s;
     threads := <[t := p]> (threads s); pushed := pushed s; delivered := delivered s |}.

Definition set_slot (i : nat) (c : Cell) (s : state) : state :=
  {| CapacityValue := CapacityValue s; Mask := Mask s; Slots := <[i := c]> (Slots s);
     EnqueuePos := EnqueuePos s; DequeuePos := DequeuePos s;
     PushCasRetries := PushCasRetries s; PopCasRetries := PopCasRetries s;
     threads := threads s; pushed := pushed s; delivered := delivered s |}.

Definition claim_push (position : Z) (ev : E) (s : state) : state :=
  {| CapacityValue := CapacityValue s; Mask := Mask s; Slots := Slots s;
     EnqueuePos := u64 (position + 1); DequeuePos := DequeuePos s;
     PushCasRetries := PushCasRetries s; PopCasRetries := PopCasRetries s;
     threads := threads s; pushed := pushed s ++ [ev]; delivered := delivered s |}.

Definition claim_pop (position : Z) (s : state) : state :=
  {| CapacityValue := CapacityValue s; Mask := Mask s; Slots := Slots s;
     EnqueuePos := EnqueuePos s; DequeuePos := u64 (position + 1);
     PushCasRetries := PushCasRetries s; PopCasRetries := PopCasRetries s;
     threads := threads s; pushed := pushed s; delivered := delivered s |}.

Definition count_retry (push : bool) (s : state) : state :=
  {| CapacityValue := CapacityValue s; Mask := Mask s; Slots := Slots s;
     EnqueuePos := EnqueuePos s; DequeuePos := DequeuePos s;
     PushCasRetries := if push then u64 (PushCasRetries s + 1) else PushCasRetries s;
     PopCasRetries := if push then PopCasRetries s else u64 (PopCasRetries s + 1);
     threads := threads s; pushed := pushed s; delivered := delivered s |}.

Definition deliver (position : Z) (r : option E) (s : state) : state :=
  {| CapacityValue := CapacityValue s; Mask := Mask s; Slots := Slots s;
     EnqueuePos := EnqueuePos s; DequeuePos := DequeuePos s;
     PushCasRetries := PushCasRetries s; PopCasRetries := PopCasRetries s;
     threads := threads s; pushed := pushed s;
     delivered := delivered s ++ match r with Some ev => [(position, ev)] | None => [] end |}.

(** A pop that has claimed [position] returns [r]: what it returns is what is delivered. *)
Definition pop_return (t : nat) (position : Z) (r : option E) (s : state) : state :=
  set_pc t (PopDone r) (deliver position r s).

(** [position & Mask]. *)
Definition slot (s : state) (position : Z) : nat := Z.to_nat (Z.land position (Mask s)).

(** One access of [TryPush] by thread [t]; a weak compare-exchange may fail spuriously. *)
Definition push_step (spurious : bool) (s : state) (t : nat) (p : pc) : option state :=
  match p with
  | PushLoad ev => Some (set_pc t (PushSeq ev (EnqueuePos s)) s)
  | PushSeq ev position =>
      cell ← Slots s !! slot s position;
      let diff := intptr (Sequence cell) - intptr position in
      Some (set_pc t (if diff =? 0 then PushCas ev position
                      else if diff <? 0 then PushDone false
                      else PushLoad ev) s)
  | PushCas ev position =>
      if (EnqueuePos s =? position) && negb spurious
      then Some (set_pc t (PushWrite ev position) (claim_push position ev s))
      else Some (set_pc t (PushSeq ev (EnqueuePos s)) (count_retry true s))
  | PushWrite ev position =>
      cell ← Slots s !! slot s position;
      Some (set_pc t (PushPublish position)
             (set_slot (slot s position) {| Sequence := Sequence cell; Event := ev |} s))
  | PushPublish position =>
      cell ← Slots s !! slot s position;
      Some (set_pc t (PushDone true)
             (set_slot (slot s position)
                {| Sequence := u64 (position + 1); Event := Event cell |} s))
  | _ => None
  end.

(** One access of [TryPop] by thread [t]. *)
Definition pop_step (spurious : bool) (s : state) (t : nat) (p : pc) : option state :=
  match p with
  | PopLoad => Some (set_pc t (PopSeq (DequeuePos s)) s)
  | PopSeq position =>
      cell ← Slots s !! slot s position;
      let diff := intptr (Sequence cell) - intptr (u64 (position + 1)) in
      Some (set_pc t (if diff =? 0 then PopCas position
                      else if diff <? 0 then PopDone None
                      else PopLoad) s)
  | PopCas position =>
      if (DequeuePos s =? position) && negb spurious
      then Some (set_pc t (PopRead position) (claim_pop position s))
      else Some (set_pc t (PopSeq (DequeuePos s)) (count_retry false s))
  | PopRead position =>
      cell ← Slots s !! slot s position;
      Some (set_pc t (PopClear position (Event cell)) s)
  | PopClear position ev =>
      cell ← Slots s !! slot s position;
      Some (set_pc t (PopPublish position ev)
             (set_slot (slot s position) {| Sequence := Sequence cell; Event := no_event |} s))
  | PopPublish position ev =>
      cell ← Slots s !! slot s position;
      Some (pop_return t position (Some ev)
             (set_slot (slot s position)
                {| Sequence := u64 (position + CapacityValue s); Event := Event cell |} s))
  | _ => None
  end.

Definition running (p : pc) : bool :=
  match p with Idle | PushDone _ | PopDone _ => false | _ => true end.

(** A thread that is in no call makes one. *)
Definition call_step (push : option E) (s : state) (t : nat) (p : pc) : option state :=
  if running p then None
  else Some (set_pc t (match push with Some ev => PushLoad ev | None => PopLoad end) s).

Inductive step (s : state) : state -> Prop :=
| step_push t p spurious s' :
    threads s !! t = Some p -> push_step spurious s t p = Some s' -> step s s'
| step_pop t p spurious s' :
    threads s !! t = Some p -> pop_step spurious s t p = Some s' -> step s s'
| step_call t p push s' :
    threads s !! t = Some p -> call_step push s t p = Some s' -> step s s'.

Inductive reachable (capacity : Z) (n : nat) : state -> Prop :=
| reach_init s : init capacity n = Some s -> reachable capacity n s
| reach_step s s' :
    reachable capacity n s -> EnqueuePos s < 2 ^ 62 -> step s s' -> reachable capacity n s'.

Definition SizeApprox (s : state) : Z :=
  if DequeuePos s <=? EnqueuePos s then EnqueuePos s - DequeuePos s else 0.
End Queue.

Arguments state : clear implicits.
Arguments pc : clear implicits.
Arguments Cell : clear implicits.

(** ** Capacities *)

Lemma normalize_loop_spec fuel j capacity :
  0 <= j -> Z.of_nat fuel + j = 64 -> 2 ^ (j - 1) < capacity \/ j = 1 -> j < 64 ->
  (capacity <= 2 ^ 63 ->
   exists k, normalize_loop fuel (2 ^ j) capacity = Some (2 ^ k) /\ j <= k <= 63 /\
             capacity <= 2 ^ k /\ (2 ^ (k - 1) < capacity \/ k = 1)) /\
  (2 ^ 63 < capacity -> normalize_loop fuel (2 ^ j) capacity = None).
Proof.
  revert j. induction fuel as [|fuel IH]; intros j Hj Hf Hlow Hlt; [lia|]. simpl.
  destruct (Z.ltb_spec (2 ^ j) capacity) as [Hc|Hc].
  - rewrite Z.shiftl_mul_pow2 by lia. change (2 ^ 1) with 2.
    destruct (decide (j = 63)) as [->|Hne].
    { split; [lia|]. intros _. replace (u64 (2 ^ 63 * 2)) with 0 by reflexivity.
      clear IH Hf. assert (Hz : forall f, 0 < capacity -> normalize_loop f 0 capacity = None).
      { intros f Hpos. induction f as [|f IHf]; simpl; rewrite (proj2 (Z.ltb_lt _ _)) by lia; [done|].
        exact IHf. }
      apply Hz. lia. }
    rewrite u64_small.
    2:{ unfold is_u64. rewrite Z.mul_comm, <- Z.pow_succ_r by lia.
        change 18446744073709551616 with (2 ^ 64). split; [lia|].
        apply Z.pow_lt_mono_r; lia. }
    rewrite Z.mul_comm, <- Z.pow_succ_r by lia.
    destruct (IH (Z.succ j)) as [H1 H2]; [lia|lia| |lia|].
    { left. by replace (Z.succ j - 1) with j by lia. }
    split; [|exact H2]. intros Hcap. destruct (H1 Hcap) as (k & ? & ? & ?). exists k.
    split_and!; (done || lia).
  - split; [|intros; assert (2 ^ j <= 2 ^ 63) by (apply Z.pow_le_mono_r; lia); lia].
    intros _. exists j. split_and!; (done || lia).
Qed.

Lemma NormalizeCapacity_spec capacity :
  (capacity <= 2 ^ 63 ->
   exists k, NormalizeCapacity capacity = Some (2 ^ k) /\ 1 <= k <= 63 /\
             capacity <= 2 ^ k /\ (2 ^ (k - 1) < capacity \/ k = 1)) /\
  (2 ^ 63 < capacity -> NormalizeCapacity capacity = None).
Proof. apply (normalize_loop_spec 63 1); (lia || by right). Qed.

Lemma intptr_small z : 0 <= z < 2 ^ 63 -> intptr z = z.
Proof. intros H. unfold intptr. rewrite Z.mod_small; lia. Qed.

(** ** The invariant *)

Section Invariant.
Context {E : Type} (no_event : E).
Implicit Types (s : state E) (p : pc E).

(** The position a thread has claimed and not yet published. *)
Definition push_owner p : option Z :=
  match p with PushWrite _ q | PushPublish q => Some q | _ => None end.
Definition pop_owner p : option Z :=
  match p with PopRead q | PopClear q _ | PopPublish q _ => Some q | _ => None end.
Definition owner p : option Z :=
  match push_owner p with Some q => Some q | None => pop_owner p end.

(** The slot of a position, without the mask. *)
Definition idx s (q : Z) : nat := Z.to_nat (q mod CapacityValue s).

Definition cell_at s (q : Z) (c : Cell E) : Prop := Slots s !! idx s q = Some c.
Definition event_at s (q : Z) (e : E) : Prop := pushed s !! Z.to_nat q = Some e.

(** The last [CapacityValue] positions own one slot each; a slot is free again for the
    next lap, being written, full, or being read. *)
Definition slot_phase s (q : Z) (c : Cell E) : Prop :=
  (Sequence c = q + CapacityValue s /\ q < DequeuePos s) \/
  (Sequence c = q /\ 0 <= q /\ DequeuePos s <= q /\
   exists t p, threads s !! t = Some p /\ push_owner p = Some q) \/
  (Sequence c = q + 1 /\ 0 <= q /\ DequeuePos s <= q /\ event_at s q (Event c)) \/
  (Sequence c = q + 1 /\ 0 <= q < DequeuePos s /\
   exists t p, threads s !! t = Some p /\ pop_owner p = Some q).

Definition in_window s (q : Z) : Prop := EnqueuePos s - CapacityValue s <= q < EnqueuePos s.

Definition thread_ok s p : Prop :=
  match p with
  | PushSeq _ q => 0 <= q <= EnqueuePos s
  | PushCas _ q =>
      0 <= q <= EnqueuePos s /\
      (q = EnqueuePos s -> exists c, cell_at s q c /\ Sequence c = q)
  | PushWrite ev q =>
      in_window s q /\ 0 <= q /\ DequeuePos s <= q /\ event_at s q ev /\
      exists c, cell_at s q c /\ Sequence c = q
  | PushPublish q =>
      in_window s q /\ 0 <= q /\ DequeuePos s <= q /\
      exists c, cell_at s q c /\ Sequence c = q /\ event_at s q (Event c)
  | PopSeq q => 0 <= q <= DequeuePos s
  | PopCas q =>
      0 <= q <= DequeuePos s /\
      (q = DequeuePos s -> q < EnqueuePos s /\ exists c, cell_at s q c /\ Sequence c = q + 1)
  | PopRead q =>
      in_window s q /\ 0 <= q < DequeuePos s /\ q ∉ (delivered s).*1 /\
      exists c, cell_at s q c /\ Sequence c = q + 1 /\ event_at s q (Event c)
  | PopClear q ev | PopPublish q ev =>
      in_window s q /\ 0 <= q < DequeuePos s /\ q ∉ (delivered s).*1 /\ event_at s q ev /\
      exists c, cell_at s q c /\ Sequence c = q + 1
  | _ => True
  end.

Record Inv s : Prop := {
  inv_cap : exists k, 1 <= k <= 61 /\ CapacityValue s = 2 ^ k;
  inv_mask : Mask s = CapacityValue s - 1;
  inv_len : length (Slots s) = Z.to_nat (CapacityValue s);
  inv_pos : 0 <= DequeuePos s <= EnqueuePos s /\ EnqueuePos s <= DequeuePos s + CapacityValue s;
  inv_bound : EnqueuePos s <= 2 ^ 62;
  inv_pushed : EnqueuePos s = Z.of_nat (length (pushed s));
  inv_slots : forall q, in_window s q -> exists c, cell_at s q c /\ slot_phase s q c;
  inv_threads : forall t p, threads s !! t = Some p -> thread_ok s p;
  inv_owners : forall t t' p p' q, threads s !! t = Some p -> threads s !! t' = Some p' ->
    owner p = Some q -> owner p' = Some q -> t = t';
  inv_delivered : NoDup (delivered s).*1 /\
    forall q e, (q, e) ∈ delivered s -> 0 <= q < DequeuePos s /\ event_at s q e }.

Lemma cap_bounds s : Inv s -> 2 <= CapacityValue s <= 2 ^ 61.
Proof.
  intros HI. destruct (inv_cap s HI) as (k & Hk & ->). split.
  - change 2 with (2 ^ 1) at 1. apply Z.pow_le_mono_r; lia.
  - apply Z.pow_le_mono_r; lia.
Qed.

(** The mask is the remainder, so [slot] is [idx]. *)
Lemma slot_idx s q : Inv s -> slot s q = idx s q.
Proof.
  intros HI. unfold slot, idx. rewrite (inv_mask s HI).
  destruct (inv_cap s HI) as (k & Hk & ->). f_equal.
  rewrite <- Z.land_ones by lia. by rewrite Z.ones_equiv, Z.sub_1_r.
Qed.

Lemma idx_inj s q q' :
  Inv s -> idx s q = idx s q' -> - CapacityValue s < q - q' < CapacityValue s -> q = q'.
Proof.
  intros HI Hi Hd. pose proof (cap_bounds s HI) as Hc. unfold idx in Hi.
  pose proof (Z.mod_pos_bound q (CapacityValue s) ltac:(lia)).
  pose proof (Z.mod_pos_bound q' (CapacityValue s) ltac:(lia)).
  assert (q mod CapacityValue s = q' mod CapacityValue s) as Hm by lia.
  pose proof (Z.div_mod q (CapacityValue s) ltac:(lia)).
  pose proof (Z.div_mod q' (CapacityValue s) ltac:(lia)).
  set (C := CapacityValue s) in *. set (a := q / C) in *. set (b := q' / C) in *.
  assert (C * (a - b) = q - q') by lia.
  assert (a - b = 0) by (destruct (Z.lt_trichotomy (a - b) 0) as [|[|]]; nia). nia.
Qed.

Lemma idx_lap s q : Inv s -> idx s (q - CapacityValue s) = idx s q.
Proof.
  intros HI. pose proof (cap_bounds s HI). unfold idx. f_equal.
  replace (q - CapacityValue s) with (q + (-1) * CapacityValue s) by lia. by rewrite Z.mod_add by lia.
Qed.

Lemma idx_lt s q : Inv s -> (idx s q < length (Slots s))%nat.
Proof.
  intros HI. rewrite (inv_len s HI). unfold idx. pose proof (cap_bounds s HI).
  pose proof (Z.mod_pos_bound q (CapacityValue s) ltac:(lia)). lia.
Qed.

Lemma owner_in_window s t p q :
  Inv s -> threads s !! t = Some p -> owner p = Some q -> in_window s q /\ 0 <= q.
Proof.
  intros HI Ht Ho. apply (inv_threads s HI) in Ht. unfold owner in Ho.
  destruct p; simpl in *; simplify_eq; destruct_and?; split; (done || lia).
Qed.

(** *** Steps that leave the slots and the positions alone *)

Lemma push_owner_owner p q : push_owner p = Some q -> owner p = Some q.
Proof. unfold owner. by intros ->. Qed.
Lemma pop_owner_owner p q : pop_owner p = Some q -> owner p = Some q.
Proof. unfold owner. by destruct p. Qed.

(** A phase survives when the owner of the position does. *)
Lemma phase_frame s s' q c :
  CapacityValue s' = CapacityValue s -> DequeuePos s' = DequeuePos s ->
  (forall e, event_at s q e -> event_at s' q e) ->
  (forall t p, threads s !! t = Some p -> owner p = Some q -> threads s' !! t = Some p) ->
  slot_phase s q c -> slot_phase s' q c.
Proof.
  intros Hc Hd He Ht. unfold slot_phase. rewrite Hc, Hd.
  intros [?|[(? & ? & ? & t & p & ? & ?)|[(? & ? & ? & ?)|(? & ? & t & p & ? & ?)]]].
  - by left.
  - right. left. split_and!; [done..|]. exists t, p. split; [|done].
    apply Ht; [done|]. by apply push_owner_owner.
  - right. right. left. auto.
  - right. right. right. split_and!; [done|lia|lia|]. exists t, p. split; [|done].
    apply Ht; [done|]. by apply pop_owner_owner.
Qed.

Lemma lookup_threads s t p t' p' :
  threads (set_pc t p s) !! t' = Some p' ->
  (t' = t /\ p' = p) \/ (t' <> t /\ threads s !! t' = Some p').
Proof. simpl. rewrite list_lookup_insert_Some. naive_solver. Qed.

Lemma lookup_set_pc s t p p0 : threads s !! t = Some p0 -> threads (set_pc t p s) !! t = Some p.
Proof. intros H. simpl. apply list_lookup_insert_eq. by eapply lookup_lt_Some. Qed.

Lemma lookup_set_pc_ne s t p t' : t' <> t -> threads (set_pc t p s) !! t' = threads s !! t'.
Proof. intros H. simpl. by apply list_lookup_insert_ne. Qed.

(** A thread that owns nothing before and after moves on. *)
Lemma Inv_move s t p p' :
  Inv s -> threads s !! t = Some p -> owner p = None -> owner p' = None -> thread_ok s p' ->
  Inv (set_pc t p' s).
Proof.
  intros HI Ht Ho Ho' Hok. split; try apply HI.
  - intros q Hq. destruct (inv_slots s HI q Hq) as (c & Hc & Hph). exists c. split; [done|].
    apply (phase_frame s); try done. intros t0 p0 H0 Hown.
    rewrite lookup_set_pc_ne; [done|]. intros ->. congruence.
  - intros t0 p0 [[-> ->]|[Hne H0]]%lookup_threads; [exact Hok|].
    exact (inv_threads s HI t0 p0 H0).
  - intros t1 t2 p1 p2 q [[-> ->]|[Hn1 H1]]%lookup_threads [[-> ->]|[Hn2 H2]]%lookup_threads O1 O2;
      try congruence. by apply (inv_owners s HI t1 t2 p1 p2 q).
Qed.

Lemma Inv_retry b s : Inv s -> Inv (count_retry b s).
Proof. intros []. split; done. Qed.

(** *** Steps of the owner of a slot *)

Lemma cell_at_set_slot s i c q : Inv s -> idx s q <> i -> forall c', cell_at s q c' -> cell_at (set_slot i c s) q c'.
Proof. intros HI Hne c' Hc. unfold cell_at in *. simpl. by rewrite list_lookup_insert_ne. Qed.

Lemma cell_at_set_slot_eq s c q : Inv s -> cell_at (set_slot (idx s q) c s) q c.
Proof. intros HI. unfold cell_at. simpl. apply list_lookup_insert_eq. by apply idx_lt. Qed.

(** What the sequence number of an owned slot can be. *)
Lemma owner_cell s t p q :
  Inv s -> threads s !! t = Some p -> owner p = Some q ->
  exists c, cell_at s q c /\
    ((push_owner p = Some q /\ Sequence c = q /\ DequeuePos s <= q) \/
     (pop_owner p = Some q /\ Sequence c = q + 1 /\ q < DequeuePos s)).
Proof.
  intros HI Ht Ho. pose proof (inv_threads s HI _ _ Ht) as Hok. unfold owner in Ho.
  destruct p; simpl in *; simplify_eq; destruct Hok as (? & ? & Hok);
    repeat match goal with H : _ /\ _ |- _ => destruct H | H : exists _, _ |- _ => destruct H end;
    match goal with H : cell_at s _ ?x |- _ => exists x end; (split; [done|]);
    first [left; split_and!; (done || lia) | right; split_and!; (done || lia)].
Qed.

(** Nobody else's knowledge is about a slot somebody owns. *)
Lemma thread_ok_set_slot s t p q c t' p' :
  Inv s -> threads s !! t = Some p -> owner p = Some q -> t' <> t ->
  threads s !! t' = Some p' -> thread_ok (set_slot (idx s q) c s) p'.
Proof.
  intros HI Ht Ho Hne Ht'. pose proof (cap_bounds s HI) as Hcap. pose proof (inv_pos s HI) as Hpos.
  destruct (owner_in_window s t p q HI Ht Ho) as [Hwin Hq0].
  destruct (owner_cell s t p q HI Ht Ho) as (c0 & Hc0 & Hseq).
  pose proof (inv_threads s HI _ _ Ht') as Hok.
  assert (Hother : forall q', owner p' = Some q' -> idx s q' <> idx s q).
  { intros q' Ho' Hi. destruct (owner_in_window s t' p' q' HI Ht' Ho') as [Hwin' _].
    unfold in_window in *. apply idx_inj in Hi; [|done|lia]. subst q'.
    apply Hne. by apply (inv_owners s HI t' t p' p q). }
  destruct p'; try done; simpl in Hok |- *.
  - destruct Hok as [Hr Hok]. split; [done|]. intros He. destruct (Hok He) as (c1 & Hc1 & Hs1).
    exists c1. split; [|done]. apply cell_at_set_slot; [done| |done]. intros Hi.
    unfold in_window in Hwin. rewrite <- idx_lap in Hi by done.
    apply idx_inj in Hi; [|done|lia]. subst q. unfold cell_at in *.
    rewrite idx_lap in Hc0 by done. assert (c0 = c1) by congruence. subst. lia.
  - destruct Hok as (? & ? & ? & ? & c1 & ? & ?). split_and!; [done..|]. exists c1.
    split; [|done]. apply cell_at_set_slot; auto.
  - destruct Hok as (? & ? & ? & c1 & ? & ? & ?). split_and!; [done..|]. exists c1.
    split; [|done]. apply cell_at_set_slot; auto.
  - destruct Hok as [Hr Hok]. split; [done|]. intros He. destruct (Hok He) as (Hlt & c1 & Hc1 & Hs1).
    split; [done|]. exists c1. split; [|done]. apply cell_at_set_slot; [done| |done]. intros Hi.
    unfold in_window in Hwin. apply idx_inj in Hi; [|done|lia]. subst q. unfold cell_at in *.
    assert (c0 = c1) by congruence. subst. lia.
  - destruct Hok as (? & ? & ? & c1 & ? & ? & ?). split_and!; [done..|lia|lia|done|]. exists c1.
    split; [|done]. apply cell_at_set_slot; auto.
  - destruct Hok as (? & ? & ? & ? & c1 & ? & ?). split_and!; [done..|lia|lia|done|done|]. exists c1.
    split; [|done]. apply cell_at_set_slot; auto.
  - destruct Hok as (? & ? & ? & ? & c1 & ? & ?). split_and!; [done..|lia|lia|done|done|]. exists c1.
    split; [|done]. apply cell_at_set_slot; auto.
Qed.

(** The owner of [q] rewrites its slot and moves to [p'], still owning [q] or done with it. *)
Lemma Inv_owner_step s t p p' q c :
  Inv s -> threads s !! t = Some p -> owner p = Some q ->
  (owner p' = Some q \/ owner p' = None) ->
  let s' := set_pc t p' (set_slot (idx s q) c s) in
  thread_ok (set_slot (idx s q) c s) p' -> slot_phase s' q c -> Inv s'.
Proof.
  intros HI Ht Ho Ho' s' Hok Hph. destruct (owner_in_window s t p q HI Ht Ho) as [Hwin Hq0].
  split; try apply HI.
  - simpl. rewrite length_insert. apply HI.
  - intros q' Hq'. change (in_window s q') in Hq'. destruct (decide (q' = q)) as [->|Hne].
    { exists c. split; [|done]. exact (cell_at_set_slot_eq s c q HI). }
    assert (Hi : idx s q' <> idx s q).
    { intros Hi. unfold in_window in *. apply idx_inj in Hi; [done|done|lia]. }
    destruct (inv_slots s HI q' Hq') as (c' & Hc' & Hph'). exists c'. split.
    { exact (cell_at_set_slot s _ c q' HI Hi c' Hc'). }
    apply (phase_frame s); try done. intros t0 p0 H0 Hown. unfold s'.
    rewrite lookup_set_pc_ne; [done|]. intros ->. congruence.
  - intros t0 p0 [[-> ->]|[Hne H0]]%lookup_threads; [exact Hok|].
    exact (thread_ok_set_slot s t p q c t0 p0 HI Ht Ho Hne H0).
  - intros t1 t2 p1 p2 q' [[-> ->]|[Hn1 H1]]%lookup_threads [[-> ->]|[Hn2 H2]]%lookup_threads O1 O2;
      try done.
    + assert (q' = q) as -> by (destruct Ho'; congruence).
      exfalso. apply Hn2. by apply (inv_owners s HI t2 t p2 p q).
    + assert (q' = q) as -> by (destruct Ho'; congruence).
      exfalso. apply Hn1. by apply (inv_owners s HI t1 t p1 p q).
    + by apply (inv_owners s HI t1 t2 p1 p2 q').
Qed.

(** *** Claiming a position *)

(** The slot of the next position to push, seen from the lap before. *)
Lemma free_slot s c :
  Inv s -> cell_at s (EnqueuePos s) c -> Sequence c = EnqueuePos s ->
  EnqueuePos s - CapacityValue s < DequeuePos s.
Proof.
  intros HI Hc Hs. pose proof (cap_bounds s HI).
  destruct (inv_slots s HI (EnqueuePos s - CapacityValue s)) as (c' & Hc' & Hph).
  { unfold in_window. lia. }
  unfold cell_at in *. rewrite idx_lap in Hc' by done. assert (c' = c) as -> by congruence.
  destruct Hph as [?|[?|[?|?]]]; lia.
Qed.

(** The owner of a position of the last lap would have left its mark on that slot. *)
Lemma no_old_owner s c t p q :
  Inv s -> cell_at s (EnqueuePos s) c -> Sequence c = EnqueuePos s ->
  threads s !! t = Some p -> owner p = Some q -> EnqueuePos s - CapacityValue s < q.
Proof.
  intros HI Hc Hs Ht Ho. pose proof (cap_bounds s HI).
  destruct (owner_in_window s t p q HI Ht Ho) as [Hwin _]. unfold in_window in Hwin.
  destruct (decide (q = EnqueuePos s - CapacityValue s)) as [->|]; [|lia].
  destruct (owner_cell s t p _ HI Ht Ho) as (c' & Hc' & Hseq). unfold cell_at in *.
  rewrite idx_lap in Hc' by done. assert (c' = c) by congruence. subst. lia.
Qed.

Lemma event_at_app s q e ev : event_at s q e -> (pushed s ++ [ev]) !! Z.to_nat q = Some e.
Proof. apply lookup_app_l_Some. Qed.

Lemma Inv_claim_push s t ev q :
  Inv s -> threads s !! t = Some (PushCas ev q) -> EnqueuePos s = q -> q < 2 ^ 62 ->
  Inv (set_pc t (PushWrite ev q) (claim_push q ev s)).
Proof.
  intros HI Ht Hq Hlim. pose proof (cap_bounds s HI) as Hcap. pose proof (inv_pos s HI) as Hpos.
  pose proof (inv_threads s HI _ _ Ht) as [Hr Hc]. destruct (Hc (eq_sym Hq)) as (c & Hcell & Hseq).
  subst q. pose proof (free_slot s c HI Hcell Hseq) as Hfree.
  assert (Hu : u64 (EnqueuePos s + 1) = EnqueuePos s + 1) by (apply u64_small; widths).
  split; try apply HI; cbn [EnqueuePos DequeuePos CapacityValue set_pc claim_push pushed delivered];
    rewrite ?Hu; try lia.
  - rewrite length_app, (inv_pushed s HI). simpl. lia.
  - intros q Hq. unfold in_window in Hq.
    cbn [EnqueuePos CapacityValue set_pc claim_push] in Hq. rewrite Hu in Hq.
    destruct (decide (q = EnqueuePos s)) as [->|Hne].
    + exists c. split; [done|]. right. left. split_and!; [done|lia|simpl; lia|].
      eexists t, _. split; [by eapply lookup_set_pc|done].
    + destruct (inv_slots s HI q) as (c' & Hc' & Hph); [unfold in_window; lia|].
      exists c'. split; [done|]. apply (phase_frame s); try done.
      * intros e. apply event_at_app.
      * intros t0 p0 H0 Hown. rewrite lookup_set_pc_ne; [done|]. intros ->. rewrite Ht in H0.
        by simplify_eq.
  - intros t0 p0 [[-> ->]|[Hne H0]]%lookup_threads.
    + split; [unfold in_window; cbn; rewrite Hu; lia|]. cbn.
      split_and!; [lia|lia| |by exists c].
      unfold event_at. cbn. rewrite (inv_pushed s HI), Nat2Z.id.
      rewrite lookup_app_r by lia. by rewrite Nat.sub_diag.
    + pose proof (inv_threads s HI t0 p0 H0) as Hok.
      assert (Hold : forall q, owner p0 = Some q -> EnqueuePos s - CapacityValue s < q)
        by (intros q Ho; by eapply no_old_owner).
      assert (Hev : forall q e, event_at s q e -> event_at (set_pc t (PushWrite ev (EnqueuePos s))
                (claim_push (EnqueuePos s) ev s)) q e) by (intros q e; apply event_at_app).
      assert (Hw : forall q, owner p0 = Some q -> in_window s q -> in_window (set_pc t
                (PushWrite ev (EnqueuePos s)) (claim_push (EnqueuePos s) ev s)) q).
      { intros q Ho Hq. specialize (Hold q Ho). unfold in_window in *. cbn. rewrite Hu. lia. }
      destruct p0; cbn [thread_ok] in *; cbn [EnqueuePos DequeuePos set_pc claim_push delivered];
        rewrite ?Hu; try done; try lia; destruct_and?; split_and?; auto; try lia.
      all: repeat match goal with H : exists _, _ |- _ => destruct H end; destruct_and?; eauto 6.
      match goal with H : _ = DequeuePos s -> _ |- _ => intros He; destruct (H He) end.
      split; [lia|done].
  - intros t1 t2 p1 p2 q [[-> ->]|[Hn1 H1]]%lookup_threads [[-> ->]|[Hn2 H2]]%lookup_threads O1 O2;
      try done.
    + cbn in O1. simplify_eq. destruct (owner_in_window s t2 p2 _ HI H2 O2) as [Hw _].
      unfold in_window in Hw. lia.
    + cbn in O2. simplify_eq. destruct (owner_in_window s t1 p1 _ HI H1 O1) as [Hw _].
      unfold in_window in Hw. lia.
    + by apply (inv_owners s HI t1 t2 p1 p2 q).
  - destruct (inv_delivered s HI) as [Hnd Hd]. split; [done|]. intros q e Hin.
    destruct (Hd q e Hin). split; [done|]. by apply event_at_app.
Qed.

Lemma Inv_claim_pop s t q :
  Inv s -> threads s !! t = Some (PopCas q) -> DequeuePos s = q ->
  Inv (set_pc t (PopRead q) (claim_pop q s)).
Proof.
  intros HI Ht Hq. pose proof (cap_bounds s HI) as Hcap. pose proof (inv_pos s HI) as Hpos.
  pose proof (inv_bound s HI) as Hb.
  pose proof (inv_threads s HI _ _ Ht) as [Hr Hc].
  destruct (Hc (eq_sym Hq)) as (Hlt & c & Hcell & Hseq). subst q.
  assert (Hu : u64 (DequeuePos s + 1) = DequeuePos s + 1) by (apply u64_small; widths).
  assert (Hwin : in_window s (DequeuePos s)) by (unfold in_window; lia).
  assert (Hev : event_at s (DequeuePos s) (Event c)).
  { destruct (inv_slots s HI _ Hwin) as (c' & Hc' & Hph). unfold cell_at in *.
    assert (c' = c) as -> by congruence. destruct Hph as [?|[?|[(_ & _ & _ & He)|?]]]; (done || lia). }
  assert (Hown : forall t0 p0 q, threads s !! t0 = Some p0 -> owner p0 = Some q ->
            q <> DequeuePos s).
  { intros t0 p0 q H0 Ho ->. destruct (owner_cell s t0 p0 _ HI H0 Ho) as (c' & Hc' & Hs').
    unfold cell_at in *. assert (c' = c) by congruence. subst. lia. }
  split; try apply HI; cbn [EnqueuePos DequeuePos CapacityValue set_pc claim_pop pushed delivered];
    rewrite ?Hu; try lia.
  - intros q Hq. change (in_window s q) in Hq.
    destruct (inv_slots s HI q Hq) as (c' & Hc' & Hph). exists c'. split; [done|].
    assert (Hkeep : forall t0 p0, threads s !! t0 = Some p0 -> owner p0 = Some q ->
      threads (set_pc t (PopRead (DequeuePos s)) (claim_pop (DequeuePos s) s)) !! t0 = Some p0).
    { intros t0 p0 H0 Ho. rewrite lookup_set_pc_ne; [done|]. intros ->. rewrite Ht in H0.
      by simplify_eq. }
    unfold slot_phase. cbn [EnqueuePos DequeuePos CapacityValue set_pc claim_pop]. rewrite Hu.
    destruct Hph as [[? ?]|[(? & ? & ? & t0 & p0 & H0 & Ho)|[(? & ? & ? & He)|(? & ? & t0 & p0 & H0 & Ho)]]].
    + left. split; [done|lia].
    + right. left. pose proof (Hown t0 p0 q H0 (push_owner_owner _ _ Ho)).
      split_and!; [done..|lia|]. exists t0, p0. split; [|done]. apply Hkeep; [done|].
      by apply push_owner_owner.
    + destruct (decide (q = DequeuePos s)) as [->|].
      * right. right. right. split_and!; [done|lia|lia|]. eexists t, _.
        split; [by eapply lookup_set_pc|done].
      * right. right. left. split_and!; [done|done|lia|done].
    + right. right. right. split_and!; [done|lia|lia|]. exists t0, p0. split; [|done].
      apply Hkeep; [done|]. by apply pop_owner_owner.
  - intros t0 p0 [[-> ->]|[Hne H0]]%lookup_threads.
    + cbn [thread_ok]. split; [done|]. cbn. rewrite Hu. split_and!; [lia|lia| |by exists c].
      intros Hin. apply list_elem_of_fmap in Hin as ([q e] & Hq & Hin). simpl in Hq.
      destruct (inv_delivered s HI) as [_ Hd]. destruct (Hd q e Hin). lia.
    + pose proof (inv_threads s HI t0 p0 H0) as Hok. specialize (Hown t0 p0). specialize (fun q => Hown q H0).
      destruct p0; cbn [thread_ok] in *; cbn [EnqueuePos DequeuePos set_pc claim_pop delivered];
        rewrite ?Hu; try done; try lia; destruct_and?; split_and?; auto; try lia.
      all: pose proof (Hown _ eq_refl); lia.
  - intros t1 t2 p1 p2 q [[-> ->]|[Hn1 H1]]%lookup_threads [[-> ->]|[Hn2 H2]]%lookup_threads O1 O2;
      try done.
    + cbn in O1. simplify_eq. by destruct (Hown _ _ _ H2 O2).
    + cbn in O2. simplify_eq. by destruct (Hown _ _ _ H1 O1).
    + by apply (inv_owners s HI t1 t2 p1 p2 q).
  - destruct (inv_delivered s HI) as [Hnd Hd]. split; [done|]. intros q e Hin.
    destruct (Hd q e Hin). split; [lia|done].
Qed.

(** A pop that keeps its position without touching the cell. *)
Lemma Inv_read s t q c :
  Inv s -> threads s !! t = Some (PopRead q) -> cell_at s q c ->
  Inv (set_pc t (PopClear q (Event c)) s).
Proof.
  intros HI Ht Hc. pose proof (inv_threads s HI _ _ Ht) as (Hwin & Hq & Hnd & c' & Hc' & Hs & He).
  unfold cell_at in *. assert (c' = c) as -> by congruence.
  assert (Hslot : set_slot (idx s q) c s = s).
  { destruct s. unfold set_slot. cbn. f_equal. by apply list_insert_id. }
  enough (Inv (set_pc t (PopClear q (Event c)) (set_slot (idx s q) c s))) as H
    by (by rewrite Hslot in H).
  eapply Inv_owner_step; [done|done|done|by left| |].
  - rewrite Hslot. split; [done|]. split; [done|]. split; [done|]. split; [done|]. by exists c.
  - right. right. right. split_and!; [done|apply Hq..|]. eexists t, _.
    split; [by eapply lookup_set_pc|done].
Qed.

(** A position nobody owns any more is delivered. *)
Lemma Inv_deliver s q ev :
  Inv s -> 0 <= q < DequeuePos s -> q ∉ (delivered s).*1 -> event_at s q ev ->
  (forall t p, threads s !! t = Some p -> owner p <> Some q) -> Inv (deliver q (Some ev) s).
Proof.
  intros HI Hq Hn He Hown. split; try apply HI.
  - intros t p Ht. pose proof (inv_threads s HI t p Ht) as Hok. specialize (Hown t p Ht).
    assert (Hnew : forall q', owner p = Some q' -> q' ∉ (delivered s).*1 ->
              q' ∉ (delivered (deliver q (Some ev) s)).*1).
    { intros q' Ho Hq'. cbn. rewrite fmap_app, not_elem_of_app. split; [done|].
      intros ->%list_elem_of_singleton. done. }
    destruct p; try exact Hok; destruct Hok as (? & ? & ? & ?);
      (split; [done|]; split; [done|]; split; auto).
  - destruct (inv_delivered s HI) as [Hnd Hd]. cbn. rewrite fmap_app. split.
    + apply list.NoDup_app. split_and!; [done| |by apply list.NoDup_singleton].
      by intros q' Hin ->%list_elem_of_singleton.
    + intros q' e [Hin|Hin%list_elem_of_singleton]%elem_of_app; [by apply Hd|]. by simplify_eq.
Qed.

(** *** Every step preserves the invariant *)

Lemma mod_window s q : Inv s -> exists q', in_window s q' /\ idx s q' = idx s q.
Proof.
  intros HI. pose proof (cap_bounds s HI). set (C := CapacityValue s) in *.
  exists (EnqueuePos s - C + (q - EnqueuePos s) mod C).
  pose proof (Z.mod_pos_bound (q - EnqueuePos s) C ltac:(lia)). split; [unfold in_window; fold C; lia|].
  unfold idx. fold C. f_equal.
  pose proof (Z.div_mod (q - EnqueuePos s) C ltac:(lia)) as Hd.
  replace (EnqueuePos s - C + (q - EnqueuePos s) mod C)
    with (q + (- ((q - EnqueuePos s) / C) - 1) * C) by lia.
  by rewrite Z.mod_add by lia.
Qed.

Lemma sequence_bounds s q c : Inv s -> cell_at s q c -> 0 <= Sequence c < 2 ^ 63.
Proof.
  intros HI Hc. pose proof (cap_bounds s HI). pose proof (inv_pos s HI). pose proof (inv_bound s HI).
  destruct (mod_window s q HI) as (q' & Hw & Hi). unfold cell_at in *. rewrite <- Hi in Hc.
  destruct (inv_slots s HI q' Hw) as (c' & Hc' & Hph). unfold cell_at in *.
  assert (c' = c) as -> by congruence. unfold in_window in Hw.
  destruct Hph as [?|[?|[?|?]]]; lia.
Qed.

(** A slot that carries the successor of the next position to pop has been filled. *)
Lemma full_slot s q c :
  Inv s -> cell_at s q c -> Sequence c - (q + 1) = 0 -> q = DequeuePos s -> q < EnqueuePos s.
Proof.
  intros HI Hc Hs ->. pose proof (cap_bounds s HI). pose proof (inv_pos s HI).
  destruct (decide (DequeuePos s = EnqueuePos s)) as [He|]; [|lia].
  destruct (inv_slots s HI (EnqueuePos s - CapacityValue s)) as (c' & Hc' & Hph).
  { unfold in_window. lia. }
  unfold cell_at in *. rewrite idx_lap in Hc' by done. rewrite He in Hc.
  assert (c' = c) as -> by congruence. destruct Hph as [?|[?|[?|?]]]; lia.
Qed.

Lemma Inv_push_step s t p b s' :
  Inv s -> EnqueuePos s < 2 ^ 62 -> threads s !! t = Some p ->
  push_step b s t p = Some s' -> Inv s'.
Proof.
  intros HI Hlim Ht Hs. pose proof (cap_bounds s HI) as Hcap. pose proof (inv_pos s HI) as Hpos.
  pose proof (inv_threads s HI _ _ Ht) as Hok.
  destruct p; cbn [push_step] in Hs; try done; rewrite ?slot_idx in Hs by done.
  - simplify_eq. eapply Inv_move; try done. cbn. lia.
  - destruct (Slots s !! idx s position) as [c|] eqn:Hc; [|done]. cbn [mbind option_bind] in Hs.
    simplify_eq. cbn in Hok.
    assert (Hsq : 0 <= Sequence c < 2 ^ 63) by (by eapply sequence_bounds).
    rewrite !intptr_small by lia.
    eapply Inv_move; [done..| |].
    + by repeat case_match.
    + destruct (Z.eqb_spec (Sequence c - position) 0); [|by case_match].
      cbn. split; [done|]. intros _. exists c. split; [done|lia].
  - destruct (_ && _) eqn:Hcas; simplify_eq.
    + to_prop. subst. by apply Inv_claim_push.
    + eapply Inv_move; [by apply Inv_retry|done..|]. cbn. lia.
  - destruct (Slots s !! idx s position) as [c|] eqn:Hc; [|done]. cbn [mbind option_bind] in Hs.
    simplify_eq. destruct Hok as (Hw & Hq & Hd & He & c' & Hc' & Hs').
    unfold cell_at in Hc'. assert (c' = c) as -> by congruence.
    eapply Inv_owner_step; [done|done|done|by left| |].
    + split; [done|]. split; [done|]. split; [done|].
      eexists. split; [by apply cell_at_set_slot_eq|]. done.
    + right. left. split_and!; [done..|]. eexists t, _.
      split; [by eapply lookup_set_pc|done].
  - destruct (Slots s !! idx s position) as [c|] eqn:Hc; [|done]. cbn [mbind option_bind] in Hs.
    simplify_eq. destruct Hok as (Hw & Hq & Hd & c' & Hc' & Hs' & He).
    unfold cell_at in Hc'. assert (c' = c) as -> by congruence. unfold in_window in Hw.
    rewrite u64_small by widths.
    eapply Inv_owner_step; [done|done|done|by right|done|].
    right. right. left. done.
Qed.

Lemma Inv_pop_step s t p b s' :
  Inv s -> threads s !! t = Some p -> pop_step no_event b s t p = Some s' -> Inv s'.
Proof.
  intros HI Ht Hs. pose proof (cap_bounds s HI) as Hcap. pose proof (inv_pos s HI) as Hpos.
  pose proof (inv_bound s HI) as Hlim.
  pose proof (inv_threads s HI _ _ Ht) as Hok.
  destruct p; cbn [pop_step] in Hs; try done; rewrite ?slot_idx in Hs by done.
  - simplify_eq. eapply Inv_move; try done. cbn. lia.
  - destruct (Slots s !! idx s position) as [c|] eqn:Hc; [|done]. cbn [mbind option_bind] in Hs.
    simplify_eq. cbn in Hok.
    assert (Hsq : 0 <= Sequence c < 2 ^ 63) by (by eapply sequence_bounds).
    rewrite u64_small by widths. rewrite !intptr_small by lia.
    eapply Inv_move; [done..| |].
    + by repeat case_match.
    + destruct (Z.eqb_spec (Sequence c - (position + 1)) 0); [|by case_match].
      cbn. split; [done|]. intros Heq. split; [|exists c; split; [done|lia]].
      by eapply full_slot.
  - destruct (_ && _) eqn:Hcas; simplify_eq.
    + to_prop. subst. by apply Inv_claim_pop.
    + eapply Inv_move; [by apply Inv_retry|done..|]. cbn. lia.
  - destruct (Slots s !! idx s position) as [c|] eqn:Hc; [|done]. cbn [mbind option_bind] in Hs.
    simplify_eq. by apply Inv_read.
  - destruct (Slots s !! idx s position) as [c|] eqn:Hc; [|done]. cbn [mbind option_bind] in Hs.
    simplify_eq. destruct Hok as (Hw & Hq & Hn & He & c' & Hc' & Hs').
    unfold cell_at in Hc'. assert (c' = c) as -> by congruence.
    eapply Inv_owner_step; [done|done|done|by left| |].
    + split; [done|]. split; [done|]. split; [done|]. split; [done|].
      eexists. split; [by apply cell_at_set_slot_eq|]. done.
    + right. right. right. split_and!; [done|apply Hq..|]. eexists t, _.
      split; [by eapply lookup_set_pc|done].
  - destruct (Slots s !! idx s position) as [c|] eqn:Hc; [|done]. cbn [mbind option_bind] in Hs.
    simplify_eq. destruct Hok as (Hw & Hq & Hn & He & c' & Hc' & Hs').
    unfold in_window in Hw. rewrite u64_small by widths.
    set (s1 := set_pc t (PopDone (Some ev)) (set_slot (idx s position)
                 {| Sequence := position + CapacityValue s; Event := Event c |} s)).
    change (Inv (deliver position (Some ev) s1)).
    assert (HI1 : Inv s1).
    { eapply Inv_owner_step; [done|done|done|by right|done|]. left. cbn. split; [done|lia]. }
    apply Inv_deliver; try done.
    intros t0 p0 [[-> ->]|[Hne H0]]%lookup_threads Ho; [done|].
    apply Hne. by apply (inv_owners s HI t0 t _ _ position H0 Ht).
Qed.

Lemma cells_step s s' : Inv s -> EnqueuePos s < 2 ^ 62 -> step no_event s s' -> Inv s'.
Proof.
  intros HI Hlim [t p b s1 Ht Hs|t p b s1 Ht Hs|t p e s1 Ht Hs].
  - by eapply Inv_push_step.
  - by eapply Inv_pop_step.
  - unfold call_step in Hs. destruct (running p) eqn:Hr; [done|]. simplify_eq.
    eapply Inv_move; [done|done|by destruct p|by destruct e|by destruct e].
Qed.

Lemma Inv_init capacity n s : capacity <= 2 ^ 61 -> init no_event capacity n = Some s -> Inv s.
Proof.
  intros Hcap Hi. unfold init in Hi.
  destruct (proj1 (NormalizeCapacity_spec capacity)) as (k & Hk & Hk1 & Hk2 & Hk3);
    [transitivity (2 ^ 61); [done|]; apply Z.pow_le_mono_r; lia|].
  rewrite Hk in Hi. simpl in Hi. simplify_eq.
  assert (k <= 61).
  { destruct (Z.le_gt_cases k 61); [done|]. exfalso.
    assert (2 ^ 61 <= 2 ^ (k - 1)) by (apply Z.pow_le_mono_r; lia). lia. }
  assert (2 <= 2 ^ k) by (change 2 with (2 ^ 1) at 1; apply Z.pow_le_mono_r; lia).
  assert (Hidle : forall t p, replicate n Idle !! t = Some p -> p = @Idle E).
  { intros t p Hp. by apply lookup_replicate in Hp as [-> _]. }
  split; cbn [CapacityValue Mask Slots EnqueuePos DequeuePos threads pushed delivered]; try lia.
  - exists k. split; [lia|done].
  - by rewrite length_map, length_seq.
  - done.
  - intros q Hq. unfold in_window in Hq. cbn in Hq.
    exists {| Sequence := q + 2 ^ k; Event := no_event |}. split; [|left; cbn; split; [done|lia]].
    unfold cell_at, idx. cbn [Slots CapacityValue].
    replace (q mod 2 ^ k) with (q + 2 ^ k).
    + rewrite list_lookup_fmap. rewrite lookup_seq_lt by lia. simpl. by rewrite Z2Nat.id by lia.
    + rewrite <- (Z.mod_add q 1 (2 ^ k)) by lia. rewrite Z.mul_1_l. symmetry. apply Z.mod_small. lia.
  - intros t p Hp%Hidle. by subst.
  - intros t t' p p' q Hp%Hidle. by subst.
  - split; [constructor|]. intros q e Hin. by apply elem_of_nil in Hin.
Qed.

Lemma cells_reachable capacity n s :
  capacity <= 2 ^ 61 -> reachable no_event capacity n s -> Inv s.
Proof.
  intros Hcap Hr. induction Hr as [s Hi|s s' Hr IH Hlim Hs]; [by eapply Inv_init|].
  by eapply cells_step.
Qed.

(** No claimed position is forgotten: it has been delivered or a pop is still at it. *)
Definition Kept s : Prop :=
  forall q, 0 <= q < DequeuePos s ->
    q ∈ (delivered s).*1 \/ exists t p, threads s !! t = Some p /\ pop_owner p = Some q.

(** A step of [t] that keeps what was delivered keeps every position but its own. *)
Lemma Kept_move s s' t p p' :
  Kept s -> threads s !! t = Some p -> threads s' = <[t := p']> (threads s) ->
  DequeuePos s' = DequeuePos s -> (forall q, q ∈ (delivered s).*1 -> q ∈ (delivered s').*1) ->
  (forall q, pop_owner p = Some q -> pop_owner p' = Some q \/ q ∈ (delivered s').*1) -> Kept s'.
Proof.
  intros HK Ht Hth Hd Hdel Hown q Hq. rewrite Hd in Hq.
  destruct (HK q Hq) as [Hin|(t0 & p0 & H0 & Ho)]; [by left; apply Hdel|].
  rewrite Hth. destruct (decide (t0 = t)) as [->|Hne].
  - rewrite Ht in H0. simplify_eq. destruct (Hown q Ho) as [Ho'|]; [|by left]. right.
    exists t, p'. split; [|done]. apply list_lookup_insert_eq. by eapply lookup_lt_Some.
  - right. exists t0, p0. by rewrite list_lookup_insert_ne.
Qed.

Lemma Kept_step s s' :
  Inv s -> Kept s -> step no_event s s' -> Kept s'.
Proof.
  intros HI HK [t p b s1 Ht Hs|t p b s1 Ht Hs|t p e s1 Ht Hs].
  - destruct p; cbn [push_step] in Hs; try done;
      try (destruct (Slots s !! _); [|done]; cbn [mbind option_bind] in Hs);
      try case_match; simplify_eq; by eapply Kept_move.
  - destruct p; cbn [pop_step] in Hs; try done;
      try (destruct (Slots s !! _); [|done]; cbn [mbind option_bind] in Hs);
      try destruct (_ && _) eqn:Hcas; simplify_eq;
      try (eapply Kept_move; [done|done|done|done|by intros q|naive_solver]).
    + to_prop. subst. intros q Hq. pose proof (inv_pos s HI) as Hp.
      pose proof (inv_bound s HI) as Hb. pose proof (cap_bounds s HI) as Hc. cbn in Hq. rewrite u64_small in Hq by widths.
      destruct (decide (q = DequeuePos s)) as [->|Hne].
      { right. exists t, (PopRead (DequeuePos s)). split; [by eapply lookup_set_pc|done]. }
      destruct (HK q) as [|(t0 & p0 & H0 & Ho)]; [lia|by left|]. right. exists t0, p0.
      split; [|done]. rewrite lookup_set_pc_ne; [done|]. intros ->. rewrite Ht in H0. by simplify_eq.
    + eapply Kept_move; [done|done|done|done|..].
      * intros q Hq. cbn. rewrite fmap_app. apply elem_of_app. by left.
      * intros q [= <-]. right. cbn. rewrite fmap_app. apply elem_of_app. right. by apply list_elem_of_singleton.
  - unfold call_step in Hs. destruct (running p) eqn:Hr; [done|]. simplify_eq.
    eapply Kept_move; [done|done|done|done|by intros q|]. by destruct p.
Qed.

Lemma kept_reachable capacity n s :
  capacity <= 2 ^ 61 -> reachable no_event capacity n s -> Kept s.
Proof.
  intros Hcap Hr. induction Hr as [s Hi|s s' Hr IH Hlim Hs].
  - unfold init in Hi. destruct (NormalizeCapacity capacity); [|done]. simpl in Hi. simplify_eq.
    intros q Hq. cbn in Hq. lia.
  - eapply Kept_step; [by eapply cells_reachable|done|done].
Qed.

(** A step writes no cell, or the one of the position its thread owns. *)
Lemma step_writes_own_cell b s t p s' :
  push_step b s t p = Some s' \/ pop_step no_event b s t p = Some s' ->
  Slots s' = Slots s \/
  exists q c, owner p = Some q /\ Slots s' = <[slot s q := c]> (Slots s).
Proof.
  intros [Hs|Hs]; destruct p; cbn [push_step pop_step] in Hs; try done;
    try (destruct (Slots s !! _); [|done]; cbn [mbind option_bind] in Hs);
    try case_match; simplify_eq; eauto.
Qed.

Lemma running_can_step s t p :
  Inv s -> threads s !! t = Some p -> running p = true ->
  exists s', push_step false s t p = Some s' \/ pop_step no_event false s t p = Some s'.
Proof.
  intros HI Ht Hr.
  assert (Hs : forall q, exists c, Slots s !! slot s q = Some c).
  { intros q. rewrite slot_idx by done. apply lookup_lt_is_Some_2. by apply idx_lt. }
  destruct p; try done; cbn [push_step pop_step];
    repeat match goal with |- context [Slots s !! slot s ?q] => destruct (Hs q) as [? ->] end;
    cbn [mbind option_bind]; try case_match; eauto.
Qed.

(** The position that last used the slot of [q], and what became of it. *)
Lemma slot_history s q :
  Inv s -> 0 <= q <= EnqueuePos s ->
  exists q' c, in_window s q' /\ (q <= q' \/ (q = EnqueuePos s /\ q' = q - CapacityValue s)) /\
    cell_at s q c /\ slot_phase s q' c.
Proof.
  intros HI Hq. destruct (mod_window s q HI) as (q' & Hw & Hi).
  destruct (inv_slots s HI q' Hw) as (c & Hc & Hph). exists q', c. split; [done|].
  unfold cell_at in *. rewrite <- Hi. split; [|done]. unfold in_window in Hw.
  destruct (Z.le_gt_cases q q'); [by left|]. right.
  destruct (decide (q - q' < CapacityValue s)); [|lia].
  apply idx_inj in Hi; [|done|lia]. lia.
Qed.
End Invariant.

(** ** Theorems *)

Section Claims.
Context {E : Type} (no_event : E).

(** C26.  The queue is free of races on its cells, for capacities up to 2^61: in every
    reachable state two threads that are between claiming a position and publishing it,
    writer or reader, are at different cells; a step of a thread changes no cell, or only
    the cell of the position that thread has claimed and not published; an event is taken
    from the cell of the claimed position only; the cell index is always inside the array,
    so every thread in a call can take its next step. *)
Theorem queue_cells_are_exclusive capacity n s :
  capacity <= 2 ^ 61 -> reachable no_event capacity n s ->
  (forall t t' p p' q q', threads s !! t = Some p -> threads s !! t' = Some p' -> t <> t' ->
     owner p = Some q -> owner p' = Some q' -> slot s q <> slot s q') /\
  (forall b t p s', push_step b s t p = Some s' \/ pop_step no_event b s t p = Some s' ->
     Slots s' = Slots s \/
     exists q c, owner p = Some q /\ Slots s' = <[slot s q := c]> (Slots s)) /\
  (forall b t p s' q e, threads s !! t = Some p -> pop_step no_event b s t p = Some s' ->
     threads s' !! t = Some (PopClear q e) ->
     owner p = Some q /\ Event <$> Slots s !! slot s q = Some e) /\
  (forall t p, threads s !! t = Some p -> running p = true ->
     exists s', push_step false s t p = Some s' \/ pop_step no_event false s t p = Some s').
Proof.
  intros Hcap Hr%cells_reachable; [|done].
  split_and!; [|intros; by eapply step_writes_own_cell| |intros; by eapply running_can_step].
  - intros t t' p p' q q' Ht Ht' Hne Ho Ho' Hs. rewrite !slot_idx in Hs by done.
    destruct (owner_in_window s t p q Hr Ht Ho) as [Hw _].
    destruct (owner_in_window s t' p' q' Hr Ht' Ho') as [Hw' _]. unfold in_window in *.
    apply idx_inj in Hs; [|done|lia]. subst q'. apply Hne. by eapply (inv_owners s Hr).
  - intros b t p s' q e Ht Hs. assert (Hl : (t < length (threads s))%nat) by (by eapply lookup_lt_Some).
    destruct p; cbn [pop_step] in Hs; try done;
      try (destruct (Slots s !! _) eqn:Hc; [|done]; cbn [mbind option_bind] in Hs);
      try destruct (_ && _); simplify_eq; cbn; rewrite list_lookup_insert_eq by done;
      repeat case_match; intros Hpc; simplify_eq.
    by rewrite Hc.
Qed.

(** C27.  Events are delivered once each and none is lost: for capacities up to 2^61 and
    executions of fewer than 2^62 pushes, at most one pop returns the event of a position
    and what it returns is the event whose push claimed that position, never an overwritten
    or a cleared one; pops claim the positions in order, and every position a pop has
    claimed has been returned or is held by a pop still at it; the positions not claimed
    are the events pushed and not taken, at most [CapacityValue], which is what
    [SizeApprox] counts. *)
Theorem queue_delivers_each_event_once capacity n s :
  capacity <= 2 ^ 61 -> reachable no_event capacity n s ->
  NoDup (delivered s).*1 /\
  (forall q e, (q, e) ∈ delivered s -> 0 <= q < DequeuePos s /\ pushed s !! Z.to_nat q = Some e) /\
  (forall q, 0 <= q < DequeuePos s ->
     (exists e, (q, e) ∈ delivered s) \/
     exists t p, threads s !! t = Some p /\ pop_owner p = Some q) /\
  (forall t q e, threads s !! t = Some (PopPublish q e) -> pushed s !! Z.to_nat q = Some e) /\
  (forall b t p s', threads s !! t = Some p -> pop_step no_event b s t p = Some s' ->
     DequeuePos s' = DequeuePos s \/
     DequeuePos s' = DequeuePos s + 1 /\ pop_owner <$> threads s' !! t = Some (Some (DequeuePos s))) /\
  0 <= SizeApprox s <= CapacityValue s /\
  SizeApprox s = Z.of_nat (length (pushed s)) - DequeuePos s.
Proof.
  intros Hcap Hreach. pose proof (cells_reachable _ _ _ _ Hcap Hreach) as Hr.
  pose proof (kept_reachable _ _ _ _ Hcap Hreach) as Hk.
  destruct (inv_delivered s Hr) as [Hnd Hd].
  pose proof (inv_pos s Hr). pose proof (inv_pushed s Hr). pose proof (inv_bound s Hr).
  pose proof (cap_bounds s Hr).
  assert (Hsz : SizeApprox s = EnqueuePos s - DequeuePos s).
  { unfold SizeApprox. by rewrite (proj2 (Z.leb_le _ _)) by lia. }
  split_and!; [done|done| | | |lia|lia|lia].
  - intros q Hq. destruct (Hk q Hq) as [Hin|]; [|by right]. left.
    apply list_elem_of_fmap in Hin as ([q' e] & -> & Hin). by exists e.
  - intros t q e Ht. by apply (inv_threads s Hr) in Ht as (_ & _ & _ & ? & _).
  - intros b t p s' Ht Hs. destruct p; cbn [pop_step] in Hs; try done;
      try (destruct (Slots s !! _); [|done]; cbn [mbind option_bind] in Hs);
      try destruct (_ && _) eqn:Hcas; simplify_eq; try (by left).
    to_prop. subst. right. split; [cbn; apply u64_small; widths|]. by erewrite lookup_set_pc.
Qed.

(** C28.  A refusal is justified: [TryPush] answers false only when all cells are taken or
    the pop that will free the next one is still at it, and [TryPop] only when every event
    has been claimed or the push of the next one has not published yet. *)
Theorem queue_refusals_are_justified capacity n s t b s' :
  capacity <= 2 ^ 61 -> reachable no_event capacity n s ->
  (forall ev q, threads s !! t = Some (PushSeq ev q) ->
     push_step b s t (PushSeq ev q) = Some s' -> threads s' !! t = Some (PushDone false) ->
     EnqueuePos s - DequeuePos s = CapacityValue s \/
     exists t' p, threads s !! t' = Some p /\ pop_owner p = Some (EnqueuePos s - CapacityValue s)) /\
  (forall q, threads s !! t = Some (PopSeq q) ->
     pop_step no_event b s t (PopSeq q) = Some s' -> threads s' !! t = Some (PopDone None) ->
     EnqueuePos s = DequeuePos s \/
     exists t' p, threads s !! t' = Some p /\ push_owner p = Some (DequeuePos s)).
Proof.
  intros Hcap Hr%cells_reachable; [|done]. pose proof (cap_bounds s Hr) as HC.
  pose proof (inv_pos s Hr) as Hp. pose proof (inv_bound s Hr). split.
  - intros ev q Ht Hs Hd. pose proof (inv_threads s Hr _ _ Ht) as Hq. cbn in Hq.
    destruct (slot_history s q Hr Hq) as (q' & c & Hw & Hqq & Hcell & Hph).
    cbn [push_step] in Hs. rewrite slot_idx in Hs by done. unfold cell_at in Hcell.
    rewrite Hcell in Hs. cbn [mbind option_bind] in Hs. simplify_eq.
    rewrite (lookup_set_pc s t _ _ Ht) in Hd.
    pose proof (sequence_bounds s q c Hr Hcell). rewrite !intptr_small in Hd by lia.
    destruct (Z.eqb_spec (Sequence c - q) 0); [done|].
    destruct (Z.ltb_spec (Sequence c - q) 0); [|done]. clear Hd. unfold in_window in Hw.
    destruct Hph as [?|[?|[?|(? & ? & t' & p' & ? & ?)]]]; try lia.
    right. exists t', p'. split; [done|].
    by replace (EnqueuePos s - CapacityValue s) with q' by lia.
  - intros q Ht Hs Hd. pose proof (inv_threads s Hr _ _ Ht) as Hq. cbn in Hq.
    destruct (slot_history s q Hr) as (q' & c & Hw & Hqq & Hcell & Hph); [lia|].
    cbn [pop_step] in Hs. rewrite slot_idx in Hs by done. unfold cell_at in Hcell.
    rewrite Hcell in Hs. cbn [mbind option_bind] in Hs. simplify_eq.
    rewrite (lookup_set_pc s t _ _ Ht) in Hd.
    pose proof (sequence_bounds s q c Hr Hcell). rewrite u64_small in Hd by widths.
    rewrite !intptr_small in Hd by lia.
    destruct (Z.eqb_spec (Sequence c - (q + 1)) 0); [done|].
    destruct (Z.ltb_spec (Sequence c - (q + 1)) 0); [|done]. clear Hd. unfold in_window in Hw.
    destruct Hqq as [Hqq|Hqq]; [|left; lia].
    destruct Hph as [?|[(? & ? & ? & t' & p' & ? & ?)|[?|?]]]; try lia.
    right. exists t', p'. split; [done|]. by replace (DequeuePos s) with q' by lia.
Qed.

(**  The constructor rounds the capacity up to the next power of two, at least two, so
    that masking selects a slot; this holds for capacities up to 2^63, above which the
    doubling would overflow and never end. *)
Theorem capacity_is_next_power_of_two capacity :
  (capacity <= 2 ^ 63 ->
   exists k, NormalizeCapacity capacity = Some (2 ^ k) /\ 1 <= k <= 63 /\ capacity <= 2 ^ k /\
     forall j, 1 <= j -> capacity <= 2 ^ j -> k <= j) /\
  (2 ^ 63 < capacity -> forall fuel, normalize_loop fuel 2 capacity = None).
Proof.
  split.
  - intros Hc. destruct (proj1 (NormalizeCapacity_spec capacity) Hc) as (k & -> & Hk & Hle & Hlt).
    exists k. split_and!; [done|lia|lia|done|]. intros j Hj Hcj.
    destruct Hlt as [Hlt| ->]; [|done]. destruct (Z.le_gt_cases k j); [done|].
    assert (2 ^ j <= 2 ^ (k - 1)) by (apply Z.pow_le_mono_r; lia). lia.
  - intros Hc fuel.
    assert (Hz : forall f, normalize_loop f 0 capacity = None).
    { intros f. induction f as [|f IHf]; simpl; rewrite (proj2 (Z.ltb_lt _ _)) by lia; [done|].
      exact IHf. }
    assert (Hgo : forall f j, 0 <= j <= 63 -> normalize_loop f (2 ^ j) capacity = None); [|by apply (Hgo fuel 1)].
    intros f. induction f as [|f IH]; intros j Hj; simpl;
      (assert (2 ^ j <= 2 ^ 63) by (apply Z.pow_le_mono_r; lia));
      rewrite (proj2 (Z.ltb_lt _ _)) by lia; [done|].
    rewrite Z.shiftl_mul_pow2, Z.mul_comm by lia. change (2 ^ 1) with 2.
    rewrite <- Z.pow_succ_r by lia. destruct (decide (j = 63)) as [->|]; [apply Hz|].
    rewrite u64_small; [apply IH; lia|]. unfold is_u64.
    change 18446744073709551616 with (2 ^ 64). split; [lia|]. apply Z.pow_lt_mono_r; lia.
Qed.
End Claims.

(** ** Executions, to instantiate the theorems *)

Inductive action (E : Type) := Run (spurious : bool) | CallPush (e : E) | CallPop.
Arguments Run {E}.
Arguments CallPush {E}.
Arguments CallPop {E}.

Definition act {E} (no_event : E) (s : state E) (ta : nat * action E) : option (state E) :=
  if EnqueuePos s <? 2 ^ 62 then
    p ← threads s !! ta.1;
    match ta.2 with
    | Run b => match push_step b s ta.1 p with
               | Some s' => Some s'
               | None => pop_step no_event b s ta.1 p
               end
    | CallPush e => call_step (Some e) s ta.1 p
    | CallPop => call_step None s ta.1 p
    end
  else None.

Fixpoint execute {E} (no_event : E) (s : state E) (l : list (nat * action E)) : option (state E) :=
  match l with
  | [] => Some s
  | ta :: l' => s' ← act no_event s ta; execute no_event s' l'
  end.

Lemma schedule_reachable {E} (no_event : E) capacity n s l s' :
  reachable no_event capacity n s -> execute no_event s l = Some s' ->
  reachable no_event capacity n s'.
Proof.
  revert s. induction l as [|[t a] l IH]; intros s Hr Hx; simpl in Hx; [by simplify_eq|].
  destruct (act no_event s (t, a)) as [s1|] eqn:Ha; [|done]. simpl in Hx.
  apply (IH s1); [|done]. unfold act in Ha. destruct (Z.ltb_spec (EnqueuePos s) (2 ^ 62)); [|done].
  destruct (threads s !! t) as [p|] eqn:Hp; simpl in Ha; rewrite Hp in Ha; [|done]. simpl in Ha.
  apply (reach_step no_event capacity n s); [done..|]. destruct a as [b|e|].
  - destruct (push_step b s t p) eqn:Hs; [|by eapply step_pop]. simplify_eq. by eapply step_push.
  - by eapply step_call.
  - by eapply step_call.
Qed.

Module Demo.
(** Two threads push, the third pops what the second pushed first. *)
Definition schedule : list (nat * action nat) :=
  [(0, CallPush 7); (1, CallPush 8); (0, Run false); (1, Run false); (0, Run false);
   (1, Run false); (1, Run false); (0, Run false); (0, Run false); (1, Run false);
   (0, Run false); (0, Run true); (0, Run false); (1, Run false); (2, CallPop);
   (2, Run false); (2, Run false); (2, Run false); (2, Run false)]%nat.
(** ... and returns it. *)
Definition returning : list (nat * action nat) :=
  (schedule ++ [(2, Run false); (2, Run false)])%nat.
Definition start : state nat :=
  match init 0%nat 4 3 with Some s => s | None => {| CapacityValue := 0; Mask := 0; Slots := [];
    EnqueuePos := 0; DequeuePos := 0; PushCasRetries := 0; PopCasRetries := 0; threads := [];
    pushed := []; delivered := [] |} end.
Definition mid : state nat :=
  match execute 0%nat start schedule with Some s => s | None => start end.
Definition returned : state nat :=
  match execute 0%nat start returning with Some s => s | None => start end.
(** Thread 2 asks an empty queue, thread 0 a full one of two cells. *)
Definition asking : list (nat * action nat) := [(2, CallPop); (2, Run false)]%nat.
Definition empty : state nat :=
  match execute 0%nat start asking with Some s => s | None => start end.
Definition refused : state nat :=
  match execute 0%nat empty [(2, Run false)]%nat with Some s => s | None => start end.
End Demo.

Lemma queue_cells_are_exclusive_witness :
  reachable 0%nat 4 3 Demo.mid /\
  exists s', push_step false Demo.mid 2 (PopClear 0 8%nat) = Some s' \/
             pop_step 0%nat false Demo.mid 2 (PopClear 0 8%nat) = Some s'.
Proof.
  assert (Hr : reachable 0%nat 4 3 Demo.mid).
  { apply (schedule_reachable 0%nat 4 3 Demo.start Demo.schedule);
      [apply reach_init|]; vm_compute; reflexivity. }
  split; [exact Hr|].
  apply (queue_cells_are_exclusive 0%nat 4 3 Demo.mid);
    [vm_compute; discriminate | exact Hr | vm_compute; reflexivity | reflexivity].
Defined.

Lemma queue_delivers_each_event_once_witness :
  (0, 8%nat) ∈ delivered Demo.returned /\ pushed Demo.returned !! 0%nat = Some 8%nat.
Proof.
  assert (Hin : (0, 8%nat) ∈ delivered Demo.returned) by (vm_compute; left).
  split; [exact Hin|].
  apply (queue_delivers_each_event_once 0%nat 4 3 Demo.returned) in Hin as [_ H]; [exact H|..].
  - vm_compute. discriminate.
  - apply (schedule_reachable 0%nat 4 3 Demo.start Demo.returning);
      [apply reach_init|]; vm_compute; reflexivity.
Defined.

Lemma queue_refusals_are_justified_witness :
  EnqueuePos Demo.empty = DequeuePos Demo.empty \/
  exists t' p, threads Demo.empty !! t' = Some p /\ push_owner p = Some (DequeuePos Demo.empty).
Proof.
  apply (queue_refusals_are_justified 0%nat 4 3 Demo.empty 2 false Demo.refused) with (q := 0).
  - vm_compute. discriminate.
  - apply (schedule_reachable 0%nat 4 3 Demo.start Demo.asking);
      [apply reach_init|]; vm_compute; reflexivity.
  - vm_compute. reflexivity.
  - vm_compute. reflexivity.
  - vm_compute. reflexivity.
Defined.

Lemma capacity_is_next_power_of_two_witness :
  exists k, NormalizeCapacity 5 = Some (2 ^ k) /\ 1 <= k <= 63 /\ 5 <= 2 ^ k /\
    forall j, 1 <= j -> 5 <= 2 ^ j -> k <= j.
Proof. apply (capacity_is_next_power_of_two 5). vm_compute. discriminate. Defined.
End Mpmc.

(** ** The queue of the libuv worker *)

Module Uv.
Section Queue.
Context {T : Type}.

Record queue := { Queue_ : list T; Capacity_ : Z; Initialized_ : bool }.
Record PushResult := { Accepted : bool; ShouldWake : bool }.

(** The constructor; the mutex may fail to initialise. *)
Definition make (capacity : Z) (mutex_ok : bool) : queue :=
  {| Queue_ := []; Capacity_ := if capacity =? 0 then 1 else capacity; Initialized_ := mutex_ok |}.

(** [alloc_ok] is whether [push_back] finds memory. *)
Definition TryPush (alloc_ok : bool) (value : T) (q : queue) : PushResult * queue :=
  if negb (Initialized_ q) then ({| Accepted := false; ShouldWake := false |}, q)
  else if Capacity_ q <=? Z.of_nat (length (Queue_ q)) then
    ({| Accepted := false; ShouldWake := false |}, q)
  else
    let shouldWake := match Queue_ q with [] => true | _ => false end in
    if alloc_ok then
      ({| Accepted := true; ShouldWake := shouldWake |},
       {| Queue_ := Queue_ q ++ [value]; Capacity_ := Capacity_ q; Initialized_ := Initialized_ q |})
    else ({| Accepted := false; ShouldWake := false |}, q).

Definition TryPop (q : queue) : option T * queue :=
  if negb (Initialized_ q) then (None, q)
  else match Queue_ q with
       | [] => (None, q)
       | v :: rest =>
           (Some v, {| Queue_ := rest; Capacity_ := Capacity_ q; Initialized_ := Initialized_ q |})
       end.

Definition Size (q : queue) : Z :=
  if negb (Initialized_ q) then 0 else Z.of_nat (length (Queue_ q)).
Definition Empty (q : queue) : bool := Size q =? 0.

(** The queue with its users: what was accepted, what was handed out, and whether the worker
    has been woken and has not yet found the queue empty. *)
Record world := { wq : queue; accepted : list T; popped : list T; awake : bool }.

Inductive op := Push (alloc_ok : bool) (v : T) | Pop.

Definition perform (o : op) (w : world) : world :=
  match o with
  | Push a v =>
      let '(r, q') := TryPush a v (wq w) in
      {| wq := q'; accepted := if Accepted r then accepted w ++ [v] else accepted w;
         popped := popped w; awake := awake w || ShouldWake r |}
  | Pop =>
      match TryPop (wq w) with
      | (Some v, q') => {| wq := q'; accepted := accepted w; popped := popped w ++ [v]; awake := awake w |}
      | (None, q') => {| wq := q'; accepted := accepted w; popped := popped w; awake := false |}
      end
  end.

Definition start (capacity : Z) (mutex_ok : bool) : world :=
  {| wq := make capacity mutex_ok; accepted := []; popped := []; awake := false |}.

Definition good (capacity : Z) (w : world) : Prop :=
  accepted w = popped w ++ Queue_ (wq w) /\
  (Queue_ (wq w) <> [] -> awake w = true) /\
  Z.of_nat (length (Queue_ (wq w))) <= Capacity_ (wq w) /\
  Capacity_ (wq w) = Z.max 1 capacity /\
  (Initialized_ (wq w) = false -> Queue_ (wq w) = []).

Lemma good_perform capacity o w : good capacity w -> good capacity (perform o w).
Proof.
  intros (Hacc & Hawake & Hlen & Hcap & Hinit). destruct o as [a v|]; unfold perform.
  - unfold TryPush. destruct (Initialized_ (wq w)) eqn:Hi; simpl.
    2:{ unfold good. simpl. rewrite orb_false_r. split_and!; auto. }
    destruct (Z.leb_spec (Capacity_ (wq w)) (Z.of_nat (length (Queue_ (wq w))))); simpl.
    { unfold good. simpl. rewrite orb_false_r. split_and!; auto. by rewrite Hi. }
    destruct a; simpl; [|unfold good; simpl; rewrite orb_false_r; split_and!; auto; by rewrite Hi].
    split_and!; simpl; [by rewrite Hacc, app_assoc| |rewrite length_app; simpl; lia|done|done].
    intros _. destruct (Queue_ (wq w)); [apply orb_true_r|]. by rewrite Hawake.
  - unfold TryPop. destruct (Initialized_ (wq w)) eqn:Hi; simpl.
    + destruct (Queue_ (wq w)) as [|v rest] eqn:Hq; simpl.
      * unfold good. simpl. rewrite Hq. by split_and!.
      * simpl in Hlen. split_and!; simpl; [by rewrite Hacc, <- app_assoc| |lia|done|done].
        intros _. by apply Hawake.
    + unfold good. simpl. rewrite (Hinit eq_refl) in *. by split_and!.
Qed.

Lemma good_run capacity ops w : good capacity w -> good capacity (fold_left (fun w o => perform o w) ops w).
Proof.
  revert w. induction ops as [|o ops IH]; intros w Hw; [done|]. simpl. by apply IH, good_perform.
Qed.
End Queue.

Arguments queue : clear implicits.
Arguments world : clear implicits.
Arguments op : clear implicits.

(** C29.  Whatever the order of pushes, pops and failed allocations, the libuv queue hands
    out the accepted values in order and each once, never holds more than its capacity, and
    loses no wake-up: as long as it holds something, the worker has been told to wake and has
    not since found it empty. *)
Theorem uv_queue_is_a_bounded_fifo_without_lost_wakeups {T} capacity ok (ops : list (op T)) :
  0 <= capacity ->
  let w := fold_left (fun w o => perform o w) ops (start capacity ok) in
  accepted w = popped w ++ Queue_ (wq w) /\
  Size (wq w) <= Z.max 1 capacity /\
  (Empty (wq w) = false -> awake w = true).
Proof.
  intros Hc w.
  assert (Hg : good capacity w).
  { apply good_run. unfold good, start, make. simpl. split_and!; try done.
    all: destruct (Z.eqb_spec capacity 0); lia. }
  destruct Hg as (Hacc & Hawake & Hlen & Hcap & Hinit). split; [done|].
  unfold Empty, Size. destruct (Initialized_ (wq w)); simpl; [|split; [lia|done]].
  split; [lia|]. intros He. apply Hawake. intros Hq. by rewrite Hq in He.
Qed.

Lemma uv_queue_is_a_bounded_fifo_without_lost_wakeups_witness :
  let w := fold_left (fun w o => perform o w) [Push true 1; Push true 2; Push true 3; Pop]
             (start 2 true) in
  accepted w = popped w ++ Queue_ (wq w) /\ Size (wq w) <= Z.max 1 2 /\
  (Empty (wq w) = false -> awake w = true).
Proof.
  apply (uv_queue_is_a_bounded_fifo_without_lost_wakeups 2 true
    [Push true 1; Push true 2; Push true 3; Pop]). lia.
Defined.
End Uv.
