(* ===== verification/RelayBuffer.v ===== *)
(** Relay buffers and their budget (src/src/tunnel/relay_buffer.cpp).

    A worker's threads allocate buffers against one [TqRelayBufferBudget]; the accesses to its
    counter are interleaved one at a time.  Handles live in a common store, since a handle may
    be moved from the thread that got it to another; each holds its buffer, whether it has the
    budget, and the bytes it reserved. *)

From stdpp Require Import base list numbers.
From Stdlib Require Import ZArith Lia.
From S2P Require Import Prelude.

Inductive TqBufferAcquireFailure := NoFailure | PendingBytesLimit | AllocationFailure.

(** [struct TqRelayBuffer] without the storage itself. *)
Record TqRelayBuffer := { StorageCapacity : Z; UsedLength : Z }.

Definition SetLength (len : Z) (b : TqRelayBuffer) : TqRelayBuffer :=
  {| StorageCapacity := StorageCapacity b; UsedLength := Z.min len (StorageCapacity b) |}.

Record TqBufferHandle := { Buffer : option TqRelayBuffer; Budget : bool; ReservedBytes : Z }.

Definition empty_handle : TqBufferHandle :=
  {| Buffer := None; Budget := false; ReservedBytes := 0 |}.

(** Where a thread is in [TqAllocateRelayBuffer], before the access the name says. *)
Inductive pc :=
| Idle
| Load (bytes : Z)
| Compare (bytes current : Z)
| Cas (bytes current : Z)
| Alloc (bytes : Z)
| New (bytes : Z)
| GiveBack (bytes : Z)
| Count (bytes : Z)
| Done (failure : TqBufferAcquireFailure).

(** [TqRelayBufferBudget], the handles, the threads. *)
Record state := {
  PendingBufferBytes : Z; MaxPendingBufferBytes : Z; AllocateCount : Z;
  handles : list TqBufferHandle; threads : list pc }.

Definition set_pc (t : nat) (p : pc) (s : state) : state :=
  {| PendingBufferBytes := PendingBufferBytes s; MaxPendingBufferBytes := MaxPendingBufferBytes s;
     AllocateCount := AllocateCount s; handles := handles s; threads := <[t := p]> (threads s) |}.

Definition set_pending (v : Z) (s : state) : state :=
  {| PendingBufferBytes := v; MaxPendingBufferBytes := MaxPendingBufferBytes s;
     AllocateCount := AllocateCount s; handles := handles s; threads := threads s |}.

Definition set_handles (h : list TqBufferHandle) (s : state) : state :=
  {| PendingBufferBytes := PendingBufferBytes s; MaxPendingBufferBytes := MaxPendingBufferBytes s;
     AllocateCount := AllocateCount s; handles := h; threads := threads s |}.

(** The call: no bytes or no budget end it at once. *)
Definition TqAllocateRelayBuffer_call (budget : bool) (bytes : Z) : pc :=
  if bytes =? 0 then Done NoFailure
  else if negb budget then Done AllocationFailure
  else Load bytes.

(** One access; [ok] is whether memory is found, or whether the weak compare-exchange does not
    fail spuriously. *)
Definition TqAllocateRelayBuffer_step (ok : bool) (s : state) (t : nat) (p : pc) : option state :=
  match p with
  | Load bytes => Some (set_pc t (Compare bytes (PendingBufferBytes s)) s)
  | Compare bytes current =>
      Some (set_pc t (if MaxPendingBufferBytes s <? u64 (current + bytes)
                      then Done PendingBytesLimit else Cas bytes current) s)
  | Cas bytes current =>
      if (PendingBufferBytes s =? current) && ok
      then Some (set_pc t (Alloc bytes) (set_pending (u64 (current + bytes)) s))
      else Some (set_pc t (Compare bytes (PendingBufferBytes s)) s)
  | Alloc bytes => Some (set_pc t (if ok then New bytes else GiveBack bytes) s)
  | New bytes => Some (set_pc t (if ok then Count bytes else GiveBack bytes) s)
  | GiveBack bytes =>
      Some (set_pc t (Done AllocationFailure) (set_pending (u64 (PendingBufferBytes s - bytes)) s))
  | Count bytes =>
      Some {| PendingBufferBytes := PendingBufferBytes s;
              MaxPendingBufferBytes := MaxPendingBufferBytes s;
              AllocateCount := u64 (AllocateCount s + 1);
              handles := handles s ++
                [{| Buffer := Some {| StorageCapacity := bytes; UsedLength := 0 |};
                    Budget := true; ReservedBytes := bytes |}];
              threads := <[t := Done NoFailure]> (threads s) |}
  | _ => None
  end.

(** [reset] of handle [i]: what it had reserved goes back to the budget. *)
Definition reset (i : nat) (s : state) : option state :=
  h ← handles s !! i;
  let s' := set_handles (<[i := empty_handle]> (handles s)) s in
  match Buffer h with
  | None => Some s'
  | Some _ =>
      if Budget h && (0 <? ReservedBytes h)
      then Some (set_pending (u64 (PendingBufferBytes s - ReservedBytes h)) s')
      else Some s'
  end.

(** The move constructor: a new handle takes over what [i] had. *)
Definition move_construct (i : nat) (s : state) : option state :=
  h ← handles s !! i;
  Some (set_handles (<[i := empty_handle]> (handles s) ++ [h]) s).

(** [handles[j] = std::move(handles[i])]. *)
Definition move_assign (j i : nat) (s : state) : option state :=
  if bool_decide (i = j) then Some s
  else
    s' ← reset j s;
    h ← handles s' !! i;
    Some (set_handles (<[i := empty_handle]> (<[j := h]> (handles s'))) s').

(** [biggest] bounds the sizes the workers ask for. *)
Inductive step (biggest : Z) (s : state) : state -> Prop :=
| step_call t p bytes budget :
    threads s !! t = Some p -> match p with Idle | Done _ => True | _ => False end ->
    0 <= bytes <= biggest -> step biggest s (set_pc t (TqAllocateRelayBuffer_call budget bytes) s)
| step_alloc t p ok s' :
    threads s !! t = Some p -> TqAllocateRelayBuffer_step ok s t p = Some s' -> step biggest s s'
| step_reset i s' : reset i s = Some s' -> step biggest s s'
| step_move i s' : move_construct i s = Some s' -> step biggest s s'
| step_assign j i s' : move_assign j i s = Some s' -> step biggest s s'.

(** A fresh budget of [max] bytes and [n] threads. *)
Inductive reachable (max biggest : Z) (n : nat) : state -> Prop :=
| reach_init :
    reachable max biggest n {| PendingBufferBytes := 0; MaxPendingBufferBytes := max; AllocateCount := 0;
                               handles := []; threads := replicate n Idle |}
| reach_step s s' : reachable max biggest n s -> step biggest s s' -> reachable max biggest n s'.

(** ** Accounting *)

Definition sum {A} (f : A -> Z) (l : list A) : Z := foldr (fun x acc => f x + acc) 0 l.

Lemma sum_cons {A} (f : A -> Z) x l : sum f (x :: l) = f x + sum f l.
Proof. reflexivity. Qed.

Lemma sum_one {A} (f : A -> Z) x : sum f [x] = f x.
Proof. unfold sum. simpl. lia. Qed.

#[global] Arguments sum : simpl never.

Lemma sum_app {A} (f : A -> Z) l k : sum f (l ++ k) = sum f l + sum f k.
Proof. induction l as [|x l IH]; simpl; [done|]. rewrite !sum_cons. lia. Qed.

Lemma sum_insert {A} (f : A -> Z) l i x y :
  l !! i = Some x -> sum f (<[i := y]> l) = sum f l - f x + f y.
Proof.
  revert i. induction l as [|z l IH]; intros [|i] Hi; simplify_eq/=; rewrite !sum_cons; [lia|].
  rewrite (IH i) by done. lia.
Qed.

Lemma sum_nonneg {A} (f : A -> Z) l : Forall (fun x => 0 <= f x) l -> 0 <= sum f l.
Proof. induction 1; [done|]. rewrite sum_cons. lia. Qed.

Lemma sum_elem {A} (f : A -> Z) l i x :
  Forall (fun x => 0 <= f x) l -> l !! i = Some x -> f x <= sum f l.
Proof.
  intros Hl. revert i. induction Hl as [|z l Hz Hl IH]; intros [|i] Hi; simplify_eq/=; rewrite sum_cons.
  - pose proof (sum_nonneg f l Hl). lia.
  - specialize (IH i Hi). lia.
Qed.

(** The bytes a handle, and an allocation under way, has reserved. *)
Definition held (h : TqBufferHandle) : Z :=
  match Buffer h with Some _ => if Budget h then ReservedBytes h else 0 | None => 0 end.
Definition in_flight (p : pc) : Z :=
  match p with Alloc b | New b | GiveBack b | Count b => b | _ => 0 end.

Definition handle_ok (h : TqBufferHandle) : Prop :=
  match Buffer h with
  | Some b => Budget h = true /\ 0 < ReservedBytes h /\ StorageCapacity b = ReservedBytes h /\
              0 <= UsedLength b <= StorageCapacity b
  | None => h = empty_handle
  end.

Definition pc_ok (max biggest : Z) (p : pc) : Prop :=
  match p with
  | Load b => 0 < b <= biggest
  | Compare b c => 0 < b <= biggest /\ 0 <= c <= max
  | Cas b c => 0 < b <= biggest /\ 0 <= c /\ c + b <= max
  | Alloc b | New b | GiveBack b | Count b => 0 < b
  | _ => True
  end.

Definition Inv (max biggest : Z) (s : state) : Prop :=
  MaxPendingBufferBytes s = max /\
  PendingBufferBytes s = sum held (handles s) + sum in_flight (threads s) /\
  PendingBufferBytes s <= max /\
  Forall handle_ok (handles s) /\ Forall (pc_ok max biggest) (threads s).

Lemma held_nonneg l : Forall handle_ok l -> Forall (fun h => 0 <= held h) l.
Proof.
  apply List.Forall_impl. intros h Hh. unfold handle_ok, held in *.
  destruct (Buffer h); [|lia]. destruct Hh as (-> & ? & _). lia.
Qed.

Lemma in_flight_nonneg max biggest l :
  Forall (pc_ok max biggest) l -> Forall (fun p => 0 <= in_flight p) l.
Proof. apply List.Forall_impl. intros []; simpl; lia. Qed.

Lemma empty_handle_ok : handle_ok empty_handle.
Proof. done. Qed.

Section Preservation.
Context (max biggest : Z) (Hmax : 0 <= max) (Hbig : 0 <= biggest) (Hroom : max + biggest < 2 ^ 64).

(** A thread moves on without touching the counter. *)
Lemma Inv_set_pc s t p p' :
  Inv max biggest s -> threads s !! t = Some p -> pc_ok max biggest p' ->
  in_flight p' = in_flight p -> Inv max biggest (set_pc t p' s).
Proof.
  intros (H1 & H2 & H3 & H4 & H5) Ht Hp Hf. split_and!; [done| |done|done|].
  - cbn. rewrite (sum_insert _ _ _ _ _ Ht). lia.
  - cbn. by apply Forall_insert.
Qed.

Lemma Inv_bounds s : Inv max biggest s -> 0 <= PendingBufferBytes s <= max.
Proof.
  intros (H1 & H2 & H3 & H4 & H5). pose proof (sum_nonneg held _ (held_nonneg _ H4)).
  pose proof (sum_nonneg in_flight _ (in_flight_nonneg _ _ _ H5)). lia.
Qed.

Lemma Inv_alloc_step s t p ok s' :
  Inv max biggest s -> threads s !! t = Some p ->
  TqAllocateRelayBuffer_step ok s t p = Some s' -> Inv max biggest s'.
Proof.
  intros HI Ht Hs. pose proof (Inv_bounds s HI) as Hb. pose proof HI as (H1 & H2 & H3 & H4 & H5).
  assert (Hp : pc_ok max biggest p) by (by eapply Forall_lookup_1 in H5).
  destruct p; cbn [TqAllocateRelayBuffer_step] in Hs; cbn in Hp; try discriminate Hs;
    try injection Hs as <-.
  - eapply Inv_set_pc; [done|done| |done]. cbn. lia.
  - rewrite u64_small by widths. eapply Inv_set_pc; [done|done| |by case_match].
    destruct (Z.ltb_spec (MaxPendingBufferBytes s) (current + bytes)); [done|]. cbn. lia.
  - destruct (_ && _) eqn:Hc; injection Hs as <-.
    + to_prop. subst current. rewrite u64_small by widths. split_and!; cbn; [done| |lia|done|].
      * rewrite (sum_insert _ _ _ _ _ Ht). cbn. lia.
      * apply Forall_insert; [done|]. cbn. lia.
    + eapply Inv_set_pc; [done|done| |done]. cbn. lia.
  - destruct ok; eapply Inv_set_pc; done.
  - destruct ok; eapply Inv_set_pc; done.
  - pose proof (sum_elem in_flight _ _ _ (in_flight_nonneg _ _ _ H5) Ht) as Hle. cbn in Hle.
    pose proof (sum_nonneg held _ (held_nonneg _ H4)).
    rewrite u64_small by widths. split_and!; cbn; [done| |lia|done|by apply Forall_insert].
    rewrite (sum_insert _ _ _ _ _ Ht). cbn. lia.
  - split_and!; cbn; [done| |done| |by apply Forall_insert].
    + rewrite (sum_insert _ _ _ _ _ Ht), sum_app, sum_one. cbn. lia.
    + apply Forall_app. split; [done|]. constructor; [|constructor]. cbn. lia.
Qed.

Lemma Inv_reset s i s' :
  Inv max biggest s -> reset i s = Some s' ->
  Inv max biggest s' /\ handles s' = <[i := empty_handle]> (handles s).
Proof.
  intros HI Hs. pose proof (Inv_bounds s HI) as Hb. pose proof HI as (H1 & H2 & H3 & H4 & H5).
  unfold reset in Hs. destruct (handles s !! i) as [h|] eqn:Hi; [|done]. cbn [mbind option_bind] in Hs.
  assert (Hh : handle_ok h) by (by eapply Forall_lookup_1 in H4).
  pose proof (sum_elem held _ _ _ (held_nonneg _ H4) Hi) as Hle.
  pose proof (sum_nonneg in_flight _ (in_flight_nonneg _ _ _ H5)).
  unfold handle_ok in Hh. destruct (Buffer h) as [b|] eqn:Hbuf.
  - destruct Hh as (Hbud & Hr & Hcap & Hlen). rewrite Hbud in Hs.
    assert (Hheld : held h = ReservedBytes h) by (unfold held; by rewrite Hbuf, Hbud).
    rewrite (proj2 (Z.ltb_lt _ _)) in Hs by lia. cbn [andb] in Hs. injection Hs as <-.
    rewrite u64_small by widths. split; [|done].
    split_and!; cbn; [done| |lia|by apply Forall_insert|done].
    rewrite (sum_insert _ _ _ _ _ Hi). cbn. lia.
  - assert (Hheld : held h = 0) by (unfold held; by rewrite Hbuf).
    injection Hs as <-. split; [|done]. split_and!; cbn; [done| |done|by apply Forall_insert|done].
    rewrite (sum_insert _ _ _ _ _ Hi). cbn. lia.
Qed.

Lemma budget_step s s' : Inv max biggest s -> step biggest s s' -> Inv max biggest s'.
Proof.
  intros HI [t p bytes bd Ht Hi Hb|t p ok s1 Ht Hs|i s1 Hs|i s1 Hs|j i s1 Hs].
  - eapply Inv_set_pc; [done|done| |].
    + unfold TqAllocateRelayBuffer_call. destruct (Z.eqb_spec bytes 0); [done|].
      destruct bd; [|done]. cbn. lia.
    + unfold TqAllocateRelayBuffer_call. repeat case_match; done.
  - by eapply Inv_alloc_step.
  - by apply (Inv_reset s i).
  - destruct HI as (H1 & H2 & H3 & H4 & H5). unfold move_construct in Hs.
    destruct (handles s !! i) as [h|] eqn:Hi; [|done]. cbn [mbind option_bind] in Hs. injection Hs as <-.
    assert (Hh : handle_ok h) by (by eapply Forall_lookup_1 in H4).
    split_and!; cbn; [done| |done| |done].
    + rewrite sum_app, sum_one, (sum_insert _ _ _ _ _ Hi). cbn. lia.
    + apply Forall_app. split; [by apply Forall_insert|]. by constructor.
  - unfold move_assign in Hs. case_bool_decide as Hij; [by injection Hs as <-|].
    destruct (reset j s) as [s2|] eqn:Hr; [|done]. cbn [mbind option_bind] in Hs.
    destruct (Inv_reset s j s2 HI Hr) as [HI2 Hh2].
    destruct (handles s2 !! i) as [h|] eqn:Hi; [|done]. cbn [mbind option_bind] in Hs. injection Hs as <-.
    destruct HI2 as (H1 & H2 & H3 & H4 & H5).
    assert (Hh : handle_ok h) by (by eapply Forall_lookup_1 in H4).
    assert (Hj : handles s2 !! j = Some empty_handle).
    { rewrite Hh2. apply list_lookup_insert_eq. unfold reset in Hr.
      destruct (handles s !! j) eqn:Hj; [|done]. by eapply lookup_lt_Some. }
    split_and!; cbn; [done| |done| |done].
    + rewrite (sum_insert _ _ _ h), (sum_insert _ _ _ _ _ Hj). { cbn. lia. }
      by rewrite list_lookup_insert_ne by done.
    + by repeat apply Forall_insert.
Qed.

Lemma budget_reachable n s : reachable max biggest n s -> Inv max biggest s.
Proof.
  intros Hr. induction Hr as [|s s' Hr IH Hs]; [|by eapply budget_step].
  split_and!; cbn; [done| |lia|constructor|].
  - clear. induction n; simpl; [done|]. rewrite sum_cons. simpl. lia.
  - by apply Forall_replicate.
Qed.
End Preservation.

(** ** Theorems *)

(** C30.  The budget is kept by every interleaving of allocations, releases and moves: the
    counter is exactly what the live handles and the allocations under way have reserved, it
    never passes the maximum, and each byte reserved is given back once, so that with no
    handle alive and no call under way it is zero. *)
Theorem budget_is_exact_and_never_exceeded max biggest n s :
  0 <= max -> 0 <= biggest -> max + biggest < 2 ^ 64 -> reachable max biggest n s ->
  PendingBufferBytes s = sum held (handles s) + sum in_flight (threads s) /\
  0 <= PendingBufferBytes s <= max /\
  Forall (fun h => match Buffer h with
                   | Some b => StorageCapacity b = held h /\ 0 < held h
                   | None => h = empty_handle
                   end) (handles s) /\
  (Forall (fun h => h = empty_handle) (handles s) ->
   Forall (fun p => in_flight p = 0) (threads s) -> PendingBufferBytes s = 0).
Proof.
  intros H1 H2 H3 Hr. apply budget_reachable in Hr; [|done..].
  pose proof (Inv_bounds max biggest s Hr) as Hb. destruct Hr as (_ & Hsum & _ & Hh & _).
  split; [done|]. split; [done|]. split.
  - revert Hh. apply List.Forall_impl. intros h Ho. unfold handle_ok, held in *.
    destruct (Buffer h); [|done]. destruct Ho as (-> & ? & ? & _). split; lia.
  - intros He Hi. rewrite Hsum.
    assert (Hz : forall A (f : A -> Z) l, Forall (fun x => f x = 0) l -> sum f l = 0).
    { intros A f l Hl. induction Hl; [done|]. rewrite sum_cons. lia. }
    rewrite !Hz; [done|done|]. revert He. apply List.Forall_impl. by intros h ->.
Qed.

(** Thread [t] runs alone for [k] steps, with memory available. *)
Fixpoint run_alone (k : nat) (t : nat) (s : state) : option state :=
  match k with
  | O => Some s
  | S k' => p ← threads s !! t; s' ← TqAllocateRelayBuffer_step true s t p; run_alone k' t s'
  end.

Lemma run_alone_reachable max biggest n k t s s' :
  reachable max biggest n s -> run_alone k t s = Some s' -> reachable max biggest n s'.
Proof.
  revert s. induction k as [|k IH]; intros s Hr Hx; simpl in Hx; [by simplify_eq|].
  destruct (threads s !! t) as [p|] eqn:Ht; simpl in Hx; [|done].
  destruct (TqAllocateRelayBuffer_step true s t p) as [s1|] eqn:Hs; simpl in Hx; [|done].
  apply (IH s1); [|done]. eapply reach_step; [done|]. by eapply step_alloc.
Qed.

Module Demo.
Definition called : state :=
  set_pc 0 (TqAllocateRelayBuffer_call true 1024)
    {| PendingBufferBytes := 0; MaxPendingBufferBytes := 4096; AllocateCount := 0;
       handles := []; threads := replicate 1 Idle |}.
Definition got : state := match run_alone 6 0 called with Some s => s | None => called end.
End Demo.

Lemma budget_is_exact_and_never_exceeded_witness :
  PendingBufferBytes Demo.got = 1024 /\
  PendingBufferBytes Demo.got = sum held (handles Demo.got) + sum in_flight (threads Demo.got).
Proof.
  split; [vm_compute; reflexivity|].
  apply (budget_is_exact_and_never_exceeded 4096 1024 1); [lia|lia|lia|].
  apply (run_alone_reachable 4096 1024 1 6 0 Demo.called); [|vm_compute; reflexivity].
  eapply reach_step; [apply reach_init|].
  apply (step_call 1024 _ 0%nat Idle 1024 true); [reflexivity|exact I|lia].
Defined.

(** The sum is taken at 64 bits: a size near 2^64 passes the comparison and lowers the counter
    until the allocator refuses it. *)
Example huge_request_lowers_the_counter :
  TqAllocateRelayBuffer_step true
    {| PendingBufferBytes := 8; MaxPendingBufferBytes := 10; AllocateCount := 0; handles := [];
       threads := [Cas (2 ^ 64 - 4) 8] |} 0 (Cas (2 ^ 64 - 4) 8) =
  Some {| PendingBufferBytes := 4; MaxPendingBufferBytes := 10; AllocateCount := 0; handles := [];
          threads := [Alloc (2 ^ 64 - 4)] |}.
Proof. reflexivity. Qed.
