(* ===== verification/TunnelRegistry.v ===== *)
(** The tunnel registry (src/src/tunnel/tunnel_registry.cpp): which tunnels run on which QUIC
    connection, and who may abort or drain them.

    The registry is shared by the relay, QUIC and admin threads under one mutex, so each
    critical section is one step; what a function does between two critical sections (the abort
    and drain callbacks, the wait on the condition variable, [notify_all]) are steps of their
    own, and threads interleave between steps.  Pointers are integers with 0 for null; the
    callbacks themselves are parameters of the environment: calling one appends to a log. *)

From stdpp Require Import base list strings numbers gmap.
From Stdlib Require Import ZArith Lia.
From S2P Require Import Prelude.

Record TqTunnelRegistryMetadata := {
  PeerId : bytes; ConnectionId : bytes; Target : bytes; Role : bytes; Ingress : bytes;
  Compress : bytes; RelayBackend : bytes; WorkerIndex : Z }.

Definition no_metadata : TqTunnelRegistryMetadata :=
  {| PeerId := []; ConnectionId := []; Target := []; Role := []; Ingress := []; Compress := [];
     RelayBackend := []; WorkerIndex := 0 |}.

Record TqRegisteredTunnel := {
  Id : Z; Context : Z; Abort : Z; Drain : Z; Metadata : TqTunnelRegistryMetadata;
  Aborting : bool; Draining : bool; AbortInProgress : bool; AbortThread : option nat }.

(** [g_tunnelRegistry] by connection pointer. *)
Abbreviation registry := (gmap Z (list TqRegisteredTunnel)).

(** ** Identifiers *)

Definition prefix : bytes := str "tun-".

Definition TunnelIdText (id : Z) : bytes := prefix ++ to_string id.

Definition uint64_max : Z := 18446744073709551615.

Fixpoint parse_id_loop (text : bytes) (parsed : Z) : option Z :=
  match text with
  | [] => Some parsed
  | ch :: rest =>
      if (ch <? 48) || (57 <? ch) then None
      else
        let digit := ch - 48 in
        if (uint64_max - digit) / 10 <? parsed then None
        else parse_id_loop rest (u64 (u64 (parsed * 10) + digit))
  end.

Definition ParseTunnelId (text : bytes) : option Z :=
  if negb (bool_decide (take 4 text = prefix)) || (length text =? 4)%nat then None
  else parse_id_loop (drop 4 text) 0.

(** ** Critical sections *)

(** The first element that satisfies [p], changed in place. *)
Fixpoint update_first {A} (p : A -> bool) (f : A -> A) (l : list A) : list A :=
  match l with
  | [] => []
  | x :: l' => if p x then f x :: l' else x :: update_first p f l'
  end.

(** The loop over [tunnels] in [TqRegisterConnectionTunnel]. *)
Inductive scan_result := Replace | Scanned (hasAbortingMatch hasSameThreadAbortingMatch : bool).

Fixpoint register_scan (thread : nat) (ctx : Z) (tunnels : list TqRegisteredTunnel)
    (same : bool) : scan_result :=
  match tunnels with
  | [] => Scanned false same
  | tunnel :: rest =>
      if negb (Context tunnel =? ctx) then register_scan thread ctx rest same
      else if Aborting tunnel then
        if bool_decide (AbortThread tunnel = Some thread) then register_scan thread ctx rest true
        else Scanned true same
      else Replace
  end.

Definition set_callbacks (a d : Z) (t : TqRegisteredTunnel) : TqRegisteredTunnel :=
  {| Id := Id t; Context := Context t; Abort := a; Drain := d; Metadata := Metadata t;
     Aborting := Aborting t; Draining := Draining t; AbortInProgress := AbortInProgress t;
     AbortThread := AbortThread t |}.

Definition new_tunnel (id ctx a d : Z) : TqRegisteredTunnel :=
  {| Id := id; Context := ctx; Abort := a; Drain := d; Metadata := no_metadata;
     Aborting := false; Draining := false; AbortInProgress := false; AbortThread := None |}.

(** One pass of the loop of [TqRegisterConnectionTunnel]; [None] when it waits. *)
Definition register_attempt (thread : nat) (conn ctx a d : Z) (reg : registry) (next : Z)
    : option (registry * Z) :=
  let tunnels := default [] (reg !! conn) in
  match register_scan thread ctx tunnels false with
  | Replace =>
      Some (<[conn := update_first (fun t => (Context t =? ctx) && negb (Aborting t))
                        (set_callbacks a d) tunnels]> reg, next)
  | Scanned hasAbortingMatch same =>
      if negb hasAbortingMatch || same
      then Some (<[conn := tunnels ++ [new_tunnel next ctx a d]]> reg, u64 (next + 1))
      else None
  end.

Definition set_metadata (m : TqTunnelRegistryMetadata) (t : TqRegisteredTunnel) : TqRegisteredTunnel :=
  {| Id := Id t; Context := Context t; Abort := Abort t; Drain := Drain t; Metadata := m;
     Aborting := Aborting t; Draining := Draining t; AbortInProgress := AbortInProgress t;
     AbortThread := AbortThread t |}.

Definition TqUpdateConnectionTunnelMetadata (conn ctx : Z) (m : TqTunnelRegistryMetadata)
    (reg : registry) : registry :=
  if (conn =? 0) || (ctx =? 0) then reg
  else match reg !! conn with
       | None => reg
       | Some tunnels =>
           <[conn := update_first (fun t => Context t =? ctx) (set_metadata m) tunnels]> reg
       end.

(** [erase(remove_if ...)], then the entry of the connection if nothing is left. *)
Definition set_or_erase (conn : Z) (tunnels : list TqRegisteredTunnel) (reg : registry) : registry :=
  match tunnels with [] => delete conn reg | _ => <[conn := tunnels]> reg end.

(** Whether an unregistration by [thread] has to wait for this entry. *)
Definition must_wait (thread : nat) (ctx : Z) (t : TqRegisteredTunnel) : bool :=
  (Context t =? ctx) && Aborting t && AbortInProgress t &&
  negb (bool_decide (AbortThread t = Some thread)).

(** One pass of the loop of [TqUnregisterConnectionTunnel]: the registry and whether it
    waits. *)
Definition unregister_attempt (thread : nat) (conn ctx : Z) (reg : registry) : registry * bool :=
  match reg !! conn with
  | None => (reg, false)
  | Some tunnels =>
      (set_or_erase conn
         (List.filter (fun t => negb (Context t =? ctx) || must_wait thread ctx t) tunnels) reg,
       existsb (must_wait thread ctx) tunnels)
  end.

Definition TqCountConnectionTunnels (conn : Z) (reg : registry) : Z :=
  if conn =? 0 then 0
  else match reg !! conn with
       | None => 0
       | Some tunnels => u32 (Z.of_nat (length (List.filter (fun t => negb (Aborting t)) tunnels)))
       end.

Definition mark_aborting (thread : nat) (t : TqRegisteredTunnel) : TqRegisteredTunnel :=
  {| Id := Id t; Context := Context t; Abort := Abort t; Drain := Drain t; Metadata := Metadata t;
     Aborting := true; Draining := Draining t; AbortInProgress := true; AbortThread := Some thread |}.

(** The first critical section of [TqAbortConnectionTunnels]: the copies taken, which are of
    the marked tunnels. *)
Definition abort_select (thread : nat) (conn : Z) (reg : registry)
    : option (registry * list TqRegisteredTunnel) :=
  match reg !! conn with
  | None => None
  | Some tunnels =>
      Some (<[conn := map (fun t => if Aborting t then t else mark_aborting thread t) tunnels]> reg,
            map (mark_aborting thread) (List.filter (fun t => negb (Aborting t)) tunnels))
  end.

(** Its last one. *)
Definition abort_erase (conn : Z) (tunnels : list TqRegisteredTunnel) (reg : registry) : registry :=
  match reg !! conn with
  | None => reg
  | Some registered =>
      set_or_erase conn
        (List.filter (fun t => negb (Aborting t && existsb (fun aborted => Id aborted =? Id t) tunnels))
                     registered) reg
  end.

(** [FindTunnelByIdLocked]: the connection it is under and the entry. *)
Fixpoint find_in (id : Z) (l : list (Z * list TqRegisteredTunnel)) : option (Z * TqRegisteredTunnel) :=
  match l with
  | [] => None
  | (conn, tunnels) :: l' =>
      match List.find (fun t => Id t =? id) tunnels with
      | Some t => Some (conn, t)
      | None => find_in id l'
      end
  end.
Definition FindTunnelByIdLocked (id : Z) (reg : registry) : option (Z * TqRegisteredTunnel) :=
  find_in id (map_to_list reg).

(** The entry found, changed through the pointer. *)
Definition update_by_id (conn id : Z) (f : TqRegisteredTunnel -> TqRegisteredTunnel)
    (reg : registry) : registry :=
  <[conn := update_first (fun t => Id t =? id) f (default [] (reg !! conn))]> reg.

Definition clear_in_progress (t : TqRegisteredTunnel) : TqRegisteredTunnel :=
  {| Id := Id t; Context := Context t; Abort := Abort t; Drain := Drain t; Metadata := Metadata t;
     Aborting := Aborting t; Draining := Draining t; AbortInProgress := false;
     AbortThread := AbortThread t |}.

Definition mark_draining (t : TqRegisteredTunnel) : TqRegisteredTunnel :=
  {| Id := Id t; Context := Context t; Abort := Abort t; Drain := Drain t; Metadata := Metadata t;
     Aborting := Aborting t; Draining := true; AbortInProgress := AbortInProgress t;
     AbortThread := AbortThread t |}.

(** [MakeSnapshotLocked] without the two clock readings. *)
Record TqTunnelSnapshot := {
  snap_TunnelId : bytes; snap_PeerId : bytes; snap_ConnectionId : bytes; snap_State : bytes;
  snap_Target : bytes; snap_Role : bytes; snap_Ingress : bytes; snap_Compress : bytes;
  snap_RelayBackend : bytes; snap_WorkerIndex : Z }.

Definition MakeSnapshotLocked (t : TqRegisteredTunnel) : TqTunnelSnapshot :=
  {| snap_TunnelId := TunnelIdText (Id t); snap_PeerId := PeerId (Metadata t);
     snap_ConnectionId := ConnectionId (Metadata t);
     snap_State := if Aborting t then str "aborting"
                   else if Draining t then str "draining" else str "active";
     snap_Target := Target (Metadata t); snap_Role := Role (Metadata t);
     snap_Ingress := Ingress (Metadata t); snap_Compress := Compress (Metadata t);
     snap_RelayBackend := RelayBackend (Metadata t); snap_WorkerIndex := WorkerIndex (Metadata t) |}.

Definition TqGetTunnelSnapshot (tunnelId : bytes) (reg : registry) : option TqTunnelSnapshot :=
  id ← ParseTunnelId tunnelId;
  '(_, t) ← FindTunnelByIdLocked id reg;
  Some (MakeSnapshotLocked t).

(** ** Threads *)

(** Where a thread is. *)
Inductive pc :=
| Idle
| RegTry (conn ctx a d : Z) | RegWait (conn ctx a d : Z)
| UnregTry (conn ctx : Z) | UnregWait (conn ctx : Z)
| AbortCall (conn : Z) (todo all : list TqRegisteredTunnel)
| AbortErase (conn : Z) (all : list TqRegisteredTunnel)
| AbortNotify (n : nat)
| ByIdCall (conn : Z) (t : TqRegisteredTunnel) | ByIdClear (id : Z) | ByIdNotify
| DrainCall (conn : Z) (t : TqRegisteredTunnel)
| Done.

Record state := {
  reg : registry; next_id : Z; threads : list pc;
  (** Log: the tunnels whose abort, and whose drain, was called; and the tunnels that were
      unregistered from inside an abort callback of the same context. *)
  aborted : list TqRegisteredTunnel; drained : list (Z * TqRegisteredTunnel);
  self_unregistered : list Z }.

Definition upd (s : state) (t : nat) (p : pc) (r : registry) (n : Z) : state :=
  {| reg := r; next_id := n; threads := <[t := p]> (threads s); aborted := aborted s;
     drained := drained s; self_unregistered := self_unregistered s |}.

(** [notify_all]: every waiting thread tries again. *)
Definition wake (p : pc) : pc :=
  match p with
  | RegWait c x a d => RegTry c x a d
  | UnregWait c x => UnregTry c x
  | _ => p
  end.

(** One step of the function thread [t] is in. *)
Definition run_step (s : state) (t : nat) (p : pc) : option state :=
  match p with
  | RegTry conn ctx a d =>
      match register_attempt t conn ctx a d (reg s) (next_id s) with
      | Some (r, n) => Some (upd s t Done r n)
      | None => Some (upd s t (RegWait conn ctx a d) (reg s) (next_id s))
      end
  | UnregTry conn ctx =>
      let '(r, wait) := unregister_attempt t conn ctx (reg s) in
      Some (upd s t (if wait then UnregWait conn ctx else Done) r (next_id s))
  | AbortCall conn (x :: todo) all =>
      Some {| reg := reg s; next_id := next_id s; threads := <[t := AbortCall conn todo all]> (threads s);
              aborted := aborted s ++ [x]; drained := drained s;
              self_unregistered := self_unregistered s |}
  | AbortCall conn [] all => Some (upd s t (AbortErase conn all) (reg s) (next_id s))
  | AbortErase conn all =>
      Some (upd s t (AbortNotify (length all)) (abort_erase conn all (reg s)) (next_id s))
  | AbortNotify _ =>
      Some {| reg := reg s; next_id := next_id s; threads := <[t := Done]> (map wake (threads s));
              aborted := aborted s; drained := drained s; self_unregistered := self_unregistered s |}
  | ByIdCall conn x =>
      Some {| reg := reg s; next_id := next_id s; threads := <[t := ByIdClear (Id x)]> (threads s);
              aborted := aborted s ++ [x]; drained := drained s;
              self_unregistered := self_unregistered s |}
  | ByIdClear id =>
      Some (upd s t ByIdNotify
              match FindTunnelByIdLocked id (reg s) with
              | Some (conn, _) => update_by_id conn id clear_in_progress (reg s)
              | None => reg s
              end (next_id s))
  | ByIdNotify =>
      Some {| reg := reg s; next_id := next_id s; threads := <[t := Done]> (map wake (threads s));
              aborted := aborted s; drained := drained s; self_unregistered := self_unregistered s |}
  | DrainCall conn x =>
      Some {| reg := reg s; next_id := next_id s; threads := <[t := Done]> (threads s);
              aborted := aborted s;
              drained := if Drain x =? 0 then drained s else drained s ++ [(conn, x)];
              self_unregistered := self_unregistered s |}
  | Idle | Done | RegWait _ _ _ _ | UnregWait _ _ => None
  end.

(** What a thread that is in no function may call. *)
Inductive call :=
| CallRegister (conn ctx a d : Z)
| CallUpdate (conn ctx : Z) (m : TqTunnelRegistryMetadata)
| CallUnregister (conn ctx : Z)
| CallAbort (conn : Z)
| CallAbortById (tunnelId : bytes)
| CallDrainById (tunnelId : bytes).

(** The guards in front of the first critical section, and that section where it is not
    retried. *)
Definition call_step (s : state) (t : nat) (c : call) : state :=
  match c with
  | CallRegister conn ctx a d =>
      upd s t (if (conn =? 0) || (ctx =? 0) || (a =? 0) then Done else RegTry conn ctx a d)
          (reg s) (next_id s)
  | CallUpdate conn ctx m =>
      upd s t Done (TqUpdateConnectionTunnelMetadata conn ctx m (reg s)) (next_id s)
  | CallUnregister conn ctx =>
      upd s t (if (conn =? 0) || (ctx =? 0) then Done else UnregTry conn ctx) (reg s) (next_id s)
  | CallAbort conn =>
      if conn =? 0 then upd s t Done (reg s) (next_id s)
      else match abort_select t conn (reg s) with
           | None => upd s t Done (reg s) (next_id s)
           | Some (r, selected) => upd s t (AbortCall conn selected selected) r (next_id s)
           end
  | CallAbortById tunnelId =>
      match ParseTunnelId tunnelId with
      | None => upd s t Done (reg s) (next_id s)
      | Some id =>
          match FindTunnelByIdLocked id (reg s) with
          | Some (conn, x) =>
              if Aborting x then upd s t Done (reg s) (next_id s)
              else upd s t (ByIdCall conn (mark_aborting t x))
                       (update_by_id conn id (mark_aborting t) (reg s)) (next_id s)
          | None => upd s t Done (reg s) (next_id s)
          end
      end
  | CallDrainById tunnelId =>
      match ParseTunnelId tunnelId with
      | None => upd s t Done (reg s) (next_id s)
      | Some id =>
          match FindTunnelByIdLocked id (reg s) with
          | Some (conn, x) =>
              upd s t (DrainCall conn (mark_draining x))
                  (update_by_id conn id mark_draining (reg s)) (next_id s)
          | None => upd s t Done (reg s) (next_id s)
          end
      end
  end.

(** The tunnel whose abort callback a thread will call next, under which connection. *)
Definition callback_of (p : pc) : option (Z * TqRegisteredTunnel) :=
  match p with
  | AbortCall conn (x :: _) _ | ByIdCall conn x => Some (conn, x)
  | _ => None
  end.

Inductive step (s : state) : state -> Prop :=
| step_run t p s' : threads s !! t = Some p -> run_step s t p = Some s' -> step s s'
| step_call t p c :
    threads s !! t = Some p -> match p with Idle | Done => True | _ => False end ->
    step s (call_step s t c)
(** A wait may end without a notification. *)
| step_spurious t p : threads s !! t = Some p -> step s (upd s t (wake p) (reg s) (next_id s))
(** Inside its abort callback a tunnel unregisters itself. *)
| step_self_unregister t p conn x :
    threads s !! t = Some p -> callback_of p = Some (conn, x) ->
    step s {| reg := fst (unregister_attempt t conn (Context x) (reg s)); next_id := next_id s;
              threads := threads s; aborted := aborted s; drained := drained s;
              self_unregistered :=
                map Id (List.filter (fun e => Context e =? Context x) (default [] (reg s !! conn))) ++
                self_unregistered s |}.

(** Tunnels are numbered from 1; executions are followed while the counter has not wrapped. *)
Inductive reachable (n : nat) : state -> Prop :=
| reach_init :
    reachable n {| reg := ∅; next_id := 1; threads := replicate n Idle; aborted := [];
                   drained := []; self_unregistered := [] |}
| reach_step s s' : reachable n s -> next_id s < uint64_max -> step s s' -> reachable n s'.

(** ** Lists *)

Lemma update_first_In {A} (p : A -> bool) f l y :
  In y (update_first p f l) -> In y l \/ exists x, In x l /\ p x = true /\ y = f x.
Proof.
  induction l as [|x l IH]; simpl; [done|]. destruct (p x) eqn:Hp; simpl.
  - intros [<-|H]; [right; eauto|left; eauto].
  - intros [<-|H]; [eauto|]. apply IH in H as [?|(z & ? & ? & ?)]; eauto 6.
Qed.

Lemma update_first_keeps {A} (p : A -> bool) f l x :
  In x l -> In x (update_first p f l) \/ In (f x) (update_first p f l).
Proof.
  induction l as [|y l IH]; simpl; [done|]. intros [->|H].
  - destruct (p x); simpl; auto.
  - destruct (p y); simpl; [auto|]. destruct (IH H); auto.
Qed.

Lemma update_first_other {A} (p : A -> bool) f l x :
  In x l -> p x = false -> In x (update_first p f l).
Proof.
  induction l as [|y l IH]; simpl; [done|]. intros [->|H] Hp.
  - rewrite Hp. by left.
  - destruct (p y); simpl; auto.
Qed.

Lemma update_first_map {A B} (g : A -> B) (p : A -> bool) f l :
  (forall x, g (f x) = g x) -> map g (update_first p f l) = map g l.
Proof. intros Hg. induction l as [|x l IH]; [done|]. simpl. destruct (p x); simpl; congruence. Qed.

(** [update_first] at the element [find] returns. *)
Lemma update_first_find {A} (p : A -> bool) f l x :
  List.find p l = Some x ->
  exists l1 l2, l = l1 ++ x :: l2 /\ update_first p f l = l1 ++ f x :: l2.
Proof.
  induction l as [|y l IH]; simpl; [done|]. destruct (p y).
  - intros [= ->]. by exists [], l.
  - intros (l1 & l2 & -> & ->)%IH. by exists (y :: l1), l2.
Qed.

Lemma NoDup_filter_map {A} (g : A -> Z) (p : A -> bool) l :
  NoDup (map g l) -> NoDup (map g (List.filter p l)).
Proof.
  induction l as [|x l IH]; simpl; [done|]. rewrite NoDup_cons. intros [Hn Hd].
  destruct (p x); simpl; [|auto]. rewrite NoDup_cons. split; [|auto].
  rewrite list_elem_of_In, in_map_iff in *. intros (y & Hy & Hin%filter_In). apply Hn.
  exists y. tauto.
Qed.

(** ** The entries of a registry *)

Definition entries (r : registry) (conn : Z) : list TqRegisteredTunnel := default [] (r !! conn).

Lemma entries_insert r c l c' :
  entries (<[c := l]> r) c' = if bool_decide (c = c') then l else entries r c'.
Proof.
  unfold entries. case_bool_decide; subst; [by rewrite lookup_insert_eq|by rewrite lookup_insert_ne].
Qed.

Lemma entries_set_or_erase r c l c' :
  entries (set_or_erase c l r) c' = if bool_decide (c = c') then l else entries r c'.
Proof.
  unfold set_or_erase. destruct l as [|x l]; [|apply entries_insert].
  unfold entries. case_bool_decide; subst; [by rewrite lookup_delete_eq|by rewrite lookup_delete_ne].
Qed.

Lemma FindTunnelByIdLocked_Some id r c x :
  FindTunnelByIdLocked id r = Some (c, x) -> List.find (fun t => Id t =? id) (entries r c) = Some x.
Proof.
  unfold FindTunnelByIdLocked, entries. intros H.
  assert (Hl : forall l, find_in id l = Some (c, x) ->
            exists ts, (c, ts) ∈ l /\ List.find (fun t => Id t =? id) ts = Some x).
  { induction l as [|[c' ts] l IH]; simpl; [done|].
    destruct (List.find _ ts) eqn:Hf; [intros [= -> ->]; exists ts; split; [left|done]|].
    intros (ts' & Hin & Hf')%IH. exists ts'. split; [by right|done]. }
  apply Hl in H as (ts & Hin & Hf). apply elem_of_map_to_list in Hin. by rewrite Hin.
Qed.

Lemma FindTunnelByIdLocked_None id r c e :
  FindTunnelByIdLocked id r = None -> In e (entries r c) -> Id e <> id.
Proof.
  unfold FindTunnelByIdLocked, entries. intros H Hin.
  destruct (r !! c) as [ts|] eqn:Hc; [|done]. apply elem_of_map_to_list in Hc.
  revert H Hc. generalize (map_to_list r). intros l. induction l as [|[c' ts'] l IH]; simpl.
  { intros _ Hc. by apply elem_of_nil in Hc. }
  destruct (List.find _ ts') eqn:Hf; [done|]. intros Hl [Heq|Hc]%elem_of_cons; [|auto].
  simplify_eq. intros <-. apply (List.find_none _ _ Hf) in Hin. by rewrite Z.eqb_refl in Hin.
Qed.

(** [r'] has no entries but those of [r], numbered the same, and none stops aborting. *)
Definition benign (r r' : registry) : Prop :=
  forall c, (NoDup (map Id (entries r c)) -> NoDup (map Id (entries r' c))) /\
    forall e', In e' (entries r' c) -> exists e, In e (entries r c) /\ Id e = Id e' /\
      (Aborting e = true -> Aborting e' = true).

Lemma benign_refl r : benign r r.
Proof. intros c. split; [done|]. eauto. Qed.

Lemma benign_filter r c p : benign r (set_or_erase c (List.filter p (entries r c)) r).
Proof.
  intros c'. rewrite entries_set_or_erase. case_bool_decide; [subst c'|split; eauto].
  split; [apply NoDup_filter_map|]. intros e' [Hin _]%filter_In. eauto.
Qed.

Lemma benign_update r c p f :
  (forall t, Id (f t) = Id t) -> (forall t, Aborting t = true -> Aborting (f t) = true) ->
  benign r (<[c := update_first p f (entries r c)]> r).
Proof.
  intros Hid Hab c'. rewrite entries_insert. case_bool_decide; [subst c'|split; eauto].
  split; [by rewrite update_first_map|].
  intros e' [Hin|(x & Hin & _ & ->)]%update_first_In; [eauto|]. exists x. auto.
Qed.

Lemma benign_map r c f :
  (forall t, Id (f t) = Id t) -> (forall t, Aborting t = true -> Aborting (f t) = true) ->
  benign r (<[c := map f (entries r c)]> r).
Proof.
  intros Hid Hab c'. rewrite entries_insert. case_bool_decide; [subst c'|split; eauto]. split.
  - intros Hnd. rewrite map_map. by rewrite (map_ext _ Id).
  - intros e' (e & <- & Hin)%in_map_iff. exists e. auto.
Qed.

(** ** The invariant *)

(** The tunnels a thread has still to call, and the identifiers it has marked. *)
Definition todo (p : pc) : list TqRegisteredTunnel :=
  match p with AbortCall _ l _ => l | ByIdCall _ x => [x] | _ => [] end.
Definition owned (p : pc) : list Z :=
  match p with
  | AbortCall _ _ all | AbortErase _ all => map Id all
  | ByIdCall _ x => [Id x]
  | ByIdClear id => [id]
  | _ => []
  end.
Definition todo_conn (p : pc) : Z :=
  match p with AbortCall c _ _ | ByIdCall c _ => c | _ => 0 end.

(** The registry still has the entry, marked by thread [t]. *)
Definition present (r : registry) (c : Z) (t : nat) (x : TqRegisteredTunnel) : Prop :=
  exists e, In e (entries r c) /\ Id e = Id x /\ Context e = Context x /\
    Aborting e = true /\ AbortInProgress e = true /\ AbortThread e = Some t.

Definition taken (s : state) (id : Z) : Prop :=
  In id (map Id (aborted s)) \/ exists t p, threads s !! t = Some p /\ In id (owned p).

Record Inv (s : state) : Prop := {
  i_next : 1 <= next_id s <= uint64_max;
  i_ids : forall c e, In e (entries (reg s) c) -> Id e < next_id s;
  i_nodup : forall c, NoDup (map Id (entries (reg s) c));
  i_disj : forall c c' e e', In e (entries (reg s) c) -> In e' (entries (reg s) c') ->
    Id e = Id e' -> c = c';
  i_taken : forall id, taken s id -> id < next_id s /\
    forall c e, In e (entries (reg s) c) -> Id e = id -> Aborting e = true;
  i_once : NoDup (map Id (aborted s));
  i_todo : forall t p, threads s !! t = Some p ->
    NoDup (map Id (todo p)) /\
    forall id, In id (map Id (todo p)) -> In id (owned p) /\ ~ In id (map Id (aborted s));
  i_owned : forall t t' p p' id, threads s !! t = Some p -> threads s !! t' = Some p' ->
    In id (owned p) -> In id (owned p') -> t = t';
  i_present : forall t p x, threads s !! t = Some p -> In x (todo p) ->
    present (reg s) (todo_conn p) t x \/ In (Id x) (self_unregistered s) }.

(** [p'] has nothing to call and owns nothing that [p] did not, or is like [p]. *)
Definition retires (p p' : pc) : Prop :=
  (todo p' = [] /\ forall id, In id (owned p') -> In id (owned p)) \/
  (todo p' = todo p /\ todo_conn p' = todo_conn p /\ owned p' = owned p).

Lemma retires_owned p p' id : retires p p' -> In id (owned p') -> In id (owned p).
Proof. intros [[_ H]|(_ & _ & ->)]; auto. Qed.

(** Steps that call nothing and mark nothing new. *)
Lemma Inv_frame s s' :
  Inv s -> next_id s' = next_id s -> aborted s' = aborted s -> benign (reg s) (reg s') ->
  (forall t p', threads s' !! t = Some p' -> exists p, threads s !! t = Some p /\ retires p p') ->
  (forall t p' x, threads s' !! t = Some p' -> In x (todo p') ->
     present (reg s) (todo_conn p') t x \/ In (Id x) (self_unregistered s) ->
     present (reg s') (todo_conn p') t x \/ In (Id x) (self_unregistered s')) ->
  Inv s'.
Proof.
  intros HI Hn Ha Hb Ht Hpres. split.
  - rewrite Hn. apply HI.
  - intros c e' Hin. destruct (proj2 (Hb c) e' Hin) as (e & He & <- & _). rewrite Hn. by eapply i_ids.
  - intros c. apply (proj1 (Hb c)), HI.
  - intros c c' e e' H1 H2 Heq. destruct (proj2 (Hb c) e H1) as (f & Hf & Hf1 & _).
    destruct (proj2 (Hb c') e' H2) as (f' & Hf' & Hf1' & _). apply (i_disj s HI c c' f f'); congruence.
  - intros id Htk. rewrite Hn. assert (taken s id) as Htk'.
    { destruct Htk as [H|(t & p' & Htp & Hin)]; [left; by rewrite <- Ha|right].
      destruct (Ht t p' Htp) as (p & Hp & Hr). exists t, p. split; [done|]. by eapply retires_owned. }
    destruct (i_taken s HI id Htk') as [Hlt Hab]. split; [done|]. intros c e' Hin <-.
    destruct (proj2 (Hb c) e' Hin) as (e & He & Hid & Hab'). eauto.
  - rewrite Ha. apply HI.
  - intros t p' Htp. destruct (Ht t p' Htp) as (p & Hp & [[Hz _]|(Hz & _ & Ho)]).
    + rewrite Hz. split; [constructor|done].
    + rewrite Hz, Ha, Ho. by apply (i_todo s HI t p).
  - intros t t' p p' id Hp Hp' Hi Hi'. destruct (Ht t p Hp) as (q & Hq & Hr).
    destruct (Ht t' p' Hp') as (q' & Hq' & Hr').
    apply (i_owned s HI t t' q q' id); eauto using retires_owned.
  - intros t p' x Htp Hin. apply Hpres; [done..|].
    destruct (Ht t p' Htp) as (p & Hp & [[Hz _]|(Hz & Hc & _)]); [by rewrite Hz in Hin|].
    rewrite Hc. rewrite Hz in Hin. by apply (i_present s HI t p x).
Qed.

Lemma lookup_upd s t p r n t' p' :
  threads (upd s t p r n) !! t' = Some p' ->
  (t' = t /\ p' = p) \/ (t' <> t /\ threads s !! t' = Some p').
Proof. simpl. rewrite list_lookup_insert_Some. naive_solver. Qed.

(** A thread goes on, having changed the registry without disturbing what others marked. *)
Lemma Inv_upd s t p p' r' :
  Inv s -> threads s !! t = Some p -> todo p' = [] -> (forall id, In id (owned p') -> In id (owned p)) ->
  benign (reg s) r' ->
  (forall t0 p0 x, t0 <> t -> threads s !! t0 = Some p0 -> In x (todo p0) ->
     present (reg s) (todo_conn p0) t0 x -> present r' (todo_conn p0) t0 x) ->
  Inv (upd s t p' r' (next_id s)).
Proof.
  intros HI Ht Hz Ho Hb Hpres. apply (Inv_frame s); try done.
  - intros t0 p0 [[-> ->]|[Hne H0]]%lookup_upd; [by exists p; split; [|left]|].
    exists p0. split; [done|]. by right.
  - intros t0 p0 x [[-> ->]|[Hne H0]]%lookup_upd Hin; [by rewrite Hz in Hin|].
    intros [H|H]; [left|by right]. by apply (Hpres t0 p0 x).
Qed.

(** Without a change of the registry. *)
Lemma Inv_upd_same s t p p' :
  Inv s -> threads s !! t = Some p -> todo p' = [] -> (forall id, In id (owned p') -> In id (owned p)) ->
  Inv (upd s t p' (reg s) (next_id s)).
Proof. intros. eapply Inv_upd; try done. apply benign_refl. Qed.

(** [notify_all]. *)
Lemma retires_wake p : retires p (wake p).
Proof. right. by destruct p. Qed.

Lemma Inv_notify s t p :
  Inv s -> threads s !! t = Some p ->
  Inv {| reg := reg s; next_id := next_id s; threads := <[t := Done]> (map wake (threads s));
         aborted := aborted s; drained := drained s; self_unregistered := self_unregistered s |}.
Proof.
  intros HI Ht. apply (Inv_frame s); try done.
  - apply benign_refl.
  - simpl. intros t0 p0 [(<- & <- & _)|[_ H]]%list_lookup_insert_Some.
    { exists p. split; [done|]. left. split; [done|]. done. }
    rewrite list_lookup_fmap in H. destruct (threads s !! t0) as [p1|]; [|done].
    simplify_eq/=. exists p1. split; [done|]. apply retires_wake.
Qed.

(** *** Marking *)

Lemma NoDup_map_inj {A} (g : A -> Z) l x y :
  NoDup (map g l) -> In x l -> In y l -> g x = g y -> x = y.
Proof.
  induction l as [|z l IH]; simpl; [done|]. rewrite NoDup_cons, list_elem_of_In, in_map_iff.
  intros [Hn Hd] [->|Hx] [->|Hy] Heq; auto; exfalso; apply Hn; eauto.
Qed.

Lemma present_mark r c f t x :
  (forall e, Aborting e = true -> f e = e) -> present r c t x ->
  forall c', present (<[c' := map f (entries r c')]> r) c t x.
Proof.
  intros Hf (e & Hin & H1 & H2 & H3 & H4) c'. exists e. split; [|done].
  rewrite entries_insert. case_bool_decide; [subst c'|done]. apply in_map_iff. exists e.
  split; [by apply Hf|done].
Qed.

(** Thread [t], owning nothing, marks the tunnels [sel] under [conn] and will call them. *)
Lemma Inv_select s t p p' conn sel r' :
  Inv s -> threads s !! t = Some p -> owned p = [] ->
  todo p' = sel -> todo_conn p' = conn -> owned p' = map Id sel ->
  benign (reg s) r' -> NoDup (map Id sel) ->
  (forall x, In x sel -> present r' conn t x) ->
  (forall x, In x sel -> exists e, In e (entries (reg s) conn) /\ Id e = Id x /\ Aborting e = false) ->
  (forall t0 p0 x, t0 <> t -> threads s !! t0 = Some p0 -> In x (todo p0) ->
     present (reg s) (todo_conn p0) t0 x -> present r' (todo_conn p0) t0 x) ->
  Inv (upd s t p' r' (next_id s)).
Proof.
  intros HI Ht Hown Htodo Hconn Howned Hb Hnd Hsel Hfresh Hpres.
  assert (Hnew : forall id, In id (map Id sel) -> ~ taken s id).
  { intros id (x & <- & Hx)%in_map_iff Htk. destruct (Hfresh x Hx) as (e & He & Hid & Hab).
    destruct (i_taken s HI _ Htk) as [_ H]. specialize (H conn e He Hid). congruence. }
  split; cbn [reg next_id aborted upd].
  - apply HI.
  - intros c e' Hin. destruct (proj2 (Hb c) e' Hin) as (e & He & <- & _). by eapply i_ids.
  - intros c. apply (proj1 (Hb c)), HI.
  - intros c c' e e' H1 H2 Heq. destruct (proj2 (Hb c) e H1) as (f & Hf & Hf1 & _).
    destruct (proj2 (Hb c') e' H2) as (f' & Hf' & Hf1' & _). apply (i_disj s HI c c' f f'); congruence.
  - intros id Htk.
    assert (Hcase : taken s id \/ In id (map Id sel)).
    { destruct Htk as [H|(t0 & p0 & [[-> ->]|[Hne H0]]%lookup_upd & Hin)]; [by left; left| |].
      - right. by rewrite Howned in Hin.
      - left. right. eauto. }
    destruct Hcase as [Htk'|Hin].
    + destruct (i_taken s HI id Htk') as [Hlt Hab]. split; [done|]. intros c e' Hin <-.
      destruct (proj2 (Hb c) e' Hin) as (e & He & Hid & Hab'). eauto.
    + apply in_map_iff in Hin as (x & <- & Hx). destruct (Hfresh x Hx) as (e & He & Hid & _).
      split; [rewrite <- Hid; by eapply i_ids|]. intros c e' Hin' Hid'.
      destruct (Hsel x Hx) as (e2 & He2 & Hid2 & _ & Hab2 & _).
      destruct (proj2 (Hb c) e' Hin') as (e1 & He1 & Hid1 & _).
      assert (c = conn) as -> by (apply (i_disj s HI c conn e1 e He1 He); congruence).
      replace e' with e2; [done|]. eapply (NoDup_map_inj Id (entries r' conn)); [|done|done|congruence].
      apply (proj1 (Hb conn)), HI.
  - apply HI.
  - intros t0 p0 [[-> ->]|[Hne H0]]%lookup_upd; [|by apply (i_todo s HI t0)].
    rewrite Htodo, Howned. split; [done|]. intros id Hid. split; [done|]. intros Hab.
    apply (Hnew id Hid). by left.
  - intros t1 t2 p1 p2 id [[-> ->]|[Hn1 H1]]%lookup_upd [[-> ->]|[Hn2 H2]]%lookup_upd O1 O2; [done| | |].
    + rewrite Howned in O1. destruct (Hnew id O1). right. eauto.
    + rewrite Howned in O2. destruct (Hnew id O2). right. eauto.
    + by apply (i_owned s HI t1 t2 p1 p2 id).
  - intros t0 p0 x [[-> ->]|[Hne H0]]%lookup_upd Hin.
    + left. rewrite Htodo in Hin. rewrite Hconn. by apply Hsel.
    + destruct (i_present s HI t0 p0 x H0 Hin); [left|by right]. by apply (Hpres t0 p0 x).
Qed.

(** *** Calling *)

Lemma Inv_call s t p p' x :
  Inv s -> threads s !! t = Some p -> todo p = x :: todo p' ->
  (todo p' = [] \/ todo_conn p' = todo_conn p) -> owned p' = owned p ->
  Inv {| reg := reg s; next_id := next_id s; threads := <[t := p']> (threads s);
         aborted := aborted s ++ [x]; drained := drained s;
         self_unregistered := self_unregistered s |}.
Proof.
  intros HI Ht Htodo Hconn Hown.
  assert (Hlk : forall t0 p0, <[t := p']> (threads s) !! t0 = Some p0 ->
            (t0 = t /\ p0 = p') \/ (t0 <> t /\ threads s !! t0 = Some p0)).
  { intros t0 p0. rewrite list_lookup_insert_Some. naive_solver. }
  destruct (i_todo s HI t p Ht) as [Hnd Hin]. rewrite Htodo in Hnd, Hin. simpl in Hnd, Hin.
  apply NoDup_cons in Hnd as [Hx Hnd]. destruct (Hin (Id x) ltac:(by left)) as [Hxo Hxa].
  split; cbn [reg next_id aborted threads self_unregistered]; try apply HI.
  - intros id Htk. apply (i_taken s HI). destruct Htk as [H|(t0 & p0 & H0 & Hi)].
    + cbn in H. rewrite map_app, in_app_iff in H. destruct H as [H|[<-|[]]]; [by left|]. right. eauto.
    + right. apply Hlk in H0 as [[-> ->]|[_ H0]]; [|eauto]. exists t, p. by rewrite <- Hown.
  - rewrite map_app. apply list.NoDup_app. split_and!; [apply HI| |by apply list.NoDup_singleton].
    intros id Hi ->%list_elem_of_singleton. by apply Hxa, list_elem_of_In.
  - intros t0 p0 [[-> ->]|[Hne H0]]%Hlk.
    + split; [done|]. intros id Hi. rewrite Hown, map_app, in_app_iff.
      destruct (Hin id ltac:(by right)) as [Ho Ha]. split; [done|]. intros [?|[<-|[]]]; [done|].
      by apply Hx, list_elem_of_In.
    + destruct (i_todo s HI t0 p0 H0) as [Hnd0 Hin0]. split; [done|]. intros id Hi.
      destruct (Hin0 id Hi) as [Ho Ha]. split; [done|]. rewrite map_app, in_app_iff.
      intros [?|[<-|[]]]; [done|]. apply Hne. by apply (i_owned s HI t0 t p0 p (Id x)).
  - intros t1 t2 p1 p2 id H1 H2 O1 O2. apply Hlk in H1, H2.
    destruct H1 as [[-> ->]|[_ H1]], H2 as [[-> ->]|[_ H2]]; rewrite ?Hown in *.
    + done.
    + by apply (i_owned s HI t t2 p p2 id).
    + by apply (i_owned s HI t1 t p1 p id).
    + by apply (i_owned s HI t1 t2 p1 p2 id).
  - intros t0 p0 y H0 Hy. apply Hlk in H0 as [[-> ->]|[Hne H0]]; [|by apply (i_present s HI t0 p0)].
    destruct Hconn as [Hz|Hc]; [by rewrite Hz in Hy|]. rewrite Hc. apply (i_present s HI t p y Ht).
    rewrite Htodo. by right.
Qed.

(** *** Registering *)

Lemma Inv_push s t p conn ctx a d :
  Inv s -> threads s !! t = Some p -> next_id s < uint64_max ->
  Inv (upd s t Done (<[conn := entries (reg s) conn ++ [new_tunnel (next_id s) ctx a d]]> (reg s))
           (u64 (next_id s + 1))).
Proof.
  intros HI Ht Hlim. pose proof (i_next s HI) as Hn.
  assert (Hu : u64 (next_id s + 1) = next_id s + 1) by (apply u64_small; unfold uint64_max in *; widths).
  set (r' := <[conn := _]> (reg s)).
  assert (Hent : forall c e, In e (entries r' c) ->
            In e (entries (reg s) c) \/ (c = conn /\ e = new_tunnel (next_id s) ctx a d)).
  { intros c e. unfold r'. rewrite entries_insert. case_bool_decide; [subst c|by left].
    rewrite in_app_iff. intros [?|[<-|[]]]; auto. }
  assert (Hold : forall c e, In e (entries (reg s) c) -> In e (entries r' c)).
  { intros c e Hin. unfold r'. rewrite entries_insert. case_bool_decide; [subst c|done].
    rewrite in_app_iff. by left. }
  split; cbn [reg next_id aborted upd self_unregistered]; rewrite ?Hu.
  - lia.
  - intros c e [Hin|[_ ->]]%Hent; [|simpl; lia]. pose proof (i_ids s HI c e Hin). lia.
  - intros c. unfold r'. rewrite entries_insert. case_bool_decide; [subst c|apply HI].
    rewrite map_app. apply list.NoDup_app. split_and!; [apply HI| |by apply list.NoDup_singleton].
    intros id Hi ->%list_elem_of_singleton. apply list_elem_of_In, in_map_iff in Hi as (e & He & Hin).
    pose proof (i_ids s HI conn e Hin). simpl in He. lia.
  - intros c c' e e' [H1|[-> ->]]%Hent [H2|[-> ->]]%Hent Heq; [by apply (i_disj s HI c c' e e')| | |done].
    + pose proof (i_ids s HI c e H1). simpl in Heq. lia.
    + pose proof (i_ids s HI c' e' H2). simpl in Heq. lia.
  - intros id Htk. assert (Htk' : taken s id).
    { destruct Htk as [H|(t0 & p0 & [[-> ->]|[Hne H0]]%lookup_upd & Hin)]; [by left|done|]. right. eauto. }
    destruct (i_taken s HI id Htk') as [Hlt Hab]. split; [lia|].
    intros c e [Hin|[-> ->]]%Hent Hid; [by apply (Hab c)|]. simpl in Hid. lia.
  - apply HI.
  - intros t0 p0 [[-> ->]|[Hne H0]]%lookup_upd; [|by apply (i_todo s HI t0)]. split; [constructor|done].
  - intros t1 t2 p1 p2 id [[-> ->]|[Hn1 H1]]%lookup_upd [[-> ->]|[Hn2 H2]]%lookup_upd O1 O2; try done.
    by apply (i_owned s HI t1 t2 p1 p2 id).
  - intros t0 p0 x [[-> ->]|[Hne H0]]%lookup_upd Hin; [done|].
    destruct (i_present s HI t0 p0 x H0 Hin) as [(e & He & ?)|?]; [left|by right]. exists e. eauto.
Qed.

(** *** What others marked stays marked *)

Lemma present_update r c c' t x p f :
  (forall e, Id (f e) = Id e /\ Context (f e) = Context e /\ Aborting (f e) = Aborting e /\
             AbortInProgress (f e) = AbortInProgress e /\ AbortThread (f e) = AbortThread e) ->
  present r c t x -> present (<[c' := update_first p f (entries r c')]> r) c t x.
Proof.
  intros Hf (e & Hin & H). destruct (Hf e) as (F1 & F2 & F3 & F4 & F5).
  unfold present. rewrite entries_insert. case_bool_decide; [subst c'|eauto].
  destruct (update_first_keeps p f _ e Hin) as [Hk|Hk]; [eauto|].
  exists (f e). by rewrite F1, F2, F3, F4, F5.
Qed.

Lemma present_update_other r c c' t x p f :
  (forall e, In e (entries r c') -> Id e = Id x -> Aborting e = true -> p e = false) ->
  present r c t x -> present (<[c' := update_first p f (entries r c')]> r) c t x.
Proof.
  intros Hp (e & Hin & Hid & Hc & Hab & Hi & Ht). exists e. split; [|done].
  rewrite entries_insert. case_bool_decide; [subst c'|done]. apply update_first_other; auto.
Qed.

Lemma present_filter r c c' t x p :
  (forall e, In e (entries r c) -> Id e = Id x -> Context e = Context x -> Aborting e = true ->
     AbortInProgress e = true -> AbortThread e = Some t -> p e = true) ->
  present r c t x -> present (set_or_erase c' (List.filter p (entries r c')) r) c t x.
Proof.
  intros Hp (e & Hin & Hid & Hc & Hab & Hi & Ht). exists e. split; [|done].
  rewrite entries_set_or_erase. case_bool_decide; [subst c'|done]. apply filter_In. auto.
Qed.

Lemma unregister_attempt_reg t conn ctx r :
  fst (unregister_attempt t conn ctx r) =
  match r !! conn with
  | None => r
  | Some _ => set_or_erase conn
      (List.filter (fun e => negb (Context e =? ctx) || must_wait t ctx e) (entries r conn)) r
  end.
Proof. unfold unregister_attempt, entries. by destruct (r !! conn). Qed.

Lemma benign_unregister t conn ctx r : benign r (fst (unregister_attempt t conn ctx r)).
Proof.
  rewrite unregister_attempt_reg. destruct (r !! conn); [apply benign_filter|apply benign_refl].
Qed.

(** Unregistration by another thread waits for an abort in progress. *)
Lemma present_unregister r c t x t' conn ctx :
  t <> t' -> present r c t x -> present (fst (unregister_attempt t' conn ctx r)) c t x.
Proof.
  intros Hne Hp. rewrite unregister_attempt_reg. destruct (r !! conn); [|done].
  apply present_filter; [|done]. intros e _ _ _ Hab Hi Ht. unfold must_wait.
  rewrite Hab, Hi, Ht. rewrite bool_decide_eq_false_2 by congruence.
  by destruct (Context e =? ctx).
Qed.

(** *** Every step preserves the invariant *)

Lemma Inv_register s t conn ctx a d s' :
  Inv s -> next_id s < uint64_max -> threads s !! t = Some (RegTry conn ctx a d) ->
  run_step s t (RegTry conn ctx a d) = Some s' -> Inv s'.
Proof.
  intros HI Hlim Ht Hs. cbn [run_step] in Hs. unfold register_attempt in Hs.
  fold (entries (reg s) conn) in Hs. destruct (register_scan _ _ _ _) as [|ha sm].
  - simplify_eq. apply (Inv_upd _ _ _ _ _ HI Ht); try done.
    + by apply benign_update.
    + intros t0 p0 x Hne H0 Hin. apply present_update_other. intros e _ _ ->. by rewrite andb_false_r.
  - destruct (_ || _); simplify_eq; [by eapply Inv_push|]. by apply (Inv_upd_same _ _ _ _ HI Ht).
Qed.

Lemma Inv_abort_erase s t conn all :
  Inv s -> threads s !! t = Some (AbortErase conn all) ->
  Inv (upd s t (AbortNotify (length all)) (abort_erase conn all (reg s)) (next_id s)).
Proof.
  intros HI Ht. unfold abort_erase.
  destruct (reg s !! conn) as [l|] eqn:Hl; [|by apply (Inv_upd_same _ _ _ _ HI Ht)].
  assert (He : l = entries (reg s) conn) by (unfold entries; by rewrite Hl). rewrite He.
  apply (Inv_upd _ _ _ _ _ HI Ht); try done; [apply benign_filter|].
  intros t0 p0 x Hne H0 Hin. apply present_filter. intros e _ Hid _ -> _ _. simpl.
  apply negb_true_iff, not_true_iff_false. intros (y & Hy & Heq%Z.eqb_eq)%existsb_exists.
  apply Hne. apply (i_owned s HI t0 t p0 _ (Id x) H0 Ht).
  - destruct (i_todo s HI t0 p0 H0) as [_ Htd]. apply Htd. by apply in_map.
  - simpl. rewrite <- Hid, <- Heq. by apply in_map.
Qed.

Lemma Inv_clear s t id :
  Inv s -> threads s !! t = Some (ByIdClear id) ->
  Inv (upd s t ByIdNotify
         match FindTunnelByIdLocked id (reg s) with
         | Some (conn, _) => update_by_id conn id clear_in_progress (reg s)
         | None => reg s
         end (next_id s)).
Proof.
  intros HI Ht. destruct (FindTunnelByIdLocked id (reg s)) as [[conn x]|]; [|by apply (Inv_upd_same _ _ _ _ HI Ht)].
  unfold update_by_id. fold (entries (reg s) conn). apply (Inv_upd _ _ _ _ _ HI Ht); try done; [by apply benign_update|].
  intros t0 p0 y Hne H0 Hin. apply present_update_other. intros e _ Hid _.
  apply Z.eqb_neq. intros Heq. apply Hne. apply (i_owned s HI t0 t p0 _ (Id y) H0 Ht).
  - destruct (i_todo s HI t0 p0 H0) as [_ Htd]. apply Htd. by apply in_map.
  - simpl. left. congruence.
Qed.

Lemma Inv_run s t p s' :
  Inv s -> next_id s < uint64_max -> threads s !! t = Some p -> run_step s t p = Some s' -> Inv s'.
Proof.
  intros HI Hlim Ht Hs. destruct p; try (exact (Inv_register _ _ _ _ _ _ _ HI Hlim Ht Hs)); cbn [run_step] in Hs; try done.
  - pose proof (benign_unregister t conn ctx (reg s)) as Hb.
    pose proof (fun t0 c x => present_unregister (reg s) c t0 x t conn ctx) as Hp.
    destruct (unregister_attempt t conn ctx (reg s)) as [r w]. simplify_eq. simpl in *.
    apply (Inv_upd _ _ _ _ _ HI Ht); [by destruct w|by destruct w|done|intros; by apply Hp].
  - destruct todo0 as [|x todo0]; simplify_eq; [by apply (Inv_upd_same _ _ _ _ HI Ht)|].
    apply (Inv_call _ _ _ _ _ HI Ht); [done|by right|done].
  - simplify_eq. by apply Inv_abort_erase.
  - simplify_eq. exact (Inv_notify _ _ _ HI Ht).
  - simplify_eq. apply (Inv_call _ _ _ _ _ HI Ht); [done|by left|done].
  - simplify_eq. by apply Inv_clear.
  - simplify_eq. exact (Inv_notify _ _ _ HI Ht).
  - simplify_eq. apply (Inv_frame (upd s t Done (reg s) (next_id s))); try done.
    + by apply (Inv_upd_same _ _ _ _ HI Ht).
    + apply benign_refl.
    + intros t1 p1 H1. exists p1. split; [done|]. by right.
Qed.

Lemma Inv_abort_select s t p conn r sel :
  Inv s -> threads s !! t = Some p -> owned p = [] -> abort_select t conn (reg s) = Some (r, sel) ->
  Inv (upd s t (AbortCall conn sel sel) r (next_id s)).
Proof.
  intros HI Ht Ho Hs. unfold abort_select in Hs. destruct (reg s !! conn) as [l|] eqn:Hl; [|done].
  assert (He : entries (reg s) conn = l) by (unfold entries; by rewrite Hl). rewrite <- He in Hs. simplify_eq.
  eapply (Inv_select s t p _ conn
    (map (mark_aborting t) (List.filter (fun e => negb (Aborting e)) (entries (reg s) conn)))); try done.
  - apply benign_map; intros e; by destruct (Aborting e) eqn:?; simpl.
  - rewrite map_map. apply (NoDup_filter_map Id), HI.
  - intros x (e & <- & [Hin Hab]%filter_In)%in_map_iff. exists (mark_aborting t e).
    rewrite entries_insert, bool_decide_eq_true_2 by done. split; [|done]. apply in_map_iff.
    exists e. split; [|done]. by destruct (Aborting e).
  - intros x (e & <- & [Hin Hab%negb_true_iff]%filter_In)%in_map_iff. by exists e.
  - intros t0 p0 x _ _ _ Hp. apply present_mark; [|done]. by intros e ->.
Qed.

Lemma Inv_mark_by_id s t p conn x id :
  Inv s -> threads s !! t = Some p -> owned p = [] ->
  FindTunnelByIdLocked id (reg s) = Some (conn, x) -> Aborting x = false ->
  Inv (upd s t (ByIdCall conn (mark_aborting t x)) (update_by_id conn id (mark_aborting t) (reg s))
           (next_id s)).
Proof.
  intros HI Ht Ho Hf%FindTunnelByIdLocked_Some Hab. unfold update_by_id. fold (entries (reg s) conn).
  pose proof (List.find_some _ _ Hf) as [Hin Hid%Z.eqb_eq].
  destruct (update_first_find _ (mark_aborting t) _ _ Hf) as (l1 & l2 & Hl & Hu).
  eapply (Inv_select s t p _ conn [mark_aborting t x]); try done.
  - by apply benign_update.
  - simpl. apply list.NoDup_singleton.
  - intros y [<-|[]]. exists (mark_aborting t x). split; [|done].
    rewrite entries_insert, bool_decide_eq_true_2, Hu by done. rewrite in_app_iff. right. by left.
  - intros y [<-|[]]. by exists x.
  - intros t0 p0 y Hne H0 Hy (e & He & Hide & Hc & Habe & Hi & Hte). exists e. split; [|done].
    rewrite entries_insert. case_bool_decide as Hcc; [|done]. rewrite Hu. rewrite <- Hcc, Hl in He.
    rewrite in_app_iff in *. destruct He as [?|[<-|?]]; [by left|congruence|right; by right].
Qed.

Lemma Inv_call_step s t p c :
  Inv s -> threads s !! t = Some p -> match p with Idle | Done => True | _ => False end ->
  Inv (call_step s t c).
Proof.
  intros HI Ht Hp. assert (Ho : owned p = []) by (by destruct p).
  destruct c; cbn [call_step].
  - destruct (_ || _ || _); by apply (Inv_upd_same _ _ _ _ HI Ht).
  - unfold TqUpdateConnectionTunnelMetadata. destruct (_ || _); [by apply (Inv_upd_same _ _ _ _ HI Ht)|].
    destruct (reg s !! conn) as [l|] eqn:Hl; [|by apply (Inv_upd_same _ _ _ _ HI Ht)].
    assert (He : l = entries (reg s) conn) by (unfold entries; by rewrite Hl). rewrite He.
    apply (Inv_upd _ _ _ _ _ HI Ht); try done; [by apply benign_update|].
    intros t0 p0 x _ _ _. by apply present_update.
  - destruct (_ || _); by apply (Inv_upd_same _ _ _ _ HI Ht).
  - destruct (conn =? 0); [by apply (Inv_upd_same _ _ _ _ HI Ht)|].
    destruct (abort_select t conn (reg s)) as [[r sel]|] eqn:Hs; [|by apply (Inv_upd_same _ _ _ _ HI Ht)].
    by eapply Inv_abort_select.
  - destruct (ParseTunnelId tunnelId) as [id|]; [|by apply (Inv_upd_same _ _ _ _ HI Ht)].
    destruct (FindTunnelByIdLocked id (reg s)) as [[conn x]|] eqn:Hf; [|by apply (Inv_upd_same _ _ _ _ HI Ht)].
    destruct (Aborting x) eqn:Hab; [by apply (Inv_upd_same _ _ _ _ HI Ht)|]. by eapply Inv_mark_by_id.
  - destruct (ParseTunnelId tunnelId) as [id|]; [|by apply (Inv_upd_same _ _ _ _ HI Ht)].
    destruct (FindTunnelByIdLocked id (reg s)) as [[conn x]|] eqn:Hf; [|by apply (Inv_upd_same _ _ _ _ HI Ht)].
    unfold update_by_id. fold (entries (reg s) conn).
    apply (Inv_upd _ _ _ _ _ HI Ht); try done; [by apply benign_update|]. intros t0 p0 y _ _ _. by apply present_update.
Qed.

Lemma Inv_self_unregister s t p conn x :
  Inv s -> threads s !! t = Some p -> callback_of p = Some (conn, x) ->
  Inv {| reg := fst (unregister_attempt t conn (Context x) (reg s)); next_id := next_id s;
         threads := threads s; aborted := aborted s; drained := drained s;
         self_unregistered :=
           map Id (List.filter (fun e => Context e =? Context x) (default [] (reg s !! conn))) ++
           self_unregistered s |}.
Proof.
  intros HI Ht Hc. apply (Inv_frame s); try done.
  - apply benign_unregister.
  - intros t0 p0 H0. exists p0. split; [done|]. by right.
  - cbn. intros t0 p0 y H0 Hy [Hp|Hp]; [|right; apply in_app_iff; by right].
    destruct (decide (t0 = t)) as [->|Hne]; [|left; by apply present_unregister].
    destruct Hp as (e & He & Hid & Hctx & Hrest).
    destruct (decide (todo_conn p0 = conn /\ Context e = Context x)) as [[Hcn Hcx]|Hno].
    + right. apply in_app_iff. left. apply in_map_iff. exists e. split; [done|].
      apply filter_In. rewrite <- Hcn. split; [exact He|]. by apply Z.eqb_eq.
    + left. exists e. split; [|done]. rewrite unregister_attempt_reg.
      destruct (reg s !! conn); [|done]. rewrite entries_set_or_erase.
      case_bool_decide as Hcc; [|done]. apply filter_In. rewrite Hcc. split; [done|].
      rewrite (proj2 (Z.eqb_neq _ _)); [done|]. intros ?. by apply Hno.
Qed.

Lemma registry_reachable n s : reachable n s -> Inv s.
Proof.
  intros Hr. induction Hr as [|s s' Hr IH Hlim Hs].
  - assert (Hno : forall t p, replicate n Idle !! t = Some p -> p = Idle)
      by (intros t p [-> _]%lookup_replicate; done).
    split; cbn; try done.
    + intros c. constructor.
    + intros id [[]|(t & p & ->%Hno & [])].
    + constructor.
    + intros t p ->%Hno. split; [constructor|done].
    + intros t t' p p' id ->%Hno. done.
    + intros t p x ->%Hno. done.
  - destruct Hs as [t p s1 Ht Hs|t p c Ht Hp|t p Ht|t p conn x Ht Hc].
    + by eapply Inv_run.
    + by eapply Inv_call_step.
    + apply (Inv_frame s); try done; [apply benign_refl|].
      intros t0 p0 [[-> ->]|[Hne H0]]%lookup_upd; [exists p; split; [done|apply retires_wake]|].
      exists p0. split; [done|]. by right.
    + by eapply Inv_self_unregister.
Qed.

(** ** Identifiers *)

(** The overflow test before the multiplication is the test after it, made in time. *)
Lemma parse_id_loop_dec text parsed :
  0 <= parsed <= uint64_max -> parse_id_loop text parsed = dec_loop uint64_max text parsed.
Proof.
  revert parsed. induction text as [|ch text IH]; intros parsed Hp; [done|]. simpl.
  unfold isdigit. rewrite negb_andb, <- Z.ltb_antisym, <- Z.ltb_antisym.
  destruct (Z.ltb_spec ch 48); simpl; [done|]. destruct (Z.ltb_spec 57 ch); simpl; [done|].
  unfold uint64_max in *.
  destruct (Z.ltb_spec ((18446744073709551615 - (ch - 48)) / 10) parsed).
  - rewrite (proj2 (Z.ltb_lt _ _)) by dlia. done.
  - rewrite (proj2 (Z.ltb_ge _ _)) by dlia.
    rewrite (u64_small (parsed * 10)), u64_small by (unfold is_u64; dlia). apply IH. dlia.
Qed.

Lemma ParseTunnelId_digits digits :
  digits <> [] ->
  ParseTunnelId (prefix ++ digits) =
    if forallb isdigit digits && (dec_value digits <=? uint64_max) then Some (dec_value digits) else None.
Proof.
  intros Hne. unfold ParseTunnelId.
  change (take 4 (prefix ++ digits)) with prefix. change (drop 4 (prefix ++ digits)) with digits.
  rewrite bool_decide_eq_true_2 by done.
  rewrite (proj2 (Nat.eqb_neq _ _)) by (destruct digits; [done|simpl; lia]). cbn [negb orb].
  rewrite parse_id_loop_dec, dec_loop_spec by (unfold uint64_max; lia). done.
Qed.

Lemma ParseTunnelId_TunnelIdText id : is_u64 id -> ParseTunnelId (TunnelIdText id) = Some id.
Proof.
  intros Hid. destruct (dec_value_to_string id Hid) as (Hd & Hne & Hv). unfold TunnelIdText.
  rewrite ParseTunnelId_digits, Hd, Hv by done. rewrite (proj2 (Z.leb_le _ _)); [done|].
  unfold uint64_max. widths.
Qed.

(** ** Theorems *)

(** C31.  However abort requests for connections and for single tunnels, unregistrations and
    registrations interleave, the abort callback of a registered tunnel is called at most
    once, and only by the thread that marked it. *)
Theorem abort_is_called_once n s :
  reachable n s ->
  NoDup (map Id (aborted s)) /\
  (forall t p x, threads s !! t = Some p -> In x (todo p) -> ~ In (Id x) (map Id (aborted s))) /\
  (forall t t' p p' x x', threads s !! t = Some p -> threads s !! t' = Some p' ->
     In x (todo p) -> In x' (todo p') -> Id x = Id x' -> t = t').
Proof.
  intros HI%registry_reachable. split; [apply HI|].
  assert (Htd : forall t p x, threads s !! t = Some p -> In x (todo p) ->
            In (Id x) (owned p) /\ ~ In (Id x) (map Id (aborted s))).
  { intros t p x Ht Hx. destruct (i_todo s HI t p Ht) as [_ H]. apply H. by apply in_map. }
  split; [intros; by eapply Htd|]. intros t t' p p' x x' Ht Ht' Hx Hx' Heq.
  apply (i_owned s HI t t' p p' (Id x)); [done..|by eapply Htd|rewrite Heq; by eapply Htd].
Qed.

(** C32.  [TqUnregisterConnectionTunnel] is a barrier against aborts: when it returns, the
    context has no entry under the connection any more, and no other thread is at, or still
    has to make, an abort call for that context there, so the tunnel may be freed.  The one
    exception is a registration of the context that was unregistered before, from inside its
    own abort call, which does not wait: that call may still be on its way out. *)
Theorem unregister_is_a_barrier n s t conn ctx s' :
  reachable n s -> threads s !! t = Some (UnregTry conn ctx) ->
  run_step s t (UnregTry conn ctx) = Some s' -> threads s' !! t = Some Done ->
  (forall e, In e (entries (reg s') conn) -> Context e <> ctx) /\
  (forall t' p x, threads s' !! t' = Some p -> In x (todo p) -> todo_conn p = conn ->
     Context x = ctx -> In (Id x) (self_unregistered s')).
Proof.
  intros HI%registry_reachable Ht Hs Hd. cbn [run_step] in Hs.
  destruct (unregister_attempt t conn ctx (reg s)) as [r w] eqn:Hu. simplify_eq.
  assert (w = false) as ->.
  { simpl in Hd. rewrite list_lookup_insert_eq in Hd by (by eapply lookup_lt_Some). by destruct w. }
  assert (Hgone : forall e, In e (entries r conn) -> Context e <> ctx).
  { unfold unregister_attempt in Hu. intros e He.
    destruct (reg s !! conn) as [l|] eqn:Hl; [injection Hu as <- Hw|injection Hu as <-].
    - rewrite entries_set_or_erase, bool_decide_eq_true_2 in He by done.
      apply filter_In in He as [Hin He]. apply not_true_iff_false in Hw as Hno.
      destruct (Z.eqb_spec (Context e) ctx) as [Heq|]; [|done]. simpl in He. exfalso. apply Hno.
      apply existsb_exists. eauto.
    - unfold entries in He. by rewrite Hl in He. }
  split; [done|]. intros t' p x Hp Hx Hc Hctx. apply lookup_upd in Hp as [[-> ->]|[Hne Hp]]; [done|].
  destruct (i_present s HI t' p x Hp Hx) as [Hpres|]; [|done].
  apply (present_unregister _ _ _ _ t conn ctx Hne) in Hpres. rewrite Hu in Hpres.
  destruct Hpres as (e & He & _ & Hce & _). rewrite Hc in He. exfalso.
  apply (Hgone e He). congruence.
Qed.

(**  Identifiers are unambiguous: a tunnel's printed identifier parses back, and looking
    it up returns that very tunnel, since no two registered tunnels ever share a number;
    every text of other than "tun-" and a 64-bit decimal number is refused. *)
Theorem tunnel_ids_are_unambiguous n s :
  reachable n s ->
  (forall c e, In e (entries (reg s) c) -> 0 <= Id e ->
     TqGetTunnelSnapshot (TunnelIdText (Id e)) (reg s) = Some (MakeSnapshotLocked e)) /\
  (forall text id, ParseTunnelId text = Some id ->
     exists digits, text = prefix ++ digits /\ digits <> [] /\ forallb isdigit digits = true /\
       dec_value digits = id /\ id <= uint64_max).
Proof.
  intros HI%registry_reachable. split.
  - intros c e He Hpos. unfold TqGetTunnelSnapshot.
    pose proof (i_ids s HI c e He). pose proof (i_next s HI).
    rewrite ParseTunnelId_TunnelIdText by (unfold uint64_max in *; widths). simpl.
    destruct (FindTunnelByIdLocked (Id e) (reg s)) as [[c' x]|] eqn:Hf; simpl.
    + apply FindTunnelByIdLocked_Some, List.find_some in Hf as [Hx Hid%Z.eqb_eq].
      assert (c' = c) as -> by (by apply (i_disj s HI c' c x e)).
      by rewrite (NoDup_map_inj Id (entries (reg s) c) x e) by (apply HI || done).
    + by destruct (FindTunnelByIdLocked_None _ _ _ _ Hf He).
  - intros text id Hp. unfold ParseTunnelId in Hp. destruct (_ || _) eqn:Hb; [done|].
    to_prop_nat. exists (drop 4 text).
    assert (Htext : text = prefix ++ drop 4 text) by (rewrite <- H; symmetry; apply take_drop).
    rewrite parse_id_loop_dec, dec_loop_spec in Hp by (unfold uint64_max; lia).
    cbv zeta in Hp. destruct (_ && _) eqn:Hd; [|done]. simplify_eq. to_prop. split_and!; try done.
    intros Hn. rewrite Hn, app_nil_r in Htext. by rewrite Htext in H0.
Qed.

(** ** Executions *)

Inductive action := Go | Start (c : call) | Spurious.

Definition act (s : state) (ta : nat * action) : option state :=
  if next_id s <? uint64_max then
    p ← threads s !! ta.1;
    match ta.2 with
    | Go => run_step s ta.1 p
    | Start c => match p with Idle | Done => Some (call_step s ta.1 c) | _ => None end
    | Spurious => Some (upd s ta.1 (wake p) (reg s) (next_id s))
    end
  else None.

Fixpoint execute (s : state) (l : list (nat * action)) : option state :=
  match l with
  | [] => Some s
  | ta :: l' => s' ← act s ta; execute s' l'
  end.

Definition start (n : nat) : state :=
  {| reg := ∅; next_id := 1; threads := replicate n Idle; aborted := []; drained := [];
     self_unregistered := [] |}.

Lemma calls_reachable n s l s' : reachable n s -> execute s l = Some s' -> reachable n s'.
Proof.
  revert s. induction l as [|[t a] l IH]; intros s Hr Hx; simpl in Hx; [by simplify_eq|].
  destruct (act s (t, a)) as [s1|] eqn:Ha; [|done]. simpl in Hx.
  apply (IH s1); [|done]. unfold act in Ha. destruct (Z.ltb_spec (next_id s) uint64_max); [|done].
  simpl in Ha. destruct (threads s !! t) as [p|] eqn:Hp; [|done]. simpl in Ha.
  apply (reach_step n s); [done..|]. destruct a as [|c|].
  - by eapply step_run.
  - destruct p; simplify_eq; by eapply step_call.
  - simplify_eq. by eapply step_spurious.
Qed.

Module Demo.
Definition ran (n : nat) (l : list (nat * action)) : state :=
  match execute (start n) l with Some s => s | None => start n end.
(** Tunnel 7 registers on connection 1; thread 1 aborts the connection; thread 0 then wants
    to unregister. *)
Definition aborting : list (nat * action) :=
  [(0, Start (CallRegister 1 7 100 200)); (0, Go); (1, Start (CallAbort 1));
   (0, Start (CallUnregister 1 7)); (0, Go)]%nat.
(** The same to its end, where the unregistration goes through. *)
Definition ending : list (nat * action) :=
  aborting ++ [(1, Go); (1, Go); (1, Go); (1, Go)]%nat.
End Demo.

Lemma abort_is_called_once_witness :
  map Id (aborted (Demo.ran 2 Demo.ending)) = [1] /\ NoDup (map Id (aborted (Demo.ran 2 Demo.ending))).
Proof.
  split; [vm_compute; reflexivity|].
  apply (abort_is_called_once 2). apply (calls_reachable 2 (start 2) Demo.ending); [apply reach_init|].
  vm_compute. reflexivity.
Defined.

Lemma unregister_is_a_barrier_witness :
  threads (Demo.ran 2 (Demo.ending ++ [(0%nat, Go)])) !! 0%nat = Some Done /\
  (forall e, In e (entries (reg (Demo.ran 2 (Demo.ending ++ [(0%nat, Go)]))) 1) -> Context e <> 7).
Proof.
  split; [vm_compute; reflexivity|].
  apply (unregister_is_a_barrier 2 (Demo.ran 2 Demo.ending) 0).
  - apply (calls_reachable 2 (start 2) Demo.ending); [apply reach_init|]. vm_compute. reflexivity.
  - vm_compute. reflexivity.
  - vm_compute. reflexivity.
  - vm_compute. reflexivity.
Defined.

Lemma tunnel_ids_are_unambiguous_witness :
  exists e, In e (entries (reg (Demo.ran 2 Demo.aborting)) 1) /\
    TqGetTunnelSnapshot (TunnelIdText (Id e)) (reg (Demo.ran 2 Demo.aborting)) =
      Some (MakeSnapshotLocked e).
Proof.
  eexists. split; [vm_compute; left; reflexivity|].
  apply (tunnel_ids_are_unambiguous 2) with (c := 1).
  - apply (calls_reachable 2 (start 2) Demo.aborting); [apply reach_init|]. vm_compute. reflexivity.
  - vm_compute. left. reflexivity.
  - vm_compute. discriminate.
Defined.

(** ** Two schedules the locking does not exclude *)

(** A registration that waits for an aborted entry to go is not told when it goes: thread 0
    registers tunnel 7 and thread 1 aborts it by identifier, which leaves the entry marked;
    thread 2 registers the same context and waits; thread 0 unregisters, which removes the
    entry without a notification.  Thread 2 sleeps although its attempt would now succeed, and
    no thread is left that would wake it. *)
Theorem registration_can_miss_its_wakeup :
  exists s, reachable 3 s /\ threads s = [Done; Done; RegWait 1 7 100 200] /\
    is_Some (register_attempt 2 1 7 100 200 (reg s) (next_id s)).
Proof.
  eexists. split; [|split].
  - apply (calls_reachable 3 (start 3)
      [(0, Start (CallRegister 1 7 100 200)); (0, Go); (1, Start (CallAbortById (str "tun-1")));
       (1, Go); (1, Go); (2, Start (CallRegister 1 7 100 200)); (2, Go); (1, Go); (2, Go);
       (0, Start (CallUnregister 1 7)); (0, Go)]%nat); [apply reach_init|]. vm_compute. reflexivity.
  - vm_compute. reflexivity.
  - vm_compute. eexists. reflexivity.
Qed.

(** A drain is not covered by the barrier: thread 1 has looked the tunnel up and let go of the
    lock; thread 0 unregisters the context and returns; the drain callback is then called with
    a context that may have been freed. *)
Theorem drain_can_follow_unregistration :
  exists s s', reachable 2 s /\ threads s = [Done; DrainCall 1 (mark_draining (new_tunnel 1 7 100 200))] /\
    entries (reg s) 1 = [] /\ step s s' /\
    drained s' = [(1, mark_draining (new_tunnel 1 7 100 200))].
Proof.
  eexists _, _. split; [|split; [|split; [|split]]].
  - apply (calls_reachable 2 (start 2)
      [(0, Start (CallRegister 1 7 100 200)); (0, Go); (1, Start (CallDrainById (str "tun-1")));
       (0, Start (CallUnregister 1 7)); (0, Go)]%nat); [apply reach_init|]. vm_compute. reflexivity.
  - vm_compute. reflexivity.
  - vm_compute. reflexivity.
  - apply (step_run _ 1%nat (DrainCall 1 (mark_draining (new_tunnel 1 7 100 200))));
      vm_compute; reflexivity.
  - vm_compute. reflexivity.
Qed.
