(* ===== verification/StreamLifetime.v ===== *)
(** The owner of one relay-capable QUIC stream (src/src/tunnel/stream_lifetime.cpp), the ledger
    its terminal state is recorded in and the scheduler tasks that make it converge
    (src/src/tunnel/terminal_convergence.cpp).

    MsQuic worker threads, relay workers and the scheduler thread enter the owner at any time.
    Every block of the source that runs under [ControlMutex_], [g_terminalRetentionLock], the
    ledger's or the scheduler's mutex is one step of the thread that executes it, and so are the
    calls made between two such blocks (the [Shutdown] downcall into MsQuic, the virtual
    [OnStreamEvent] and [RequestConnectionShutdown]); a thread's program point with its local
    variables is a [pc].  Steps of different threads interleave freely.  What MsQuic answers,
    which task the scheduler runs next and whether it has room for one more are choices of the
    environment.  Smart pointers are integers with 0 for null.  The unit-test hooks, with the
    [DetachedStreamForTest_] flag that only they set, and the wall-clock stamps of the ledger
    are left out. *)

From stdpp Require Import base list strings numbers.
From Stdlib Require Import ZArith Lia.
From S2P Require Import Prelude.
Local Open Scope Z_scope.

(** What the owner uses of MsQuic, whose headers are not part of the repository. *)
Class MsQuicApi := {
  QUIC_SUCCEEDED : Z -> bool;
  QUIC_STATUS_SUCCESS : Z;
  QUIC_STATUS_INVALID_STATE : Z;
  QUIC_STATUS_PENDING : Z;
  SHUTDOWN_FLAG_NONE : Z;
  SHUTDOWN_FLAG_GRACEFUL : Z;
  SHUTDOWN_FLAG_ABORT_SEND : Z;
  SHUTDOWN_FLAG_ABORT_RECEIVE : Z;
  SHUTDOWN_FLAG_ABORT : Z;
  SHUTDOWN_FLAG_IMMEDIATE : Z }.

Inductive Phase := CreatedNotStarted | Starting | Started | StartFailed | TerminalPublished | Closed.
Inductive ShutdownIntent := GracefulSend | AbortSend | AbortReceive | AbortBoth | AbortBothImmediate.
Inductive TerminalPhase :=
  Active | ShutdownReserved | ShutdownSubmitted | TerminalObserved | TerminalClosed.
Inductive TqTerminalWatchdogState := WIdle | Armed | Canceled | Escalated | TerminalTimeout.
Inductive TqTerminalShutdownIntent := NoIntent | GracefulComplete | TerminalAbortBothImmediate.
Inductive TqTerminalEvent :=
  NoEvent | StartComplete | ReceiveAfterHandoff | SendComplete | PeerSendAborted
| PeerReceiveAborted | SendShutdownComplete | ShutdownComplete | CancelOnLoss
| IdealSendBufferSize.

#[global] Instance Phase_eq_dec : EqDecision Phase.
Proof. solve_decision. Defined.
#[global] Instance ShutdownIntent_eq_dec : EqDecision ShutdownIntent.
Proof. solve_decision. Defined.
#[global] Instance TerminalPhase_eq_dec : EqDecision TerminalPhase.
Proof. solve_decision. Defined.
#[global] Instance Watchdog_eq_dec : EqDecision TqTerminalWatchdogState.
Proof. solve_decision. Defined.
#[global] Instance TerminalIntent_eq_dec : EqDecision TqTerminalShutdownIntent.
Proof. solve_decision. Defined.
#[global] Instance TerminalEvent_eq_dec : EqDecision TqTerminalEvent.
Proof. solve_decision. Defined.

Record TqTerminalIdentity := {
  StreamId : Z; TunnelId : Z; IdConnectionId : Z; ConnectionGeneration : Z;
  IdRole : Z; IdBackend : Z }.
#[global] Instance Identity_eq_dec : EqDecision TqTerminalIdentity.
Proof. solve_decision. Defined.

(** ** The terminal ledger *)

Record TqTerminalLedger := {
  Identity : TqTerminalIdentity; LPhase : TerminalPhase; LErrorCode : Z; ShutdownStatus : Z;
  LShutdownIntent : TqTerminalShutdownIntent; ShutdownAttempt : Z;
  LastStreamEvent : TqTerminalEvent; InTunnelRegistry : bool; RelayActive : bool;
  TcpValid : bool; Watchdog : TqTerminalWatchdogState; ConnectionEscalated : bool;
  AccountingCompleted : bool; WatchdogSeconds : Z }.

Section Ledger.
Context `{MsQuicApi}.

Definition new_ledger (identity : TqTerminalIdentity) (seconds : Z) : TqTerminalLedger :=
  {| Identity := identity; LPhase := Active; LErrorCode := 0;
     ShutdownStatus := QUIC_STATUS_SUCCESS; LShutdownIntent := NoIntent; ShutdownAttempt := 0;
     LastStreamEvent := NoEvent; InTunnelRegistry := true; RelayActive := true;
     TcpValid := true; Watchdog := WIdle; ConnectionEscalated := false;
     AccountingCompleted := false; WatchdogSeconds := seconds |}.

(** The fields a shutdown attempt writes. *)
Definition ledger_attempt (l : TqTerminalLedger) (phase : TerminalPhase) (error status : Z)
    (intent : TqTerminalShutdownIntent) (attempt : Z) : TqTerminalLedger :=
  {| Identity := Identity l; LPhase := phase; LErrorCode := error; ShutdownStatus := status;
     LShutdownIntent := intent; ShutdownAttempt := attempt;
     LastStreamEvent := LastStreamEvent l; InTunnelRegistry := InTunnelRegistry l;
     RelayActive := RelayActive l; TcpValid := TcpValid l; Watchdog := Watchdog l;
     ConnectionEscalated := ConnectionEscalated l;
     AccountingCompleted := AccountingCompleted l; WatchdogSeconds := WatchdogSeconds l |}.

Definition ledger_watchdog (l : TqTerminalLedger) (w : TqTerminalWatchdogState)
    (escalated : bool) : TqTerminalLedger :=
  {| Identity := Identity l; LPhase := LPhase l; LErrorCode := LErrorCode l;
     ShutdownStatus := ShutdownStatus l; LShutdownIntent := LShutdownIntent l;
     ShutdownAttempt := ShutdownAttempt l; LastStreamEvent := LastStreamEvent l;
     InTunnelRegistry := InTunnelRegistry l; RelayActive := RelayActive l;
     TcpValid := TcpValid l; Watchdog := w; ConnectionEscalated := escalated;
     AccountingCompleted := AccountingCompleted l; WatchdogSeconds := WatchdogSeconds l |}.

Definition terminal_phase (p : TerminalPhase) : bool :=
  bool_decide (p = TerminalObserved) || bool_decide (p = TerminalClosed).

Definition RecordEvent (event : TqTerminalEvent) (l : TqTerminalLedger) : TqTerminalLedger :=
  let observed := bool_decide (event = ShutdownComplete) in
  let cancel := observed && (bool_decide (Watchdog l = Armed) ||
                             bool_decide (Watchdog l = Escalated)) in
  {| Identity := Identity l; LPhase := if observed then TerminalObserved else LPhase l;
     LErrorCode := LErrorCode l; ShutdownStatus := ShutdownStatus l;
     LShutdownIntent := LShutdownIntent l; ShutdownAttempt := ShutdownAttempt l;
     LastStreamEvent := event; InTunnelRegistry := InTunnelRegistry l;
     RelayActive := RelayActive l; TcpValid := TcpValid l;
     Watchdog := if cancel then Canceled else Watchdog l;
     ConnectionEscalated := ConnectionEscalated l;
     AccountingCompleted := AccountingCompleted l; WatchdogSeconds := WatchdogSeconds l |}.

Definition RecordShutdown (status attempt : Z) (submitted : bool)
    (intent : TqTerminalShutdownIntent) (l : TqTerminalLedger) : TqTerminalLedger :=
  if attempt <? ShutdownAttempt l then l
  else
    ledger_attempt l
      (if terminal_phase (LPhase l) then LPhase l
       else if submitted then ShutdownSubmitted else Active)
      (LErrorCode l) status intent attempt.

Definition MarkHandoffFacts (inRegistry relayActive tcpValid : bool) (l : TqTerminalLedger) :
    TqTerminalLedger :=
  {| Identity := Identity l; LPhase := LPhase l; LErrorCode := LErrorCode l;
     ShutdownStatus := ShutdownStatus l; LShutdownIntent := LShutdownIntent l;
     ShutdownAttempt := ShutdownAttempt l; LastStreamEvent := LastStreamEvent l;
     InTunnelRegistry := inRegistry; RelayActive := relayActive; TcpValid := tcpValid;
     Watchdog := Watchdog l; ConnectionEscalated := ConnectionEscalated l;
     AccountingCompleted := AccountingCompleted l; WatchdogSeconds := WatchdogSeconds l |}.

Definition CompleteAccountingOnce (l : TqTerminalLedger) : bool * TqTerminalLedger :=
  if AccountingCompleted l then (false, l)
  else (true,
    {| Identity := Identity l; LPhase := LPhase l; LErrorCode := LErrorCode l;
       ShutdownStatus := ShutdownStatus l; LShutdownIntent := LShutdownIntent l;
       ShutdownAttempt := ShutdownAttempt l; LastStreamEvent := LastStreamEvent l;
       InTunnelRegistry := InTunnelRegistry l; RelayActive := RelayActive l;
       TcpValid := TcpValid l; Watchdog := Watchdog l;
       ConnectionEscalated := ConnectionEscalated l; AccountingCompleted := true;
       WatchdogSeconds := WatchdogSeconds l |}).

(** The scheduler's critical sections on the ledger. *)

Definition MarkEscalated (l : TqTerminalLedger) : option Z * TqTerminalLedger :=
  if negb (terminal_phase (LPhase l)) && negb (bool_decide (Watchdog l = Canceled)) &&
     negb (bool_decide (Watchdog l = TerminalTimeout)) && negb (ConnectionEscalated l)
  then (Some (ShutdownStatus l), ledger_watchdog l Escalated true)
  else (None, l).

Definition MarkTimedOut (l : TqTerminalLedger) : bool * TqTerminalLedger :=
  if bool_decide (Watchdog l = Escalated)
  then (true, ledger_watchdog l TerminalTimeout (ConnectionEscalated l))
  else (false, l).

(** [room] is what [enqueue] returns. *)
Definition ArmAndEnqueue (room : bool) (l : TqTerminalLedger) : bool * TqTerminalLedger :=
  if negb (bool_decide (LPhase l = ShutdownSubmitted)) || negb (bool_decide (Watchdog l = WIdle))
  then (false, l)
  else (room, ledger_watchdog l Armed (ConnectionEscalated l)).

Definition CancelWatchdog (l : TqTerminalLedger) : bool * TqTerminalLedger :=
  if bool_decide (Watchdog l = Canceled) || bool_decide (Watchdog l = TerminalTimeout)
  then (false, l)
  else (true, ledger_watchdog l Canceled (ConnectionEscalated l)).

Definition RetryAllowed (l : TqTerminalLedger) : bool :=
  negb (terminal_phase (LPhase l)) && negb (bool_decide (Watchdog l = Canceled)).

(** The escalation guard in [BeginTerminalShutdown] (illegal state). *)
Definition mark_illegal (l : TqTerminalLedger) : bool * TqTerminalLedger :=
  if ConnectionEscalated l then (false, l) else (true, ledger_watchdog l Escalated true).

End Ledger.

(** ** The owner *)

(** The per-direction shutdown arbitration: what was asked for, what MsQuic accepted and what
    a downcall in flight has reserved.  Send: 0 open, 1 graceful, 2 abort. *)
Record directions := {
  DesiredSendShutdown_ : Z; SubmittedSendShutdown_ : Z; ReservedSendShutdown_ : Z;
  DesiredReceiveAbort_ : bool; SubmittedReceiveAbort_ : bool; ReservedReceiveAbort_ : bool;
  DesiredImmediate_ : bool; SubmittedImmediate_ : bool; ReservedImmediate_ : bool }.

Record terminal_control := {
  TerminalPhase_ : TerminalPhase; TerminalEscalation_ : Z; TerminalErrorCode_ : Z;
  TerminalShutdownIntent_ : TqTerminalShutdownIntent; TerminalShutdownAttempt_ : Z;
  TerminalRetryOwned_ : bool; TerminalAbortUpgradeReserved_ : bool;
  TerminalAbortUpgradeApplied_ : bool; TerminalSink_ : Z }.

Record TqStreamLifetime := {
  Phase_ : Phase; Stream_ : Z; Target_ : Z; RouteGeneration_ : Z; StartFailureStatus_ : Z;
  TerminalRetained_ : bool; SendDirectionComplete_ : bool; CancelOnLossErrorCode_ : Z;
  TerminalWatchdogSeconds_ : Z; dirs : directions; term : terminal_control;
  TerminalLedger_ : option TqTerminalLedger }.

Definition open_directions : directions :=
  {| DesiredSendShutdown_ := 0; SubmittedSendShutdown_ := 0; ReservedSendShutdown_ := 0;
     DesiredReceiveAbort_ := false; SubmittedReceiveAbort_ := false;
     ReservedReceiveAbort_ := false; DesiredImmediate_ := false; SubmittedImmediate_ := false;
     ReservedImmediate_ := false |}.

Definition active_control : terminal_control :=
  {| TerminalPhase_ := Active; TerminalEscalation_ := 0; TerminalErrorCode_ := 0;
     TerminalShutdownIntent_ := TerminalAbortBothImmediate; TerminalShutdownAttempt_ := 0;
     TerminalRetryOwned_ := false; TerminalAbortUpgradeReserved_ := false;
     TerminalAbortUpgradeApplied_ := false; TerminalSink_ := 0 |}.

(** The constructor. *)
Definition new_owner (status : Z) (phase : Phase) (initialTarget : Z) : TqStreamLifetime :=
  {| Phase_ := phase; Stream_ := 0; Target_ := initialTarget; RouteGeneration_ := 1;
     StartFailureStatus_ := status; TerminalRetained_ := false;
     SendDirectionComplete_ := false; CancelOnLossErrorCode_ := 0;
     TerminalWatchdogSeconds_ := 5; dirs := open_directions; term := active_control;
     TerminalLedger_ := None |}.

(** Field updates. *)
Definition set_route (o : TqStreamLifetime) (phase : Phase) (target generation : Z) :=
  {| Phase_ := phase; Stream_ := Stream_ o; Target_ := target; RouteGeneration_ := generation;
     StartFailureStatus_ := StartFailureStatus_ o; TerminalRetained_ := TerminalRetained_ o;
     SendDirectionComplete_ := SendDirectionComplete_ o;
     CancelOnLossErrorCode_ := CancelOnLossErrorCode_ o;
     TerminalWatchdogSeconds_ := TerminalWatchdogSeconds_ o; dirs := dirs o; term := term o;
     TerminalLedger_ := TerminalLedger_ o |}.

Definition set_misc (o : TqStreamLifetime) (stream failure : Z) (retained complete : bool)
    (loss seconds : Z) :=
  {| Phase_ := Phase_ o; Stream_ := stream; Target_ := Target_ o;
     RouteGeneration_ := RouteGeneration_ o; StartFailureStatus_ := failure;
     TerminalRetained_ := retained; SendDirectionComplete_ := complete;
     CancelOnLossErrorCode_ := loss; TerminalWatchdogSeconds_ := seconds; dirs := dirs o;
     term := term o; TerminalLedger_ := TerminalLedger_ o |}.

Definition set_dirs (o : TqStreamLifetime) (d : directions) :=
  {| Phase_ := Phase_ o; Stream_ := Stream_ o; Target_ := Target_ o;
     RouteGeneration_ := RouteGeneration_ o; StartFailureStatus_ := StartFailureStatus_ o;
     TerminalRetained_ := TerminalRetained_ o;
     SendDirectionComplete_ := SendDirectionComplete_ o;
     CancelOnLossErrorCode_ := CancelOnLossErrorCode_ o;
     TerminalWatchdogSeconds_ := TerminalWatchdogSeconds_ o; dirs := d; term := term o;
     TerminalLedger_ := TerminalLedger_ o |}.

Definition set_term (o : TqStreamLifetime) (t : terminal_control) :=
  {| Phase_ := Phase_ o; Stream_ := Stream_ o; Target_ := Target_ o;
     RouteGeneration_ := RouteGeneration_ o; StartFailureStatus_ := StartFailureStatus_ o;
     TerminalRetained_ := TerminalRetained_ o;
     SendDirectionComplete_ := SendDirectionComplete_ o;
     CancelOnLossErrorCode_ := CancelOnLossErrorCode_ o;
     TerminalWatchdogSeconds_ := TerminalWatchdogSeconds_ o; dirs := dirs o; term := t;
     TerminalLedger_ := TerminalLedger_ o |}.

Definition set_ledger (o : TqStreamLifetime) (l : option TqTerminalLedger) :=
  {| Phase_ := Phase_ o; Stream_ := Stream_ o; Target_ := Target_ o;
     RouteGeneration_ := RouteGeneration_ o; StartFailureStatus_ := StartFailureStatus_ o;
     TerminalRetained_ := TerminalRetained_ o;
     SendDirectionComplete_ := SendDirectionComplete_ o;
     CancelOnLossErrorCode_ := CancelOnLossErrorCode_ o;
     TerminalWatchdogSeconds_ := TerminalWatchdogSeconds_ o; dirs := dirs o; term := term o;
     TerminalLedger_ := l |}.

Definition set_terminal_phase (t : terminal_control) (p : TerminalPhase) (retry : bool) :=
  {| TerminalPhase_ := p; TerminalEscalation_ := TerminalEscalation_ t;
     TerminalErrorCode_ := TerminalErrorCode_ t;
     TerminalShutdownIntent_ := TerminalShutdownIntent_ t;
     TerminalShutdownAttempt_ := TerminalShutdownAttempt_ t; TerminalRetryOwned_ := retry;
     TerminalAbortUpgradeReserved_ := TerminalAbortUpgradeReserved_ t;
     TerminalAbortUpgradeApplied_ := TerminalAbortUpgradeApplied_ t;
     TerminalSink_ := TerminalSink_ t |}.

Definition set_upgrade (t : terminal_control) (reserved applied : bool) :=
  {| TerminalPhase_ := TerminalPhase_ t; TerminalEscalation_ := TerminalEscalation_ t;
     TerminalErrorCode_ := TerminalErrorCode_ t;
     TerminalShutdownIntent_ := TerminalShutdownIntent_ t;
     TerminalShutdownAttempt_ := TerminalShutdownAttempt_ t;
     TerminalRetryOwned_ := TerminalRetryOwned_ t; TerminalAbortUpgradeReserved_ := reserved;
     TerminalAbortUpgradeApplied_ := applied; TerminalSink_ := TerminalSink_ t |}.

Definition on_ledger (f : TqTerminalLedger -> TqTerminalLedger) (o : TqStreamLifetime) :=
  set_ledger o (option_map f (TerminalLedger_ o)).

Section Owner.
Context `{MsQuicApi}.

(** *** Start *)

Definition running (p : Phase) : bool :=
  bool_decide (p = Starting) || bool_decide (p = Started).

Definition InstallStream (valid manual : bool) (stream : Z) (o : TqStreamLifetime) :
    bool * TqStreamLifetime :=
  if (stream =? 0) || negb valid || negb manual then (false, o)
  else if negb (Stream_ o =? 0) || bool_decide (Phase_ o = Closed) then (false, o)
  else (true, set_misc o stream (StartFailureStatus_ o) (TerminalRetained_ o)
                (SendDirectionComplete_ o) (CancelOnLossErrorCode_ o)
                (TerminalWatchdogSeconds_ o)).

Definition BeginStart (o : TqStreamLifetime) : bool * TqStreamLifetime :=
  if bool_decide (Phase_ o = CreatedNotStarted)
  then (true, set_route o Starting (Target_ o) (RouteGeneration_ o)) else (false, o).

(** The branch of [CompleteStart] for a successful status. *)
Definition CompleteStart_ok (o : TqStreamLifetime) : bool * TqStreamLifetime :=
  match Phase_ o with
  | Starting => (true, set_route o Started (Target_ o) (RouteGeneration_ o))
  | Started | TerminalPublished => (true, o)
  | _ => (false, o)
  end.

Definition TryAcquireApi (o : TqStreamLifetime) : bool :=
  negb (Stream_ o =? 0) && running (Phase_ o).

(** [TryAcquireReceiveApi], which [TryAcquireSendApi] calls: the lease, and whether the
    suppression counter is raised. *)
Definition TryAcquireReceiveApi (o : TqStreamLifetime) : bool * bool :=
  if (Stream_ o =? 0) || negb (running (Phase_ o))
  then (false, bool_decide (Phase_ o = TerminalPublished) || bool_decide (Phase_ o = Closed))
  else (true, false).

(** *** Routing *)

Definition RouteSnapshot := (Z * Z)%type.

Definition snapshot (o : TqStreamLifetime) : RouteSnapshot := (Target_ o, RouteGeneration_ o).

Definition PublishTarget (expectedGeneration target : Z) (o : TqStreamLifetime) :
    option Z * TqStreamLifetime :=
  if (target =? 0) || negb (running (Phase_ o)) ||
     negb (expectedGeneration =? RouteGeneration_ o) then (None, o)
  else
    let generation := u64 (RouteGeneration_ o + 1) in
    (Some generation, set_route o (Phase_ o) target generation).

Definition PublishStartFailureAndTakeTarget (status : Z) (o : TqStreamLifetime) :
    option RouteSnapshot * TqStreamLifetime :=
  if bool_decide (Phase_ o = Starting) then
    let o' := set_route o StartFailed 0 (RouteGeneration_ o) in
    (Some (snapshot o),
     set_misc o' (Stream_ o') status (TerminalRetained_ o') (SendDirectionComplete_ o')
       (CancelOnLossErrorCode_ o') (TerminalWatchdogSeconds_ o'))
  else (None, o).

Definition PublishTerminalAndTakeTarget (o : TqStreamLifetime) :
    option RouteSnapshot * TqStreamLifetime :=
  match Phase_ o with
  | TerminalPublished | Closed | StartFailed | CreatedNotStarted => (None, o)
  | Starting | Started =>
      (Some (snapshot o),
       on_ledger (RecordEvent ShutdownComplete)
         (set_term (set_route o TerminalPublished 0 (RouteGeneration_ o))
            (set_terminal_phase (term o) TerminalObserved (TerminalRetryOwned_ (term o)))))
  end.

(** *** Retention and identity *)

(** [RetainUntilTerminalLocked] with this owner's entry of [g_terminalRetentions]: the entry,
    the owner and whether an exactly-once violation is counted. *)
Definition RetainUntilTerminal (entry : bool) (o : TqStreamLifetime) :
    bool * TqStreamLifetime * bool :=
  if TerminalRetained_ o then (entry, o, false)
  else if bool_decide (TerminalLedger_ o = None) then (entry, o, true)
  else if entry then (entry, o, true)
  else (true, set_misc o (Stream_ o) (StartFailureStatus_ o) true (SendDirectionComplete_ o)
                (CancelOnLossErrorCode_ o) (TerminalWatchdogSeconds_ o), false).

Definition ReleaseTerminalRetention (o : TqStreamLifetime) : TqStreamLifetime :=
  set_misc o (Stream_ o) (StartFailureStatus_ o) false (SendDirectionComplete_ o)
    (CancelOnLossErrorCode_ o) (TerminalWatchdogSeconds_ o).

(** The owner and whether an exactly-once violation is counted. *)
Definition BindTerminalIdentity (identity : TqTerminalIdentity) (seconds : Z)
    (o : TqStreamLifetime) : TqStreamLifetime * bool :=
  match TerminalLedger_ o with
  | Some l =>
      (o, negb (bool_decide (Identity l = identity)) ||
          negb (TerminalWatchdogSeconds_ o =? seconds))
  | None =>
      if (seconds <? 5) || (30 <? seconds) then (o, true)
      else
        (set_ledger (set_misc o (Stream_ o) (StartFailureStatus_ o) (TerminalRetained_ o)
                       (SendDirectionComplete_ o) (CancelOnLossErrorCode_ o) seconds)
           (Some (new_ledger identity seconds)), false)
  end.

(** *** Directional shutdown *)

(** What a [RequestShutdown] that goes on to the downcall has decided under the lock. *)
Record request := {
  errorCode : Z; sendRequest : Z; receiveRequest : bool; immediateRequest : bool;
  ownsSendReservation : bool; ownsReceiveReservation : bool; ownsImmediateReservation : bool }.

Definition desire (intent : ShutdownIntent) (d : directions) : directions :=
  let '(send, receive, immediate) :=
    match intent with
    | GracefulSend => (if DesiredSendShutdown_ d <? 1 then 1 else DesiredSendShutdown_ d,
                       DesiredReceiveAbort_ d, DesiredImmediate_ d)
    | AbortSend => (2, DesiredReceiveAbort_ d, DesiredImmediate_ d)
    | AbortReceive => (DesiredSendShutdown_ d, true, DesiredImmediate_ d)
    | AbortBothImmediate => (2, true, true)
    | AbortBoth => (2, true, DesiredImmediate_ d)
    end in
  {| DesiredSendShutdown_ := send; SubmittedSendShutdown_ := SubmittedSendShutdown_ d;
     ReservedSendShutdown_ := ReservedSendShutdown_ d; DesiredReceiveAbort_ := receive;
     SubmittedReceiveAbort_ := SubmittedReceiveAbort_ d;
     ReservedReceiveAbort_ := ReservedReceiveAbort_ d; DesiredImmediate_ := immediate;
     SubmittedImmediate_ := SubmittedImmediate_ d; ReservedImmediate_ := ReservedImmediate_ d |}.

(** The first critical section after the phase check. *)
Definition reserve (intent : ShutdownIntent) (error : Z) (d0 : directions) :
    directions * option request :=
  let d := desire intent d0 in
  let ownsSend := (SubmittedSendShutdown_ d <? DesiredSendShutdown_ d) &&
                  (ReservedSendShutdown_ d <? DesiredSendShutdown_ d) in
  let ownsReceive := DesiredReceiveAbort_ d && negb (SubmittedReceiveAbort_ d) &&
                     negb (ReservedReceiveAbort_ d) in
  let ownsImmediate := bool_decide (intent = AbortBothImmediate) && DesiredImmediate_ d &&
                       negb (SubmittedImmediate_ d) && negb (ReservedImmediate_ d) in
  let send := if ownsImmediate then 2
              else if ownsSend then DesiredSendShutdown_ d else 0 in
  let receive := ownsReceive || ownsImmediate in
  ({| DesiredSendShutdown_ := DesiredSendShutdown_ d;
      SubmittedSendShutdown_ := SubmittedSendShutdown_ d;
      ReservedSendShutdown_ :=
        if ownsSend then DesiredSendShutdown_ d else ReservedSendShutdown_ d;
      DesiredReceiveAbort_ := DesiredReceiveAbort_ d;
      SubmittedReceiveAbort_ := SubmittedReceiveAbort_ d;
      ReservedReceiveAbort_ := ownsReceive || ReservedReceiveAbort_ d;
      DesiredImmediate_ := DesiredImmediate_ d; SubmittedImmediate_ := SubmittedImmediate_ d;
      ReservedImmediate_ := ownsImmediate || ReservedImmediate_ d |},
   if (send =? 0) && negb receive then None
   else Some {| errorCode := error; sendRequest := send; receiveRequest := receive;
                immediateRequest := ownsImmediate; ownsSendReservation := ownsSend;
                ownsReceiveReservation := ownsReceive;
                ownsImmediateReservation := ownsImmediate |}).

Definition shutdown_flags (r : request) : Z :=
  let flags := SHUTDOWN_FLAG_NONE in
  let flags := if sendRequest r =? 1 then Z.lor flags SHUTDOWN_FLAG_GRACEFUL
               else if sendRequest r =? 2 then Z.lor flags SHUTDOWN_FLAG_ABORT_SEND
               else flags in
  let flags := if receiveRequest r then Z.lor flags SHUTDOWN_FLAG_ABORT_RECEIVE else flags in
  if immediateRequest r then Z.lor flags SHUTDOWN_FLAG_IMMEDIATE else flags.

(** The last critical section. *)
Definition commit (r : request) (status : Z) (d : directions) : directions :=
  let ok := QUIC_SUCCEEDED status in
  {| DesiredSendShutdown_ := DesiredSendShutdown_ d;
     SubmittedSendShutdown_ :=
       if ok && negb (sendRequest r =? 0) && (SubmittedSendShutdown_ d <? sendRequest r)
       then sendRequest r else SubmittedSendShutdown_ d;
     ReservedSendShutdown_ :=
       if ownsSendReservation r && (ReservedSendShutdown_ d =? sendRequest r) then 0
       else ReservedSendShutdown_ d;
     DesiredReceiveAbort_ := DesiredReceiveAbort_ d;
     SubmittedReceiveAbort_ := (ok && receiveRequest r) || SubmittedReceiveAbort_ d;
     ReservedReceiveAbort_ :=
       if ownsReceiveReservation r && ReservedReceiveAbort_ d then false
       else ReservedReceiveAbort_ d;
     DesiredImmediate_ := DesiredImmediate_ d;
     SubmittedImmediate_ := (ok && immediateRequest r) || SubmittedImmediate_ d;
     ReservedImmediate_ :=
       if ownsImmediateReservation r && ReservedImmediate_ d then false
       else ReservedImmediate_ d |}.

(** The SEND_SHUTDOWN_COMPLETE branch of [Dispatch]. *)
Definition send_shutdown_complete (graceful : bool) (d : directions) : directions :=
  let submitted := SubmittedSendShutdown_ d in
  let reached := if graceful then if submitted <? 1 then 1 else submitted
                 else if submitted <? 2 then 2 else submitted in
  {| DesiredSendShutdown_ := DesiredSendShutdown_ d; SubmittedSendShutdown_ := reached;
     ReservedSendShutdown_ := ReservedSendShutdown_ d;
     DesiredReceiveAbort_ := DesiredReceiveAbort_ d;
     SubmittedReceiveAbort_ := SubmittedReceiveAbort_ d;
     ReservedReceiveAbort_ := ReservedReceiveAbort_ d; DesiredImmediate_ := DesiredImmediate_ d;
     SubmittedImmediate_ := SubmittedImmediate_ d; ReservedImmediate_ := ReservedImmediate_ d |}.

(** *** Terminal shutdown *)

Record TqTerminalShutdownResult := {
  Status : Z; Attempt : Z; Submitted : bool; AlreadyTerminal : bool; RetryScheduled : bool }.

Definition no_result : TqTerminalShutdownResult :=
  {| Status := QUIC_STATUS_SUCCESS; Attempt := 0; Submitted := false; AlreadyTerminal := false;
     RetryScheduled := false |}.

(** The arguments of a [BeginTerminalShutdown] that reserved the shutdown, and its attempt. *)
Record begin_call := {
  bErrorCode : Z; bIntent : TqTerminalShutdownIntent; bAttempt : Z }.

Inductive begin_outcome :=
| BeginReturns (r : TqTerminalShutdownResult)
| BeginIllegal (r : TqTerminalShutdownResult)
| BeginDowncall (b : begin_call).

Definition observed (o : TqStreamLifetime) : bool :=
  bool_decide (TerminalPhase_ (term o) = TerminalObserved) ||
  bool_decide (Phase_ o = TerminalPublished).

Definition result_of (status attempt : Z) (submitted already : bool) : TqTerminalShutdownResult :=
  {| Status := status; Attempt := attempt; Submitted := submitted; AlreadyTerminal := already;
     RetryScheduled := false |}.

(** The first critical section of [BeginTerminalShutdown]. *)
Definition begin_reserve (error sink escalation : Z) (intent : TqTerminalShutdownIntent)
    (o : TqStreamLifetime) : begin_outcome * TqStreamLifetime :=
  let t := term o in
  if observed o then (BeginReturns (result_of QUIC_STATUS_SUCCESS 0 false true), o)
  else if bool_decide (TerminalPhase_ t = ShutdownSubmitted) then
    (BeginReturns (result_of QUIC_STATUS_SUCCESS (TerminalShutdownAttempt_ t) true false), o)
  else if bool_decide (TerminalPhase_ t = ShutdownReserved) then
    (BeginReturns (result_of QUIC_STATUS_SUCCESS (TerminalShutdownAttempt_ t) false false), o)
  else if (Stream_ o =? 0) || bool_decide (TerminalLedger_ o = None) ||
          negb (running (Phase_ o)) || (sink =? 0) then
    (BeginIllegal (result_of QUIC_STATUS_INVALID_STATE 0 false false), o)
  else
    let attempt := u32 (TerminalShutdownAttempt_ t + 1) in
    let t' := {| TerminalPhase_ := ShutdownReserved; TerminalEscalation_ := escalation;
                 TerminalErrorCode_ := error; TerminalShutdownIntent_ := intent;
                 TerminalShutdownAttempt_ := attempt; TerminalRetryOwned_ := false;
                 TerminalAbortUpgradeReserved_ := TerminalAbortUpgradeReserved_ t;
                 TerminalAbortUpgradeApplied_ := TerminalAbortUpgradeApplied_ t;
                 TerminalSink_ := sink |} in
    (BeginDowncall {| bErrorCode := error; bIntent := intent; bAttempt := attempt |},
     on_ledger (fun l => ledger_attempt l ShutdownReserved error (ShutdownStatus l)
                           (LShutdownIntent l) attempt)
       (set_term (set_route o (Phase_ o) sink (u64 (RouteGeneration_ o + 1))) t')).

Definition terminal_flags (intent : TqTerminalShutdownIntent) : Z :=
  if bool_decide (intent = GracefulComplete) then SHUTDOWN_FLAG_GRACEFUL
  else Z.lor SHUTDOWN_FLAG_ABORT SHUTDOWN_FLAG_IMMEDIATE.

(** The critical section after the downcall; [None] when the call returns there. *)
Definition begin_commit (b : begin_call) (status : Z) (o : TqStreamLifetime) :
    option TqTerminalShutdownResult * TqStreamLifetime :=
  let t := term o in
  if observed o then (None, o)
  else if QUIC_SUCCEEDED status then
    (Some (result_of status (bAttempt b) true false),
     set_term o (set_terminal_phase t ShutdownSubmitted (TerminalRetryOwned_ t)))
  else if bool_decide (TerminalPhase_ t = ShutdownReserved) then
    (Some (result_of status (bAttempt b) false false),
     set_term o (set_terminal_phase t Active true))
  else (Some (result_of status (bAttempt b) false false), o).

Record upgrade_call := { uErrorCode : Z; uEscalation : Z; uAttempt : Z }.

(** The first critical section of [UpgradeTerminalShutdownToAbort]. *)
Definition upgrade_reserve (error escalation : Z) (o : TqStreamLifetime) :
    TqTerminalShutdownResult + upgrade_call * TqStreamLifetime :=
  let t := term o in
  let attempt := TerminalShutdownAttempt_ t in
  if observed o then inl (result_of QUIC_STATUS_SUCCESS attempt false true)
  else if TerminalAbortUpgradeApplied_ t then
    inl (result_of QUIC_STATUS_SUCCESS attempt true false)
  else if TerminalAbortUpgradeReserved_ t then
    inl (result_of QUIC_STATUS_SUCCESS attempt false false)
  else if negb (bool_decide (TerminalPhase_ t = ShutdownSubmitted)) ||
          (negb (bool_decide (TerminalShutdownIntent_ t = GracefulComplete)) &&
           negb (bool_decide (TerminalShutdownIntent_ t = TerminalAbortBothImmediate))) ||
          (Stream_ o =? 0) || bool_decide (TerminalLedger_ o = None) then
    inl (result_of QUIC_STATUS_INVALID_STATE attempt false false)
  else
    let escalation' := if escalation =? 0 then TerminalEscalation_ t else escalation in
    let attempt' := u32 (attempt + 1) in
    inr ({| uErrorCode := error; uEscalation := escalation'; uAttempt := attempt' |},
         set_term o
           {| TerminalPhase_ := TerminalPhase_ t; TerminalEscalation_ := escalation';
              TerminalErrorCode_ := error;
              TerminalShutdownIntent_ := TerminalAbortBothImmediate;
              TerminalShutdownAttempt_ := attempt';
              TerminalRetryOwned_ := TerminalRetryOwned_ t;
              TerminalAbortUpgradeReserved_ := true;
              TerminalAbortUpgradeApplied_ := TerminalAbortUpgradeApplied_ t;
              TerminalSink_ := TerminalSink_ t |}).

(** The two critical sections after the upgrade's downcall. *)
Definition upgrade_commit (u : upgrade_call) (status : Z) (o : TqStreamLifetime) :
    TqTerminalShutdownResult * TqStreamLifetime :=
  let t := term o in
  if observed o then
    (result_of status (uAttempt u) false true,
     set_term o (set_upgrade t false (TerminalAbortUpgradeApplied_ t)))
  else if QUIC_SUCCEEDED status then
    (result_of status (uAttempt u) true false, set_term o (set_upgrade t false true))
  else
    (result_of status (uAttempt u) false false,
     set_term o (set_upgrade t false (TerminalAbortUpgradeApplied_ t))).

Definition upgrade_record (u : upgrade_call) (r : TqTerminalShutdownResult)
    (l : TqTerminalLedger) : bool * TqTerminalLedger :=
  let submit := Submitted r && negb (terminal_phase (LPhase l)) in
  let escalate := submit && negb (uEscalation u =? 0) && negb (ConnectionEscalated l) in
  let l' := ledger_attempt l (if submit then ShutdownSubmitted else LPhase l) (uErrorCode u)
              (Status r) TerminalAbortBothImmediate (Attempt r) in
  (escalate, if escalate then ledger_watchdog l' Escalated true else l').

(** The destructor's critical section. *)
Definition destroy (o : TqStreamLifetime) : TqStreamLifetime :=
  let o' := set_term (set_route o Closed 0 (RouteGeneration_ o))
              (set_terminal_phase (term o) TerminalClosed (TerminalRetryOwned_ (term o))) in
  set_misc o' 0 (StartFailureStatus_ o') (TerminalRetained_ o') (SendDirectionComplete_ o')
    (CancelOnLossErrorCode_ o') (TerminalWatchdogSeconds_ o').

End Owner.

(** ** Threads *)

Inductive ScheduledKind := Retry | WatchdogKind | Timeout.

(** A scheduler task of this stream; its due time is not represented, a queued task may run at
    any moment. *)
Record ScheduledTask := {
  Kind : ScheduledKind; tErrorCode : Z; CompletedAttempt : Z; Escalation : Z }.

Inductive stream_event :=
| START_COMPLETE (status : Z)
| SEND_SHUTDOWN_COMPLETE (graceful : bool)
| SHUTDOWN_COMPLETE
| CANCEL_ON_LOSS
| OTHER (type : Z).

(** What a helper returns to: its caller, or the end of [Dispatch] with the snapshot it
    produced, which re-reads the route when there is none in the START_COMPLETE and
    CANCEL_ON_LOSS branches. *)
Inductive kont :=
| KReturn
| KRoute (e : stream_event) (target generation : Z)
| KReread (e : stream_event) (target generation : Z).

Inductive pc :=
| Idle
| Retain
| Release (k : kont)
| SchedulerCancel (k : kont)
| SchedulerErase (k : kont)
| ShutdownEnter (intent : ShutdownIntent) (error : Z) (k : kont)
| ShutdownDowncall (r : request) (k : kont)
| ShutdownCommit (r : request) (status : Z) (k : kont)
| DispatchSnapshot (e : stream_event)
| Deliver (e : stream_event) (target generation : Z)
| RetryRead
| RetryEnter (error sink escalation : Z) (intent : TqTerminalShutdownIntent)
| TerminalIllegal (status error escalation : Z)
| TerminalDowncall (b : begin_call)
| TerminalCommit (b : begin_call) (status : Z)
| TerminalRecord (b : begin_call) (r : TqTerminalShutdownResult)
| TerminalSchedule (b : begin_call) (r : TqTerminalShutdownResult)
| ScheduleArm (task : ScheduledTask)
| ScheduleRetry (task : ScheduledTask)
| UpgradeDowncall (u : upgrade_call)
| UpgradeCommit (u : upgrade_call) (status : Z)
| UpgradeRecord (u : upgrade_call) (r : TqTerminalShutdownResult)
| Escalate (task : ScheduledTask) (again : nat)
| EscalateCall (escalation status error : Z) (after : option (ScheduledTask * nat))
| QueueTimeout (task : ScheduledTask) (again : nat).

(** What the rest of the program can observe. *)
Inductive event :=
| EvShutdown (r : request) (flags status : Z)       (* stream->Shutdown in RequestShutdown *)
| EvTerminal (b : begin_call) (flags status : Z)    (* ... in BeginTerminalShutdown *)
| EvUpgrade (u : upgrade_call) (flags status : Z)   (* ... in UpgradeTerminalShutdownToAbort *)
| EvConnectionShutdown (escalation status error : Z)
| EvTaken (e : Phase) (target generation : Z)       (* the target leaves the owner *)
| EvDeliver (e : stream_event) (target generation : Z)
| EvLease
| EvPublished (target generation : Z).

Record shared := {
  owner : TqStreamLifetime;
  retention : bool;              (* this owner's entry of g_terminalRetentions *)
  tasks : list ScheduledTask;    (* this stream's tasks in g_scheduler *)
  suppressed : Z;                (* g_terminalApiSuppressedCount *)
  violations : Z;                (* g_terminalExactlyOnceViolations *)
  log : list event }.            (* newest first *)

Definition with_owner (s : shared) (o : TqStreamLifetime) : shared :=
  {| owner := o; retention := retention s; tasks := tasks s; suppressed := suppressed s;
     violations := violations s; log := log s |}.
Definition with_tasks (s : shared) (ts : list ScheduledTask) : shared :=
  {| owner := owner s; retention := retention s; tasks := ts; suppressed := suppressed s;
     violations := violations s; log := log s |}.
Definition with_retention (s : shared) (r : bool) : shared :=
  {| owner := owner s; retention := r; tasks := tasks s; suppressed := suppressed s;
     violations := violations s; log := log s |}.
Definition count_up (s : shared) (suppress violate : bool) : shared :=
  {| owner := owner s; retention := retention s; tasks := tasks s;
     suppressed := if suppress then u64 (suppressed s + 1) else suppressed s;
     violations := if violate then u64 (violations s + 1) else violations s; log := log s |}.
Definition emit (e : event) (s : shared) : shared :=
  {| owner := owner s; retention := retention s; tasks := tasks s; suppressed := suppressed s;
     violations := violations s; log := e :: log s |}.

Definition resume (k : kont) : pc :=
  match k with
  | KReturn => Idle
  | KRoute e t g => if t =? 0 then Idle else Deliver e t g
  | KReread e t g => if t =? 0 then DispatchSnapshot e else Deliver e t g
  end.

Inductive call :=
| CBeginStart
| CCompleteStart (status : Z)
| CTryAcquireApi
| CTryAcquireReceiveApi
| CRequestShutdown (intent : ShutdownIntent) (error : Z)
| CBeginTerminalShutdown (error sink escalation : Z) (intent : TqTerminalShutdownIntent)
| CUpgradeTerminalShutdownToAbort (error escalation : Z)
| CPublishTarget (expected target : Z)
| CPublishTerminalAndTakeTarget
| CPublishStartFailureAndTakeTarget (status : Z)
| CDispatch (e : stream_event)
| CBindTerminalIdentity (identity : TqTerminalIdentity) (seconds : Z)
| CMarkHandoffFacts (inRegistry relayActive tcpValid : bool)
| CSinkEvent (e : TqTerminalEvent)
| CExecuteTask (i : nat)
| CSchedulerStop.

Section Threads.
Context `{MsQuicApi}.

Definition request_shutdown (intent : ShutdownIntent) (error : Z) (k : kont) (s : shared) :
    pc * shared :=
  let o := owner s in
  if (Stream_ o =? 0) || negb (running (Phase_ o)) then (resume k, s)
  else
    let '(d, req) := reserve intent error (dirs o) in
    (match req with Some r => ShutdownDowncall r k | None => resume k end,
     with_owner s (set_dirs o d)).

Definition begin_terminal_shutdown (error sink escalation : Z)
    (intent : TqTerminalShutdownIntent) (s : shared) : pc * shared :=
  let '(outcome, o) := begin_reserve error sink escalation intent (owner s) in
  match outcome with
  | BeginReturns _ => (Idle, with_owner s o)
  | BeginIllegal r =>
      (if negb (escalation =? 0) && negb (bool_decide (TerminalLedger_ o = None))
       then TerminalIllegal (Status r) error escalation else Idle, with_owner s o)
  | BeginDowncall b => (TerminalDowncall b, with_owner s o)
  end.

(** [next] is where the [START_COMPLETE] or the plain call goes when nothing was taken. *)
Definition publish_start_failure (status : Z) (k : Z -> Z -> kont) (s : shared) : pc * shared :=
  match PublishStartFailureAndTakeTarget status (owner s) with
  | (Some (t, g), o) => (Release (k t g), emit (EvTaken StartFailed t g) (with_owner s o))
  | (None, o) => (resume (k 0 0), with_owner s o)
  end.

Definition publish_terminal (k : Z -> Z -> kont) (s : shared) : pc * shared :=
  match PublishTerminalAndTakeTarget (owner s) with
  | (Some (t, g), o) =>
      (if bool_decide (TerminalLedger_ o = None) then Release (k t g) else SchedulerCancel (k t g),
       emit (EvTaken TerminalPublished t g) (with_owner s o))
  | (None, o) => (resume (k 0 0), with_owner s o)
  end.

Definition kCancelOnLossStableErrorCode : Z := 1414615107.

Definition Dispatch (e : stream_event) (s : shared) : pc * shared :=
  let o := owner s in
  match e with
  | SHUTDOWN_COMPLETE => publish_terminal (KRoute e) s
  | SEND_SHUTDOWN_COMPLETE graceful =>
      let o' := set_dirs o (send_shutdown_complete graceful (dirs o)) in
      (DispatchSnapshot e,
       with_owner s (set_misc o' (Stream_ o') (StartFailureStatus_ o') (TerminalRetained_ o')
                       true (CancelOnLossErrorCode_ o') (TerminalWatchdogSeconds_ o')))
  | CANCEL_ON_LOSS =>
      (ShutdownEnter AbortBoth 0 (KReread e 0 0),
       with_owner s (set_misc o (Stream_ o) (StartFailureStatus_ o) (TerminalRetained_ o)
                       (SendDirectionComplete_ o) kCancelOnLossStableErrorCode
                       (TerminalWatchdogSeconds_ o)))
  | START_COMPLETE status =>
      if QUIC_SUCCEEDED status
      then (DispatchSnapshot e, with_owner s (CompleteStart_ok o).2)
      else publish_start_failure status (KReread e) s
  | OTHER _ => (DispatchSnapshot e, s)
  end.

(** [ExecuteTask] on the [i]-th queued task. *)
Definition execute_task (i : nat) (s : shared) : pc * shared :=
  match tasks s !! i with
  | None => (Idle, s)
  | Some task =>
      let s := with_tasks s (delete i (tasks s)) in
      match Kind task, TerminalLedger_ (owner s) with
      | Retry, Some l => (if RetryAllowed l then RetryRead else Idle, s)
      | WatchdogKind, _ => (Escalate task 0, s)
      | Timeout, Some l => (Idle, with_owner s (on_ledger (fun l => (MarkTimedOut l).2) (owner s)))
      | _, None => (Idle, s)
      end
  end.

Definition call_step (c : call) (s : shared) : pc * shared :=
  let o := owner s in
  match c with
  | CBeginStart =>
      let '(ok, o') := BeginStart o in (if ok then Retain else Idle, with_owner s o')
  | CCompleteStart status =>
      if QUIC_SUCCEEDED status then (Idle, with_owner s (CompleteStart_ok o).2)
      else publish_start_failure status (fun _ _ => KReturn) s
  | CTryAcquireApi => (Idle, if TryAcquireApi o then emit EvLease s else s)
  | CTryAcquireReceiveApi =>
      let '(lease, suppress) := TryAcquireReceiveApi o in
      (Idle, count_up (if lease then emit EvLease s else s) suppress false)
  | CRequestShutdown intent error => request_shutdown intent error KReturn s
  | CBeginTerminalShutdown error sink escalation intent =>
      begin_terminal_shutdown error sink escalation intent s
  | CUpgradeTerminalShutdownToAbort error escalation =>
      match upgrade_reserve error escalation o with
      | inl _ => (Idle, s)
      | inr (u, o') => (UpgradeDowncall u, with_owner s o')
      end
  | CPublishTarget expected target =>
      match PublishTarget expected target o with
      | (Some g, o') => (Idle, emit (EvPublished target g) (with_owner s o'))
      | (None, o') => (Idle, with_owner s o')
      end
  | CPublishTerminalAndTakeTarget => publish_terminal (fun _ _ => KReturn) s
  | CPublishStartFailureAndTakeTarget status =>
      publish_start_failure status (fun _ _ => KReturn) s
  | CDispatch e => Dispatch e s
  | CBindTerminalIdentity identity seconds =>
      let '(o', violation) := BindTerminalIdentity identity seconds o in
      (Idle, count_up (with_owner s o') false violation)
  | CMarkHandoffFacts a b c => (Idle, with_owner s (on_ledger (MarkHandoffFacts a b c) o))
  | CSinkEvent e => (Idle, with_owner s (on_ledger (RecordEvent e) o))
  | CExecuteTask i => execute_task i s
  | CSchedulerStop =>
      (Idle, with_owner (with_tasks s []) (on_ledger (fun l => (CancelWatchdog l).2) o))
  end.

(** [ledger_section f s] runs a critical section on the ledger and returns what it answers. *)
Definition ledger_section {A} (default : A) (f : TqTerminalLedger -> A * TqTerminalLedger)
    (s : shared) : A * shared :=
  match TerminalLedger_ (owner s) with
  | None => (default, s)
  | Some l => let '(a, l') := f l in (a, with_owner s (set_ledger (owner s) (Some l')))
  end.

Definition escalate_again (task : ScheduledTask) (again : nat) : pc :=
  match again with O => Idle | S n => Escalate task n end.

(** [Escalate] up to the virtual call; [again] more calls of it follow. *)
Definition escalate (task : ScheduledTask) (again : nat) (s : shared) : pc * shared :=
  let '(status, s') := ledger_section None MarkEscalated s in
  match status with
  | None => (escalate_again task again, s')
  | Some st =>
      (if Escalation task =? 0 then QueueTimeout task again
       else EscalateCall (Escalation task) st (tErrorCode task) (Some (task, again)), s')
  end.

Definition queue_timeout (room : bool) (task : ScheduledTask) (again : nat) (s : shared) :
    pc * shared :=
  let timeout := {| Kind := Timeout; tErrorCode := tErrorCode task;
                    CompletedAttempt := CompletedAttempt task;
                    Escalation := Escalation task |} in
  (escalate_again task again, if room then with_tasks s (timeout :: tasks s) else s).

(** [ArmWatchdog]. *)
Definition arm_watchdog (room : bool) (task : ScheduledTask) (s : shared) : pc * shared :=
  let '(queued, s') := ledger_section false (ArmAndEnqueue room) s in
  if queued then (Idle, with_tasks s' (task :: tasks s')) else (Escalate task 0, s').

(** [ScheduleRetry], and the second call of it with attempt 4 that [BeginTerminalShutdown] makes
    when the first one fails. *)
Definition schedule_retry (room : bool) (task : ScheduledTask) (s : shared) : pc * shared :=
  let a := CompletedAttempt task in
  if a =? 0 then (Escalate task 0, s)
  else if 4 <=? a then (Escalate task 1, s)
  else
    let '(queued, s') := ledger_section false (fun l => (RetryAllowed l && room, l)) s in
    if queued then (Idle, with_tasks s' (task :: tasks s')) else (Escalate task 0, s').

(** The end of [BeginTerminalShutdown]: what it asks the scheduler for. *)
Definition terminal_schedule (b : begin_call) (r : TqTerminalShutdownResult)
    (o : TqStreamLifetime) : pc :=
  let t := term o in
  let graceful := bool_decide (bIntent b = GracefulComplete) in
  let task kind attempt :=
    {| Kind := kind; tErrorCode := TerminalErrorCode_ t; CompletedAttempt := attempt;
       Escalation := TerminalEscalation_ t |} in
  if Submitted r && negb graceful then ScheduleArm (task WatchdogKind 0)
  else if negb graceful && negb (AlreadyTerminal r) && negb (QUIC_SUCCEEDED (Status r))
  then ScheduleRetry (task Retry (Attempt r)) else Idle.

(** [RetryTerminalShutdown] up to the call of [BeginTerminalShutdown]. *)
Definition RetryTerminalShutdown (o : TqStreamLifetime) : pc :=
  let t := term o in
  RetryEnter (TerminalErrorCode_ t) (TerminalSink_ t) (TerminalEscalation_ t)
    (TerminalShutdownIntent_ t).

(** The next step of a thread; [answer] is the status MsQuic returns and [room] whether the
    scheduler can take a task (or still indexes the stream). *)
Definition run_step (p : pc) (answer : Z) (room : bool) (s : shared) : pc * shared :=
  let o := owner s in
  match p with
  | Idle => (Idle, s)
  | Retain =>
      let '(entry, o', violation) := RetainUntilTerminal (retention s) o in
      (Idle, count_up (with_retention (with_owner s o') entry) false violation)
  | Release k =>
      (resume k, with_retention (with_owner s (ReleaseTerminalRetention o)) false)
  | SchedulerCancel k =>
      (SchedulerErase k,
       if room then with_owner s (on_ledger (fun l => (CancelWatchdog l).2) o) else s)
  | SchedulerErase k => (Release k, with_tasks s [])
  | ShutdownEnter intent error k => request_shutdown intent error k s
  | ShutdownDowncall r k =>
      (ShutdownCommit r answer k, emit (EvShutdown r (shutdown_flags r) answer) s)
  | ShutdownCommit r status k =>
      (resume k, with_owner s (set_dirs o (commit r status (dirs o))))
  | DispatchSnapshot e =>
      let '(t, g) := snapshot o in (if t =? 0 then Idle else Deliver e t g, s)
  | Deliver e t g => (Idle, emit (EvDeliver e t g) s)
  | RetryRead => (RetryTerminalShutdown o, s)
  | RetryEnter error sink escalation intent =>
      begin_terminal_shutdown error sink escalation intent s
  | TerminalIllegal status error escalation =>
      let '(call, s') := ledger_section false mark_illegal s in
      (if call then EscalateCall escalation status error None else Idle, s')
  | TerminalDowncall b =>
      (TerminalCommit b answer, emit (EvTerminal b (terminal_flags (bIntent b)) answer) s)
  | TerminalCommit b status =>
      match begin_commit b status o with
      | (None, o') => (Idle, with_owner s o')
      | (Some r, o') => (TerminalRecord b r, with_owner s o')
      end
  | TerminalRecord b r =>
      (TerminalSchedule b r,
       with_owner s
         (on_ledger (RecordShutdown (Status r) (Attempt r) (Submitted r) (bIntent b)) o))
  | TerminalSchedule b r => (terminal_schedule b r o, s)
  | ScheduleArm task => arm_watchdog room task s
  | ScheduleRetry task => schedule_retry room task s
  | UpgradeDowncall u =>
      (UpgradeCommit u answer,
       emit (EvUpgrade u (Z.lor SHUTDOWN_FLAG_ABORT SHUTDOWN_FLAG_IMMEDIATE) answer) s)
  | UpgradeCommit u status =>
      let '(r, o') := upgrade_commit u status o in (UpgradeRecord u r, with_owner s o')
  | UpgradeRecord u r =>
      let '(call, s') := ledger_section false (upgrade_record u r) s in
      (if call then EscalateCall (uEscalation u) (Status r) (uErrorCode u) None else Idle, s')
  | Escalate task again => escalate task again s
  | EscalateCall escalation status error after =>
      (match after with None => Idle | Some (task, again) => QueueTimeout task again end,
       emit (EvConnectionShutdown escalation status error) s)
  | QueueTimeout task again => queue_timeout room task again s
  end.

(** *** The system *)

Record sys := { sh : shared; threads : list pc }.

Inductive action :=
| Call (t : nat) (c : call)
| Run (t : nat) (answer : Z) (room : bool)
| Destroy.

Definition is_idle (p : pc) : bool := match p with Idle => true | _ => false end.

(** The destructor runs when nobody holds the owner: no thread inside it, no retention. *)
Definition exec (a : action) (s : sys) : option sys :=
  if bool_decide (Phase_ (owner (sh s)) = Closed) then None
  else match a with
  | Call t c =>
      match threads s !! t with
      | Some Idle =>
          let '(p, s') := call_step c (sh s) in
          Some {| sh := s'; threads := <[t := p]> (threads s) |}
      | _ => None
      end
  | Run t answer room =>
      match threads s !! t with
      | Some Idle | None => None
      | Some p =>
          let '(p', s') := run_step p answer room (sh s) in
          Some {| sh := s'; threads := <[t := p']> (threads s) |}
      end
  | Destroy =>
      if forallb is_idle (threads s) && negb (retention (sh s))
      then Some {| sh := with_owner (sh s) (destroy (owner (sh s))); threads := threads s |}
      else None
  end.

(** [OpenOutgoing] and [AdoptAccepted]: the owner they return, with its retention entry;
    [stream], [valid] describe the wrapper MsQuic opened. *)
Definition make_owner (phase : Phase) (initialTarget : Z) (identity : TqTerminalIdentity)
    (watchdogSeconds stream : Z) (valid : bool) : option (TqStreamLifetime * bool) :=
  let o := new_owner QUIC_STATUS_SUCCESS phase initialTarget in
  let o := (BindTerminalIdentity identity watchdogSeconds o).1 in
  if bool_decide (TerminalLedger_ o = None) then None
  else
    let '(entry, o, _) := RetainUntilTerminal false o in
    let '(installed, o) := InstallStream valid true stream o in
    if installed then Some (o, entry) else None.

Definition OpenOutgoing := make_owner CreatedNotStarted.

Definition AdoptAccepted (rawStream : Z) (initialTarget : Z) (identity : TqTerminalIdentity)
    (watchdogSeconds stream : Z) (valid : bool) : option (TqStreamLifetime * bool) :=
  if rawStream =? 0 then None
  else make_owner Started initialTarget identity watchdogSeconds stream valid.

Definition created (o : TqStreamLifetime) (entry : bool) : Prop :=
  (exists target identity seconds stream valid,
     OpenOutgoing target identity seconds stream valid = Some (o, entry)) \/
  (exists raw target identity seconds stream valid,
     AdoptAccepted raw target identity seconds stream valid = Some (o, entry)).

Definition start (o : TqStreamLifetime) (entry : bool) (n : nat) : sys :=
  {| sh := {| owner := o; retention := entry; tasks := []; suppressed := 0; violations := 0;
              log := [] |};
     threads := replicate n Idle |}.

Inductive reachable : sys -> Prop :=
| reach_start o entry n : created o entry -> reachable (start o entry n)
| reach_step s a s' : reachable s -> exec a s = Some s' -> reachable s'.

End Threads.
