(* ===== verification/StreamShutdown.v ===== *)
(** What the stream owner guarantees: every [Shutdown] downcall it makes is accepted at most
    once, reservations are always given back, the connection is escalated at most once and the
    terminal event reaches at most one target.

    The first part accounts for the duties of the downcalls: a duty is carried by at most one
    thread or was accepted once, and the reservation fields of the owner say which.  Every step
    of [StreamLifetime] is shown to move duties in one of four ways ([moves]), and the accounts
    follow for all reachable states. *)

From stdpp Require Import base list strings numbers.
From Stdlib Require Import ZArith Lia.
From S2P Require Import Prelude StreamLifetime.
Local Open Scope Z_scope.

(** The helpers [run_step] is made of. *)
Ltac open_step :=
  unfold escalate, queue_timeout, arm_watchdog, schedule_retry, terminal_schedule,
    RetryTerminalShutdown.
Ltac open_step_in H :=
  unfold escalate, queue_timeout, arm_watchdog, schedule_retry, terminal_schedule,
    RetryTerminalShutdown in H.

(** ** Accounting of the downcalls *)

(** What a [Shutdown] downcall can be responsible for: the graceful and the abortive end of the
    send direction, the abort of the receive direction, the immediate upgrade, the terminal
    shutdown and its upgrade to an abort. *)
Inductive duty := DGraceful | DAbortSend | DAbortReceive | DImmediate | DTerminal | DUpgrade.
#[global] Instance duty_eq_dec : EqDecision duty.
Proof. solve_decision. Defined.

Definition owns (c : duty) (r : request) : bool :=
  match c with
  | DGraceful => ownsSendReservation r && (sendRequest r =? 1)
  | DAbortSend => ownsSendReservation r && (sendRequest r =? 2)
  | DAbortReceive => ownsReceiveReservation r
  | DImmediate => ownsImmediateReservation r
  | DTerminal | DUpgrade => false
  end.

Section Accounting.
Context `{MsQuicApi}.

(** [accepted c e]: MsQuic accepted a downcall that carried duty [c]. *)
Definition accepted (c : duty) (e : event) : nat :=
  match e with
  | EvShutdown r _ st => Nat.b2n (owns c r && QUIC_SUCCEEDED st)
  | EvTerminal _ _ st => Nat.b2n (bool_decide (c = DTerminal) && QUIC_SUCCEEDED st)
  | EvUpgrade _ _ st => Nat.b2n (bool_decide (c = DUpgrade) && QUIC_SUCCEEDED st)
  | _ => 0
  end.

(** [pending c p]: the thread carries duty [c] and MsQuic has not accepted it. *)
Definition pending (c : duty) (p : pc) : nat :=
  match p with
  | ShutdownDowncall r _ => Nat.b2n (owns c r)
  | ShutdownCommit r st _ => Nat.b2n (owns c r && negb (QUIC_SUCCEEDED st))
  | TerminalDowncall _ => Nat.b2n (bool_decide (c = DTerminal))
  | TerminalCommit _ st => Nat.b2n (bool_decide (c = DTerminal) && negb (QUIC_SUCCEEDED st))
  | UpgradeDowncall _ => Nat.b2n (bool_decide (c = DUpgrade))
  | UpgradeCommit _ st => Nat.b2n (bool_decide (c = DUpgrade) && negb (QUIC_SUCCEEDED st))
  | _ => 0
  end.

(** [won c p]: MsQuic accepted it and the thread has yet to record that. *)
Definition won (c : duty) (p : pc) : nat :=
  match p with
  | ShutdownCommit r st _ => Nat.b2n (owns c r && QUIC_SUCCEEDED st)
  | TerminalCommit _ st => Nat.b2n (bool_decide (c = DTerminal) && QUIC_SUCCEEDED st)
  | UpgradeCommit _ st => Nat.b2n (bool_decide (c = DUpgrade) && QUIC_SUCCEEDED st)
  | _ => 0
  end.

(** The reservation that keeps a second thread from taking the duty on, the record that it was
    fulfilled, and the reservation as it must be given back. *)
Definition held (c : duty) (o : TqStreamLifetime) : Prop :=
  match c with
  | DGraceful => 1 <= DesiredSendShutdown_ (dirs o) /\
                 (1 <= ReservedSendShutdown_ (dirs o) \/ DesiredSendShutdown_ (dirs o) = 2)
  | DAbortSend => DesiredSendShutdown_ (dirs o) = 2 /\ ReservedSendShutdown_ (dirs o) = 2
  | DAbortReceive => ReservedReceiveAbort_ (dirs o) = true
  | DImmediate => ReservedImmediate_ (dirs o) = true
  | DTerminal => TerminalPhase_ (term o) = ShutdownReserved \/
                 TerminalPhase_ (term o) = TerminalObserved
  | DUpgrade => TerminalAbortUpgradeReserved_ (term o) = true
  end.

Definition fulfilled (c : duty) (o : TqStreamLifetime) : Prop :=
  match c with
  | DGraceful => 1 <= SubmittedSendShutdown_ (dirs o)
  | DAbortSend => 2 <= SubmittedSendShutdown_ (dirs o)
  | DAbortReceive => SubmittedReceiveAbort_ (dirs o) = true
  | DImmediate => SubmittedImmediate_ (dirs o) = true
  | DTerminal => TerminalPhase_ (term o) <> Active /\ TerminalPhase_ (term o) <> ShutdownReserved
  | DUpgrade => TerminalAbortUpgradeApplied_ (term o) = true \/
                TerminalPhase_ (term o) = TerminalObserved \/
                TerminalPhase_ (term o) = TerminalClosed
  end.

Definition busy (c : duty) (o : TqStreamLifetime) : Prop :=
  match c with
  | DGraceful => ReservedSendShutdown_ (dirs o) = 1
  | DAbortSend => ReservedSendShutdown_ (dirs o) = 2
  | DAbortReceive => ReservedReceiveAbort_ (dirs o) = true
  | DImmediate => ReservedImmediate_ (dirs o) = true
  | DTerminal => TerminalPhase_ (term o) = ShutdownReserved
  | DUpgrade => TerminalAbortUpgradeReserved_ (term o) = true
  end.

Definition request_ok (r : request) : Prop :=
  0 <= sendRequest r <= 2 /\
  (ownsSendReservation r = true -> sendRequest r = 1 \/ sendRequest r = 2) /\
  (ownsReceiveReservation r = true -> receiveRequest r = true) /\
  (ownsImmediateReservation r = true -> immediateRequest r = true) /\
  ownsSendReservation r || ownsReceiveReservation r || ownsImmediateReservation r = true.

Definition pc_ok (p : pc) : Prop :=
  match p with ShutdownDowncall r _ | ShutdownCommit r _ _ => request_ok r | _ => True end.

Definition dirs_ok (d : directions) : Prop :=
  0 <= DesiredSendShutdown_ d <= 2 /\ 0 <= SubmittedSendShutdown_ d <= 2 /\
  0 <= ReservedSendShutdown_ d <= 2.

Definition phases_agree (o : TqStreamLifetime) : Prop :=
  (Phase_ o = TerminalPublished -> TerminalPhase_ (term o) = TerminalObserved) /\
  (Phase_ o <> Closed -> TerminalPhase_ (term o) <> TerminalClosed).

Record accounts (s : sys) : Prop := {
  acc_once : forall c, (total (pending c) (threads s) + total (accepted c) (log (sh s)) <= 1)%nat;
  acc_won : forall c, (total (won c) (threads s) <= total (accepted c) (log (sh s)))%nat;
  acc_held : forall c, (1 <= total (pending c) (threads s) + total (won c) (threads s))%nat ->
               held c (owner (sh s));
  acc_done : forall c, (1 <= total (accepted c) (log (sh s)))%nat ->
               (1 <= total (won c) (threads s))%nat \/ fulfilled c (owner (sh s));
  acc_busy : forall c, busy c (owner (sh s)) ->
               (1 <= total (pending c) (threads s) + total (won c) (threads s))%nat;
  acc_pcs : Forall pc_ok (threads s);
  acc_dirs : dirs_ok (dirs (owner (sh s)));
  acc_phases : phases_agree (owner (sh s)) }.

(** How one step of one thread, from [p] to [p'], may move a duty. *)
Inductive moves (c : duty) (p p' : pc) (s s' : shared) : Prop :=
| moves_quiet :
    pending c p' = pending c p -> won c p' = won c p ->
    total (accepted c) (log s') = total (accepted c) (log s) ->
    (held c (owner s) -> held c (owner s')) ->
    (fulfilled c (owner s) -> fulfilled c (owner s')) ->
    (busy c (owner s') -> busy c (owner s)) -> moves c p p' s s'
| moves_reserve :
    pending c p = 0%nat -> won c p = 0%nat -> pending c p' = 1%nat -> won c p' = 0%nat ->
    log s' = log s -> ~ held c (owner s) -> ~ fulfilled c (owner s) -> held c (owner s') ->
    moves c p p' s s'
| moves_accept :
    pending c p = 1%nat -> won c p = 0%nat -> pending c p' = 0%nat -> won c p' = 1%nat ->
    total (accepted c) (log s') = S (total (accepted c) (log s)) -> owner s' = owner s ->
    moves c p p' s s'
| moves_finish :
    (pending c p + won c p = 1)%nat -> pending c p' = 0%nat -> won c p' = 0%nat ->
    log s' = log s -> (won c p = 1%nat -> fulfilled c (owner s')) ->
    (fulfilled c (owner s) -> fulfilled c (owner s')) -> ~ busy c (owner s') ->
    moves c p p' s s'.

(** The accounts survive every step that moves each duty as allowed. *)
Lemma accounts_step s t p p' sh' :
  accounts s -> threads s !! t = Some p ->
  (forall c, moves c p p' (sh s) sh') -> pc_ok p' -> dirs_ok (dirs (owner sh')) ->
  phases_agree (owner sh') ->
  accounts {| sh := sh'; threads := <[t := p']> (threads s) |}.
Proof.
  intros Ha Hp Hm Hok Hd Hph.
  assert (Hsum : forall c,
    (total (pending c) (<[t := p']> (threads s)) + pending c p =
     total (pending c) (threads s) + pending c p')%nat /\
    (total (won c) (<[t := p']> (threads s)) + won c p =
     total (won c) (threads s) + won c p')%nat /\
    (pending c p <= total (pending c) (threads s))%nat /\
    (won c p <= total (won c) (threads s))%nat).
  { intros c. split_and!; eauto using total_insert, total_le. }
  assert (Hall : forall c,
    let th := <[t := p']> (threads s) in
    (total (pending c) th + total (accepted c) (log sh') <= 1)%nat /\
    (total (won c) th <= total (accepted c) (log sh'))%nat /\
    ((1 <= total (pending c) th + total (won c) th)%nat -> held c (owner sh')) /\
    ((1 <= total (accepted c) (log sh'))%nat ->
       (1 <= total (won c) th)%nat \/ fulfilled c (owner sh')) /\
    (busy c (owner sh') -> (1 <= total (pending c) th + total (won c) th)%nat)).
  { intros c th. destruct (Hsum c) as (Hp1 & Hw1 & Hp2 & Hw2). fold th in Hp1, Hw1.
    pose proof (acc_once s Ha c) as Honce. pose proof (acc_won s Ha c) as Hwon.
    pose proof (acc_held s Ha c) as Hheld. pose proof (acc_done s Ha c) as Hdone.
    pose proof (acc_busy s Ha c) as Hbusy.
    destruct (Hm c) as [E1 E2 E3 Hh Hf Hb|E1 E2 E3 E4 E5 Hh Hf Hh'|E1 E2 E3 E4 E5 Eo
                       |E1 E2 E3 E4 Hfw Hff Hb].
    - rewrite E3. split_and!; try lia.
      + intros ?. apply Hh, Hheld. lia.
      + intros Hx. destruct (Hdone Hx); [left; lia|right; auto].
      + intros Hx. specialize (Hbusy (Hb Hx)). lia.
    - rewrite E5.
      assert (total (pending c) (threads s) + total (won c) (threads s) = 0)%nat.
      { destruct (decide (1 <= total (pending c) (threads s) + total (won c) (threads s))%nat);
          [exfalso; auto|lia]. }
      assert (total (accepted c) (log (sh s)) = 0)%nat.
      { destruct (decide (1 <= total (accepted c) (log (sh s)))%nat) as [Hx|]; [|lia].
        destruct (Hdone Hx); [lia|exfalso; auto]. }
      split_and!; try lia; auto.
    - rewrite E5, Eo. split_and!; try lia.
      + intros _. apply Hheld. lia.
    - rewrite E4. split_and!; try lia.
      + intros Hx. right. destruct (decide (won c p = 1%nat)); [auto|].
        destruct (Hdone Hx); [lia|auto].
      + intros ?. exfalso; auto. }
  split; simpl; try (intros c; apply (Hall c)); try assumption.
  apply Forall_insert; [apply Ha|assumption].
Qed.

(** A step that leaves the reservations alone moves nothing. *)
Lemma moves_same c p p' s s' :
  dirs (owner s') = dirs (owner s) -> term (owner s') = term (owner s) ->
  pending c p' = pending c p -> won c p' = won c p ->
  total (accepted c) (log s') = total (accepted c) (log s) -> moves c p p' s s'.
Proof.
  intros Hd Ht Hp Hw Hl. apply moves_quiet; auto; destruct c; simpl; rewrite ?Hd, ?Ht; auto.
Qed.

Lemma resume_free k c : pending c (resume k) = 0%nat /\ won c (resume k) = 0%nat.
Proof. destruct k; simpl; try destruct (_ =? 0); auto. Qed.

Lemma resume_ok k : pc_ok (resume k).
Proof. destruct k; simpl; try destruct (_ =? 0); done. Qed.

End Accounting.

Section StepAccounting.
Context `{MsQuicApi}.

(** A thread that carries no duty. *)
Definition plain (p : pc) : bool :=
  match p with
  | ShutdownDowncall _ _ | ShutdownCommit _ _ _ | TerminalDowncall _ | TerminalCommit _ _
  | UpgradeDowncall _ | UpgradeCommit _ _ => false
  | _ => true
  end.

Lemma plain_free p c : plain p = true -> pending c p = 0%nat /\ won c p = 0%nat.
Proof. destruct p; done. Qed.

Lemma plain_ok p : plain p = true -> pc_ok p.
Proof. destruct p; done. Qed.

Lemma resume_plain k : plain (resume k) = true.
Proof. destruct k; simpl; try destruct (_ =? 0); done. Qed.

Lemma escalate_again_plain task n : plain (escalate_again task n) = true.
Proof. by destruct n. Qed.

Definition fits (p : pc) (s : shared) : Prop :=
  pc_ok p /\ dirs_ok (dirs (owner s)) /\ phases_agree (owner s) /\
  Phase_ (owner s) <> Closed /\
  forall c, (1 <= pending c p + won c p)%nat -> held c (owner s).

Definition sound_step (p p' : pc) (s s' : shared) : Prop :=
  (forall c, moves c p p' s s') /\ pc_ok p' /\ dirs_ok (dirs (owner s')) /\
  phases_agree (owner s').

(** Steps that carry no duty and touch no reservation. *)
Lemma frame_step p p' s s' :
  fits p s -> plain p = true -> plain p' = true ->
  dirs (owner s') = dirs (owner s) -> term (owner s') = term (owner s) ->
  (Phase_ (owner s') = Phase_ (owner s) \/
   (Phase_ (owner s') <> TerminalPublished /\ Phase_ (owner s') <> Closed)) ->
  (forall c, total (accepted c) (log s') = total (accepted c) (log s)) ->
  sound_step p p' s s'.
Proof.
  intros (_ & Hd & Hph & Hc & _) Hp Hp' Ed Et EP El. split_and!.
  - intros c. destruct (plain_free p c Hp), (plain_free p' c Hp').
    apply moves_same; auto; congruence.
  - by apply plain_ok.
  - by rewrite Ed.
  - unfold phases_agree in *. rewrite Et.
    destruct EP as [->|[E1 E2]]; [assumption|].
    split; [intros ?; contradiction|]. intros _. by apply Hph.
Qed.


Definition owns_opt (c : duty) (req : option request) : bool :=
  match req with Some r => owns c r | None => false end.

Definition directional (c : duty) : bool :=
  match c with DTerminal | DUpgrade => false | _ => true end.

Lemma desire_send intent d :
  dirs_ok d ->
  0 <= DesiredSendShutdown_ (desire intent d) <= 2 /\
  DesiredSendShutdown_ d <= DesiredSendShutdown_ (desire intent d).
Proof. unfold dirs_ok, desire. intros. destruct intent; simpl; try case_match; to_prop; lia. Qed.

Lemma desire_rest intent d :
  SubmittedSendShutdown_ (desire intent d) = SubmittedSendShutdown_ d /\
  ReservedSendShutdown_ (desire intent d) = ReservedSendShutdown_ d /\
  SubmittedReceiveAbort_ (desire intent d) = SubmittedReceiveAbort_ d /\
  ReservedReceiveAbort_ (desire intent d) = ReservedReceiveAbort_ d /\
  SubmittedImmediate_ (desire intent d) = SubmittedImmediate_ d /\
  ReservedImmediate_ (desire intent d) = ReservedImmediate_ d.
Proof. by destruct intent. Qed.

(** The three reservations [RequestShutdown] may take, and what it takes them from. *)
Lemma reserve_spec intent error d d' req :
  dirs_ok d -> reserve intent error d = (d', req) ->
  exists send receive immediate : bool,
    (send = true -> 1 <= DesiredSendShutdown_ d' /\
       SubmittedSendShutdown_ d < DesiredSendShutdown_ d' /\
       ReservedSendShutdown_ d < DesiredSendShutdown_ d') /\
    (receive = true -> SubmittedReceiveAbort_ d = false /\ ReservedReceiveAbort_ d = false) /\
    (immediate = true -> SubmittedImmediate_ d = false /\ ReservedImmediate_ d = false /\
       DesiredSendShutdown_ d' = 2) /\
    DesiredSendShutdown_ d <= DesiredSendShutdown_ d' <= 2 /\
    SubmittedSendShutdown_ d' = SubmittedSendShutdown_ d /\
    ReservedSendShutdown_ d' =
      (if send then DesiredSendShutdown_ d' else ReservedSendShutdown_ d) /\
    SubmittedReceiveAbort_ d' = SubmittedReceiveAbort_ d /\
    ReservedReceiveAbort_ d' = (receive || ReservedReceiveAbort_ d) /\
    SubmittedImmediate_ d' = SubmittedImmediate_ d /\
    ReservedImmediate_ d' = (immediate || ReservedImmediate_ d) /\
    req = (if send || receive || immediate
           then Some {| errorCode := error;
                        sendRequest := if immediate then 2
                                       else if send then DesiredSendShutdown_ d' else 0;
                        receiveRequest := receive || immediate;
                        immediateRequest := immediate; ownsSendReservation := send;
                        ownsReceiveReservation := receive;
                        ownsImmediateReservation := immediate |}
           else None).
Proof.
  intros Hd. pose proof (desire_send intent _ Hd) as [Hs1 Hs2].
  pose proof (desire_rest intent d) as (E1 & E2 & E3 & E4 & E5 & E6).
  assert (Himm : intent = AbortBothImmediate ->
                 DesiredSendShutdown_ (desire intent d) = 2) by (by intros ->).
  unfold reserve. rewrite E1, E2, E3, E4, E5, E6.
  destruct Hd as (Hd1 & Hd2 & Hd3).
  set (send := (_ <? _) && (_ <? _)).
  set (receive := DesiredReceiveAbort_ (desire intent d) && _ && _).
  set (immediate := bool_decide _ && _ && _ && _).
  assert (Hsend : send = true ->
    SubmittedSendShutdown_ d < DesiredSendShutdown_ (desire intent d) /\
    ReservedSendShutdown_ d < DesiredSendShutdown_ (desire intent d)).
  { unfold send. intros. to_prop. lia. }
  assert (Hreceive : receive = true ->
    SubmittedReceiveAbort_ d = false /\ ReservedReceiveAbort_ d = false).
  { unfold receive. intros. to_prop. auto. }
  assert (Himmediate : immediate = true ->
    SubmittedImmediate_ d = false /\ ReservedImmediate_ d = false /\
    DesiredSendShutdown_ (desire intent d) = 2).
  { unfold immediate. intros. to_prop_nat. auto. }
  clearbody send receive immediate. intros [= <- <-].
  exists send, receive, immediate; simpl.
  split_and!; try tauto; try lia; try (intros Hx; specialize (Hsend Hx); lia); try done.
  destruct send, receive, immediate; simpl; try done;
    destruct (Z.eqb_spec (DesiredSendShutdown_ (desire intent d)) 0); simpl; try done;
    specialize (Hsend eq_refl); lia.
Qed.

(** What the first critical section of [RequestShutdown] does to each reservation. *)
Lemma reserve_moves intent error o d' req :
  dirs_ok (dirs o) -> reserve intent error (dirs o) = (d', req) ->
  dirs_ok d' /\ (forall r, req = Some r -> request_ok r) /\
  forall c, directional c = true ->
    if owns_opt c req
    then ~ held c o /\ ~ fulfilled c o /\ held c (set_dirs o d')
    else (held c o -> held c (set_dirs o d')) /\ (fulfilled c o -> fulfilled c (set_dirs o d')) /\
         (busy c (set_dirs o d') -> busy c o).
Proof.
  intros Hd Hr. destruct (reserve_spec _ _ _ _ _ Hd Hr) as
    (send & receive & immediate & Hs & Hrc & Hi & Hle & E1 & E2 & E3 & E4 & E5 & E6 & ->).
  clear Hr. destruct Hd as (Hd1 & Hd2 & Hd3). split; [|split].
  - unfold dirs_ok. rewrite E1, E2. destruct send; lia.
  - intros r. destruct send, receive, immediate; simpl; try discriminate; intros [= <-];
      unfold request_ok; simpl; repeat split; intros; try discriminate; auto; lia.
  - intros [] Hc; try discriminate Hc; clear Hc; destruct send, receive, immediate; simpl;
      try specialize (Hs eq_refl); try specialize (Hrc eq_refl); try specialize (Hi eq_refl);
      rewrite ?E1, ?E2, ?E3, ?E4, ?E5, ?E6; simpl;
      repeat match goal with |- context [?a =? ?b] => destruct (Z.eqb_spec a b) end;
      intuition (try congruence; try lia).
Qed.
Lemma request_shutdown_sound p intent error k s p' s' :
  fits p s -> plain p = true -> request_shutdown intent error k s = (p', s') ->
  sound_step p p' s s'.
Proof.
  intros Hfit Hp. unfold request_shutdown. destruct (_ || _); [intros [= <- <-]|].
  { apply frame_step; auto using resume_plain. }
  destruct Hfit as (_ & Hd & Hph & Hc & _).
  destruct (reserve intent error (dirs (owner s))) as [d' req] eqn:Hr.
  intros [= <- <-]. destruct (reserve_moves _ _ _ _ _ Hd Hr) as (Hd' & Hreq & Hmv).
  split_and!; try done.
  - intros c. destruct (plain_free p c Hp) as [Ep Ew].
    assert (Ew' : won c (match req with Some r => ShutdownDowncall r k | None => resume k end)
                  = 0%nat) by (destruct req; [done|apply resume_free]).
    assert (Ep' : pending c (match req with Some r => ShutdownDowncall r k | None => resume k end)
                  = Nat.b2n (owns_opt c req)) by (destruct req; [done|apply resume_free]).
    destruct (directional c) eqn:Hdir.
    + specialize (Hmv c Hdir). destruct (owns_opt c req).
      * destruct Hmv as (? & ? & ?). by apply moves_reserve.
      * destruct Hmv as (? & ? & ?). apply moves_quiet; auto; simpl in *; congruence.
    + apply moves_quiet; auto; try congruence; [|by destruct c..].
      rewrite Ep', Ep. destruct req as [r|]; [|done]. by destruct c.
  - destruct req as [r|]; [by apply Hreq|apply resume_ok].
Qed.

Lemma send_shutdown_complete_sound graceful s p' s' :
  fits Idle s -> Dispatch (SEND_SHUTDOWN_COMPLETE graceful) s = (p', s') ->
  sound_step Idle p' s s'.
Proof.
  intros (_ & Hd & Hph & Hc & _) [= <- <-]. split_and!; try done.
  - intros c. apply moves_quiet; try done; destruct c; simpl; try done;
      destruct graceful; case_match; to_prop; lia.
  - destruct Hd as (? & ? & ?). unfold dirs_ok; simpl.
    destruct graceful; case_match; to_prop; lia.
Qed.

(** What the last critical section of [RequestShutdown] gives back and records. *)
Lemma commit_moves c r st k s :
  fits (ShutdownCommit r st k) s ->
  moves c (ShutdownCommit r st k) (resume k) s
    (with_owner s (set_dirs (owner s) (commit r st (dirs (owner s))))).
Proof.
  intros (Hok & (Hd1 & Hd2 & Hd3) & _ & _ & Hheld). simpl in Hok.
  destruct Hok as (_ & Hs & Hr & Hi & _), (resume_free k c) as [Ep Ew].
  assert (Hsum : (pending c (ShutdownCommit r st k) + won c (ShutdownCommit r st k) =
                  Nat.b2n (owns c r))%nat).
  { simpl. destruct (owns c r), (QUIC_SUCCEEDED st); done. }
  destruct (owns c r) eqn:Ho.
  - apply moves_finish; auto.
    + intros Hw. simpl in Hw. rewrite Ho in Hw. destruct (QUIC_SUCCEEDED st) eqn:Est; [|done].
      destruct c; simpl in *; try done; rewrite ?Est; to_prop.
      * replace (sendRequest r =? 0) with false by lia. simpl. case_match; to_prop; lia.
      * replace (sendRequest r =? 0) with false by lia. simpl. case_match; to_prop; lia.
      * by rewrite (Hr Ho).
      * by rewrite (Hi Ho).
    + destruct c; simpl; try done; intros Hx; try (case_match; to_prop; lia).
      * by rewrite Hx, orb_true_r.
      * by rewrite Hx, orb_true_r.
    + destruct c; simpl in *; try done; to_prop.
      * replace (ownsSendReservation r) with true by done. simpl. case_match; to_prop; lia.
      * replace (ownsSendReservation r) with true by done. simpl. case_match; to_prop; lia.
      * rewrite Ho. by destruct (ReservedReceiveAbort_ _).
      * rewrite Ho. by destruct (ReservedImmediate_ _).
  - assert (Eq : pending c (ShutdownCommit r st k) = 0%nat /\ won c (ShutdownCommit r st k) = 0%nat)
      by (simpl in *; lia).
    assert (Hother : forall c', owns c' r = true -> held c' (owner s)).
    { intros c' Ho'. apply Hheld. simpl. rewrite Ho'. by destruct (QUIC_SUCCEEDED st). }
    pose proof (Hother DGraceful) as H1. pose proof (Hother DAbortSend) as H2.
    apply moves_quiet; try (destruct Eq; congruence); destruct c; simpl in *; try done; intros Hx.
    all: try (rewrite Hx; first [rewrite orb_true_r|rewrite andb_true_r, Ho]; done).
    all: destruct (ownsSendReservation r) eqn:Hos; simpl in *; try done;
      try destruct (Hs eq_refl) as [E|E]; rewrite ?E in *; simpl in *; try discriminate;
      try specialize (H1 eq_refl); try specialize (H2 eq_refl).
    all: repeat case_match; to_prop; try lia; try tauto; try (rewrite Ho in *; done).
Qed.

Lemma commit_sound r st k s :
  fits (ShutdownCommit r st k) s ->
  sound_step (ShutdownCommit r st k) (resume k) s
    (with_owner s (set_dirs (owner s) (commit r st (dirs (owner s))))).
Proof.
  intros Hfit. split_and!; auto using commit_moves, resume_ok; [|by apply Hfit].
  destruct Hfit as ((Hs & _) & (Hd1 & Hd2 & Hd3) & _ & _ & Hheld).
  unfold dirs_ok; simpl. split_and!; try lia; repeat case_match; to_prop; try lia.
Qed.

Ltac each_duty := intros [] Hdir; try discriminate Hdir; repeat split; done.

Lemma not_observed o :
  observed o = false -> TerminalPhase_ (term o) <> TerminalObserved /\ Phase_ o <> TerminalPublished.
Proof. unfold observed. intros. to_prop_nat. auto. Qed.

Lemma observed_phase o :
  phases_agree o -> observed o = true -> TerminalPhase_ (term o) = TerminalObserved.
Proof.
  intros [Hph _]. unfold observed. rewrite orb_true_iff, !bool_decide_eq_true.
  intros [?|?]; auto.
Qed.

(** A step that changes the terminal control block and nothing else the accounts look at. *)
Lemma term_step p p' s s' :
  fits p s -> pc_ok p' -> dirs (owner s') = dirs (owner s) ->
  phases_agree (owner s') ->
  (forall c, directional c = true ->
     pending c p' = pending c p /\ won c p' = won c p /\
     total (accepted c) (log s') = total (accepted c) (log s)) ->
  moves DTerminal p p' s s' -> moves DUpgrade p p' s s' -> sound_step p p' s s'.
Proof.
  intros (_ & Hd & _) Hok Ed Hph Hdir Ht Hu. split_and!; auto; [|by rewrite Ed].
  intros c. destruct c; try assumption.
  all: match goal with |- moves ?c _ _ _ _ => destruct (Hdir c eq_refl) as (? & ? & ?) end;
    apply moves_quiet; auto; simpl; rewrite Ed; auto.
Qed.

Lemma begin_terminal_sound p error sink escalation intent s p' s' :
  fits p s -> plain p = true ->
  begin_terminal_shutdown error sink escalation intent s = (p', s') -> sound_step p p' s s'.
Proof.
  intros Hfit Hp. unfold begin_terminal_shutdown, begin_reserve.
  destruct (observed (owner s)) eqn:Hobs; [intros [= <- <-]; by apply frame_step; auto|].
  destruct (bool_decide_reflect (TerminalPhase_ (term (owner s)) = ShutdownSubmitted)) as [|Hns];
    [intros [= <- <-]; by apply frame_step; auto|].
  destruct (bool_decide_reflect (TerminalPhase_ (term (owner s)) = ShutdownReserved)) as [|Hnr];
    [intros [= <- <-]; by apply frame_step; auto|].
  destruct (_ || _ || _ || _) eqn:Hill.
  { intros [= <- <-]. apply frame_step; auto. by destruct (negb _ && negb _). }
  intros [= <- <-]. to_prop. apply not_observed in Hobs as [Hno Hnp].
  pose proof Hfit as (_ & _ & Hph & Hc & _). destruct Hph as [Hph1 Hph2].
  specialize (Hph2 Hc).
  assert (Ea : TerminalPhase_ (term (owner s)) = Active)
    by (destruct (TerminalPhase_ (term (owner s))); congruence).
  destruct (plain_free p DTerminal Hp), (plain_free p DUpgrade Hp).
  apply term_step; [assumption|done|done|..].
  - split; simpl; [intros; contradiction|done].
  - intros c Hdir. destruct (plain_free p c Hp) as [-> ->]. by destruct c.
  - apply moves_reserve; simpl; auto; rewrite Ea; intuition discriminate.
  - apply moves_quiet; simpl; auto. rewrite Ea. intuition discriminate.
Qed.

Lemma begin_commit_sound b st s p' s' :
  fits (TerminalCommit b st) s ->
  run_step (TerminalCommit b st) 0 false s = (p', s') ->
  sound_step (TerminalCommit b st) p' s s'.
Proof.
  intros Hfit. pose proof Hfit as (_ & _ & Hph & Hc & Hheld). simpl. unfold begin_commit.
  specialize (Hheld DTerminal). simpl in Hheld.
  assert (Hh : TerminalPhase_ (term (owner s)) = ShutdownReserved \/
               TerminalPhase_ (term (owner s)) = TerminalObserved)
    by (apply Hheld; destruct (QUIC_SUCCEEDED st); done). clear Hheld.
  destruct (observed (owner s)) eqn:Hobs.
  { pose proof (observed_phase _ Hph Hobs) as Eo. intros [= <- <-].
    apply term_step; [assumption|done|done|done|each_duty|..].
    - apply moves_finish; simpl; try done; try (rewrite Eo; done);
        destruct (QUIC_SUCCEEDED st); try done.
    - apply moves_quiet; done. }
  apply not_observed in Hobs as [Hno Hnp].
  assert (Er : TerminalPhase_ (term (owner s)) = ShutdownReserved) by tauto.
  destruct (QUIC_SUCCEEDED st) eqn:Hst.
  { intros [= <- <-]. apply term_step; [assumption|done|done|by split|each_duty|..].
    - apply moves_finish; simpl; rewrite ?Hst; done.
    - apply moves_quiet; simpl; try done. rewrite Er. intros [?|[?|?]]; auto; discriminate. }
  rewrite bool_decide_eq_true_2 by done. intros [= <- <-].
  apply term_step; [assumption|done|done|by split|each_duty|..].
  - apply moves_finish; simpl; rewrite ?Hst, ?Er; try done. tauto.
  - apply moves_quiet; simpl; try done. rewrite Er. intros [?|[?|?]]; auto; discriminate.
Qed.

Lemma upgrade_reserve_sound error escalation s u o' :
  fits Idle s -> upgrade_reserve error escalation (owner s) = inr (u, o') ->
  sound_step Idle (UpgradeDowncall u) s (with_owner s o').
Proof.
  intros Hfit. pose proof Hfit as (_ & _ & Hph & Hc & _). unfold upgrade_reserve.
  destruct (observed (owner s)) eqn:Hobs; [done|]. apply not_observed in Hobs as [Hno Hnp].
  destruct (TerminalAbortUpgradeApplied_ _) eqn:Ha; [done|].
  destruct (TerminalAbortUpgradeReserved_ _) eqn:Hr; [done|].
  destruct (_ || _) eqn:Hill; [done|]. intros [= <- <-]. to_prop_nat.
  apply term_step; [assumption|done|done|exact Hph|each_duty|..].
  - apply moves_quiet; done.
  - apply moves_reserve; simpl; try done; rewrite ?Ha, ?Hr; try done.
    intros [|[?|?]]; congruence.
Qed.

Lemma upgrade_commit_sound u st s r o' :
  fits (UpgradeCommit u st) s -> upgrade_commit u st (owner s) = (r, o') ->
  sound_step (UpgradeCommit u st) (UpgradeRecord u r) s (with_owner s o').
Proof.
  intros Hfit. pose proof Hfit as (_ & _ & Hph & Hc & _). unfold upgrade_commit.
  destruct (observed (owner s)) eqn:Hobs; [pose proof (observed_phase _ Hph Hobs) as Eo|];
    [|destruct (QUIC_SUCCEEDED st) eqn:Hst]; intros [= <- <-].
  all: apply term_step; auto; try done; try (each_duty).
  all: try (by apply moves_quiet).
  all: apply moves_finish; simpl; rewrite ?Hst, ?Eo; try done; auto.
  all: by destruct (QUIC_SUCCEEDED st).
Qed.

Lemma publish_terminal_sound k s p' s' :
  fits Idle s -> publish_terminal k s = (p', s') -> sound_step Idle p' s s'.
Proof.
  intros Hfit. unfold publish_terminal, PublishTerminalAndTakeTarget.
  destruct (Phase_ (owner s)) eqn:EP; intros [= <- <-];
    try (apply frame_step; auto using resume_plain; done).
  all: assert (Hplain : plain (if bool_decide (option_map (RecordEvent ShutdownComplete)
         (TerminalLedger_ (owner s)) = None) then Release (k (Target_ (owner s))
         (RouteGeneration_ (owner s))) else SchedulerCancel (k (Target_ (owner s))
         (RouteGeneration_ (owner s)))) = true) by (by case_match).
  all: apply term_step; auto using plain_ok; try done.
  all: try (intros c _; destruct (plain_free _ c Hplain) as [E1 E2];
    simpl in *; rewrite E1, E2; done).
  all: match goal with |- moves ?c _ _ _ _ =>
      destruct (plain_free _ c Hplain) as [E1 E2] end;
    apply moves_quiet; simpl in *; auto; intuition discriminate.
Qed.

Lemma publish_start_failure_sound st k s p' s' :
  fits Idle s -> publish_start_failure st k s = (p', s') -> sound_step Idle p' s s'.
Proof.
  intros Hfit. unfold publish_start_failure, PublishStartFailureAndTakeTarget.
  destruct (bool_decide _); intros [= <- <-]; apply frame_step; auto using resume_plain.
Qed.

Lemma ledger_section_frame {A} (d : A) f s a s' :
  ledger_section d f s = (a, s') ->
  dirs (owner s') = dirs (owner s) /\ term (owner s') = term (owner s) /\
  Phase_ (owner s') = Phase_ (owner s) /\ log s' = log s.
Proof. unfold ledger_section. intros Hs. cases_in Hs; done. Qed.

Ltac framed := apply frame_step; simpl; auto using resume_plain, escalate_again_plain; try done;
  try (right; done).

Lemma call_step_sound c s p' s' :
  fits Idle s -> call_step c s = (p', s') -> sound_step Idle p' s s'.
Proof.
  intros Hfit. destruct c; simpl.
  - unfold BeginStart. destruct (bool_decide _); intros [= <- <-]; framed.
  - case_match; [|by apply publish_start_failure_sound]. intros [= <- <-].
    unfold CompleteStart_ok. case_match; framed.
  - intros [= <- <-]. case_match; framed.
  - unfold TryAcquireReceiveApi. destruct (_ || _); intros [= <- <-]; framed.
  - by apply request_shutdown_sound.
  - by apply begin_terminal_sound.
  - destruct (upgrade_reserve _ _ _) as [r|[u o']] eqn:Hu; intros [= <- <-]; [framed|].
    by eapply upgrade_reserve_sound.
  - unfold PublishTarget. destruct (_ || _); intros [= <- <-]; framed.
  - by apply publish_terminal_sound.
  - by apply publish_start_failure_sound.
  - destruct e.
    + simpl. case_match; [|by apply publish_start_failure_sound]. intros [= <- <-].
      unfold CompleteStart_ok. case_match; framed.
    + by apply send_shutdown_complete_sound.
    + by apply publish_terminal_sound.
    + intros [= <- <-]. framed.
    + intros [= <- <-]. framed.
  - unfold BindTerminalIdentity. destruct (TerminalLedger_ (owner s)); [|destruct (_ || _)]; intros [= <- <-]; framed.
  - intros [= <- <-]. framed.
  - intros [= <- <-]. framed.
  - unfold execute_task. repeat case_match; intros [= <- <-]; framed.
  - intros [= <- <-]. framed.
Qed.

Lemma downcall_moves c p p' s e :
  (forall c', (pending c' p + 0 = pending c' p' + won c' p')%nat /\ won c' p = 0%nat /\
              (pending c' p <= 1)%nat /\ accepted c' e = won c' p') ->
  moves c p p' s (emit e s).
Proof.
  intros Hx. destruct (Hx c) as (E1 & E2 & E3 & E4).
  destruct (won c p') as [|n] eqn:Hw.
  - apply moves_quiet; simpl; auto; try lia.
  - apply moves_accept; try lia; try done; unfold total; simpl; lia.
Qed.

Lemma downcall_sound p p' s e :
  fits p s -> pc_ok p' ->
  (forall c', (pending c' p + 0 = pending c' p' + won c' p')%nat /\ won c' p = 0%nat /\
              (pending c' p <= 1)%nat /\ accepted c' e = won c' p') ->
  sound_step p p' s (emit e s).
Proof.
  intros (_ & Hd & Hph & _) Hok Hx. split_and!; auto. intros c. by apply downcall_moves.
Qed.

Lemma run_step_sound p answer room s p' s' :
  fits p s -> run_step p answer room s = (p', s') -> sound_step p p' s s'.
Proof.
  intros Hfit. destruct p; simpl; open_step.
  - intros [= <- <-]. framed.
  - unfold RetainUntilTerminal.
    destruct (TerminalRetained_ _); [|destruct (bool_decide _); [|destruct (retention s)]]; intros [= <- <-]; framed.
  - intros [= <- <-]. framed.
  - intros [= <- <-]. case_match; framed.
  - intros [= <- <-]. framed.
  - by apply request_shutdown_sound.
  - intros [= <- <-]. apply downcall_sound; [done|by apply Hfit|]. intros c'. simpl.
    destruct (owns c' r), (QUIC_SUCCEEDED answer); simpl; lia.
  - intros [= <- <-]. by apply commit_sound.
  - intros [= <- <-]. case_match; framed.
  - intros [= <- <-]. framed.
  - intros [= <- <-]. framed.
  - by apply begin_terminal_sound.
  - destruct (ledger_section _ _ _) as [a s1] eqn:Hl. intros [= <- <-].
    destruct (ledger_section_frame _ _ _ _ _ Hl) as (E1 & E2 & E3 & E4).
    case_match; framed; by rewrite E4.
  - intros [= <- <-]. apply downcall_sound; [done|done|]. intros c'. simpl.
    destruct (bool_decide (c' = DTerminal)), (QUIC_SUCCEEDED answer); simpl; lia.
  - intros Hr. apply begin_commit_sound; [done|]. exact Hr.
  - intros [= <- <-]. framed.
  - intros [= <- <-]. repeat case_match; framed.
  - destruct (ledger_section _ _ _) as [a s1] eqn:Hl.
    destruct (ledger_section_frame _ _ _ _ _ Hl) as (E1 & E2 & E3 & E4).
    case_match; intros [= <- <-]; framed; by rewrite E4.
  - case_match; [intros [= <- <-]; framed|]. case_match; [intros [= <- <-]; framed|].
    destruct (ledger_section _ _ _) as [a s1] eqn:Hl.
    destruct (ledger_section_frame _ _ _ _ _ Hl) as (E1 & E2 & E3 & E4).
    case_match; intros [= <- <-]; framed; by rewrite E4.
  - intros [= <- <-]. apply downcall_sound; [done|done|]. intros c'. simpl.
    destruct (bool_decide (c' = DUpgrade)), (QUIC_SUCCEEDED answer); simpl; lia.
  - destruct (upgrade_commit u status (owner s)) as [r o'] eqn:Hu. intros [= <- <-].
    by apply upgrade_commit_sound.
  - destruct (ledger_section _ _ _) as [a s1] eqn:Hl. intros [= <- <-].
    destruct (ledger_section_frame _ _ _ _ _ Hl) as (E1 & E2 & E3 & E4).
    case_match; framed; by rewrite E4.
  - destruct (ledger_section _ _ _) as [a s1] eqn:Hl.
    destruct (ledger_section_frame _ _ _ _ _ Hl) as (E1 & E2 & E3 & E4).
    repeat case_match; intros [= <- <-]; framed; by rewrite E4.
  - intros [= <- <-]. case_match; [case_match|]; framed.
  - intros [= <- <-]. case_match; framed.
Qed.

Lemma accounts_fit s t p :
  accounts s -> threads s !! t = Some p -> Phase_ (owner (sh s)) <> Closed -> fits p (sh s).
Proof.
  intros Ha Ht Hc. split_and!; try apply Ha; auto.
  - eapply Forall_lookup_1; [apply Ha|done].
  - intros c Hp. apply Ha.
    pose proof (total_le (pending c) _ _ _ Ht). pose proof (total_le (won c) _ _ _ Ht). lia.
Qed.

Lemma all_idle ts : forallb is_idle ts = true -> forall p, p ∈ ts -> p = Idle.
Proof.
  intros Hall p Hp. rewrite forallb_forall in Hall.
  specialize (Hall p ltac:(by apply list_elem_of_In)). by destruct p.
Qed.

Lemma idle_total f ts :
  f Idle = 0%nat -> forallb is_idle ts = true -> total f ts = 0%nat.
Proof. intros Hf Hall. apply total_zero. intros p Hp. by rewrite (all_idle _ Hall p Hp). Qed.

Lemma accounts_destroy s :
  accounts s -> forallb is_idle (threads s) = true ->
  accounts {| sh := with_owner (sh s) (destroy (owner (sh s))); threads := threads s |}.
Proof.
  intros Ha Hidle.
  assert (Hz : forall c, total (pending c) (threads s) = 0%nat /\ total (won c) (threads s) = 0%nat)
    by (intros c; split; by apply idle_total).
  split; simpl; try apply Ha.
  - intros c. destruct (Hz c). lia.
  - intros c Hx. destruct (acc_done s Ha c Hx) as [|Hf]; [destruct (Hz c); lia|].
    right. destruct c; simpl in *; auto.
  - intros c Hx. apply (acc_busy s Ha c). destruct c; simpl in *; auto; discriminate.
  - split; simpl; done.
Qed.

Lemma created_fresh o entry :
  created o entry ->
  dirs o = open_directions /\ term o = active_control /\
  (Phase_ o = CreatedNotStarted \/ Phase_ o = Started) /\ entry = true /\
  TerminalRetained_ o = true /\ Stream_ o <> 0 /\ exists l, TerminalLedger_ o = Some l /\
  ConnectionEscalated l = false.
Proof.
  intros [(tg & i & sec & st & v & Ho)|(raw & tg & i & sec & st & v & Ho)];
    [|unfold AdoptAccepted in Ho; destruct (raw =? 0); [discriminate|]];
    unfold OpenOutgoing, make_owner, BindTerminalIdentity in Ho; simpl in Ho;
    destruct ((sec <? 5) || (30 <? sec)); simpl in Ho; try discriminate;
    unfold InstallStream in Ho; destruct (Z.eqb_spec st 0), v; simpl in Ho; try discriminate;
    injection Ho as <- <-; split_and!; simpl; eauto.
Qed.

Lemma accounts_start o entry n : created o entry -> accounts (start o entry n).
Proof.
  intros Hc. destruct (created_fresh _ _ Hc) as (Hd & Ht & Hp & _).
  assert (Hz : forall f, f Idle = 0%nat -> total f (replicate n Idle) = 0%nat).
  { intros f Hf. apply total_zero. intros x Hx. apply elem_of_replicate in Hx as [-> _]. done. }
  pose proof (fun c => Hz (pending c) eq_refl) as Hp0.
  pose proof (fun c => Hz (won c) eq_refl) as Hw0.
  split; simpl.
  - intros c. rewrite Hp0. unfold total; simpl; lia.
  - intros c. rewrite Hw0. unfold total; simpl; lia.
  - intros c. rewrite Hp0, Hw0. lia.
  - intros c. unfold total; simpl; lia.
  - intros c. destruct c; simpl; rewrite ?Hd, ?Ht; done.
  - by apply Forall_replicate.
  - rewrite Hd. done.
  - split; rewrite Ht; [|done]. destruct Hp as [-> | ->]; discriminate.
Qed.

Lemma accounts_exec s a s' : accounts s -> exec a s = Some s' -> accounts s'.
Proof.
  intros Ha. unfold exec. destruct (bool_decide_reflect (Phase_ (owner (sh s)) = Closed));
    [discriminate|]. destruct a as [t c|t answer room|].
  - destruct (threads s !! t) as [p|] eqn:Ht; [|discriminate]. destruct p; try discriminate.
    destruct (call_step c (sh s)) as [p' s1] eqn:Hc. intros [= <-].
    destruct (call_step_sound _ _ _ _ (accounts_fit _ _ _ Ha Ht n) Hc) as (? & ? & ? & ?).
    by eapply accounts_step.
  - destruct (threads s !! t) as [p|] eqn:Ht; [|discriminate].
    destruct (run_step p answer room (sh s)) as [p' s1] eqn:Hc.
    destruct (run_step_sound _ _ _ _ _ _ (accounts_fit _ _ _ Ha Ht n) Hc) as (? & ? & ? & ?).
    intros Hx. assert (Hs : s' = {| sh := s1; threads := <[t := p']> (threads s) |}) by
      (destruct p; congruence). subst s'. by eapply accounts_step.
  - destruct (forallb is_idle (threads s)) eqn:Hi; [|discriminate].
    destruct (negb _); [|discriminate]. intros [= <-]. by apply accounts_destroy.
Qed.

Lemma accounts_reachable s : reachable s -> accounts s.
Proof. induction 1; [by apply accounts_start|by eapply accounts_exec]. Qed.

End StepAccounting.

(** ** What each step can emit *)

Section Emissions.
Context `{MsQuicApi}.

(** The program point an event comes from. *)
Definition emitted_from (p : pc) (e : event) : Prop :=
  match e with
  | EvShutdown r flags _ => exists k, p = ShutdownDowncall r k /\ flags = shutdown_flags r
  | EvTerminal b flags _ => p = TerminalDowncall b /\ flags = terminal_flags (bIntent b)
  | EvUpgrade u flags _ =>
      p = UpgradeDowncall u /\ flags = Z.lor SHUTDOWN_FLAG_ABORT SHUTDOWN_FLAG_IMMEDIATE
  | EvConnectionShutdown escalation status error =>
      exists after, p = EscalateCall escalation status error after
  | EvDeliver e t g => p = Deliver e t g
  | EvTaken _ _ _ | EvLease | EvPublished _ _ => p = Idle
  end.

Definition extends (p : pc) (s s' : shared) : Prop :=
  log s' = log s \/ exists e, log s' = e :: log s /\ emitted_from p e.

Lemma request_shutdown_log intent error k s : log (request_shutdown intent error k s).2 = log s.
Proof. unfold request_shutdown. repeat case_match; done. Qed.

Lemma begin_terminal_log error sink escalation intent s :
  log (begin_terminal_shutdown error sink escalation intent s).2 = log s.
Proof. unfold begin_terminal_shutdown. repeat case_match; done. Qed.

Lemma publish_terminal_log k s : extends Idle s (publish_terminal k s).2.
Proof.
  unfold publish_terminal, extends. repeat case_match; simpl; first [by left|right; by eexists].
Qed.

Lemma publish_start_failure_log st k s : extends Idle s (publish_start_failure st k s).2.
Proof.
  unfold publish_start_failure, extends. repeat case_match; simpl; first [by left|right; by eexists].
Qed.

Lemma call_step_log c s : extends Idle s (call_step c s).2.
Proof.
  destruct c; simpl;
    try (unfold extends, execute_task; repeat case_match; simpl; first [by left|right; by eexists]);
    auto using publish_terminal_log, publish_start_failure_log.
  - case_match; [by left|]. apply publish_start_failure_log.
  - left. apply request_shutdown_log.
  - left. apply begin_terminal_log.
  - destruct e; simpl; try (by left); [|apply publish_terminal_log].
    case_match; [by left|]. apply publish_start_failure_log.
Qed.

Lemma run_step_log p answer room s : extends p s (run_step p answer room s).2.
Proof.
  assert (Hl : forall A (d : A) f, log (ledger_section d f s).2 = log s).
  { intros A d f. destruct (ledger_section d f s) as [a s1] eqn:E.
    apply (ledger_section_frame _ _ _ _ _ E). }
  destruct p; simpl; open_step;
    try (unfold extends; repeat case_match; simpl; first [by left|right; eexists; split; [done|]; simpl; eauto]; done).
  - left. apply request_shutdown_log.
  - left. apply begin_terminal_log.
  - left. specialize (Hl bool false mark_illegal). by destruct (ledger_section _ _ _).
  - left. specialize (Hl bool false (ArmAndEnqueue room)).
    destruct (ledger_section _ _ _) as [[] ?]; done.
  - left. specialize (Hl bool false (fun l => (RetryAllowed l && room, l))).
    repeat case_match; simplify_eq/=; done.
  - left. specialize (Hl bool false (upgrade_record u r)). by destruct (ledger_section _ _ _).
  - left. specialize (Hl (option Z) None MarkEscalated).
    destruct (ledger_section _ _ _) as [[] ?]; done.
Qed.

(** Every logged directional downcall carried a duty. *)
Definition ev_ok (e : event) : Prop :=
  match e with EvShutdown r flags _ => request_ok r /\ flags = shutdown_flags r | _ => True end.

Lemma extends_ok p s s' :
  pc_ok p -> extends p s s' -> Forall ev_ok (log s) -> Forall ev_ok (log s').
Proof.
  intros Hp [->|(e & -> & He)] Hall; [done|]. constructor; [|done].
  destruct e; simpl in *; auto. destruct He as (k & -> & ->). done.
Qed.

(** One step of a thread, whatever it is. *)
Lemma exec_cases s a s' :
  exec a s = Some s' ->
  Phase_ (owner (sh s)) <> Closed /\
  ((exists t p p', threads s !! t = Some p /\ threads s' = <[t := p']> (threads s) /\
     ((exists c, p = Idle /\ call_step c (sh s) = (p', sh s')) \/
      (exists answer room, p <> Idle /\ run_step p answer room (sh s) = (p', sh s'))) /\
     (p = Idle -> exists c, a = Call t c /\ call_step c (sh s) = (p', sh s'))) \/
   (forallb is_idle (threads s) = true /\ retention (sh s) = false /\
    sh s' = with_owner (sh s) (destroy (owner (sh s))) /\ threads s' = threads s)).
Proof.
  unfold exec. destruct (bool_decide_reflect (Phase_ (owner (sh s)) = Closed)); [done|].
  intros Hx. split; [done|]. destruct a as [t c|t answer room|].
  - left. destruct (threads s !! t) as [p|] eqn:Ht; [|done]. destruct p; try done.
    destruct (call_step c (sh s)) as [p' s1] eqn:Hc. injection Hx as <-. simpl.
    exists t, Idle, p'. eauto 10.
  - left. destruct (threads s !! t) as [p|] eqn:Ht; [|done].
    destruct (run_step p answer room (sh s)) as [p' s1] eqn:Hc.
    assert (Hs : p <> Idle /\ s' = {| sh := s1; threads := <[t := p']> (threads s) |}) by
      (destruct p; split; congruence). destruct Hs as [Hne ->]. simpl.
    exists t, p, p'. split_and!; [done|done|right; eauto|done].
  - right. destruct (forallb is_idle (threads s)); [|done].
    destruct (retention (sh s)); [done|]. injection Hx as <-. done.
Qed.

Lemma log_ok_reachable s : reachable s -> Forall ev_ok (log (sh s)).
Proof.
  induction 1 as [|s a s' Hr IH Hx]; [constructor|].
  apply exec_cases in Hx as [_ [(t & p & p' & Ht & _ & Hstep & _)|(_ & _ & -> & _)]]; [|done].
  assert (Hp : pc_ok p).
  { eapply Forall_lookup_1; [apply acc_pcs, accounts_reachable, Hr|exact Ht]. }
  destruct Hstep as [(c & -> & E)|(answer & room & _ & E)].
  - pose proof (call_step_log c (sh s)) as Hl. rewrite E in Hl. by eapply extends_ok.
  - pose proof (run_step_log p answer room (sh s)) as Hl. rewrite E in Hl. by eapply extends_ok.
Qed.

(** ** One acceptance per duty *)

Definition accepted_request (e : event) : nat :=
  match e with EvShutdown _ _ st => Nat.b2n (QUIC_SUCCEEDED st) | _ => 0 end.

Lemma accepted_request_duty e :
  ev_ok e -> (accepted_request e <= accepted DGraceful e + accepted DAbortSend e +
                accepted DAbortReceive e + accepted DImmediate e)%nat.
Proof.
  destruct e as [r fl st| | | | | | |]; simpl; try lia. intros [(_ & Hs & _ & _ & Ho) _].
  destruct (QUIC_SUCCEEDED st); [|simpl; lia]. rewrite !andb_true_r.
  destruct (ownsSendReservation r); simpl in *.
  - destruct (Hs eq_refl) as [-> | ->]; simpl; lia.
  - destruct (ownsReceiveReservation r), (ownsImmediateReservation r); simpl in *; lia.
Qed.

Lemma accepted_request_total l :
  Forall ev_ok l -> (total accepted_request l <= total (accepted DGraceful) l +
    total (accepted DAbortSend) l + total (accepted DAbortReceive) l +
    total (accepted DImmediate) l)%nat.
Proof.
  induction 1 as [|e l He _ IH]; [done|]. unfold total in *; simpl.
  pose proof (accepted_request_duty e He). lia.
Qed.

End Emissions.

(** ** Escalation *)

Section Escalation.
Context `{MsQuicApi}.

Definition escalating (p : pc) : nat :=
  match p with EscalateCall _ _ _ _ => 1 | _ => 0 end.

Definition escalation (e : event) : nat :=
  match e with EvConnectionShutdown _ _ _ => 1 | _ => 0 end.

Definition escalated (o : TqStreamLifetime) : bool :=
  match TerminalLedger_ o with Some l => ConnectionEscalated l | None => false end.

(** How a step may move the right to call [RequestConnectionShutdown]. *)
Definition escalates (p p' : pc) (s s' : shared) : Prop :=
  (escalated (owner s) = true -> escalated (owner s') = true) /\
  ((escalating p' + total escalation (log s') = escalating p + total escalation (log s))%nat \/
   (escalating p = 0%nat /\ log s' = log s /\ escalated (owner s) = false /\
    escalated (owner s') = true)).

Lemma escalates_still p p' s s' :
  (escalated (owner s) = true -> escalated (owner s') = true) ->
  escalating p = 0%nat -> escalating p' = 0%nat ->
  total escalation (log s') = total escalation (log s) -> escalates p p' s s'.
Proof. intros. split; [done|]. left. lia. Qed.

Lemma on_ledger_escalated f o :
  (forall l, ConnectionEscalated (f l) = ConnectionEscalated l) ->
  escalated (on_ledger f o) = escalated o.
Proof. intros Hf. unfold escalated, on_ledger; simpl. destruct (TerminalLedger_ o); simpl; auto. Qed.

(** A critical section that answers [grant] only when it raises the flag. *)
Lemma section_grants {A} (d : A) (grant : A -> bool) f s a s' :
  grant d = false ->
  (forall l, let '(a, l') := f l in
     (ConnectionEscalated l = true -> ConnectionEscalated l' = true) /\
     (grant a = true -> ConnectionEscalated l = false /\ ConnectionEscalated l' = true)) ->
  ledger_section d f s = (a, s') ->
  (escalated (owner s) = true -> escalated (owner s') = true) /\ log s' = log s /\
  (grant a = true -> escalated (owner s) = false /\ escalated (owner s') = true).
Proof.
  intros Hd Hf. unfold ledger_section, escalated.
  destruct (TerminalLedger_ (owner s)) as [l|] eqn:El.
  - specialize (Hf l). destruct (f l) as [a' l'] eqn:Ef. intros [= <- <-]. simpl. tauto.
  - intros [= <- <-]. rewrite El. split_and!; auto. congruence.
Qed.

Lemma resume_escalating k : escalating (resume k) = 0%nat.
Proof. destruct k; simpl; try destruct (_ =? 0); done. Qed.

Lemma escalate_again_escalating task n : escalating (escalate_again task n) = 0%nat.
Proof. by destruct n. Qed.

Lemma record_event_escalated e l : ConnectionEscalated (RecordEvent e l) = ConnectionEscalated l.
Proof. done. Qed.

Lemma cancel_escalated l : ConnectionEscalated (CancelWatchdog l).2 = ConnectionEscalated l.
Proof. unfold CancelWatchdog. by case_match. Qed.

Lemma timed_out_escalated l : ConnectionEscalated (MarkTimedOut l).2 = ConnectionEscalated l.
Proof. unfold MarkTimedOut. by case_match. Qed.

Ltac still :=
  apply escalates_still; simpl; rewrite ?resume_escalating, ?escalate_again_escalating,
    ?on_ledger_escalated by
      (intros; first [apply cancel_escalated|apply timed_out_escalated|apply record_event_escalated
                     |done]); try done.

Lemma request_shutdown_escalates p intent error k s p' s' :
  escalating p = 0%nat -> request_shutdown intent error k s = (p', s') -> escalates p p' s s'.
Proof.
  intros Hp. unfold request_shutdown. destruct (_ || _); [intros [= <- <-]; still|].
  destruct (reserve _ _ _) as [d [r|]]; intros [= <- <-]; still.
Qed.

Lemma begin_terminal_escalates p error sink esc intent s p' s' :
  escalating p = 0%nat ->
  begin_terminal_shutdown error sink esc intent s = (p', s') -> escalates p p' s s'.
Proof.
  intros Hp. unfold begin_terminal_shutdown, begin_reserve.
  repeat (destruct (bool_decide _) || destruct (observed _));
  repeat destruct (_ || _); intros [= <- <-];
    try (apply escalates_still; simpl; auto; repeat case_match; done).
  all: apply escalates_still; simpl; auto; unfold escalated; simpl;
    destruct (TerminalLedger_ (owner s)); done.
Qed.

Lemma publish_terminal_escalates k s p' s' :
  publish_terminal k s = (p', s') -> escalates Idle p' s s'.
Proof.
  unfold publish_terminal, PublishTerminalAndTakeTarget.
  destruct (Phase_ (owner s)); intros [= <- <-]; still; try (by case_match).
Qed.

Lemma publish_start_failure_escalates st k s p' s' :
  publish_start_failure st k s = (p', s') -> escalates Idle p' s s'.
Proof.
  unfold publish_start_failure, PublishStartFailureAndTakeTarget.
  destruct (bool_decide _); intros [= <- <-]; still.
Qed.

Lemma call_step_escalates c s p' s' : call_step c s = (p', s') -> escalates Idle p' s s'.
Proof.
  destruct c; simpl;
    eauto using request_shutdown_escalates, begin_terminal_escalates, publish_terminal_escalates,
      publish_start_failure_escalates.
  - unfold BeginStart. destruct (bool_decide _); intros [= <- <-]; still.
  - case_match; [intros [= <- <-]|by apply publish_start_failure_escalates].
    unfold CompleteStart_ok. case_match; still.
  - intros [= <- <-]. case_match; still.
  - unfold TryAcquireReceiveApi. destruct (_ || _); intros [= <- <-]; still.
  - unfold upgrade_reserve. repeat case_match; simplify_eq/=; intros [= <- <-]; still.
  - unfold PublishTarget. destruct (_ || _); intros [= <- <-]; still.
  - destruct e; simpl; try (intros [= <- <-]; still); eauto using publish_terminal_escalates.
    case_match; [intros [= <- <-]|by apply publish_start_failure_escalates].
    unfold CompleteStart_ok. case_match; still.
  - unfold BindTerminalIdentity.
    destruct (TerminalLedger_ (owner s)) eqn:El; [|destruct (_ || _)]; intros [= <- <-]; still.
    unfold escalated. rewrite El. done.
  - intros [= <- <-]; still.
  - intros [= <- <-]; still.
  - unfold execute_task. repeat case_match; intros [= <- <-]; still.
  - intros [= <- <-]; still.
Qed.

(** After a section that grants the escalation, the thread goes to [p1] or stays clear. *)
Lemma granted_step {A} (d : A) (grant : A -> bool) f p p' s a s1 s' :
  grant d = false ->
  (forall l, let '(a, l') := f l in
     (ConnectionEscalated l = true -> ConnectionEscalated l' = true) /\
     (grant a = true -> ConnectionEscalated l = false /\ ConnectionEscalated l' = true)) ->
  ledger_section d f s = (a, s1) -> owner s' = owner s1 -> log s' = log s1 ->
  escalating p = 0%nat -> (grant a = false -> escalating p' = 0%nat) -> escalates p p' s s'.
Proof.
  intros Hd Hf Hl Ho Hlog Hp Hp'. destruct (section_grants _ _ _ _ _ _ Hd Hf Hl) as (H1 & H2 & H3).
  rewrite <- Ho in H1, H3. rewrite <- Hlog in H2. split; [done|].
  destruct (grant a) eqn:Hg; [right|left].
  - destruct (H3 eq_refl). auto.
  - rewrite H2, Hp, Hp' by done. done.
Qed.

Ltac grants := intros l; simpl; repeat case_match; simplify_eq/=; split; intros; to_prop; auto;
  try discriminate.

Lemma run_step_escalates p answer room s p' s' :
  run_step p answer room s = (p', s') -> escalates p p' s s'.
Proof.
  destruct p; simpl; open_step; eauto using request_shutdown_escalates, begin_terminal_escalates;
    try (intros [= <- <-]; still; fail).
  - unfold RetainUntilTerminal. destruct (TerminalRetained_ _);
      [|destruct (bool_decide _); [|destruct (retention s)]]; intros [= <- <-]; still.
  - intros [= <- <-]. case_match; still.
  - intros [= <- <-]. case_match; still.
  - destruct (ledger_section _ _ _) as [a s1] eqn:Hl. intros [= <- <-].
    eapply (granted_step false id); [done| |exact Hl|..]; try done; [|by destruct a].
    unfold mark_illegal. grants.
  - unfold begin_commit. destruct (observed _); [intros [= <- <-]; still|].
    destruct (QUIC_SUCCEEDED _); [intros [= <- <-]; still|].
    destruct (bool_decide _); intros [= <- <-]; still.
  - intros [= <- <-]. apply escalates_still; simpl; try done.
    rewrite on_ledger_escalated; [done|]. intros l. unfold RecordShutdown. by case_match.
  - intros [= <- <-]. repeat case_match; still.
  - destruct (ledger_section _ _ _) as [a s1] eqn:Hl. intros Hx.
    eapply (granted_step false (fun _ => false)); [done| |exact Hl|..];
      try (destruct a; by injection Hx as <- <-); try done. unfold ArmAndEnqueue. grants.
  - case_match; [intros [= <- <-]; still|]. case_match; [intros [= <- <-]; still|].
    destruct (ledger_section _ _ _) as [a s1] eqn:Hl. intros Hx.
    eapply (granted_step false (fun _ => false)); [done| |exact Hl|..];
      try (destruct a; by injection Hx as <- <-); try done.
  - unfold upgrade_commit. destruct (observed _); [|destruct (QUIC_SUCCEEDED _)];
      intros [= <- <-]; still.
  - destruct (ledger_section _ _ _) as [a s1] eqn:Hl. intros [= <- <-].
    eapply (granted_step false id); [done| |exact Hl|..]; try done; [|by destruct a].
    unfold upgrade_record. intros l. destruct (_ && negb (ConnectionEscalated l)) eqn:E; simpl.
    + to_prop. by split.
    + by split.
  - destruct (ledger_section _ _ _) as [a s1] eqn:Hl. intros Hx.
    eapply (granted_step None (fun o => match o with Some _ => true | None => false end));
      [done| |exact Hl|..]; try done;
      try (destruct a; try case_match; injection Hx as <- <-; try done;
           intros; by apply escalate_again_escalating).
    unfold MarkEscalated. grants.
  - intros [= <- <-]. split; [done|]. left. unfold total; simpl.
    destruct after as [[]|]; simpl; lia.
  - intros [= <- <-]. case_match; still.
Qed.

Lemma escalation_reachable s :
  reachable s ->
  (total escalating (threads s) + total escalation (log (sh s)) <= 1)%nat /\
  ((1 <= total escalating (threads s) + total escalation (log (sh s)))%nat ->
   escalated (owner (sh s)) = true).
Proof.
  induction 1 as [o entry n Hc|s a s' Hr [IH1 IH2] Hx].
  { simpl. rewrite total_zero; [unfold total; simpl; lia|].
    intros x Hx. by apply elem_of_replicate in Hx as [-> _]. }
  apply exec_cases in Hx as [_ [(t & p & p' & Ht & Hts & Hstep & _)|(_ & _ & Hs & Ht)]];
    [|rewrite Hs, Ht; done].
  assert (He : escalates p p' (sh s) (sh s')).
  { destruct Hstep as [(c & -> & E)|(answer & room & _ & E)];
      [by eapply call_step_escalates|by eapply run_step_escalates]. }
  pose proof (total_insert escalating _ _ _ p' Ht) as Hi. rewrite <- Hts in Hi.
  pose proof (total_le escalating _ _ _ Ht).
  destruct He as [Hm [E|(E1 & E2 & E3 & E4)]].
  - split; [lia|]. intros. apply Hm, IH2. lia.
  - assert (total escalating (threads s) + total escalation (log (sh s)) = 0)%nat.
    { destruct (decide (1 <= total escalating (threads s) + total escalation (log (sh s)))%nat)
        as [Hx|]; [|lia]. rewrite (IH2 Hx) in E3. discriminate. }
    rewrite E2. split; [|done]. destruct p'; simpl in Hi; lia.
Qed.

End Escalation.

(** ** Phases and the terminal event *)

Section Phases.
Context `{MsQuicApi}.

(** The edges of the phase machine. *)
Definition phase_edge (a b : Phase) : bool :=
  match a, b with
  | CreatedNotStarted, Starting
  | Starting, Started | Starting, StartFailed | Starting, TerminalPublished
  | Started, TerminalPublished => true
  | Closed, Closed => true
  | _, Closed => true
  | a, b => bool_decide (a = b)
  end.

(** The owner has given its target away for good. *)
Definition retired (p : Phase) : bool :=
  match p with StartFailed | TerminalPublished | Closed => true | _ => false end.

Definition taken (e : event) : nat := match e with EvTaken _ _ _ => 1 | _ => 0 end.

(** Deliveries of SHUTDOWN_COMPLETE, made and still to be made. *)
Definition terminal_delivery (e : event) : nat :=
  match e with EvDeliver SHUTDOWN_COMPLETE _ _ => 1 | _ => 0 end.

Definition kont_terminal (k : kont) : nat :=
  match k with
  | KRoute SHUTDOWN_COMPLETE _ _ | KReread SHUTDOWN_COMPLETE _ _ => 1 | _ => 0
  end.

Definition to_deliver (p : pc) : nat :=
  match p with
  | Release k | SchedulerCancel k | SchedulerErase k | ShutdownEnter _ _ k
  | ShutdownDowncall _ k | ShutdownCommit _ _ k => kont_terminal k
  | DispatchSnapshot SHUTDOWN_COMPLETE | Deliver SHUTDOWN_COMPLETE _ _ => 1
  | _ => 0
  end.

(** What a step does to the phase, the target and the deliveries to come. *)
Record phase_step (p p' : pc) (s s' : shared) : Prop := {
  ph_edge : phase_edge (Phase_ (owner s)) (Phase_ (owner s')) = true;
  ph_taken : (total taken (log s') + Nat.b2n (retired (Phase_ (owner s))) =
              total taken (log s) + Nat.b2n (retired (Phase_ (owner s'))))%nat;
  ph_target : retired (Phase_ (owner s')) = true -> Target_ (owner s') = 0 \/
              (retired (Phase_ (owner s)) = true /\ Target_ (owner s') = Target_ (owner s));
  ph_deliver : (to_deliver p' + total terminal_delivery (log s') + total taken (log s) <=
                to_deliver p + total terminal_delivery (log s) + total taken (log s'))%nat;
  ph_observed : TerminalPhase_ (term (owner s')) = TerminalObserved ->
                TerminalPhase_ (term (owner s)) = TerminalObserved \/
                Phase_ (owner s') = TerminalPublished;
  ph_open : Phase_ (owner s') = Closed -> Phase_ (owner s) = Closed }.

Lemma phase_still p p' s s' :
  Phase_ (owner s') = Phase_ (owner s) ->
  (retired (Phase_ (owner s)) = true -> Target_ (owner s') = Target_ (owner s)) ->
  total taken (log s') = total taken (log s) ->
  (to_deliver p' + total terminal_delivery (log s') <=
   to_deliver p + total terminal_delivery (log s))%nat ->
  (TerminalPhase_ (term (owner s')) = TerminalObserved ->
   TerminalPhase_ (term (owner s)) = TerminalObserved) -> phase_step p p' s s'.
Proof.
  intros E1 E2 E3 E4 E5. split; rewrite ?E1; auto; try lia. by destruct (Phase_ (owner s)).
Qed.

Lemma resume_deliver k : (to_deliver (resume k) <= kont_terminal k)%nat.
Proof. destruct k as [|e t g|e t g]; simpl; [lia|..]; destruct e, (t =? 0); simpl; lia. Qed.

Ltac still := apply phase_still; simpl; auto; try discriminate;
  try match goal with |- context [resume ?k] => pose proof (resume_deliver k) end; try lia.

Lemma request_shutdown_phase p intent error k s p' s' :
  (kont_terminal k <= to_deliver p)%nat ->
  request_shutdown intent error k s = (p', s') -> phase_step p p' s s'.
Proof.
  intros Hp. unfold request_shutdown. destruct (_ || _); [intros [= <- <-]; still|].
  destruct (reserve _ _ _) as [d [r|]]; intros [= <- <-]; still.
Qed.

Lemma begin_terminal_phase p error sink esc intent s p' s' :
  begin_terminal_shutdown error sink esc intent s = (p', s') -> phase_step p p' s s'.
Proof.
  unfold begin_terminal_shutdown, begin_reserve.
  destruct (observed _); [intros [= <- <-]; still|].
  destruct (bool_decide _); [intros [= <- <-]; still|].
  destruct (bool_decide _); [intros [= <- <-]; still|].
  destruct (_ || _ || _ || _) eqn:Hill; [intros [= <- <-]|].
  { apply phase_still; simpl; auto. case_match; simpl; lia. }
  to_prop. intros [= <- <-]. still. unfold running in *.
  destruct (Phase_ (owner s)); done.
Qed.

Lemma publish_terminal_phase k s p' s' :
  (forall t g, (kont_terminal (k t g) <= 1)%nat) -> to_deliver (resume (k 0 0)) = 0%nat ->
  publish_terminal k s = (p', s') -> phase_step Idle p' s s'.
Proof.
  intros Hk H0. unfold publish_terminal, PublishTerminalAndTakeTarget.
  destruct (Phase_ (owner s)) eqn:EP; intros [= <- <-];
    try (apply phase_still; simpl; rewrite ?H0; auto; lia).
  all: split; simpl; rewrite ?EP; try done; auto; unfold total; simpl; try lia.
  all: case_match; simpl; specialize (Hk (Target_ (owner s)) (RouteGeneration_ (owner s))); lia.
Qed.

Lemma publish_start_failure_phase st k s p' s' :
  (forall t g, kont_terminal (k t g) = 0%nat) ->
  publish_start_failure st k s = (p', s') -> phase_step Idle p' s s'.
Proof.
  intros Hk. unfold publish_start_failure, PublishStartFailureAndTakeTarget.
  destruct (bool_decide_reflect (Phase_ (owner s) = Starting)) as [EP|]; intros [= <- <-].
  - split; simpl; rewrite ?EP; try done; auto; unfold total; simpl; rewrite ?Hk; lia.
  - apply phase_still; simpl; auto. pose proof (resume_deliver (k 0 0)) as Hr.
    rewrite Hk in Hr. lia.
Qed.

Lemma complete_start_phase o :
  Phase_ (CompleteStart_ok o).2 = Phase_ o \/
  (Phase_ o = Starting /\ Phase_ (CompleteStart_ok o).2 = Started).
Proof. unfold CompleteStart_ok. destruct (Phase_ o) eqn:E; simpl; auto. Qed.

Lemma complete_start_step s p' :
  to_deliver p' = 0%nat -> phase_step Idle p' s (with_owner s (CompleteStart_ok (owner s)).2).
Proof.
  intros Hp. unfold CompleteStart_ok. destruct (Phase_ (owner s)) eqn:E;
    try (apply phase_still; simpl; auto; lia).
  split; simpl; rewrite ?E; try done; auto; simpl; lia.
Qed.

Lemma call_step_phase c s p' s' : call_step c s = (p', s') -> phase_step Idle p' s s'.
Proof.
  destruct c; simpl.
  - unfold BeginStart. destruct (bool_decide_reflect (Phase_ (owner s) = CreatedNotStarted)) as [E|];
      intros [= <- <-]; [|still]. split; simpl; rewrite ?E; try done; auto; simpl; lia.
  - case_match; [intros [= <- <-]; by apply complete_start_step|].
    by apply publish_start_failure_phase.
  - intros [= <- <-]. case_match; still.
  - unfold TryAcquireReceiveApi. destruct (_ || _); intros [= <- <-]; still.
  - by apply request_shutdown_phase.
  - by apply begin_terminal_phase.
  - unfold upgrade_reserve. repeat case_match; simplify_eq/=; intros [= <- <-]; still.
  - unfold PublishTarget. destruct (_ || _) eqn:Hg; intros [= <- <-]; still.
    to_prop. unfold running in *. destruct (Phase_ (owner s)); done.
  - apply publish_terminal_phase; [intros; simpl; lia|done].
  - by apply publish_start_failure_phase.
  - destruct e; simpl.
    + case_match; [intros [= <- <-]; by apply complete_start_step|].
      by apply publish_start_failure_phase.
    + intros [= <- <-]. still.
    + by apply publish_terminal_phase.
    + intros [= <- <-]. still.
    + intros [= <- <-]. still.
  - unfold BindTerminalIdentity. destruct (TerminalLedger_ (owner s)); [|destruct (_ || _)];
      intros [= <- <-]; still.
  - intros [= <- <-]. still.
  - intros [= <- <-]. still.
  - unfold execute_task. repeat case_match; intros [= <- <-]; still.
  - intros [= <- <-]. still.
Qed.

Lemma ledger_section_route {A} (d : A) f s a s' :
  ledger_section d f s = (a, s') ->
  Phase_ (owner s') = Phase_ (owner s) /\ Target_ (owner s') = Target_ (owner s) /\
  log s' = log s /\ term (owner s') = term (owner s).
Proof. unfold ledger_section. intros Hs. cases_in Hs; done. Qed.

Ltac by_section :=
  let a := fresh "a" in let s1 := fresh "s1" in let Hl := fresh "Hl" in
  destruct (ledger_section _ _ _) as [a s1] eqn:Hl;
  apply ledger_section_route in Hl as (? & ? & ? & ?);
  repeat case_match; intros [= <- <-]; apply phase_still; simpl; try congruence; try lia;
  repeat match goal with E : log _ = _ |- _ => rewrite E end; try lia.

Lemma run_step_phase p answer room s p' s' :
  run_step p answer room s = (p', s') -> phase_step p p' s s'.
Proof.
  destruct p; simpl; open_step; eauto using begin_terminal_phase, request_shutdown_phase;
    try (intros [= <- <-]; still; fail); try (by_section; fail).
  - unfold RetainUntilTerminal. destruct (TerminalRetained_ _);
      [|destruct (bool_decide _); [|destruct (retention s)]]; intros [= <- <-]; still.
  - intros [= <- <-]. case_match; still.
  - by apply request_shutdown_phase.
  - intros [= <- <-]. apply phase_still; simpl; auto. case_match; destruct e; simpl; lia.
  - unfold begin_commit. destruct (observed _); [intros [= <- <-]; still|].
    destruct (QUIC_SUCCEEDED _); [intros [= <- <-]; still|].
    destruct (bool_decide _); intros [= <- <-]; still.
  - intros [= <- <-]. repeat case_match; still.
  - unfold upgrade_commit. destruct (observed _); [|destruct (QUIC_SUCCEEDED _)];
      intros [= <- <-]; still.
  - destruct (ledger_section _ _ _) as [a s1] eqn:Hl.
    apply ledger_section_route in Hl as (E1 & E2 & E3 & E4).
    destruct a; [case_match|]; intros [= <- <-]; apply phase_still; simpl; rewrite ?E1, ?E2, ?E3, ?E4; auto.
    destruct again; simpl; lia.
  - intros [= <- <-]. case_match; [case_match|]; still.
  - intros [= <- <-]. apply phase_still; try (case_match; done).
    destruct again, room; simpl; lia.
Qed.

Lemma step_phase s t p p' s' :
  threads s !! t = Some p ->
  (exists c, p = Idle /\ call_step c (sh s) = (p', s')) \/
  (exists answer room, p <> Idle /\ run_step p answer room (sh s) = (p', s')) ->
  phase_step p p' (sh s) s'.
Proof.
  intros _ [(c & -> & E)|(answer & room & _ & E)];
    [by eapply call_step_phase|by eapply run_step_phase].
Qed.

(** Between [start] and the destructor. *)
Record phases (s : sys) : Prop := {
  pha_taken : Phase_ (owner (sh s)) <> Closed ->
    total taken (log (sh s)) = Nat.b2n (retired (Phase_ (owner (sh s))));
  pha_published : TerminalPhase_ (term (owner (sh s))) = TerminalObserved ->
    Phase_ (owner (sh s)) = TerminalPublished;
  pha_once : (total taken (log (sh s)) <= 1)%nat;
  pha_target : retired (Phase_ (owner (sh s))) = true -> Target_ (owner (sh s)) = 0;
  pha_deliver : (total to_deliver (threads s) + total terminal_delivery (log (sh s)) <=
                 total taken (log (sh s)))%nat }.

Lemma phases_reachable s : reachable s -> phases s.
Proof.
  induction 1 as [o entry n Hc|s a s' Hr IH Hx].
  { destruct (created_fresh _ _ Hc) as (_ & Htm & Hp & _).
    split; simpl; rewrite ?Htm; try (by destruct Hp as [-> | ->]); try done;
      [by unfold total; simpl; lia|].
    rewrite total_zero; [unfold total; simpl; lia|].
    intros x Hx. by apply elem_of_replicate in Hx as [-> _]. }
  destruct IH as [I1 I5 I2 I3 I4].
  apply exec_cases in Hx as [Hcl [(t & p & p' & Ht & Hts & Hstep & _)|(Hidle & _ & Hs & Ht)]].
  - destruct (step_phase _ _ _ _ _ Ht Hstep) as [Ee Et Eg Ed Eo Ec].
    pose proof (total_insert to_deliver _ _ _ p' Ht) as Hi. rewrite <- Hts in Hi.
    specialize (I1 Hcl). split; [intros _; lia| | |..].
    + intros Ho. destruct (Eo Ho) as [Ho'|]; [|done]. rewrite (I5 Ho') in Ee.
      destruct (Phase_ (owner (sh s'))); try done. by rewrite (Ec eq_refl) in Hcl.
    + destruct (retired (Phase_ (owner (sh s)))), (retired (Phase_ (owner (sh s'))));
        simpl in *; lia.
    + intros Hr'. destruct (Eg Hr') as [|[H1 ->]]; auto.
    + lia.
  - destruct s' as [sh' ts']. simpl in Hs, Ht. subst. by split.
Qed.

(** *** Admission *)

(** Rights the owner hands out: an API lease, a published route, a thread on its way into
    MsQuic with a shutdown, be it directional, terminal or an upgrade to an abort. *)
Definition granted (e : event) : nat :=
  match e with EvLease | EvPublished _ _ => 1 | _ => 0 end.

Definition entering (p : pc) : nat :=
  match p with ShutdownDowncall _ _ | TerminalDowncall _ | UpgradeDowncall _ => 1 | _ => 0 end.

Definition upgrades (a : action) : bool :=
  match a with Call _ (CUpgradeTerminalShutdownToAbort _ _) => true | _ => false end.

Definition refuses (p' : pc) (s s' : shared) : Prop :=
  entering p' = 0%nat /\ total granted (log s') = total granted (log s).

Lemma resume_refuses k s s' : log s' = log s -> refuses (resume k) s s'.
Proof.
  intros Hl. unfold refuses. rewrite Hl. split; [|done].
  destruct k as [|e t g|e t g]; simpl; try done; by destruct (t =? 0).
Qed.

Lemma quiet_refuses p' s s' : log s' = log s -> entering p' = 0%nat -> refuses p' s s'.
Proof. unfold refuses. by intros ->. Qed.

Lemma request_shutdown_refuses intent error k s p' s' :
  running (Phase_ (owner s)) = false -> request_shutdown intent error k s = (p', s') ->
  refuses p' s s'.
Proof.
  intros Hrun. unfold request_shutdown. rewrite Hrun, orb_true_r. intros [= <- <-].
  by apply resume_refuses.
Qed.

Lemma begin_terminal_refuses error sink esc intent s p' s' :
  running (Phase_ (owner s)) = false ->
  begin_terminal_shutdown error sink esc intent s = (p', s') -> refuses p' s s'.
Proof.
  intros Hrun. unfold begin_terminal_shutdown, begin_reserve. rewrite Hrun. cbn [negb].
  rewrite orb_true_r. cbn [orb]. destruct (observed _);
    [|destruct (bool_decide (TerminalPhase_ (term (owner s)) = ShutdownSubmitted));
      [|destruct (bool_decide (TerminalPhase_ (term (owner s)) = ShutdownReserved))]];
    intros [= <- <-]; apply quiet_refuses; try done. by destruct (negb _ && negb _).
Qed.

Lemma call_step_refuses c s p' s' :
  retired (Phase_ (owner s)) = true -> call_step c s = (p', s') ->
  total granted (log s') = total granted (log s) /\
  (upgrades (Call 0 c) = false \/ observed (owner s) = true -> entering p' = 0%nat).
Proof.
  intros Hr. assert (Hup : forall p' s', refuses p' s s' ->
    total granted (log s') = total granted (log s) /\
    (upgrades (Call 0 c) = false \/ observed (owner s) = true -> entering p' = 0%nat))
    by (by intros ? ? [? ?]).
  assert (Hrun : running (Phase_ (owner s)) = false) by
    (unfold running; by destruct (Phase_ (owner s))).
  assert (Hst : bool_decide (Phase_ (owner s) = Starting) = false) by
    (by destruct (Phase_ (owner s))).
  assert (Hsf : forall st k, publish_start_failure st k s = (p', s') -> refuses p' s s').
  { intros st k. unfold publish_start_failure, PublishStartFailureAndTakeTarget.
    rewrite Hst. intros [= <- <-]. by apply resume_refuses. }
  assert (Hpt : forall k, publish_terminal k s = (p', s') -> refuses p' s s').
  { intros k. unfold publish_terminal, PublishTerminalAndTakeTarget.
    destruct (Phase_ (owner s)); try discriminate Hr; intros [= <- <-]; by apply resume_refuses. }
  destruct c;
    lazymatch goal with
    | |- call_step (CUpgradeTerminalShutdownToAbort _ _) _ = _ -> _ => idtac
    | _ => intros E; apply Hup; revert E
    end; simpl; try apply Hpt; try apply Hsf; try (intros [= <- <-]; by apply quiet_refuses).
  - unfold BeginStart. replace (bool_decide (Phase_ (owner s) = CreatedNotStarted)) with false
      by (by destruct (Phase_ (owner s))). intros [= <- <-]; by apply quiet_refuses.
  - case_match; [intros [= <- <-]; by apply quiet_refuses|]. by apply Hsf.
  - unfold TryAcquireApi. rewrite Hrun, andb_false_r. intros [= <- <-]. by apply quiet_refuses.
  - unfold TryAcquireReceiveApi. rewrite Hrun, orb_true_r. intros [= <- <-]. by apply quiet_refuses.
  - by apply request_shutdown_refuses.
  - by apply begin_terminal_refuses.
  - unfold upgrade_reserve. destruct (observed (owner s)); [by intros [= <- <-]|].
    repeat case_match; intros [= <- <-]; (split; [done|by intros [|]]).
  - unfold PublishTarget. rewrite Hrun. cbn [negb]. rewrite orb_true_r. simpl.
    intros [= <- <-]. by apply quiet_refuses.
  - destruct e; simpl; try apply Hpt; try (intros [= <- <-]; by apply quiet_refuses).
    case_match; [intros [= <- <-]; by apply quiet_refuses|]. by eapply Hsf.
  - destruct (BindTerminalIdentity _ _ _). intros [= <- <-]. by apply quiet_refuses.
  - unfold execute_task. repeat case_match; intros [= <- <-]; by apply quiet_refuses.
Qed.

Lemma run_step_refuses p answer room s p' s' :
  retired (Phase_ (owner s)) = true -> run_step p answer room s = (p', s') -> refuses p' s s'.
Proof.
  intros Hr Hx. assert (Hrun : running (Phase_ (owner s)) = false) by
    (unfold running; by destruct (Phase_ (owner s))).
  assert (Hlog : total granted (log s') = total granted (log s)).
  { pose proof (run_step_log p answer room s) as Hl. rewrite Hx in Hl.
    destruct Hl as [E|(e & E & He)]; simpl in E; [by rewrite E|].
    destruct e; try (rewrite E; done); simpl in He; subst p; simpl in Hx; by injection Hx as _ <-. }
  split; [|exact Hlog].
  destruct p; simpl in Hx; open_step_in Hx; try (by apply request_shutdown_refuses in Hx as [? _]);
    try (by apply begin_terminal_refuses in Hx as [? _]);
    repeat case_match; injection Hx as <- _; try done;
    try (by destruct again);
    match goal with |- entering (resume ?k) = _ => apply (resume_refuses k s s eq_refl) end.
Qed.

End Phases.

(** ** A concrete MsQuic *)

Module LinuxMsQuic.

(** The Linux values: a status is an unsigned errno, success when not positive as an [int]. *)
Definition succeeded (status : Z) : bool := (status =? 0) || (2 ^ 31 <=? status).

#[global] Instance api : MsQuicApi := {|
  QUIC_SUCCEEDED := succeeded; QUIC_STATUS_SUCCESS := 0; QUIC_STATUS_INVALID_STATE := 1;
  QUIC_STATUS_PENDING := 2 ^ 32 - 2; SHUTDOWN_FLAG_NONE := 0; SHUTDOWN_FLAG_GRACEFUL := 1;
  SHUTDOWN_FLAG_ABORT_SEND := 2; SHUTDOWN_FLAG_ABORT_RECEIVE := 4; SHUTDOWN_FLAG_ABORT := 6;
  SHUTDOWN_FLAG_IMMEDIATE := 8 |}.

Definition identity : TqTerminalIdentity :=
  {| StreamId := 4; TunnelId := 7; IdConnectionId := 1; ConnectionGeneration := 1; IdRole := 0;
     IdBackend := 1 |}.

Definition fresh (phase : Phase) : TqStreamLifetime * bool :=
  match make_owner phase 100 identity 5 9 true with
  | Some r => r
  | None => (new_owner 0 phase 0, false)
  end.

Definition begun (n : nat) : sys :=
  start (fresh CreatedNotStarted).1 (fresh CreatedNotStarted).2 n.

Fixpoint execute (l : list action) (s : sys) : option sys :=
  match l with
  | [] => Some s
  | a :: l' => match exec a s with Some s' => execute l' s' | None => None end
  end.

Lemma begun_reachable n : reachable (begun n).
Proof. apply reach_start. left. by exists 100, identity, 5, 9, true. Qed.

Lemma execute_reachable l s s' : reachable s -> execute l s = Some s' -> reachable s'.
Proof.
  revert s. induction l as [|a l IH]; simpl; intros s Hr Hx; [by injection Hx as <-|].
  destruct (exec a s) as [s1|] eqn:E; [|discriminate]. eapply IH; [|exact Hx].
  by eapply reach_step.
Qed.

Definition after (l : list action) (n : nat) : sys := default (begun n) (execute l (begun n)).

Lemma after_reachable l n : reachable (after l n).
Proof.
  unfold after. destruct (execute l (begun n)) as [s|] eqn:E; simpl; [|apply begun_reachable].
  eapply execute_reachable; [apply begun_reachable|exact E].
Qed.

(** A stream that started; two threads race to abort it, the first downcall fails. *)
Definition race : list action :=
  [Call 0 CBeginStart; Run 0 0 true; Call 0 (CCompleteStart 0);
   Call 0 (CRequestShutdown GracefulSend 0); Call 1 (CRequestShutdown AbortBoth 3);
   Run 1 5 true; Run 1 0 true; Run 0 0 true; Run 0 0 true].

(** The terminal handoff is refused four times, retried by the scheduler and escalated. *)
Definition handoff : list action :=
  [Call 0 CBeginStart; Run 0 0 true; Call 0 (CCompleteStart 0);
   Call 0 (CBeginTerminalShutdown 3 200 300 TerminalAbortBothImmediate);
   Run 0 5 true; Run 0 0 true; Run 0 0 true; Run 0 0 true; Run 0 0 true].
Definition retry : list action :=
  [Call 1 (CExecuteTask 0); Run 1 0 true; Run 1 0 true; Run 1 5 true; Run 1 0 true; Run 1 0 true;
   Run 1 0 true; Run 1 0 true].
Definition escalate_ : list action := handoff ++ retry ++ retry ++ retry ++ [Run 1 0 true; Run 1 0 true].

(** SHUTDOWN_COMPLETE arrives while a shutdown is in flight. *)
Definition terminal : list action :=
  [Call 0 CBeginStart; Run 0 0 true; Call 0 (CCompleteStart 0); Call 0 CTryAcquireApi;
   Call 0 (CRequestShutdown AbortBoth 3); Call 1 (CDispatch SHUTDOWN_COMPLETE); Run 1 0 true;
   Run 1 0 true; Run 1 0 true; Run 1 0 true].

End LinuxMsQuic.

(** ** The owner's guarantees *)

Section Guarantees.
Context `{MsQuicApi}.

(** C33. Along every interleaving the phase only moves forward; the owner gives its target away
    at most once (start failure or terminal, never both), the terminal event SHUTDOWN_COMPLETE
    is delivered to at most one target, and a retired owner has no target.  Once retired it
    grants no API lease, publishes no route and lets no further shutdown into MsQuic, with one
    exception: an upgrade to an abort, which is refused once the terminal event was observed. *)
Theorem terminal_is_published_once s a s' :
  reachable s -> exec a s = Some s' ->
  phase_edge (Phase_ (owner (sh s))) (Phase_ (owner (sh s'))) = true /\
  (total taken (log (sh s')) <= 1)%nat /\
  (total terminal_delivery (log (sh s')) <= total taken (log (sh s')))%nat /\
  (retired (Phase_ (owner (sh s'))) = true -> Target_ (owner (sh s')) = 0) /\
  (retired (Phase_ (owner (sh s))) = true ->
   total granted (log (sh s')) = total granted (log (sh s)) /\
   (upgrades a = false \/ observed (owner (sh s)) = true ->
    (total entering (threads s') <= total entering (threads s))%nat)).
Proof.
  intros Hr Hx. pose proof (phases_reachable _ (reach_step _ _ _ Hr Hx)) as [_ _ P2 P3 P4].
  apply exec_cases in Hx as [Hcl [(t & p & p' & Ht & Hts & Hstep & Ha)|(Hidle & _ & Hs & Hts)]].
  - destruct (step_phase _ _ _ _ _ Ht Hstep) as [Ee _ _ _ _ _]. split_and!; try done; [lia|].
    intros Hret. pose proof (total_insert entering _ _ _ p' Ht) as Hi. rewrite <- Hts in Hi.
    destruct Hstep as [(c' & -> & _)|(answer & room & _ & E)].
    + destruct (Ha eq_refl) as (c & -> & E).
      destruct (call_step_refuses _ _ _ _ Hret E) as [H1 H2]. split; [done|]. intros Hu.
      specialize (H2 Hu). lia.
    + destruct (run_step_refuses _ _ _ _ _ _ Hret E) as [H1 H2]. split; [done|]. lia.
  - rewrite Hs, Hts in *. simpl in *. split_and!; try done; try lia.
    by destruct (Phase_ (owner (sh s))).
Qed.

(** C34. Each duty of a [Shutdown] downcall (graceful send, abort send, abort receive,
    immediate, terminal, upgrade to abort) is at any time carried by at most one thread, and is
    accepted by MsQuic at most once in the life of the stream; in particular at most four
    directional shutdowns are ever accepted, each with the flags of its request. *)
Theorem shutdowns_are_accepted_once s :
  reachable s ->
  (forall c, (total (pending c) (threads s) + total (accepted c) (log (sh s)) <= 1)%nat) /\
  (total accepted_request (log (sh s)) <= 4)%nat /\
  (forall r flags st, EvShutdown r flags st ∈ log (sh s) -> flags = shutdown_flags r).
Proof.
  intros Hr. pose proof (acc_once s (accounts_reachable s Hr)) as Ho.
  pose proof (log_ok_reachable s Hr) as Hl. split_and!; [done|..].
  - pose proof (accepted_request_total _ Hl).
    pose proof (Ho DGraceful); pose proof (Ho DAbortSend); pose proof (Ho DAbortReceive);
      pose proof (Ho DImmediate). lia.
  - intros r flags st Hin. rewrite List.Forall_forall in Hl.
    specialize (Hl _ ltac:(by apply list_elem_of_In)). simpl in Hl. tauto.
Qed.

(** What a request for [intent] asks for. *)
Definition wants_send (intent : ShutdownIntent) : Z :=
  match intent with GracefulSend => 1 | AbortReceive => 0 | _ => 2 end.
Definition wants_receive (intent : ShutdownIntent) : bool :=
  match intent with GracefulSend | AbortSend => false | _ => true end.
Definition wants_immediate (intent : ShutdownIntent) : bool :=
  bool_decide (intent = AbortBothImmediate).

(** The part of [intent] that MsQuic has accepted, or that the request [r] carries to it. *)
Definition served (intent : ShutdownIntent) (d : directions) (send : Z) (receive immediate : bool) :
    Prop :=
  (wants_send intent <= SubmittedSendShutdown_ d \/ wants_send intent <= send) /\
  (wants_receive intent = true -> SubmittedReceiveAbort_ d = true \/ receive = true) /\
  (wants_immediate intent = true -> SubmittedImmediate_ d = true \/ immediate = true).

Lemma quiet_reserved s :
  accounts s -> forallb is_idle (threads s) = true ->
  ReservedSendShutdown_ (dirs (owner (sh s))) = 0 /\
  ReservedReceiveAbort_ (dirs (owner (sh s))) = false /\
  ReservedImmediate_ (dirs (owner (sh s))) = false /\
  TerminalPhase_ (term (owner (sh s))) <> ShutdownReserved /\
  TerminalAbortUpgradeReserved_ (term (owner (sh s))) = false.
Proof.
  intros Ha Hidle.
  assert (Hb : forall c, ~ busy c (owner (sh s))).
  { intros c Hc. apply (acc_busy s Ha) in Hc.
    rewrite !idle_total in Hc by done. lia. }
  pose proof (Hb DGraceful) as B1. pose proof (Hb DAbortSend) as B2.
  pose proof (Hb DAbortReceive) as B3. pose proof (Hb DImmediate) as B4.
  pose proof (Hb DTerminal) as B5. pose proof (Hb DUpgrade) as B6.
  simpl in *. destruct (acc_dirs s Ha) as (_ & _ & ?).
  split_and!; try done; [lia|by apply not_true_iff_false..].
Qed.

Lemma reserve_serves intent error d d' req :
  dirs_ok d -> ReservedSendShutdown_ d = 0 -> ReservedReceiveAbort_ d = false ->
  ReservedImmediate_ d = false -> reserve intent error d = (d', req) ->
  match req with
  | Some r => served intent d (sendRequest r) (receiveRequest r) (immediateRequest r)
  | None => served intent d 0 false false
  end.
Proof.
  intros (Hd1 & Hd2 & _) E1 E2 E3. unfold reserve, served.
  destruct intent; cbn; rewrite ?E1, ?E2, ?E3;
    destruct (SubmittedReceiveAbort_ d), (SubmittedImmediate_ d), (DesiredReceiveAbort_ d);
    cbn; intros [= <- <-]; repeat case_match; simplify_eq/=; to_prop;
    split_and!; intros; auto; try discriminate; try lia.
Qed.

(** C35. No reservation leaks: whenever no thread is inside the owner, whatever failed before, a
    request on a running stream is either already accepted by MsQuic in full or goes to the
    downcall carrying all that is missing, and a terminal shutdown that has not been accepted
    goes to the downcall again. *)
Theorem failed_shutdowns_can_be_retried s t intent error :
  reachable s -> forallb is_idle (threads s) = true -> threads s !! t = Some Idle ->
  running (Phase_ (owner (sh s))) = true -> Stream_ (owner (sh s)) <> 0 ->
  (exists s', exec (Call t (CRequestShutdown intent error)) s = Some s' /\
     ((threads s' !! t = Some Idle /\ served intent (dirs (owner (sh s))) 0 false false) \/
      (exists r, threads s' !! t = Some (ShutdownDowncall r KReturn) /\ errorCode r = error /\
         served intent (dirs (owner (sh s))) (sendRequest r) (receiveRequest r)
           (immediateRequest r)))) /\
  (forall sink esc tintent, sink <> 0 -> TerminalLedger_ (owner (sh s)) <> None ->
   exists s', exec (Call t (CBeginTerminalShutdown error sink esc tintent)) s = Some s' /\
     (TerminalPhase_ (term (owner (sh s))) = ShutdownSubmitted \/
      exists b, threads s' !! t = Some (TerminalDowncall b) /\ bErrorCode b = error /\
        bIntent b = tintent)).
Proof.
  intros Hr Hidle Ht Hrun Hst. pose proof (accounts_reachable s Hr) as Ha.
  destruct (quiet_reserved s Ha Hidle) as (Q1 & Q2 & Q3 & Q4 & _).
  assert (Hcl : Phase_ (owner (sh s)) <> Closed) by (intros E; by rewrite E in Hrun).
  pose proof (lookup_lt_Some _ _ _ Ht) as Hlt.
  unfold exec. rewrite bool_decide_eq_false_2, Ht by done. cbn [call_step]. split.
  - unfold request_shutdown. rewrite Hrun. replace (Stream_ (owner (sh s)) =? 0) with false by lia.
    cbn [orb negb].
    destruct (reserve intent error (dirs (owner (sh s)))) as [d' req] eqn:Hres.
    eexists. split; [reflexivity|]. simpl. rewrite list_lookup_insert_eq by done.
    pose proof (reserve_serves _ _ _ _ _ (acc_dirs s Ha) Q1 Q2 Q3 Hres) as Hs.
    destruct req as [r|]; [right|left]; [|done]. exists r. split_and!; try done; try apply Hs.
    unfold reserve in Hres. repeat case_match; simplify_eq/=; done.
  - intros sink esc tintent Hsink Hled. unfold begin_terminal_shutdown, begin_reserve.
    assert (Hobs : observed (owner (sh s)) = false).
    { destruct (observed (owner (sh s))) eqn:Ho; [|done].
      pose proof (pha_published s (phases_reachable s Hr)) as Hpp. unfold observed in Ho.
      apply orb_true_iff in Ho as [Ho|Ho]; apply bool_decide_eq_true in Ho;
        [rewrite (Hpp Ho) in Hrun|rewrite Ho in Hrun]; done. }
    rewrite Hobs, Hrun, (bool_decide_eq_false_2 _ Hled), (bool_decide_eq_false_2 _ Q4).
    replace (Stream_ (owner (sh s)) =? 0) with false by lia.
    replace (sink =? 0) with false by lia. cbn [orb negb].
    destruct (bool_decide_reflect (TerminalPhase_ (term (owner (sh s))) = ShutdownSubmitted)).
    + eexists. split; [reflexivity|]. by left.
    + eexists. split; [reflexivity|]. right. simpl. rewrite list_lookup_insert_eq by done.
      eexists. split; [reflexivity|done].
Qed.

(** [RequestConnectionShutdown] is called at most once per stream, whoever asks: the
    illegal-state path of [BeginTerminalShutdown], the upgrade to abort and the scheduler's
    retry exhaustion and watchdog all go through the ledger's flag, which is set before the call
    is made and never cleared. *)
Theorem connection_is_escalated_once s :
  reachable s ->
  (total escalating (threads s) + total escalation (log (sh s)) <= 1)%nat /\
  ((1 <= total escalating (threads s) + total escalation (log (sh s)))%nat ->
   exists l, TerminalLedger_ (owner (sh s)) = Some l /\ ConnectionEscalated l = true).
Proof.
  intros Hr. destruct (escalation_reachable s Hr) as [H1 H2]. split; [done|].
  intros Hx. specialize (H2 Hx). unfold escalated in H2.
  destruct (TerminalLedger_ (owner (sh s))) as [l|]; [by exists l|done].
Qed.

End Guarantees.

(** *** Witnesses *)

(** The owner after the run [terminal], and after a late request for a lease. *)
Definition retired_demo : sys := LinuxMsQuic.after LinuxMsQuic.terminal 2.
Definition late_lease : sys :=
  default retired_demo (exec (Call 1 CTryAcquireReceiveApi) retired_demo).

Lemma terminal_is_published_once_witness :
  reachable retired_demo /\
  exec (Call 1 CTryAcquireReceiveApi) retired_demo = Some late_lease /\
  retired (Phase_ (owner (sh retired_demo))) = true /\
  total taken (log (sh late_lease)) = 1%nat /\
  total granted (log (sh late_lease)) = total granted (log (sh retired_demo)).
Proof.
  assert (Hr : reachable retired_demo) by apply LinuxMsQuic.after_reachable.
  assert (Hx : exec (Call 1 CTryAcquireReceiveApi) retired_demo = Some late_lease)
    by (vm_compute; reflexivity).
  assert (Hret : retired (Phase_ (owner (sh retired_demo))) = true) by (vm_compute; reflexivity).
  split; [exact Hr|]. split; [exact Hx|]. split; [exact Hret|]. split; [vm_compute; reflexivity|].
  destruct (terminal_is_published_once _ _ _ Hr Hx) as (_ & _ & _ & _ & Hq).
  exact (proj1 (Hq Hret)).
Defined.

(** The exception: the start fails after a graceful terminal shutdown was submitted, and the
    retired owner still lets an upgrade to an abort into MsQuic. *)
Definition upgraded_late : list action :=
  [Call 0 CBeginStart; Run 0 0 true;
   Call 0 (CBeginTerminalShutdown 3 200 300 GracefulComplete);
   Run 0 0 true; Run 0 0 true; Run 0 0 true; Run 0 0 true;
   Call 1 (CPublishStartFailureAndTakeTarget 5); Call 0 (CUpgradeTerminalShutdownToAbort 7 0)].

Example start_failure_admits_an_upgrade :
  match LinuxMsQuic.execute upgraded_late (LinuxMsQuic.begun 2) with
  | Some s => (retired (Phase_ (owner (sh s))), total entering (threads s)) = (true, 1%nat)
  | None => False
  end.
Proof. vm_compute. reflexivity. Qed.

Definition race_demo : sys := LinuxMsQuic.after LinuxMsQuic.race 2.

Lemma shutdowns_are_accepted_once_witness :
  reachable race_demo /\ total accepted_request (log (sh race_demo)) = 1%nat /\
  length (log (sh race_demo)) = 2%nat /\
  (forall c, (total (pending c) (threads race_demo) +
              total (accepted c) (log (sh race_demo)) <= 1)%nat).
Proof.
  assert (Hr : reachable race_demo) by apply LinuxMsQuic.after_reachable.
  split; [exact Hr|]. split; [vm_compute; reflexivity|]. split; [vm_compute; reflexivity|].
  exact (proj1 (shutdowns_are_accepted_once _ Hr)).
Defined.

Lemma failed_shutdowns_can_be_retried_witness :
  SubmittedSendShutdown_ (dirs (owner (sh race_demo))) = 1 /\
  SubmittedReceiveAbort_ (dirs (owner (sh race_demo))) = false /\
  exists s', exec (Call 1 (CRequestShutdown AbortBoth 3)) race_demo = Some s' /\
    ((threads s' !! 1%nat = Some Idle /\
      served AbortBoth (dirs (owner (sh race_demo))) 0 false false) \/
     (exists r, threads s' !! 1%nat = Some (ShutdownDowncall r KReturn) /\ errorCode r = 3 /\
        served AbortBoth (dirs (owner (sh race_demo))) (sendRequest r) (receiveRequest r)
          (immediateRequest r))).
Proof.
  split; [vm_compute; reflexivity|]. split; [vm_compute; reflexivity|].
  apply (failed_shutdowns_can_be_retried race_demo 1 AbortBoth 3).
  - apply LinuxMsQuic.after_reachable.
  - vm_compute; reflexivity.
  - vm_compute; reflexivity.
  - vm_compute; reflexivity.
  - vm_compute; discriminate.
Defined.

Definition escalated_demo : sys := LinuxMsQuic.after LinuxMsQuic.escalate_ 2.

Lemma connection_is_escalated_once_witness :
  reachable escalated_demo /\ total escalation (log (sh escalated_demo)) = 1%nat /\
  (total escalating (threads escalated_demo) +
   total escalation (log (sh escalated_demo)) <= 1)%nat.
Proof.
  assert (Hr : reachable escalated_demo) by apply LinuxMsQuic.after_reachable.
  split; [exact Hr|]. split; [vm_compute; reflexivity|].
  exact (proj1 (connection_is_escalated_once _ Hr)).
Defined.
