(* ===== verification/StreamCallbacks.v ===== *)
(** Send completions and callback targets (src/src/tunnel/stream_lifetime.cpp).

    [SendCompletion]: a send is submitted to MsQuic with an opaque key; the registry
    [g_sendCompletions] maps the key to the owner, the route in force when the send was made, the
    caller's context and a cleanup, until the SEND_COMPLETE callback claims it or the caller
    cancels it.  [CallbackTarget]: the adapter through which a context receives stream events,
    and that must have gone quiet before the context is freed.

    As in the other concurrent components, a step is one critical section or one call made
    between two of them. *)

From stdpp Require Import base list strings numbers gmap.
From Stdlib Require Import ZArith Lia.
From S2P Require Import Prelude.
Local Open Scope Z_scope.

Module SendCompletion.

(** A registered send; [serial] numbers the registrations (it stands for the nonce in the key's
    envelope, which nothing reads). *)
Record SendCompletionRetention := {
  Owner : Z; TargetOwner : Z; Generation : Z; DeliveredContext : Z; Cleanup : Z; serial : nat }.

(** The part of an owner that registration reads, and the keys it keeps allocated. *)
Record owner_state := {
  running : bool; Target_ : Z; RouteGeneration_ : Z; SendKeyEnvelopes_ : list Z }.

(** The RAII guard. *)
Record SendCompletionReservation := { Owner_ : Z; Key_ : Z; Armed_ : bool }.

(** The log.  [Sent] is written when the [n]-th registration is asked for: the owner, and its
    target and generation at that moment. *)
Inductive event :=
| Sent (n : nat) (o target generation context : Z)
| Registered (r : SendCompletionRetention)
| Claimed (r : SendCompletionRetention)            (* taken by SEND_COMPLETE *)
| Delivered (n : nat) (target generation context : Z)
| Cancelled (r : SendCompletionRetention)
| CleanedUp (n : nat).

Inductive pc :=
| Idle
| Insert (key : Z) (r : SendCompletionRetention) (slot : option Z)
| Deliver (r : SendCompletionRetention)
| RunCleanup (r : SendCompletionRetention) (rollback : bool).

Record state := {
  owners : gmap Z owner_state;
  g_sendCompletions : gmap Z SendCompletionRetention;
  g_claimedSendCompletions : gmap Z Z;
  reservations : gmap Z SendCompletionReservation;
  next : nat;
  PreSubmitRollbacks : Z; UnknownClaims : Z; DuplicateClaims : Z;
  threads : list pc;
  log : list event }.

Definition set_maps (s : state) (ow : gmap Z owner_state)
    (c : gmap Z SendCompletionRetention) (cl : gmap Z Z) (n : nat) : state :=
  {| owners := ow; g_sendCompletions := c; g_claimedSendCompletions := cl;
     reservations := reservations s; next := n; PreSubmitRollbacks := PreSubmitRollbacks s;
     UnknownClaims := UnknownClaims s; DuplicateClaims := DuplicateClaims s;
     threads := threads s; log := log s |}.

Definition set_reservations (s : state) (r : gmap Z SendCompletionReservation) : state :=
  {| owners := owners s; g_sendCompletions := g_sendCompletions s;
     g_claimedSendCompletions := g_claimedSendCompletions s; reservations := r; next := next s;
     PreSubmitRollbacks := PreSubmitRollbacks s; UnknownClaims := UnknownClaims s;
     DuplicateClaims := DuplicateClaims s; threads := threads s; log := log s |}.

Definition count (s : state) (rollback unknown duplicate : bool) : state :=
  let up (b : bool) (x : Z) := if b then u64 (x + 1) else x in
  {| owners := owners s; g_sendCompletions := g_sendCompletions s;
     g_claimedSendCompletions := g_claimedSendCompletions s; reservations := reservations s;
     next := next s; PreSubmitRollbacks := up rollback (PreSubmitRollbacks s);
     UnknownClaims := up unknown (UnknownClaims s);
     DuplicateClaims := up duplicate (DuplicateClaims s); threads := threads s; log := log s |}.

Definition goto (s : state) (t : nat) (p : pc) (es : list event) : state :=
  {| owners := owners s; g_sendCompletions := g_sendCompletions s;
     g_claimedSendCompletions := g_claimedSendCompletions s; reservations := reservations s;
     next := next s; PreSubmitRollbacks := PreSubmitRollbacks s;
     UnknownClaims := UnknownClaims s; DuplicateClaims := DuplicateClaims s;
     threads := <[t := p]> (threads s); log := es ++ log s |}.

(** What [operator new] may return: an address no envelope occupies, or null. *)
Definition allocatable (key : Z) (s : state) : bool :=
  (key =? 0) || forallb (fun o => bool_decide (key ∉ SendKeyEnvelopes_ o.2)) (map_to_list (owners s)).

(** *** Registration *)

(** The [ControlMutex_] section of [RegisterSendCompletion]. *)
Definition RegisterSendCompletion (o context cleanup key : Z) (slot : option Z) (s : state) :
    pc * state :=
  match owners s !! o with
  | Some st =>
      if negb (running st) || (Target_ st =? 0) || (key =? 0) then (Idle, s)
      else
        (Insert key {| Owner := o; TargetOwner := Target_ st; Generation := RouteGeneration_ st;
                       DeliveredContext := context; Cleanup := cleanup; serial := next s |} slot,
         set_maps s (<[o := {| running := running st; Target_ := Target_ st;
                               RouteGeneration_ := RouteGeneration_ st;
                               SendKeyEnvelopes_ := key :: SendKeyEnvelopes_ st |}]> (owners s))
           (g_sendCompletions s) (g_claimedSendCompletions s) (S (next s)))
  | None => (Idle, s)
  end.

(** The [g_sendCompletionLock] section; [emplace] keeps an existing entry. *)
Definition insert_completion (key : Z) (r : SendCompletionRetention) (slot : option Z)
    (s : state) : bool * state :=
  match g_sendCompletions s !! key with
  | Some _ => (false, s)
  | None =>
      let s' := set_maps s (owners s) (<[key := r]> (g_sendCompletions s))
                  (g_claimedSendCompletions s) (next s) in
      (true, match slot with
             | None => s'
             | Some i => set_reservations s'
                 (<[i := {| Owner_ := Owner r; Key_ := key; Armed_ := true |}]> (reservations s))
             end)
  end.

(** *** Cancellation *)

Definition CancelSendCompletion (this key : Z) (s : state) :
    option SendCompletionRetention * state :=
  match g_sendCompletions s !! key with
  | Some r =>
      if Owner r =? this
      then (Some r, set_maps s (owners s) (delete key (g_sendCompletions s))
                      (g_claimedSendCompletions s) (next s))
      else (None, s)
  | None => (None, s)
  end.

(** An armed guard cancels: the destructor, [Cancel] and the target of a move assignment. *)
Definition guard_cancels (g : SendCompletionReservation) : bool :=
  Armed_ g && negb (Owner_ g =? 0) && negb (Key_ g =? 0).

Definition disarmed : SendCompletionReservation := {| Owner_ := 0; Key_ := 0; Armed_ := false |}.

(** A moved-from guard keeps no owner, no key and is not armed. *)
Definition cancel_guard (g : SendCompletionReservation) (s : state) :
    option SendCompletionRetention * state :=
  if guard_cancels g then CancelSendCompletion (Owner_ g) (Key_ g) s else (None, s).

(** The move constructor and the end of the move assignment: the source is left empty. *)
Definition move_guard (dst src : Z) (g : SendCompletionReservation) (s : state) : state :=
  set_reservations s (<[dst := g]> (<[src := disarmed]> (reservations s))).

Definition Dismiss (i : Z) (s : state) : state :=
  set_reservations s (<[i := disarmed]> (reservations s)).

(** *** The SEND_COMPLETE branch of [Dispatch] *)

Definition claim (this key : Z) (s : state) : option SendCompletionRetention * state :=
  match g_sendCompletions s !! key with
  | Some r =>
      if Owner r =? this then
        (Some r, set_maps s (owners s) (delete key (g_sendCompletions s))
                   (<[key := this]> (g_claimedSendCompletions s)) (next s))
      else
        let dup := bool_decide (g_claimedSendCompletions s !! key = Some this) in
        (None, count s false (negb dup) dup)
  | None =>
      let dup := bool_decide (g_claimedSendCompletions s !! key = Some this) in
      (None, count s false (negb dup) dup)
  end.

(** *** Steps *)

Inductive action :=
| Route (o : Z) (running : bool) (target generation : Z)  (* the owner's phase or route moves *)
| Create (o target : Z)
| Destroy (o : Z)
| Register (t : nat) (o context cleanup key : Z) (slot : option Z)
| Cancel (t : nat) (this key : Z)
| SendComplete (t : nat) (this key : Z)
| GuardMove (dst src : Z)
| GuardAssign (t : nat) (dst src : Z)
| GuardDismiss (i : Z)
| GuardCancel (t : nat) (i : Z)
| GuardDestroy (t : nat) (i : Z)
| Run (t : nat).

Definition after_cancel (t : nat) (rollback : bool)
    (x : option SendCompletionRetention * state) : state :=
  match x with
  | (Some r, s) => goto s t (RunCleanup r rollback) [Cancelled r]
  | (None, s) => goto s t Idle []
  end.

(** The owner is held by its registrations, by threads at work for it and by guards. *)
Definition pc_owner (p : pc) : option Z :=
  match p with
  | Idle => None
  | Insert _ r _ | Deliver r | RunCleanup r _ => Some (Owner r)
  end.

Definition unreferenced (o : Z) (s : state) : bool :=
  forallb (fun e => negb (Owner e.2 =? o)) (map_to_list (g_sendCompletions s)) &&
  forallb (fun p => bool_decide (pc_owner p <> Some o)) (threads s) &&
  forallb (fun e => negb (Owner_ e.2 =? o)) (map_to_list (reservations s)).

Definition idle (t : nat) (s : state) : bool :=
  match threads s !! t with Some Idle => true | _ => false end.

Definition asked (o context : Z) (p : pc) (s : state) : list event :=
  match p, owners s !! o with
  | Insert _ _ _, Some st => [Sent (next s) o (Target_ st) (RouteGeneration_ st) context]
  | _, _ => []
  end.

Definition exec (a : action) (s : state) : option state :=
  match a with
  | Create o target =>
      if (o =? 0) || bool_decide (owners s !! o <> None) then None
      else Some (set_maps s
        (<[o := {| running := false; Target_ := target; RouteGeneration_ := 1;
                   SendKeyEnvelopes_ := [] |}]> (owners s))
        (g_sendCompletions s) (g_claimedSendCompletions s) (next s))
  | Route o run target generation =>
      match owners s !! o with
      | Some st => Some (set_maps s
          (<[o := {| running := run; Target_ := target; RouteGeneration_ := generation;
                     SendKeyEnvelopes_ := SendKeyEnvelopes_ st |}]> (owners s))
          (g_sendCompletions s) (g_claimedSendCompletions s) (next s))
      | None => None
      end
  | Destroy o =>
      match owners s !! o with
      | Some st =>
          if unreferenced o s
          then Some (set_maps s (delete o (owners s)) (g_sendCompletions s)
                 (foldr delete (g_claimedSendCompletions s) (SendKeyEnvelopes_ st)) (next s))
          else None
      | None => None
      end
  | Register t o context cleanup key slot =>
      if idle t s && allocatable key s then
        let '(p, s') := RegisterSendCompletion o context cleanup key slot s in
        Some (goto s' t p (asked o context p s))
      else None
  | Cancel t this key =>
      if idle t s then Some (after_cancel t false (CancelSendCompletion this key s)) else None
  | SendComplete t this key =>
      if idle t s then
        Some (match claim this key s with
              | (Some r, s') => goto s' t (Deliver r) [Claimed r]
              | (None, s') => goto s' t Idle []
              end)
      else None
  | GuardMove dst src =>
      match reservations s !! src, reservations s !! dst with
      | Some g, None => Some (move_guard dst src g s)
      | _, _ => None
      end
  | GuardAssign t dst src =>
      match reservations s !! src, reservations s !! dst with
      | Some g, Some old =>
          if negb (idle t s) then None
          else if dst =? src then Some s
          else Some (move_guard dst src g (after_cancel t true (cancel_guard old s)))
      | _, _ => None
      end
  | GuardDismiss i =>
      match reservations s !! i with
      | Some _ => Some (Dismiss i s)
      | None => None
      end
  | GuardCancel t i =>
      match reservations s !! i with
      | Some g =>
          if idle t s then Some (Dismiss i (after_cancel t true (cancel_guard g s))) else None
      | None => None
      end
  | GuardDestroy t i =>
      match reservations s !! i with
      | Some g => if idle t s then
          let s' := set_reservations s (delete i (reservations s)) in
          Some (after_cancel t true (cancel_guard g s')) else None
      | None => None
      end
  | Run t =>
      match threads s !! t with
      | Some (Insert key r slot) =>
          let '(ok, s') := insert_completion key r slot s in
          Some (goto s' t Idle (if ok then [Registered r] else []))
      | Some (Deliver r) =>
          Some (goto s t (RunCleanup r false)
            (if TargetOwner r =? 0 then []
             else [Delivered (serial r) (TargetOwner r) (Generation r) (DeliveredContext r)]))
      | Some (RunCleanup r rollback) =>
          Some (goto (count s rollback false false) t Idle
            (if Cleanup r =? 0 then [] else [CleanedUp (serial r)]))
      | _ => None
      end
  end.

Definition empty (n : nat) : state :=
  {| owners := ∅; g_sendCompletions := ∅; g_claimedSendCompletions := ∅; reservations := ∅;
     next := 0; PreSubmitRollbacks := 0; UnknownClaims := 0; DuplicateClaims := 0;
     threads := replicate n Idle; log := [] |}.

Inductive reachable : state -> Prop :=
| reach_empty n : reachable (empty n)
| reach_step s a s' : reachable s -> exec a s = Some s' -> reachable s'.

(** *** Each registration is in one place *)

Definition numbered (n : nat) (r : SendCompletionRetention) : nat :=
  Nat.b2n (bool_decide (serial r = n)).

(** Registration [n] is in the registry, about to be inserted, or was consumed. *)
Definition registered (n : nat) (s : state) : nat :=
  total (fun e => numbered n e.2) (map_to_list (g_sendCompletions s)).
Definition inserting (n : nat) (p : pc) : nat :=
  match p with Insert _ r _ => numbered n r | _ => 0 end.
Definition consumed (n : nat) (e : event) : nat :=
  match e with Claimed r | Cancelled r => numbered n r | _ => 0 end.

(** Its cleanup is due, has run, or was owed at all. *)
Definition cleaning (n : nat) (p : pc) : nat :=
  match p with
  | Deliver r | RunCleanup r _ => if Cleanup r =? 0 then 0 else numbered n r
  | _ => 0
  end.
Definition cleaned (n : nat) (e : event) : nat :=
  match e with CleanedUp m => Nat.b2n (bool_decide (m = n)) | _ => 0 end.
Definition owed (n : nat) (e : event) : nat :=
  match e with
  | Claimed r | Cancelled r => if Cleanup r =? 0 then 0 else numbered n r
  | _ => 0
  end.

(** Its completion is to be delivered, was delivered, or was claimed. *)
Definition delivering (n : nat) (p : pc) : nat :=
  match p with Deliver r => numbered n r | _ => 0 end.
Definition delivered (n : nat) (e : event) : nat :=
  match e with Delivered m _ _ _ => Nat.b2n (bool_decide (m = n)) | _ => 0 end.
Definition claimed (n : nat) (e : event) : nat :=
  match e with Claimed r => numbered n r | _ => 0 end.

Definition sent (n : nat) (e : event) : nat :=
  match e with Sent m _ _ _ _ => Nat.b2n (bool_decide (m = n)) | _ => 0 end.

(** What a registration keeps is what was current when it was asked for. *)
Definition routed (r : SendCompletionRetention) (l : list event) : Prop :=
  Sent (serial r) (Owner r) (TargetOwner r) (Generation r) (DeliveredContext r) ∈ l.

Definition holds (o key : Z) (s : state) : Prop :=
  exists st, owners s !! o = Some st /\ key ∈ SendKeyEnvelopes_ st.

Definition pc_logged (p : pc) (l : list event) : Prop :=
  match p with
  | Insert _ r _ => routed r l
  | Deliver r => Registered r ∈ l /\ Claimed r ∈ l /\ TargetOwner r <> 0
  | RunCleanup r _ => Registered r ∈ l
  | _ => True
  end.

Definition event_logged (e : event) (l : list event) : Prop :=
  match e with
  | Registered r => routed r l
  | Claimed r | Cancelled r => Registered r ∈ l
  | Delivered n t g c => exists r, Registered r ∈ l /\ Claimed r ∈ l /\ serial r = n /\
      TargetOwner r = t /\ Generation r = g /\ DeliveredContext r = c
  | _ => True
  end.

Record inv (s : state) : Prop := {
  inv_once : forall n, (registered n s + total (inserting n) (threads s) +
                        total (consumed n) (log s) = Nat.b2n (bool_decide (n < next s)))%nat;
  inv_clean : forall n, (total (cleaning n) (threads s) + total (cleaned n) (log s) =
                         total (owed n) (log s))%nat;
  inv_deliver : forall n, (total (delivering n) (threads s) + total (delivered n) (log s) =
                           total (claimed n) (log s))%nat;
  inv_entries : forall k r, g_sendCompletions s !! k = Some r ->
    Registered r ∈ log s /\ TargetOwner r <> 0 /\ holds (Owner r) k s;
  inv_inserts : forall t k r i, threads s !! t = Some (Insert k r i) ->
    g_sendCompletions s !! k = None /\ TargetOwner r <> 0 /\ holds (Owner r) k s /\
    forall t' r' i', threads s !! t' = Some (Insert k r' i') -> t' = t;
  inv_sent : forall n, total (sent n) (log s) = Nat.b2n (bool_decide (n < next s)%nat);
  inv_pcs : forall t p, threads s !! t = Some p -> pc_logged p (log s);
  inv_log : forall e, e ∈ log s -> event_logged e (log s) }.

Lemma registered_insert n s k r ow cl m :
  g_sendCompletions s !! k = None ->
  registered n (set_maps s ow (<[k := r]> (g_sendCompletions s)) cl m) =
  (numbered n r + registered n s)%nat.
Proof. intros Hk. unfold registered; simpl. by rewrite (total_perm _ _ _ (map_to_list_insert _ _ _ Hk)). Qed.

Lemma registered_delete n s k r ow cl m :
  g_sendCompletions s !! k = Some r ->
  (numbered n r + registered n (set_maps s ow (delete k (g_sendCompletions s)) cl m) =
   registered n s)%nat.
Proof.
  intros Hk. unfold registered; simpl.
  by rewrite <- (total_perm _ _ _ (map_to_list_delete _ _ _ Hk)).
Qed.

Lemma pc_logged_app p es l : pc_logged p l -> pc_logged p (es ++ l).
Proof. destruct p; simpl; unfold routed; set_solver. Qed.

Lemma event_logged_app e es l : event_logged e l -> event_logged e (es ++ l).
Proof. destruct e; simpl; unfold routed; set_solver. Qed.

(** The registry and the threads as they are, with owners that keep what is referenced. *)
Lemma inv_frame s s' :
  inv s -> g_sendCompletions s' = g_sendCompletions s -> next s' = next s ->
  threads s' = threads s -> log s' = log s ->
  (forall k r, g_sendCompletions s !! k = Some r -> holds (Owner r) k s -> holds (Owner r) k s') ->
  (forall t k r i, threads s !! t = Some (Insert k r i) -> holds (Owner r) k s ->
     holds (Owner r) k s') ->
  inv s'.
Proof.
  intros [I1 I2 I3 I4 I5 I8 I6 I7] Ec En Et El Hk Hi. split; rewrite ?Et, ?El, ?En; auto.
  - intros n. unfold registered. rewrite Ec. apply I1.
  - intros k r. rewrite Ec. intros Hx. destruct (I4 _ _ Hx) as (? & ? & ?). eauto.
  - intros t k r i Hx. rewrite Ec. destruct (I5 _ _ _ _ Hx) as (? & ? & ? & ?). eauto.
Qed.

(** A step of thread [t] from [p] to [p'] that logs [es] and leaves the owners alone; what it
    does to the registry is one of nothing, an insertion, a removal. *)
Lemma inv_thread s s1 t p p' es :
  inv s -> threads s !! t = Some p -> threads s1 = threads s -> log s1 = log s ->
  (forall n, (registered n s1 + inserting n p' + total (consumed n) es +
              Nat.b2n (bool_decide (n < next s)) =
              registered n s + inserting n p + Nat.b2n (bool_decide (n < next s1)))%nat) ->
  (forall n, (cleaning n p' + total (cleaned n) es = cleaning n p + total (owed n) es)%nat) ->
  (forall n, (delivering n p' + total (delivered n) es =
              delivering n p + total (claimed n) es)%nat) ->
  (forall k r, g_sendCompletions s1 !! k = Some r ->
     Registered r ∈ es ++ log s /\ TargetOwner r <> 0 /\ holds (Owner r) k s1) ->
  (forall t' k r i, <[t := p']> (threads s) !! t' = Some (Insert k r i) ->
     g_sendCompletions s1 !! k = None /\ TargetOwner r <> 0 /\ holds (Owner r) k s1 /\
     forall t'' r' i', <[t := p']> (threads s) !! t'' = Some (Insert k r' i') -> t'' = t') ->
  (forall n, (total (sent n) es + Nat.b2n (bool_decide (n < next s)) =
              Nat.b2n (bool_decide (n < next s1)))%nat) ->
  pc_logged p' (es ++ log s) -> (forall e, e ∈ es -> event_logged e (es ++ log s)) ->
  inv (goto s1 t p' es).
Proof.
  intros [I1 I2 I3 _ _ I8 I6 I7] Ht Et El H1 H2 H3 H4 H5 H8 H6 H7. split; simpl; rewrite ?Et, ?El.
  - intros n. specialize (I1 n). specialize (H1 n). rewrite total_app.
    pose proof (total_insert (inserting n) _ _ _ p' Ht). unfold registered in *; simpl. lia.
  - intros n. specialize (I2 n). specialize (H2 n). rewrite !total_app.
    pose proof (total_insert (cleaning n) _ _ _ p' Ht). lia.
  - intros n. specialize (I3 n). specialize (H3 n). rewrite !total_app.
    pose proof (total_insert (delivering n) _ _ _ p' Ht). lia.
  - exact H4.
  - exact H5.
  - intros n. rewrite total_app, I8. apply H8.
  - intros t' q. destruct (decide (t' = t)) as [->|Hne].
    + rewrite list_lookup_insert_eq by (by eapply lookup_lt_Some). intros [= <-]. done.
    + rewrite list_lookup_insert_ne by done. intros Hq. by apply pc_logged_app, (I6 t').
  - intros e He. apply elem_of_app in He as [He|He]; [auto|]. by apply event_logged_app, I7.
Qed.

(** Steps to a point that inserts nothing keep the other threads' insertions apart. *)
Lemma other_inserts s s1 t p' :
  inv s -> (forall k, g_sendCompletions s !! k = None -> g_sendCompletions s1 !! k = None) ->
  owners s1 = owners s -> (forall k r i, p' <> Insert k r i) ->
  forall t' k r i, <[t := p']> (threads s) !! t' = Some (Insert k r i) ->
    g_sendCompletions s1 !! k = None /\ TargetOwner r <> 0 /\ holds (Owner r) k s1 /\
    forall t'' r' i', <[t := p']> (threads s) !! t'' = Some (Insert k r' i') -> t'' = t'.
Proof.
  intros Hi Hc Ho Hp t' k r i Hx.
  assert (Hold : forall t' k r i, <[t := p']> (threads s) !! t' = Some (Insert k r i) ->
                 threads s !! t' = Some (Insert k r i)).
  { intros u k' r' i' Hu. destruct (decide (u = t)) as [->|].
    - apply list_lookup_insert_Some in Hu as [(_ & E & _)|(E & _)]; [by destruct (Hp k' r' i')|done].
    - by rewrite list_lookup_insert_ne in Hu. }
  destruct (inv_inserts s Hi _ _ _ _ (Hold _ _ _ _ Hx)) as (H1 & H2 & H3 & H4).
  split_and!; auto; [|by eauto]. destruct H3 as (st & E & ?). exists st. by rewrite Ho.
Qed.

Lemma idle_spec t s : idle t s = true -> threads s !! t = Some Idle.
Proof. unfold idle. intros. cases. Qed.

Lemma inv_idle s s1 t :
  inv s -> threads s !! t = Some Idle -> owners s1 = owners s ->
  g_sendCompletions s1 = g_sendCompletions s -> next s1 = next s -> threads s1 = threads s ->
  log s1 = log s -> inv (goto s1 t Idle []).
Proof.
  intros Hi Ht Eo Ec En Et El. apply (inv_thread s s1 t Idle Idle []); auto; simpl; try done.
  - intros n. unfold registered. rewrite Ec, En. simpl. lia.
  - intros k r. rewrite Ec. intros Hx. destruct (inv_entries s Hi _ _ Hx) as (? & ? & st & ? & ?).
    split_and!; auto. exists st. by rewrite Eo.
  - apply other_inserts; auto. intros k. by rewrite Ec.
  - intros n. by rewrite En.
  - set_solver.
Qed.

(** Taking the entry under [key] out of the registry, by claim or by cancellation. *)
Lemma inv_take s s1 t key r p' e :
  inv s -> threads s !! t = Some Idle -> g_sendCompletions s !! key = Some r ->
  owners s1 = owners s -> g_sendCompletions s1 = delete key (g_sendCompletions s) ->
  next s1 = next s -> threads s1 = threads s -> log s1 = log s ->
  ((p' = Deliver r /\ e = Claimed r) \/
   (exists rollback, p' = RunCleanup r rollback /\ e = Cancelled r)) ->
  inv (goto s1 t p' [e]).
Proof.
  intros Hi Ht Hk Eo Ec En Et El Hp.
  destruct (inv_entries s Hi _ _ Hk) as (Hreg & Htg & _).
  apply (inv_thread s s1 t Idle p' [e]); auto; simpl.
  - intros n. unfold registered. rewrite Ec, En.
    pose proof (registered_delete n s key r (owners s) ∅ 0 Hk) as Hd.
    unfold registered in Hd; simpl in Hd.
    destruct Hp as [[-> ->]|(rb & -> & ->)]; simpl; unfold total in *; simpl in *; lia.
  - intros n. destruct Hp as [[-> ->]|(rb & -> & ->)]; simpl; unfold total; simpl; lia.
  - intros n. destruct Hp as [[-> ->]|(rb & -> & ->)]; simpl; unfold total; simpl; lia.
  - intros k r'. rewrite Ec, lookup_delete_Some. intros [_ Hx].
    destruct (inv_entries s Hi _ _ Hx) as (? & ? & st & ? & ?).
    split_and!; [set_solver|done|]. exists st. by rewrite Eo.
  - apply other_inserts; auto.
    + intros k Hx. rewrite Ec. apply lookup_delete_None. auto.
    + destruct Hp as [[-> ->]|(rb & -> & ->)]; discriminate.
  - intros n. rewrite En. by destruct Hp as [[-> ->]|(rb & -> & ->)].
  - destruct Hp as [[-> ->]|(rb & -> & ->)]; simpl; set_solver.
  - intros e' He'. apply list_elem_of_singleton in He' as ->.
    destruct Hp as [[-> ->]|(rb & -> & ->)]; simpl; set_solver.
Qed.

Lemma inv_cancel s s1 t rollback this key :
  inv s -> threads s !! t = Some Idle -> owners s1 = owners s ->
  g_sendCompletions s1 = g_sendCompletions s -> next s1 = next s -> threads s1 = threads s ->
  log s1 = log s -> inv (after_cancel t rollback (CancelSendCompletion this key s1)).
Proof.
  intros Hi Ht Eo Ec En Et El. unfold CancelSendCompletion. rewrite Ec.
  destruct (g_sendCompletions s !! key) as [r|] eqn:Hk; [destruct (Owner r =? this)|]; simpl;
    try (by apply (inv_idle s)).
  eapply (inv_take s _ t key r); eauto; simpl; auto.
Qed.

Lemma inv_cancel_guard s s1 t rollback g :
  inv s -> threads s !! t = Some Idle -> owners s1 = owners s ->
  g_sendCompletions s1 = g_sendCompletions s -> next s1 = next s -> threads s1 = threads s ->
  log s1 = log s -> inv (after_cancel t rollback (cancel_guard g s1)).
Proof.
  intros. unfold cancel_guard. destruct (guard_cancels g); [by apply (inv_cancel s)|].
  by apply (inv_idle s).
Qed.

Lemma allocatable_spec key s o st :
  allocatable key s = true -> key <> 0 -> owners s !! o = Some st -> key ∉ SendKeyEnvelopes_ st.
Proof.
  unfold allocatable. intros Ha Hk Ho. apply orb_true_iff in Ha as [Ha|Ha]; [lia|].
  rewrite forallb_forall in Ha. specialize (Ha (o, st)). simpl in Ha.
  apply bool_decide_eq_true in Ha; [done|]. apply list_elem_of_In, elem_of_map_to_list. done.
Qed.


Lemma holds_update o st st' s k o' c cl n :
  owners s !! o = Some st -> (k ∈ SendKeyEnvelopes_ st -> k ∈ SendKeyEnvelopes_ st') ->
  holds o' k s -> holds o' k (set_maps s (<[o := st']> (owners s)) c cl n).
Proof.
  intros Ho Hst (st1 & H1 & Hk). unfold holds; simpl. destruct (decide (o' = o)) as [->|].
  - rewrite lookup_insert_eq. exists st'. split; [done|]. apply Hst. congruence.
  - rewrite lookup_insert_ne by done. eauto.
Qed.

Lemma inv_register s t o context cleanup key slot p s1 :
  inv s -> threads s !! t = Some Idle -> allocatable key s = true ->
  RegisterSendCompletion o context cleanup key slot s = (p, s1) ->
  inv (goto s1 t p (asked o context p s)).
Proof.
  intros Hi Ht Ha. unfold RegisterSendCompletion, asked.
  destruct (owners s !! o) as [st|] eqn:Ho; [|intros [= <- <-]; by apply (inv_idle s)].
  destruct (_ || _) eqn:Hg; intros [= <- <-]; [by apply (inv_idle s)|]. to_prop.
  assert (Hnew : forall o' k, holds o' k s -> k <> key).
  { intros o' k (st' & Ho' & Hk) ->. by apply (allocatable_spec key s o' st'). }
  assert (Hkeep : forall o' k c cl m, holds o' k s -> holds o' k (set_maps s
    (<[o := {| running := running st; Target_ := Target_ st;
               RouteGeneration_ := RouteGeneration_ st;
               SendKeyEnvelopes_ := key :: SendKeyEnvelopes_ st |}]> (owners s)) c cl m)).
  { intros o' k c cl m. apply (holds_update o st); [done|]. simpl. by right. }
  eapply (inv_thread s _ t Idle _ [_]); eauto; simpl; try done.
  - intros n. unfold registered, numbered; simpl. unfold total; simpl.
    repeat case_bool_decide; simpl; lia.
  - intros k r Hx. destruct (inv_entries s Hi _ _ Hx) as (? & ? & ?). split_and!; auto. by right.
  - assert (Hout : forall t' k r i, threads s !! t' = Some (Insert k r i) -> k <> key).
    { intros t' k r i Hx. destruct (inv_inserts s Hi _ _ _ _ Hx) as (_ & _ & Hh & _). eauto. }
    intros t' k r i Hx. apply list_lookup_insert_Some in Hx as [(<- & Hx & _)|[Hne Hx]].
    + injection Hx as <- <- <-. simpl. split_and!.
      * destruct (g_sendCompletions s !! key) as [r'|] eqn:Hk; [|done].
        destruct (inv_entries s Hi _ _ Hk) as (_ & _ & Hh). by destruct (Hnew _ _ Hh).
      * done.
      * eexists. split; [apply lookup_insert_eq|]. simpl. by left.
      * intros t'' r' i' Hy. apply list_lookup_insert_Some in Hy as [(-> & _)|[_ Hy]]; [done|].
        by destruct (Hout _ _ _ _ Hy).
    + destruct (inv_inserts s Hi _ _ _ _ Hx) as (G1 & G2 & G3 & G4). split_and!; eauto.
      intros t'' r' i' Hy. apply list_lookup_insert_Some in Hy as [(<- & Hy & _)|[_ Hy]]; [|eauto].
      injection Hy as <- <- <-. by destruct (Hout _ _ _ _ Hx).
  - intros n. unfold total; simpl. repeat case_bool_decide; simpl; lia.
  - by left.
  - intros e He. by apply list_elem_of_singleton in He as ->.
Qed.

Lemma inv_insert s t key r slot ok s1 :
  inv s -> threads s !! t = Some (Insert key r slot) ->
  insert_completion key r slot s = (ok, s1) ->
  inv (goto s1 t Idle (if ok then [Registered r] else [])).
Proof.
  intros Hi Ht. destruct (inv_inserts s Hi _ _ _ _ Ht) as (Hk & Htg & Hh & Huniq).
  unfold insert_completion. rewrite Hk. intros [= <- <-].
  set (s2 := match slot with None => _ | Some i => _ end).
  assert (E : owners s2 = owners s /\ g_sendCompletions s2 = <[key := r]> (g_sendCompletions s) /\
              next s2 = next s /\ threads s2 = threads s /\ log s2 = log s)
    by (by destruct slot).
  clearbody s2. destruct E as (Eo & Ec & En & Et & El).
  apply (inv_thread s s2 t (Insert key r slot) Idle [Registered r]); auto; simpl; try done.
  - intros n. pose proof (registered_insert n s key r (owners s) ∅ 0 Hk) as Hr.
    unfold registered in *; simpl in Hr. rewrite Ec, En, Hr. unfold total; simpl. lia.
  - intros k r'. rewrite Ec, lookup_insert_Some. intros [[<- <-]|[_ Hx]].
    + split_and!; [by left|done|]. destruct Hh as (st & ? & ?). exists st. by rewrite Eo.
    + destruct (inv_entries s Hi _ _ Hx) as (? & ? & st & ? & ?).
      split_and!; [by right|done|]. exists st. by rewrite Eo.
  - intros t' k r' i Hx. apply list_lookup_insert_Some in Hx as [(_ & Hx & _)|[Hne Hx]]; [done|].
    destruct (inv_inserts s Hi _ _ _ _ Hx) as (H1 & H2 & (st & H3 & H3') & H4). split_and!; auto.
    + rewrite Ec, lookup_insert_ne; [done|]. intros ->. by destruct Hne; eauto.
    + exists st. by rewrite Eo.
    + intros t'' r'' i'' Hy. apply list_lookup_insert_Some in Hy as [(_ & Hy & _)|[_ Hy]]; eauto.
      done.
  - intros n. by rewrite En.
  - intros e He. apply list_elem_of_singleton in He as ->. right. exact (inv_pcs s Hi _ _ Ht).
Qed.

Lemma inv_run s s1 t p p' es :
  inv s -> threads s !! t = Some p -> owners s1 = owners s ->
  g_sendCompletions s1 = g_sendCompletions s -> next s1 = next s -> threads s1 = threads s ->
  log s1 = log s ->
  (forall n, inserting n p' = 0%nat /\ inserting n p = 0%nat /\ total (consumed n) es = 0%nat) ->
  (forall n, total (sent n) es = 0%nat) ->
  (forall k r i, p' <> Insert k r i) ->
  (forall n, (cleaning n p' + total (cleaned n) es = cleaning n p + total (owed n) es)%nat) ->
  (forall n, (delivering n p' + total (delivered n) es =
              delivering n p + total (claimed n) es)%nat) ->
  pc_logged p' (es ++ log s) -> (forall e, e ∈ es -> event_logged e (es ++ log s)) ->
  inv (goto s1 t p' es).
Proof.
  intros Hi Ht Eo Ec En Et El H1 Hs Hp H2 H3 H4 H5.
  apply (inv_thread s s1 t p p' es); auto.
  - intros n. unfold registered. rewrite Ec, En. destruct (H1 n) as (-> & -> & ->). lia.
  - intros k r. rewrite Ec. intros Hx. destruct (inv_entries s Hi _ _ Hx) as (? & ? & st & ? & ?).
    split_and!; [set_solver|done|]. exists st. by rewrite Eo.
  - apply other_inserts; auto. intros k. by rewrite Ec.
  - intros n. by rewrite En, Hs.
Qed.

Lemma inv_reservations s m : inv s -> inv (set_reservations s m).
Proof. intros. by apply (inv_frame s). Qed.

Lemma inv_exec s a s' : inv s -> exec a s = Some s' -> inv s'.
Proof.
  intros Hi. destruct a; simpl.
  - destruct (owners s !! o) as [st|] eqn:Ho; [|done]. intros [= <-].
    apply (inv_frame s); try done; simpl; intros; by apply (holds_update o st).
  - destruct (_ || _) eqn:Hg; [done|]. intros [= <-]. to_prop_nat.
    assert (Hfresh : owners s !! o = None) by (by destruct (owners s !! o); [exfalso; auto|]).
    apply (inv_frame s); try done; simpl.
    all: intros; unfold holds in *; simpl;
      match goal with H : exists st, _ |- _ => destruct H as (st' & ? & ?) end;
      exists st'; rewrite lookup_insert_ne by congruence; done.
  - destruct (owners s !! o) as [st|] eqn:Ho; [|done]. destruct (unreferenced o s) eqn:Hu; [|done].
    intros [= <-]. unfold unreferenced in Hu. to_prop. rewrite forallb_forall in *.
    apply (inv_frame s); try done; simpl.
    + intros k r Hk (st' & ? & ?). exists st'. simpl. rewrite lookup_delete_ne; [done|].
      intros Heq. specialize (H (k, r)). rewrite <- list_elem_of_In, elem_of_map_to_list in H.
      specialize (H Hk). simpl in H. lia.
    + intros t k r i Hk (st' & ? & ?). exists st'. simpl. rewrite lookup_delete_ne; [done|].
      intros Heq. specialize (H1 (Insert k r i)). rewrite <- list_elem_of_In in H1.
      specialize (H1 (list_elem_of_lookup_2 _ _ _ Hk)). apply bool_decide_eq_true in H1.
      simpl in H1. congruence.
  - destruct (idle t s) eqn:Ht; [|done]. apply idle_spec in Ht.
    destruct (allocatable key s) eqn:Ha; [|done]. simpl.
    destruct (RegisterSendCompletion _ _ _ _ _ _) as [p s1] eqn:Hr. intros [= <-].
    by eapply inv_register.
  - destruct (idle t s) eqn:Ht; [|done]. apply idle_spec in Ht. intros [= <-].
    by apply (inv_cancel s).
  - destruct (idle t s) eqn:Ht; [|done]. apply idle_spec in Ht. intros [= <-]. unfold claim.
    destruct (g_sendCompletions s !! key) as [r|] eqn:Hk; [destruct (Owner r =? this)|];
      try (by apply (inv_idle s)).
    eapply (inv_take s _ t key r); eauto.
  - destruct (reservations s !! src), (reservations s !! dst); try done. intros [= <-].
    by apply inv_reservations.
  - destruct (reservations s !! src), (reservations s !! dst); try done.
    destruct (idle t s) eqn:Ht; [|done]. apply idle_spec in Ht. simpl.
    destruct (dst =? src); intros [= <-]; [done|].
    by apply inv_reservations, (inv_cancel_guard s).
  - destruct (reservations s !! i); [|done]. intros [= <-]. by apply inv_reservations.
  - destruct (reservations s !! i); [|done].
    destruct (idle t s) eqn:Ht; [|done]. apply idle_spec in Ht. intros [= <-].
    by apply inv_reservations, (inv_cancel_guard s).
  - destruct (reservations s !! i); [|done].
    destruct (idle t s) eqn:Ht; [|done]. apply idle_spec in Ht. intros [= <-].
    by apply (inv_cancel_guard s).
  - destruct (threads s !! t) as [[|key r slot|r|r rollback]|] eqn:Ht; try done.
    + destruct (insert_completion key r slot s) as [ok s1] eqn:Hc. intros [= <-].
      by eapply inv_insert.
    + intros [= <-]. destruct (inv_pcs s Hi _ _ Ht) as (Hr & Hc & Htg).
      replace (TargetOwner r =? 0) with false by lia.
      apply (inv_run s s t (Deliver r)); auto; simpl; try (intros; discriminate).
      * set_solver.
      * intros e He. apply list_elem_of_singleton in He as ->. simpl.
        exists r. split_and!; try done; by right.
    + intros [= <-]. apply (inv_run s _ t (RunCleanup r rollback)); auto; simpl;
        try (intros; discriminate).
      * intros n. by destruct (Cleanup r =? 0).
      * intros n. by destruct (Cleanup r =? 0).
      * intros n. destruct (Cleanup r =? 0); unfold total, numbered; simpl; lia.
      * intros n. destruct (Cleanup r =? 0); unfold total; simpl; lia.
      * done.
      * intros e He. destruct (Cleanup r =? 0); [by apply elem_of_nil in He|].
        by apply list_elem_of_singleton in He as ->.
Qed.

Lemma inv_reachable s : reachable s -> inv s.
Proof.
  induction 1 as [n|s a s' _ IH Hx]; [|by eapply inv_exec].
  assert (Hz : forall f, f Idle = 0%nat -> total f (replicate n Idle) = 0%nat).
  { intros f Hf. apply total_zero. intros x Hx. by apply elem_of_replicate in Hx as [-> _]. }
  assert (Hidle : forall t p, replicate n Idle !! t = Some p -> p = Idle).
  { intros t p Hp. by apply lookup_replicate in Hp as [-> _]. }
  split; simpl.
  - intros m. rewrite (Hz (inserting m)) by done. unfold registered; cbn [g_sendCompletions empty].
    by rewrite map_to_list_empty.
  - intros m. rewrite (Hz (cleaning m)) by done. done.
  - intros m. rewrite (Hz (delivering m)) by done. done.
  - intros k r Hk. by rewrite lookup_empty in Hk.
  - intros t k r i Hp. by apply Hidle in Hp.
  - done.
  - intros t p Hp. by apply Hidle in Hp as ->.
  - intros e He. by apply elem_of_nil in He.
Qed.

(** *** Demonstration *)

Definition after (l : list action) (n : nat) : option state :=
  foldl (fun s a => match s with Some s => exec a s | None => None end) (Some (empty n)) l.

Lemma sends_from l s0 s :
  reachable s0 ->
  foldl (fun s a => match s with Some s => exec a s | None => None end) (Some s0) l = Some s ->
  reachable s.
Proof.
  revert s0. induction l as [|a l IH]; simpl; intros s0 H0 Hx; [by injection Hx as <-|].
  destruct (exec a s0) as [s1|] eqn:E.
  - eapply IH; [|exact Hx]. by eapply reach_step.
  - exfalso. clear -Hx. induction l; simpl in *; [done|auto].
Qed.

Lemma sends_reachable l n s : after l n = Some s -> reachable s.
Proof. apply sends_from, reach_empty. Qed.

(** Two sends on one owner: the first completes (and MsQuic reports it twice), the route moves,
    the second is cancelled by its guard. *)
Definition demo : list action :=
  [Create 1 50; Route 1 true 50 1; Register 0 1 900 70 1000 None; Run 0;
   Register 1 1 901 71 1001 (Some 5); Run 1; Route 1 true 60 2; SendComplete 0 1 1000; Run 0; Run 0;
   SendComplete 0 1 1000; GuardDestroy 1 5; Run 1].

Definition demo_state : state := default (empty 2) (after demo 2).

(** C36. Every registered send completion is, at any time, in exactly one place: on its way into
    the registry, in it, or consumed, by one claim or one cancellation.  A claim is delivered
    exactly once, to the target and generation the owner had when the registration was asked for
    (which is logged once) and with the context given then; the cleanup, when there is one, runs
    exactly once after the consumption, and never before. *)
Theorem send_completions_are_consumed_once s :
  reachable s ->
  (forall n, (registered n s + total (inserting n) (threads s) + total (consumed n) (log s) =
              Nat.b2n (bool_decide (n < next s)))%nat) /\
  (forall n, (total (delivering n) (threads s) + total (delivered n) (log s) =
              total (claimed n) (log s))%nat) /\
  (forall n, (total (cleaning n) (threads s) + total (cleaned n) (log s) =
              total (owed n) (log s))%nat) /\
  (forall n, total (sent n) (log s) = Nat.b2n (bool_decide (n < next s)%nat)) /\
  (forall n t g c, Delivered n t g c ∈ log s -> exists o, Sent n o t g c ∈ log s).
Proof.
  intros Hi%inv_reachable. split_and!; try apply Hi.
  intros n t g c He. destruct (inv_log s Hi _ He) as (r & Hr & _ & <- & <- & <- & <-).
  exists (Owner r). exact (inv_log s Hi _ Hr).
Qed.

Lemma send_completions_are_consumed_once_witness :
  Delivered 0 50 1 900 ∈ log demo_state /\ DuplicateClaims demo_state = 1 /\
  PreSubmitRollbacks demo_state = 1 /\
  exists o, Sent 0 o 50 1 900 ∈ log demo_state.
Proof.
  assert (Hd : Delivered 0 50 1 900 ∈ log demo_state).
  { apply list_elem_of_In. vm_compute. tauto. }
  split; [exact Hd|]. split; [vm_compute; reflexivity|]. split; [vm_compute; reflexivity|].
  apply (send_completions_are_consumed_once demo_state); [|exact Hd].
  apply (sends_reachable demo 2). vm_compute. reflexivity.
Defined.

End SendCompletion.

Module CallbackTarget.

(** [TqStreamCallbackTarget]. *)
Record target := { Callback_ : Z; Context_ : Z; ActiveCalls_ : Z; Accepting_ : bool }.

Definition new_target (callback context : Z) : target :=
  {| Callback_ := callback; Context_ := context; ActiveCalls_ := 0; Accepting_ := true |}.

(** What a thread is inside of: a callback, which will restore the [g_activeCallbackTarget] it
    found, or the wait of a [Detach]. *)
Inductive frame := Running (target previous : Z) | Waiting (target : Z).

Record thread := { g_activeCallbackTarget : Z; stack : list frame }.

Record state := { targets : gmap Z target; threads : list thread }.

Definition calls (n : Z) (t : target) : target :=
  {| Callback_ := Callback_ t; Context_ := Context_ t; ActiveCalls_ := n;
     Accepting_ := Accepting_ t |}.

(** The admission section of [OnStreamEvent] and the start of the callback. *)
Definition OnStreamEvent (id : Z) (tg : target) (th : thread) : target * thread :=
  if negb (Accepting_ tg) || (Callback_ tg =? 0) || (Context_ tg =? 0) then (tg, th)
  else (calls (u32 (ActiveCalls_ tg + 1)) tg,
        {| g_activeCallbackTarget := id; stack := Running id (g_activeCallbackTarget th) :: stack th |}).

(** The end of [OnStreamEvent] after the callback returned. *)
Definition leave (previous : Z) (tg : target) (th : thread) : target * thread :=
  (calls (u32 (ActiveCalls_ tg - 1)) tg,
   {| g_activeCallbackTarget := previous; stack := tail (stack th) |}).

(** [Detach] up to its wait, which it skips inside the target's own callback. *)
Definition Detach (id : Z) (tg : target) (th : thread) : target * thread :=
  ({| Callback_ := Callback_ tg; Context_ := 0; ActiveCalls_ := ActiveCalls_ tg;
      Accepting_ := false |},
   if g_activeCallbackTarget th =? id then th
   else {| g_activeCallbackTarget := g_activeCallbackTarget th; stack := Waiting id :: stack th |}).

Inductive action :=
| Create (id callback context : Z)
| Enter (t : nat) (id : Z)
| Leave (t : nat)
| CallDetach (t : nat) (id : Z)
| Wake (t : nat).

(** A thread that waits does nothing else. *)
Definition blocked (th : thread) : bool :=
  match stack th with Waiting _ :: _ => true | _ => false end.

Definition update (s : state) (t : nat) (id : Z) (x : target * thread) : state :=
  {| targets := <[id := x.1]> (targets s); threads := <[t := x.2]> (threads s) |}.

Definition exec (a : action) (s : state) : option state :=
  match a with
  | Create id callback context =>
      if (id =? 0) || bool_decide (targets s !! id <> None) then None
      else Some {| targets := <[id := new_target callback context]> (targets s);
                   threads := threads s |}
  | Enter t id =>
      match threads s !! t, targets s !! id with
      | Some th, Some tg =>
          if blocked th then None else Some (update s t id (OnStreamEvent id tg th))
      | _, _ => None
      end
  | Leave t =>
      match threads s !! t with
      | Some th =>
          match stack th with
          | Running id previous :: _ =>
              match targets s !! id with
              | Some tg => Some (update s t id (leave previous tg th))
              | None => None
              end
          | _ => None
          end
      | None => None
      end
  | CallDetach t id =>
      match threads s !! t, targets s !! id with
      | Some th, Some tg =>
          if blocked th then None else Some (update s t id (Detach id tg th))
      | _, _ => None
      end
  | Wake t =>
      match threads s !! t with
      | Some th =>
          match stack th with
          | Waiting id :: rest =>
              match targets s !! id with
              | Some tg =>
                  if ActiveCalls_ tg =? 0 then
                    Some {| targets := targets s;
                            threads := <[t := {| g_activeCallbackTarget := g_activeCallbackTarget th;
                                                 stack := rest |}]> (threads s) |}
                  else None
              | None => None
              end
          | _ => None
          end
      | None => None
      end
  end.

Definition start (n : nat) : state :=
  {| targets := ∅; threads := replicate n {| g_activeCallbackTarget := 0; stack := [] |} |}.

Inductive reachable : state -> Prop :=
| reach_start n : reachable (start n)
| reach_step s a s' : reachable s -> exec a s = Some s' -> reachable s'.

Inductive leads (s : state) : state -> Prop :=
| leads_refl : leads s s
| leads_step a s1 s2 : leads s s1 -> exec a s1 = Some s2 -> leads s s2.

(** *** Callbacks in progress *)

Definition runs (id : Z) (f : frame) : nat :=
  match f with Running i _ => Nat.b2n (i =? id) | Waiting _ => 0 end.

Definition inside (id : Z) (th : thread) : nat := total (runs id) (stack th).

Definition running (id : Z) (s : state) : nat := total (inside id) (threads s).

(** The counter of a target is the number of its callbacks in progress, as a 32-bit word. *)
Definition counted (s : state) : Prop :=
  (forall id tg, targets s !! id = Some tg -> ActiveCalls_ tg = u32 (Z.of_nat (running id s))) /\
  (forall id, targets s !! id = None -> running id s = 0%nat).

Definition closed_target (id : Z) (s : state) : Prop :=
  exists tg, targets s !! id = Some tg /\ Accepting_ tg = false.

Lemma running_update id s t j x th :
  threads s !! t = Some th ->
  (running id (update s t j x) + inside id th = running id s + inside id x.2)%nat.
Proof. intros Ht. unfold running; simpl. by apply total_insert. Qed.

Lemma u32_pred n : u32 (u32 (Z.of_nat (S n)) - 1) = u32 (Z.of_nat n).
Proof. unfold u32. rewrite Zminus_mod_idemp_l. f_equal. lia. Qed.

Lemma u32_succ n : u32 (u32 (Z.of_nat n) + 1) = u32 (Z.of_nat (S n)).
Proof. unfold u32. rewrite Zplus_mod_idemp_l. f_equal. lia. Qed.

(** Updating the thread and the one target its frames speak of. *)
Lemma counted_update s t id tg th x :
  counted s -> threads s !! t = Some th -> targets s !! id = Some tg ->
  (forall j, j <> id -> inside j x.2 = inside j th) ->
  ActiveCalls_ x.1 = u32 (Z.of_nat (running id s + inside id x.2 - inside id th)) ->
  counted (update s t id x).
Proof.
  intros [H1 H2] Ht Htg Hj Ha. split.
  - intros j tg' Hx. pose proof (running_update j s t id x th Ht) as Hr.
    simpl in Hx. destruct (decide (j = id)) as [->|Hne].
    + rewrite lookup_insert_eq in Hx. injection Hx as <-. rewrite Ha. f_equal. lia.
    + rewrite lookup_insert_ne in Hx by done. rewrite (H1 _ _ Hx), (Hj j Hne) in *. do 2 f_equal. lia.
  - intros j Hx. pose proof (running_update j s t id x th Ht) as Hr. simpl in Hx.
    apply lookup_insert_None in Hx as [Hx Hne]. rewrite (Hj j) in Hr by done.
    rewrite (H2 j Hx) in Hr. lia.
Qed.

Lemma inside_le id s t th : threads s !! t = Some th -> (inside id th <= running id s)%nat.
Proof. apply total_le. Qed.

Lemma counted_exec s a s' : counted s -> exec a s = Some s' -> counted s'.
Proof.
  intros Hc. pose proof Hc as [H1 H2]. destruct a; simpl.
  - destruct (_ || _) eqn:Hg; [done|]. intros [= <-]. to_prop_nat.
    assert (Hn : targets s !! id = None) by (by destruct (targets s !! id); [exfalso; auto|]).
    split; simpl.
    + intros j tg Hx. destruct (decide (j = id)) as [->|].
      * rewrite lookup_insert_eq in Hx. injection Hx as <-. unfold running; simpl.
        fold (running id s). by rewrite (H2 _ Hn).
      * rewrite lookup_insert_ne in Hx by done. by apply H1.
    + intros j Hx. apply lookup_insert_None in Hx as [Hx _]. by apply H2.
  - destruct (threads s !! t) as [th|] eqn:Ht; [|done].
    destruct (targets s !! id) as [tg|] eqn:Htg; [|done].
    destruct (blocked th); [done|]. intros [= <-].
    apply (counted_update s t id tg th); auto; unfold OnStreamEvent; destruct (_ || _); simpl;
      try done.
    + intros j Hne. unfold inside, total; simpl. replace (id =? j) with false by lia. done.
    + rewrite (H1 _ _ Htg). f_equal. lia.
    + rewrite (H1 _ _ Htg), u32_succ. unfold inside, total; simpl. rewrite Z.eqb_refl. simpl.
      do 2 f_equal. lia.
  - destruct (threads s !! t) as [th|] eqn:Ht; [|done].
    destruct (stack th) as [|[id previous|] rest] eqn:Hs; try done.
    destruct (targets s !! id) as [tg|] eqn:Htg; [|done]. intros [= <-].
    pose proof (inside_le id s t th Ht) as Hle.
    assert (Hin : inside id th = S (total (runs id) rest)).
    { unfold inside, total. rewrite Hs. simpl. by rewrite Z.eqb_refl. }
    apply (counted_update s t id tg th); auto; simpl.
    + intros j Hne. unfold inside, total. rewrite Hs. simpl.
      replace (id =? j) with false by lia. done.
    + rewrite (H1 _ _ Htg). unfold inside at 1. simpl. rewrite Hs. simpl.
      destruct (running id s) as [|n] eqn:Er; [lia|]. rewrite u32_pred. do 2 f_equal. lia.
  - destruct (threads s !! t) as [th|] eqn:Ht; [|done].
    destruct (targets s !! id) as [tg|] eqn:Htg; [|done].
    destruct (blocked th); [done|]. intros [= <-].
    apply (counted_update s t id tg th); auto; unfold Detach; simpl.
    + intros j _. by destruct (_ =? _).
    + rewrite (H1 _ _ Htg). do 2 f_equal. destruct (_ =? _); unfold inside, total; simpl; lia.
  - destruct (threads s !! t) as [th|] eqn:Ht; [|done].
    destruct (stack th) as [|[|id] rest] eqn:Hs; try done.
    destruct (targets s !! id) as [tg|] eqn:Htg; [|done].
    destruct (ActiveCalls_ tg =? 0); [|done]. intros [= <-].
    assert (Hr : forall j, running j {| targets := targets s;
      threads := <[t := {| g_activeCallbackTarget := g_activeCallbackTarget th; stack := rest |}]>
        (threads s) |} = running j s).
    { intros j. unfold running; simpl. pose proof (total_insert (inside j) _ _ _
        {| g_activeCallbackTarget := g_activeCallbackTarget th; stack := rest |} Ht) as Hi.
      unfold inside in *. rewrite Hs in Hi. unfold total in *; simpl in *. lia. }
    split; simpl; intros j; rewrite Hr; auto.
Qed.

Lemma counted_reachable s : reachable s -> counted s.
Proof.
  induction 1 as [n|s a s' _ IH Hx]; [|by eapply counted_exec].
  split; [intros id tg Hx; simpl in Hx; by rewrite lookup_empty in Hx|]. intros id _. unfold running; simpl.
  apply total_zero. intros x Hx. by apply elem_of_replicate in Hx as [-> _].
Qed.

(** Once admission is closed it stays closed and no callback starts. *)
Lemma closed_exec id s a s' :
  closed_target id s -> exec a s = Some s' ->
  closed_target id s' /\ (running id s' <= running id s)%nat.
Proof.
  intros (tg0 & Htg0 & Hacc). unfold closed_target. destruct a; simpl.
  - destruct (_ || _) eqn:Hg; [done|]. intros [= <-]. to_prop_nat. split; [|done].
    exists tg0. simpl. rewrite lookup_insert_ne; [done|]. intros ->. by rewrite Htg0 in *; auto.
  - destruct (threads s !! t) as [th|] eqn:Ht; [|done].
    destruct (targets s !! id0) as [tg|] eqn:Htg; [|done].
    destruct (blocked th); [done|]. intros [= <-].
    pose proof (running_update id s t id0 (OnStreamEvent id0 tg th) th Ht) as Hr.
    destruct (decide (id0 = id)) as [->|Hne].
    + assert (tg0 = tg) as -> by congruence. unfold OnStreamEvent in *. rewrite Hacc in *. simpl in *.
      split; [|lia]. exists tg. by rewrite lookup_insert_eq.
    + split; [exists tg0; simpl; by rewrite lookup_insert_ne|].
      assert (inside id (OnStreamEvent id0 tg th).2 = inside id th); [|lia].
      unfold OnStreamEvent. destruct (_ || _); [done|]. unfold inside, total; simpl.
      by replace (id0 =? id) with false by lia.
  - destruct (threads s !! t) as [th|] eqn:Ht; [|done].
    destruct (stack th) as [|[id' previous|] rest] eqn:Hs; try done.
    destruct (targets s !! id') as [tg|] eqn:Htg; [|done]. intros [= <-].
    pose proof (running_update id s t id' (leave previous tg th) th Ht) as Hr.
    unfold inside, total in Hr. simpl in Hr. rewrite Hs in Hr. simpl in Hr. split; [|lia].
    destruct (decide (id' = id)) as [->|].
    + eexists. simpl. rewrite lookup_insert_eq. split; [done|]. simpl. congruence.
    + exists tg0. simpl. by rewrite lookup_insert_ne.
  - destruct (threads s !! t) as [th|] eqn:Ht; [|done].
    destruct (targets s !! id0) as [tg|] eqn:Htg; [|done].
    destruct (blocked th); [done|]. intros [= <-].
    pose proof (running_update id s t id0 (Detach id0 tg th) th Ht) as Hr.
    assert (inside id (Detach id0 tg th).2 = inside id th) by (simpl; by destruct (_ =? _)).
    split; [|lia]. destruct (decide (id0 = id)) as [->|].
    + eexists. simpl. rewrite lookup_insert_eq. done.
    + exists tg0. simpl. by rewrite lookup_insert_ne.
  - destruct (threads s !! t) as [th|] eqn:Ht; [|done].
    destruct (stack th) as [|[|id'] rest] eqn:Hs; try done.
    destruct (targets s !! id') as [tg|] eqn:Htg; [|done].
    destruct (ActiveCalls_ tg =? 0); [|done]. intros [= <-]. split; [by exists tg0|].
    unfold running; simpl. pose proof (total_insert (inside id) _ _ _
        {| g_activeCallbackTarget := g_activeCallbackTarget th; stack := rest |} Ht) as Hi.
    unfold inside in *. rewrite Hs in Hi. unfold total in *; simpl in *. lia.
Qed.

Lemma closed_leads id s s' :
  closed_target id s -> leads s s' ->
  closed_target id s' /\ (running id s' <= running id s)%nat.
Proof.
  intros Hc Hl. induction Hl as [|a s1 s2 _ [IH1 IH2] Hx]; [done|].
  destruct (closed_exec _ _ _ _ IH1 Hx). split; [done|lia].
Qed.

(** A thread that waits for a target has closed it. *)
Lemma waiting_closed s t th id :
  reachable s -> threads s !! t = Some th -> Waiting id ∈ stack th -> closed_target id s.
Proof.
  intros Hr. revert t th. induction Hr as [n|s a s' _ IH Hx]; intros t th Ht Hw.
  { apply lookup_replicate in Ht as [-> _]. by apply elem_of_nil in Hw. }
  assert (Hstep : forall u thu, threads s !! u = Some thu -> Waiting id ∈ stack thu ->
                  closed_target id s').
  { intros u thu Hu Hwu. by apply (closed_exec id s a s'), Hx; eauto. }
  destruct a; simpl in Hx.
  - destruct (_ || _); [done|]. injection Hx as <-. by eapply Hstep.
  - destruct (threads s !! t0) as [th0|] eqn:Ht0; [|done].
    destruct (targets s !! id0) as [tg|] eqn:Htg; [|done].
    destruct (blocked th0); [done|]. injection Hx as <-. simpl in Ht.
    apply list_lookup_insert_Some in Ht as [(<- & <- & _)|[_ Ht]]; [|by eapply Hstep].
    unfold OnStreamEvent in Hw. destruct (_ || _); [by eapply Hstep|]. simpl in Hw.
    apply elem_of_cons in Hw as [|Hw]; [done|]. by eapply Hstep.
  - destruct (threads s !! t0) as [th0|] eqn:Ht0; [|done].
    destruct (stack th0) as [|[id' previous|] rest] eqn:Hs; try done.
    destruct (targets s !! id') as [tg|] eqn:Htg; [|done]. injection Hx as <-. simpl in Ht.
    apply list_lookup_insert_Some in Ht as [(<- & <- & _)|[_ Ht]]; [|by eapply Hstep].
    simpl in Hw. eapply Hstep; [exact Ht0|]. rewrite Hs in *. by right.
  - destruct (threads s !! t0) as [th0|] eqn:Ht0; [|done].
    destruct (targets s !! id0) as [tg|] eqn:Htg; [|done].
    destruct (blocked th0); [done|]. injection Hx as <-. simpl in Ht.
    apply list_lookup_insert_Some in Ht as [(<- & <- & _)|[_ Ht]]; [|by eapply Hstep].
    destruct (g_activeCallbackTarget th0 =? id0); [by eapply Hstep|]. simpl in Hw.
    apply elem_of_cons in Hw as [E|Hw]; [|by eapply Hstep]. injection E as ->.
    eexists. simpl. rewrite lookup_insert_eq. done.
  - destruct (threads s !! t0) as [th0|] eqn:Ht0; [|done].
    destruct (stack th0) as [|[|id'] rest] eqn:Hs; try done.
    destruct (targets s !! id') as [tg|] eqn:Htg; [|done].
    destruct (ActiveCalls_ tg =? 0); [|done]. injection Hx as <-. simpl in Ht.
    apply list_lookup_insert_Some in Ht as [(<- & <- & _)|[_ Ht]]; [|by eapply Hstep].
    simpl in Hw. eapply Hstep; [exact Ht0|]. rewrite Hs. by right.
Qed.

(** C37. [Detach] is a barrier: when it returns on a thread that waited, no callback of the
    target is in progress anywhere and none ever starts again, so the context may be freed; when
    it is called by a thread whose innermost running callback is the target's own it returns at
    once, admission is closed for good and the callbacks in progress can only drain.  Fewer than
    2^32 callbacks of the target are in progress.  A thread that is inside the target's callback
    and, further in, inside another target's waits for itself ([nested_detach_never_returns]). *)
Theorem detach_is_a_barrier s t th id s' :
  reachable s -> threads s !! t = Some th -> Z.of_nat (running id s) < 2 ^ 32 ->
  (forall rest, stack th = Waiting id :: rest -> exec (Wake t) s = Some s' ->
     forall s2, leads s' s2 -> running id s2 = 0%nat) /\
  (g_activeCallbackTarget th = id -> exec (CallDetach t id) s = Some s' ->
     threads s' !! t = Some th /\
     forall s2, leads s' s2 -> closed_target id s2 /\ (running id s2 <= running id s)%nat).
Proof.
  intros Hr Ht Hb. pose proof (counted_reachable s Hr) as [Hc _]. split.
  - intros rest Hs Hx s2 Hl.
    assert (Hcl : closed_target id s).
    { eapply waiting_closed; [done|done|]. rewrite Hs. by left. }
    assert (Hz : running id s = 0%nat).
    { simpl in Hx. rewrite Ht, Hs in Hx. destruct (targets s !! id) as [tg|] eqn:Htg; [|done].
      destruct (Z.eqb_spec (ActiveCalls_ tg) 0) as [E|]; [|done].
      rewrite (Hc _ _ Htg) in E. unfold u32 in E. rewrite Z.mod_small in E by lia. lia. }
    destruct (closed_exec id s _ s' Hcl Hx) as [Hcl' Hle].
    destruct (closed_leads id s' s2 Hcl' Hl). lia.
  - intros Hact Hx. simpl in Hx. rewrite Ht in Hx.
    destruct (targets s !! id) as [tg|] eqn:Htg; [|done]. destruct (blocked th); [done|].
    injection Hx as <-.
    pose proof (running_update id s t id (Detach id tg th) th Ht) as Hru.
    unfold Detach in *. simpl in *. rewrite Hact, Z.eqb_refl in *. split.
    + simpl. rewrite list_lookup_insert_eq; [done|]. by eapply lookup_lt_Some.
    + intros s2 Hl. eapply closed_leads in Hl as [Hcl Hle].
      * split; [done|]. lia.
      * eexists. simpl. rewrite lookup_insert_eq. done.
Qed.

(** *** Demonstrations *)

Definition run (l : list action) (n : nat) : option state :=
  foldl (fun s a => match s with Some s => exec a s | None => None end) (Some (start n)) l.

Lemma targets_from l s0 s :
  reachable s0 ->
  foldl (fun s a => match s with Some s => exec a s | None => None end) (Some s0) l = Some s ->
  reachable s.
Proof.
  revert s0. induction l as [|a l IH]; simpl; intros s0 H0 Hx; [by injection Hx as <-|].
  destruct (exec a s0) as [s1|] eqn:E.
  - eapply IH; [|exact Hx]. by eapply reach_step.
  - exfalso. clear -Hx. induction l; simpl in *; [done|auto].
Qed.

Lemma targets_reachable l n s : run l n = Some s -> reachable s.
Proof. apply targets_from, reach_start. Qed.

(** Thread 1 detaches while thread 0 is in the callback, which then returns. *)
Definition waited : state :=
  default (start 2) (run [Create 5 1 9; Enter 0 5; CallDetach 1 5; Leave 0] 2).
Definition returned : state := default (start 2) (exec (Wake 1) waited).

Lemma detach_is_a_barrier_witness :
  exec (Wake 1) waited = Some returned /\
  (forall s2, leads returned s2 -> running 5 s2 = 0%nat).
Proof.
  split; [vm_compute; reflexivity|].
  refine (proj1 (detach_is_a_barrier waited 1
    {| g_activeCallbackTarget := 0; stack := [Waiting 5] |} 5 returned _ _ _) [] _ _).
  - apply (targets_reachable [Create 5 1 9; Enter 0 5; CallDetach 1 5; Leave 0] 2).
    vm_compute; reflexivity.
  - vm_compute; reflexivity.
  - vm_compute; reflexivity.
  - reflexivity.
  - vm_compute; reflexivity.
Defined.

(** The self test looks at the innermost callback only: a thread that is in a callback of
    target 6 started from within a callback of target 5 and detaches 5 waits for its own outer
    callback, for ever. *)
Definition nested : state :=
  default (start 1) (run [Create 5 1 9; Create 6 1 8; Enter 0 5; Enter 0 6; CallDetach 0 5] 1).

Theorem nested_detach_never_returns s2 :
  leads nested s2 -> threads s2 = threads nested.
Proof.
  assert (Hs : targets nested !! 5 = Some {| Callback_ := 1; Context_ := 0; ActiveCalls_ := 1;
                                            Accepting_ := false |} /\
               threads nested = [{| g_activeCallbackTarget := 6;
                                    stack := [Waiting 5; Running 6 5; Running 5 0] |}])
    by (vm_compute; done).
  destruct Hs as [Hs1 Hs2]. intros Hl. rewrite Hs2.
  enough (targets s2 !! 5 = targets nested !! 5 /\ threads s2 = threads nested) as [_ E]
    by (by rewrite E).
  induction Hl as [|a s1 s2 _ [IH1 IH2] Hx]; [done|]. rewrite Hs1 in *. rewrite Hs2 in *.
  destruct a; simpl in Hx; rewrite ?IH2 in Hx.
  - destruct (_ || _) eqn:Hg; [done|]. to_prop_nat. injection Hx as <-. simpl. split; [|done].
    rewrite lookup_insert_ne; [done|]. intros ->. by rewrite IH1 in *; auto.
  - destruct t as [|[|]]; simpl in Hx; try done. by destruct (targets s1 !! id).
  - destruct t as [|[|]]; simpl in Hx; done.
  - destruct t as [|[|]]; simpl in Hx; try done. by destruct (targets s1 !! id).
  - destruct t as [|[|]]; simpl in Hx; try done. rewrite IH1 in Hx. done.
Qed.

End CallbackTarget.
