(* ===== verification/Tuning.v ===== *)
(** The tuning profile of [src/src/config/tuning.cpp]: how a configuration, the machine's
    memory and its processor count become the relay's limits; how the budget is divided among
    active relays; and the run-time observations (round-trip time, throughput, ideal send size,
    compression ratio) that later adjust it.

    [TqTuningConfig] is a struct of 43 numbers: it is a total function on its fields, so that
    an assignment [out.F = v] is [<[F := v]> out].  What [sysconf] and
    [std::thread::hardware_concurrency] answer is a parameter ([Host]). *)

From stdpp Require Import base list strings numbers sets functions.
From Stdlib Require Import ZArith Lia.
From S2P Require Import Prelude EventQueue.

(** ** Data *)

Inductive TqTuningMode := Auto | Lan | Wan.

#[export] Instance TqTuningMode_eq_dec : EqDecision TqTuningMode.
Proof. solve_decision. Defined.

(** [mode == TqTuningMode::Lan] *)
Definition is_lan (mode : TqTuningMode) : bool := match mode with Lan => true | _ => false end.

(** The fields of [TqTuningConfig]. *)
Inductive field :=
| TerminalWatchdogSeconds | StreamRecvWindow | ConnFlowControlWindow | InitialWindowPackets
| InitialRttMs | RelayIoSize | RelayCompressIoSize | RelayDefaultIdealSend
| RelayMaxInFlightSends | RelayMaxFreeSendContexts | TcpSocketBufferBytes | RelayWorkerCount
| RelayMaxIov | RelayReadChunkSize | RelayReadBatchBytes | RelayQuicRecvBatchBytes
| RelayTcpWriteMaxBytes | RelayTcpWriteBurstBytes | RelayGlobalPendingBytes
| RelayPerTunnelPendingBytes | RelayWorkerEventBudget | RelayEventQueueCapacity
| RelayWorkerByteBudgetPerTick | RelayQuicReceiveCompleteBatchBytes
| LinuxRelayWorkerCount | WindowsRelayWorkerCount | LinuxRelayMaxIov | LinuxRelayReadChunkSize
| LinuxRelayReadBatchBytes | LinuxRelayQuicRecvBatchBytes | LinuxRelayTcpWriteMaxBytes
| LinuxRelayTcpWriteBurstBytes | InitialQuicReadAheadBytes | LinuxRelayGlobalPendingBytes
| MaxPendingBufferBytesPerRelay | LinuxRelayPerTunnelPendingBytes | LinuxRelayWorkerEventBudget
| LinuxRelayEventQueueCapacity | LinuxRelayWorkerByteBudgetPerTick
| LinuxRelayQuicReceiveCompleteBatchBytes | WindowsRelayMaxPendingQuicReceiveBytesPerRelay
| WindowsRelayQuicReceiveCompleteBatchBytes | WindowsRelayMaxBufferedQuicSendBytes.

#[export] Instance field_eq_dec : EqDecision field.
Proof. solve_decision. Defined.

Definition TqTuningConfig : Type := field -> Z.

(** The declared type of a field: [uint32_t], [int], or a 64-bit unsigned ([size_t] too). *)
Definition field_limit (f : field) : Z :=
  match f with
  | TerminalWatchdogSeconds | StreamRecvWindow | ConnFlowControlWindow | InitialWindowPackets
  | InitialRttMs | RelayMaxInFlightSends | RelayWorkerCount | RelayMaxIov
  | RelayWorkerEventBudget | RelayEventQueueCapacity | LinuxRelayWorkerCount
  | WindowsRelayWorkerCount | LinuxRelayMaxIov | LinuxRelayWorkerEventBudget
  | LinuxRelayEventQueueCapacity => 4294967296
  | TcpSocketBufferBytes => 2147483648
  | _ => 18446744073709551616
  end.

Definition tuning_ok (t : TqTuningConfig) : Prop := forall f, 0 <= t f < field_limit f.

Definition KiB : Z := 1024.
Definition MiB : Z := 1024 * KiB.

(** The struct's default member initializers. *)
Definition default_tuning : TqTuningConfig := fun f =>
  match f with
  | TerminalWatchdogSeconds => 5
  | StreamRecvWindow => 536870912
  | ConnFlowControlWindow => 500000000
  | InitialWindowPackets => 2000
  | InitialRttMs => 100
  | RelayIoSize => 1024 * 1024
  | RelayCompressIoSize => 256 * 1024
  | RelayDefaultIdealSend => 64 * MiB
  | RelayMaxInFlightSends => 64
  | RelayMaxFreeSendContexts => 64
  | TcpSocketBufferBytes => 4 * MiB
  | RelayWorkerCount => 0
  | RelayMaxIov => 16
  | RelayReadChunkSize => 128 * 1024
  | RelayReadBatchBytes => MiB
  | RelayQuicRecvBatchBytes => MiB
  | RelayTcpWriteMaxBytes => 0
  | RelayTcpWriteBurstBytes => 0
  | RelayGlobalPendingBytes => 256 * MiB
  | RelayPerTunnelPendingBytes => 4 * MiB
  | RelayWorkerEventBudget => 4096
  | RelayEventQueueCapacity => 4096
  | RelayWorkerByteBudgetPerTick => 64 * MiB
  | RelayQuicReceiveCompleteBatchBytes => 0
  | LinuxRelayWorkerCount => 0
  | WindowsRelayWorkerCount => 0
  | LinuxRelayMaxIov => 16
  | LinuxRelayReadChunkSize => 128 * 1024
  | LinuxRelayReadBatchBytes => MiB
  | LinuxRelayQuicRecvBatchBytes => MiB
  | LinuxRelayTcpWriteMaxBytes => 0
  | LinuxRelayTcpWriteBurstBytes => 0
  | InitialQuicReadAheadBytes => MiB
  | LinuxRelayGlobalPendingBytes => 256 * MiB
  | MaxPendingBufferBytesPerRelay => 32 * MiB
  | LinuxRelayPerTunnelPendingBytes => 4 * MiB
  | LinuxRelayWorkerEventBudget => 4096
  | LinuxRelayEventQueueCapacity => 4096
  | LinuxRelayWorkerByteBudgetPerTick => 64 * MiB
  | LinuxRelayQuicReceiveCompleteBatchBytes => 0
  | WindowsRelayMaxPendingQuicReceiveBytesPerRelay => 16 * MiB
  | WindowsRelayQuicReceiveCompleteBatchBytes => 0
  | WindowsRelayMaxBufferedQuicSendBytes => 64 * MiB
  end.

(** The part of [TqConfig] that tuning reads. *)
Record TqConfig := {
  Compress : bytes;
  TuningMode : TqTuningMode;
  MaxMemoryMb : Z;
  TuningOverrideRelayIoSize : Z;
  TuningOverrideRelayReadChunkSize : Z;
  TuningOverrideRelayTcpWriteMaxBytes : Z;
  TuningOverrideRelayTcpWriteBurstBytes : Z;
  TuningOverrideRelayEventQueueCapacity : Z;
  TuningOverrideRelayWorkerCount : Z;
  TuningOverrideLinuxRelayReadChunkSize : Z;
  TuningOverrideLinuxRelayTcpWriteMaxBytes : Z;
  TuningOverrideLinuxRelayTcpWriteBurstBytes : Z;
  TuningOverrideLinuxRelayEventQueueCapacity : Z;
  TuningOverrideLinuxRelayWorkerCount : Z;
  TuningOverrideWindowsRelayWorkerCount : Z;
  TuningOverrideQuicIw : Z;
  TuningOverrideQuicInitRttMs : Z;
  TuningOverrideTerminalWatchdogSeconds : Z;
  Tuning : TqTuningConfig;
}.

(** Every number of the configuration is a [uint32_t]. *)
Definition config_ok (cfg : TqConfig) : Prop :=
  Forall is_u32
    [MaxMemoryMb cfg; TuningOverrideRelayIoSize cfg; TuningOverrideRelayReadChunkSize cfg;
     TuningOverrideRelayTcpWriteMaxBytes cfg; TuningOverrideRelayTcpWriteBurstBytes cfg;
     TuningOverrideRelayEventQueueCapacity cfg; TuningOverrideRelayWorkerCount cfg;
     TuningOverrideLinuxRelayReadChunkSize cfg; TuningOverrideLinuxRelayTcpWriteMaxBytes cfg;
     TuningOverrideLinuxRelayTcpWriteBurstBytes cfg;
     TuningOverrideLinuxRelayEventQueueCapacity cfg; TuningOverrideLinuxRelayWorkerCount cfg;
     TuningOverrideWindowsRelayWorkerCount cfg; TuningOverrideQuicIw cfg;
     TuningOverrideQuicInitRttMs cfg; TuningOverrideTerminalWatchdogSeconds cfg].

Definition TqValidationFlowWindowBytes : Z := 0x80000000.
Definition TqValidationInitialIdealSendFallbackBytes : Z := 128 * 1024 * 1024.
Definition TqValidationRelaySendBufferCapBytes : Z := 512 * 1024 * 1024.
Definition TqLinuxRelayEventQueueCapacityMin : Z := 1024.
Definition TqLinuxRelayEventQueueCapacityMax : Z := 1048576.
Definition TqRelayWorkerCountMin : Z := 1.
Definition TqRelayWorkerCountMax : Z := 8.
Definition kAutoRelayBudgetFallbackBytes : Z := 512 * MiB.
Definition kAutoRelayBudgetMinBytes : Z := 256 * MiB.
Definition kAutoRelayBudgetMaxBytes : Z := 8 * 1024 * MiB.
Definition kRelayPerTunnelTargetMinBytes : Z := 16 * MiB.
Definition kRelayPerTunnelTargetMaxBytes : Z := 512 * MiB.
Definition UINT64_MAX : Z := 18446744073709551615.
Definition UINT32_MAX : Z := 4294967295.

(** What the operating system and the C++ runtime answer. *)
Record Host := {
  sc_phys_pages : Z;          (* sysconf(_SC_PHYS_PAGES), a long *)
  sc_pagesize : Z;            (* sysconf(_SC_PAGESIZE), a long *)
  hardware_concurrency : Z;   (* unsigned int, 0 when unknown *)
}.

Definition host_ok (h : Host) : Prop :=
  sc_phys_pages h < 9223372036854775808 /\ sc_pagesize h < 9223372036854775808 /\
  is_u32 (hardware_concurrency h).

(** ** Clamping, memory and workers *)

Definition ClampU64 (value minValue maxValue : Z) : Z := Z.min (Z.max value minValue) maxValue.

Definition ClampU32 (value minValue maxValue : Z) : Z := u32 (ClampU64 value minValue maxValue).

Definition DetectSystemMemoryBytes (h : Host) : Z :=
  let pageCount := sc_phys_pages h in
  let pageSize := sc_pagesize h in
  if (pageCount <=? 0) || (pageSize <=? 0) then 0
  else if UINT64_MAX / pageSize <? pageCount then UINT64_MAX
  else u64 (pageCount * pageSize).

Definition ComputeSystemSoftLimitBytes (h : Host) : Z :=
  let systemMemoryBytes := DetectSystemMemoryBytes h in
  if systemMemoryBytes =? 0 then kAutoRelayBudgetFallbackBytes
  else ClampU64 (systemMemoryBytes / 8) kAutoRelayBudgetMinBytes kAutoRelayBudgetMaxBytes.

Definition ComputeTargetPendingPerTunnelBytes (tuning : TqTuningConfig) : Z :=
  ClampU64 (tuning RelayDefaultIdealSend)
    kRelayPerTunnelTargetMinBytes kRelayPerTunnelTargetMaxBytes.

Definition BytesToMbRoundUp (b : Z) : Z :=
  let mb := u64 (b + MiB - 1) / MiB in
  ClampU32 mb 0 UINT32_MAX.

Definition ComputeAutomaticRelayBudgetBytes (h : Host) (tuning : TqTuningConfig) : Z :=
  let targetPendingBytes := ComputeTargetPendingPerTunnelBytes tuning in
  let budgetBytes := Z.max (Z.max (ComputeSystemSoftLimitBytes h) targetPendingBytes)
                       kAutoRelayBudgetFallbackBytes in
  ClampU64 budgetBytes kAutoRelayBudgetMinBytes kAutoRelayBudgetMaxBytes.

Definition TqDetectRelayWorkers (h : Host) : Z :=
  let detected := hardware_concurrency h in
  if detected =? 0 then TqRelayWorkerCountMin
  else Z.max TqRelayWorkerCountMin (Z.min detected TqRelayWorkerCountMax).

Definition TqNormalizeRelayWorkerCount (count : Z) : Z :=
  Z.max TqRelayWorkerCountMin (Z.min count TqRelayWorkerCountMax).

(** [capacity |= capacity >> k] *)
Definition smear (k capacity : Z) : Z := Z.lor capacity (Z.shiftr capacity k).

Definition TqNormalizeLinuxRelayEventQueueCapacity (capacity : Z) : Z :=
  if capacity <=? TqLinuxRelayEventQueueCapacityMin then TqLinuxRelayEventQueueCapacityMin
  else if TqLinuxRelayEventQueueCapacityMax <=? capacity then TqLinuxRelayEventQueueCapacityMax
  else
    let capacity := u32 (capacity - 1) in
    let capacity := smear 16 (smear 8 (smear 4 (smear 2 (smear 1 capacity)))) in
    Z.min (u32 (capacity + 1)) TqLinuxRelayEventQueueCapacityMax.

(** [std::strcmp] against the literals; [None] is a null pointer. *)
Definition TqParseTuningMode (value : option bytes) : TqTuningMode :=
  match value with
  | None => Wan
  | Some v =>
      if bool_decide (v = str "auto") then Auto
      else if bool_decide (v = str "lan") then Lan
      else if bool_decide (v = str "wan") then Wan
      else Wan
  end.

(** ** Building the profile *)

Definition ApplyWanDefaults (out : TqTuningConfig) : TqTuningConfig :=
  let out := <[StreamRecvWindow := 536870912]> out in
  let out := <[ConnFlowControlWindow := 500000000]> out in
  let out := <[InitialWindowPackets := 2000]> out in
  let out := <[InitialRttMs := 100]> out in
  let out := <[RelayIoSize := 1024 * 1024]> out in
  let out := <[RelayCompressIoSize := 256 * 1024]> out in
  let out := <[RelayDefaultIdealSend := 64 * 1024 * 1024]> out in
  let out := <[RelayMaxInFlightSends := 64]> out in
  let out := <[RelayMaxFreeSendContexts := 64]> out in
  <[TcpSocketBufferBytes := 4 * 1024 * 1024]> out.

Definition ApplyLanDefaults (out : TqTuningConfig) : TqTuningConfig :=
  let out := <[StreamRecvWindow := 16 * 1024 * 1024]> out in
  let out := <[ConnFlowControlWindow := 16 * 1024 * 1024]> out in
  let out := <[InitialWindowPackets := 256]> out in
  let out := <[InitialRttMs := 10]> out in
  let out := <[RelayIoSize := 256 * 1024]> out in
  let out := <[RelayCompressIoSize := 64 * 1024]> out in
  let out := <[RelayDefaultIdealSend := 4 * 1024 * 1024]> out in
  let out := <[RelayMaxInFlightSends := 16]> out in
  let out := <[RelayMaxFreeSendContexts := 16]> out in
  <[TcpSocketBufferBytes := 1024 * 1024]> out.

Definition kHighBdpThreshold : Z := 64 * 1024 * 1024.

Definition ApplyHighBdpPipelineScaling (out : TqTuningConfig) : TqTuningConfig :=
  if out RelayDefaultIdealSend <? kHighBdpThreshold then out
  else
    let pendingBytes := Z.min (out RelayDefaultIdealSend) (512 * 1024 * 1024) in
    let out := <[RelayPerTunnelPendingBytes := pendingBytes]> out in
    let out := <[MaxPendingBufferBytesPerRelay :=
                   Z.max pendingBytes
                     (out RelayGlobalPendingBytes / Z.max (out RelayWorkerCount) 1)]> out in
    let out := <[RelayWorkerByteBudgetPerTick := Z.min pendingBytes (512 * 1024 * 1024)]> out in
    let out := <[InitialQuicReadAheadBytes :=
                   Z.max (out InitialQuicReadAheadBytes) pendingBytes]> out in
    let out := <[RelayReadBatchBytes :=
                   Z.max (out RelayReadBatchBytes) (4 * 1024 * 1024)]> out in
    let out := <[RelayQuicRecvBatchBytes :=
                   Z.max (out RelayQuicRecvBatchBytes) (4 * 1024 * 1024)]> out in
    let out := <[RelayMaxIov := Z.max (out RelayMaxIov) 32]> out in
    let tcpBuf := Z.min (pendingBytes / 4) (64 * 1024 * 1024) in
    if u64 (out TcpSocketBufferBytes) <? tcpBuf
    then <[TcpSocketBufferBytes := Z.max tcpBuf (16 * 1024 * 1024)]> out
    else out.

Definition SyncLinuxRelayLegacyFields (out : TqTuningConfig) : TqTuningConfig :=
  let out := <[LinuxRelayWorkerCount := out RelayWorkerCount]> out in
  let out := <[LinuxRelayMaxIov := out RelayMaxIov]> out in
  let out := <[LinuxRelayReadChunkSize := out RelayReadChunkSize]> out in
  let out := <[LinuxRelayReadBatchBytes := out RelayReadBatchBytes]> out in
  let out := <[LinuxRelayQuicRecvBatchBytes := out RelayQuicRecvBatchBytes]> out in
  let out := <[LinuxRelayTcpWriteMaxBytes := out RelayTcpWriteMaxBytes]> out in
  let out := <[LinuxRelayTcpWriteBurstBytes := out RelayTcpWriteBurstBytes]> out in
  let out := <[LinuxRelayGlobalPendingBytes := out RelayGlobalPendingBytes]> out in
  let out := <[LinuxRelayPerTunnelPendingBytes := out RelayPerTunnelPendingBytes]> out in
  let out := <[LinuxRelayWorkerEventBudget := out RelayWorkerEventBudget]> out in
  let out := <[LinuxRelayEventQueueCapacity := out RelayEventQueueCapacity]> out in
  let out := <[LinuxRelayWorkerByteBudgetPerTick := out RelayWorkerByteBudgetPerTick]> out in
  <[LinuxRelayQuicReceiveCompleteBatchBytes := out RelayQuicReceiveCompleteBatchBytes]> out.

(** [if (o > 0) out.F = v;] *)
Definition override (o : Z) (f : field) (v : Z) (out : TqTuningConfig) : TqTuningConfig :=
  if 0 <? o then <[f := v]> out else out.

Definition ApplyCustomOverrides (cfg : TqConfig) (out : TqTuningConfig) : TqTuningConfig :=
  let set := fun o f => override o f o in
  let out := set (TuningOverrideTerminalWatchdogSeconds cfg) TerminalWatchdogSeconds out in
  let out := set (TuningOverrideRelayIoSize cfg) RelayIoSize out in
  let out := set (TuningOverrideLinuxRelayReadChunkSize cfg) RelayReadChunkSize out in
  let out := set (TuningOverrideLinuxRelayTcpWriteMaxBytes cfg) RelayTcpWriteMaxBytes out in
  let out := set (TuningOverrideLinuxRelayTcpWriteBurstBytes cfg) RelayTcpWriteBurstBytes out in
  let out := override (TuningOverrideLinuxRelayEventQueueCapacity cfg) RelayEventQueueCapacity
    (TqNormalizeLinuxRelayEventQueueCapacity
       (TuningOverrideLinuxRelayEventQueueCapacity cfg)) out in
  let out := override (TuningOverrideLinuxRelayWorkerCount cfg) RelayWorkerCount
    (TqNormalizeRelayWorkerCount (TuningOverrideLinuxRelayWorkerCount cfg)) out in
  let out := set (TuningOverrideRelayReadChunkSize cfg) RelayReadChunkSize out in
  let out := set (TuningOverrideRelayTcpWriteMaxBytes cfg) RelayTcpWriteMaxBytes out in
  let out := set (TuningOverrideRelayTcpWriteBurstBytes cfg) RelayTcpWriteBurstBytes out in
  let out := override (TuningOverrideRelayEventQueueCapacity cfg) RelayEventQueueCapacity
    (TqNormalizeLinuxRelayEventQueueCapacity (TuningOverrideRelayEventQueueCapacity cfg)) out in
  let out := override (TuningOverrideRelayWorkerCount cfg) RelayWorkerCount
    (TqNormalizeRelayWorkerCount (TuningOverrideRelayWorkerCount cfg)) out in
  let out := override (TuningOverrideWindowsRelayWorkerCount cfg) WindowsRelayWorkerCount
    (TqNormalizeRelayWorkerCount (TuningOverrideWindowsRelayWorkerCount cfg)) out in
  let out := set (TuningOverrideQuicIw cfg) InitialWindowPackets out in
  set (TuningOverrideQuicInitRttMs cfg) InitialRttMs out.

Definition TqApplyLinuxRelayDefaults (h : Host) (mode : TqTuningMode) (autoBudgetBytes : Z)
    (out : TqTuningConfig) : TqTuningConfig :=
  let detectedWorkers := TqDetectRelayWorkers h in
  let out := <[RelayWorkerCount := detectedWorkers]> out in
  let out := <[WindowsRelayWorkerCount := detectedWorkers]> out in
  let out :=
    if is_lan mode then
      let out := <[RelayMaxIov := 8]> out in
      let out := <[RelayReadChunkSize := 128 * 1024]> out in
      let out := <[RelayReadBatchBytes := 256 * 1024]> out in
      let out := <[RelayQuicRecvBatchBytes := 256 * 1024]> out in
      let out := <[RelayWorkerEventBudget := 1024]> out in
      let out := <[RelayEventQueueCapacity := 4096]> out in
      <[RelayWorkerByteBudgetPerTick := 16 * 1024 * 1024]> out
    else
      let out := <[RelayMaxIov := 16]> out in
      let out := <[RelayReadChunkSize := 128 * 1024]> out in
      let out := <[RelayReadBatchBytes := 1024 * 1024]> out in
      let out := <[RelayQuicRecvBatchBytes := 1024 * 1024]> out in
      let out := <[RelayWorkerEventBudget := 4096]> out in
      let out := <[RelayEventQueueCapacity := 4096]> out in
      <[RelayWorkerByteBudgetPerTick := 64 * 1024 * 1024]> out in
  let relayMemoryBytes :=
    ClampU64 autoBudgetBytes kAutoRelayBudgetMinBytes kAutoRelayBudgetMaxBytes in
  let targetPendingBytes := ComputeTargetPendingPerTunnelBytes out in
  let out := <[RelayGlobalPendingBytes := relayMemoryBytes / 2]> out in
  let out := <[RelayPerTunnelPendingBytes := targetPendingBytes]> out in
  let out := <[MaxPendingBufferBytesPerRelay :=
                 Z.max (out RelayPerTunnelPendingBytes)
                   (out RelayGlobalPendingBytes / Z.max (out RelayWorkerCount) 1)]> out in
  SyncLinuxRelayLegacyFields out.

Definition mode_defaults (mode : TqTuningMode) (out : TqTuningConfig) : TqTuningConfig :=
  match mode with
  | Lan => ApplyLanDefaults out
  | Wan => ApplyWanDefaults out
  | Auto => ApplyWanDefaults out
  end.

Definition relay_budget (h : Host) (cfg : TqConfig) (out : TqTuningConfig) : Z :=
  if 0 <? MaxMemoryMb cfg then u64 (MaxMemoryMb cfg * MiB)
  else ComputeAutomaticRelayBudgetBytes h out.

(** The validation profile's floors, at the end of [TqComputeTuning]. *)
Definition validation_floors (out : TqTuningConfig) : TqTuningConfig :=
  let out := <[StreamRecvWindow := TqValidationFlowWindowBytes]> out in
  let out := <[ConnFlowControlWindow := TqValidationFlowWindowBytes]> out in
  let out := <[InitialQuicReadAheadBytes :=
    Z.max (out InitialQuicReadAheadBytes) TqValidationInitialIdealSendFallbackBytes]> out in
  let out := <[MaxPendingBufferBytesPerRelay :=
    Z.max (out MaxPendingBufferBytesPerRelay) TqValidationRelaySendBufferCapBytes]> out in
  let out := <[RelayPerTunnelPendingBytes :=
    Z.max (out RelayPerTunnelPendingBytes) TqValidationRelaySendBufferCapBytes]> out in
  <[RelayWorkerByteBudgetPerTick :=
    Z.max (out RelayWorkerByteBudgetPerTick) TqValidationInitialIdealSendFallbackBytes]> out.

(** [TqComputeTuning(cfg, out)]: the new [out] and the value stored by
    [TqSetRelayMemoryBudget]. *)
Definition TqComputeTuning (h : Host) (cfg : TqConfig) (out : TqTuningConfig) :
    TqTuningConfig * Z :=
  let out := mode_defaults (TuningMode cfg) out in
  let out := ApplyCustomOverrides cfg out in
  let budgetBytes := relay_budget h cfg out in
  let budgetMb := BytesToMbRoundUp budgetBytes in
  let out := TqApplyLinuxRelayDefaults h (TuningMode cfg) budgetBytes out in
  let out := ApplyHighBdpPipelineScaling out in
  let out := ApplyCustomOverrides cfg out in
  let out := validation_floors out in
  (SyncLinuxRelayLegacyFields out, budgetMb).

(** ** Dividing the budget among active relays *)

(** [g_TqRelayMemoryBudgetMb], [g_TqActiveRelays] and the read-ahead globals. *)
Record globals := {
  g_TqRelayMemoryBudgetMb : Z;
  g_TqActiveRelays : Z;
  g_TqQuicReadAheadInitialBytes : Z;
  g_TqQuicReadAheadBytes : Z;
}.

Definition set_active (g : globals) (n : Z) : globals :=
  {| g_TqRelayMemoryBudgetMb := g_TqRelayMemoryBudgetMb g; g_TqActiveRelays := n;
     g_TqQuicReadAheadInitialBytes := g_TqQuicReadAheadInitialBytes g;
     g_TqQuicReadAheadBytes := g_TqQuicReadAheadBytes g |}.

Definition TqSetRelayMemoryBudget (maxMemoryMb : Z) (g : globals) : globals :=
  {| g_TqRelayMemoryBudgetMb := maxMemoryMb; g_TqActiveRelays := g_TqActiveRelays g;
     g_TqQuicReadAheadInitialBytes := g_TqQuicReadAheadInitialBytes g;
     g_TqQuicReadAheadBytes := g_TqQuicReadAheadBytes g |}.

Definition TqRelayRegisterActive (g : globals) : Z * globals :=
  (u32 (g_TqActiveRelays g + 1), set_active g (u32 (g_TqActiveRelays g + 1))).

(** One turn of the loop: [prev] is the value last read, and the exchange may fail
    spuriously.  [None] is the return, [Some] the value the next turn starts from. *)
Definition TqRelayUnregisterActive_turn (spurious : bool) (prev : Z) (g : globals) :
    option Z * globals :=
  if 0 <? prev then
    if (g_TqActiveRelays g =? prev) && negb spurious
    then (None, set_active g (u32 (prev - 1)))
    else (Some (g_TqActiveRelays g), g)
  else (None, g).

Definition TqApplyRelayPoolBudget (g : globals) (activeRelays : Z) (tuning : TqTuningConfig) :
    TqTuningConfig :=
  let budgetMb := g_TqRelayMemoryBudgetMb g in
  if (budgetMb =? 0) || (activeRelays =? 0) || (tuning RelayIoSize =? 0) then tuning
  else
    let perTunnelBytes := u64 (budgetMb * MiB) / activeRelays in
    let maxContexts :=
      ClampU32 (perTunnelBytes / tuning RelayIoSize) 1 (tuning RelayMaxInFlightSends) in
    let tuning := <[RelayMaxFreeSendContexts := maxContexts]> tuning in
    let tuning := <[RelayMaxInFlightSends :=
                      Z.min (tuning RelayMaxInFlightSends) maxContexts]> tuning in
    let poolBytes := u64 (tuning RelayIoSize * maxContexts) in
    let cappedIdeal := Z.min perTunnelBytes poolBytes in
    if cappedIdeal <? tuning RelayDefaultIdealSend
    then <[RelayDefaultIdealSend := cappedIdeal]> tuning
    else tuning.

(** ** Read-ahead *)

Definition TqRelayResetQuicReadAhead (initialBytes : Z) (g : globals) : globals :=
  let effectiveInitial := Z.max initialBytes 1 in
  {| g_TqRelayMemoryBudgetMb := g_TqRelayMemoryBudgetMb g;
     g_TqActiveRelays := g_TqActiveRelays g;
     g_TqQuicReadAheadInitialBytes := effectiveInitial;
     g_TqQuicReadAheadBytes := effectiveInitial |}.

(** [doubledBdp] is the integer part of the [long double] the platform computes for twice the
    bandwidth-delay product: its precision differs between compilers. *)
Definition TqRelayUpdateQuicReadAheadFromNetworkStats (doubledBdp : Z -> Z -> Z)
    (bandwidthBytesPerSecond smoothedRttUs : Z) (g : globals) : globals :=
  if (bandwidthBytesPerSecond =? 0) || (smoothedRttUs =? 0) then g
  else
    let bdp := doubledBdp bandwidthBytesPerSecond smoothedRttUs in
    let targetBytes := if UINT64_MAX <? bdp then UINT64_MAX else bdp in
    {| g_TqRelayMemoryBudgetMb := g_TqRelayMemoryBudgetMb g;
       g_TqActiveRelays := g_TqActiveRelays g;
       g_TqQuicReadAheadInitialBytes := g_TqQuicReadAheadInitialBytes g;
       g_TqQuicReadAheadBytes := Z.max targetBytes (g_TqQuicReadAheadInitialBytes g) |}.

(** ** Run-time observations *)

Record TqRuntimeObservations := {
  MeasuredRttMs : Z;
  ThroughputMbps : Z;
  IdealSendBytes : Z;
  SampleCount : Z;
  HasRtt : bool;
  HasThroughput : bool;
  HasIdealSend : bool;
}.

Record TqCompressionObservations := {
  RatioPermille : Z;
  CompSampleCount : Z;
  HasSample : bool;
}.

(** [g_Runtime] without its mutex: every operation below is one critical section. *)
Record TqRuntimeState := {
  Obs : TqRuntimeObservations;
  CompObs : TqCompressionObservations;
  LastLogUnixMs : Z;
}.

Definition no_observations : TqRuntimeObservations :=
  {| MeasuredRttMs := 0; ThroughputMbps := 0; IdealSendBytes := 0; SampleCount := 0;
     HasRtt := false; HasThroughput := false; HasIdealSend := false |}.
Definition no_compression : TqCompressionObservations :=
  {| RatioPermille := 0; CompSampleCount := 0; HasSample := false |}.

Definition TqUpdateEmaU32 (current sample : Z) (hasValue : bool) : Z :=
  if negb hasValue || (current =? 0) then sample else u32 (current * 7 + sample) / 8.

(** The line is printed when it returns [true]; [nowMs] is the system clock. *)
Definition TqMaybeLogRuntimeObservationsLocked (nowMs : Z) (s : TqRuntimeState) :
    bool * TqRuntimeState :=
  if (SampleCount (Obs s) =? 0) && negb (HasSample (CompObs s)) then (false, s)
  else if negb (LastLogUnixMs s =? 0) && (u64 (nowMs - LastLogUnixMs s) <? 30000)
  then (false, s)
  else (true, {| Obs := Obs s; CompObs := CompObs s; LastLogUnixMs := nowMs |}).

Definition set_obs (s : TqRuntimeState) (o : TqRuntimeObservations) : TqRuntimeState :=
  {| Obs := o; CompObs := CompObs s; LastLogUnixMs := LastLogUnixMs s |}.

Definition TqRecordMeasuredRtt (nowMs rttMs : Z) (s : TqRuntimeState) : TqRuntimeState :=
  if rttMs =? 0 then s
  else
    let o := Obs s in
    let s := set_obs s
      {| MeasuredRttMs := TqUpdateEmaU32 (MeasuredRttMs o) rttMs (HasRtt o);
         ThroughputMbps := ThroughputMbps o; IdealSendBytes := IdealSendBytes o;
         SampleCount := u64 (SampleCount o + 1); HasRtt := true;
         HasThroughput := HasThroughput o; HasIdealSend := HasIdealSend o |} in
    (TqMaybeLogRuntimeObservationsLocked nowMs s).2.

Definition TqRecordIdealSendHint (nowMs idealSendBytes : Z) (s : TqRuntimeState) :
    TqRuntimeState :=
  if idealSendBytes =? 0 then s
  else
    let o := Obs s in
    let s := set_obs s
      {| MeasuredRttMs := MeasuredRttMs o; ThroughputMbps := ThroughputMbps o;
         IdealSendBytes :=
           if negb (HasIdealSend o) || (IdealSendBytes o <? idealSendBytes)
           then idealSendBytes else IdealSendBytes o;
         SampleCount := u64 (SampleCount o + 1); HasRtt := HasRtt o;
         HasThroughput := HasThroughput o; HasIdealSend := true |} in
    (TqMaybeLogRuntimeObservationsLocked nowMs s).2.

(** The throughput section of [TqRecordRelayThroughput]; the hint is recorded in a second
    critical section. *)
Definition record_throughput (mbps : Z) (s : TqRuntimeState) : TqRuntimeState :=
  let o := Obs s in
  set_obs s
    {| MeasuredRttMs := MeasuredRttMs o;
       ThroughputMbps := TqUpdateEmaU32 (ThroughputMbps o) mbps (HasThroughput o);
       IdealSendBytes := IdealSendBytes o; SampleCount := u64 (SampleCount o + 1);
       HasRtt := HasRtt o; HasThroughput := true; HasIdealSend := HasIdealSend o |}.

Definition throughput_mbps (bytesSent elapsedMs : Z) : Z :=
  let bits := u64 (bytesSent * 8) in
  u32 (u64 (bits * 1000) / u64 (elapsedMs * 1000000)).

Definition TqRecordRelayThroughput (nowMs bytesSent elapsedMs idealSendBytes : Z)
    (s : TqRuntimeState) : TqRuntimeState :=
  if (bytesSent =? 0) || (elapsedMs <? 100) then s
  else
    let mbps := throughput_mbps bytesSent elapsedMs in
    if mbps =? 0 then s
    else
      let s := record_throughput mbps s in
      if 0 <? idealSendBytes then TqRecordIdealSendHint nowMs idealSendBytes s else s.

Definition TqRecordCompressionSample (nowMs rawBytes compressedBytes : Z) (s : TqRuntimeState) :
    TqRuntimeState :=
  if (rawBytes <? 4096) || (compressedBytes =? 0) then s
  else
    let samplePermille := u32 (Z.min (u64 (compressedBytes * 1000) / rawBytes) 2000) in
    let c := CompObs s in
    let s := {| Obs := Obs s;
                CompObs :=
                  {| RatioPermille := TqUpdateEmaU32 (RatioPermille c) samplePermille (HasSample c);
                     CompSampleCount := u64 (CompSampleCount c + 1); HasSample := true |};
                LastLogUnixMs := LastLogUnixMs s |} in
    (TqMaybeLogRuntimeObservationsLocked nowMs s).2.

Definition TqResetRuntimeObservations (s : TqRuntimeState) : TqRuntimeState :=
  {| Obs := no_observations; CompObs := no_compression; LastLogUnixMs := 0 |}.

Definition TqResetCompressionObservations (s : TqRuntimeState) : TqRuntimeState :=
  {| Obs := Obs s; CompObs := no_compression; LastLogUnixMs := LastLogUnixMs s |}.

Definition TqRuntimeTuningEnabled (cfg : TqConfig) : bool := negb (is_lan (TuningMode cfg)).

(** [TqApplyRuntimeObservations]: the new [cfg.Tuning]. *)
Definition TqApplyRuntimeObservations (s : TqRuntimeState) (cfg : TqConfig) : TqTuningConfig :=
  let t := Tuning cfg in
  let obs := Obs s in
  if negb (TqRuntimeTuningEnabled cfg) then t
  else if SampleCount obs =? 0 then t
  else
    let profile := t in
    let t :=
      if HasRtt obs && (TuningOverrideQuicInitRttMs cfg =? 0)
      then <[InitialRttMs := ClampU32 (MeasuredRttMs obs) 1 60000]> t else t in
    let t :=
      if HasIdealSend obs && (IdealSendBytes obs <? t RelayDefaultIdealSend) then
        let t := <[RelayDefaultIdealSend := IdealSendBytes obs]> t in
        if 0 <? t RelayIoSize then
          let maxContexts :=
            ClampU32 (u64 (IdealSendBytes obs + t RelayIoSize - 1) / t RelayIoSize) 1
              (profile RelayMaxInFlightSends) in
          let t := <[RelayMaxInFlightSends := Z.min (t RelayMaxInFlightSends) maxContexts]> t in
          <[RelayMaxFreeSendContexts := Z.min (t RelayMaxFreeSendContexts) maxContexts]> t
        else t
      else t in
    let t := <[StreamRecvWindow := TqValidationFlowWindowBytes]> t in
    <[ConnFlowControlWindow := TqValidationFlowWindowBytes]> t.

(** ** Adaptive compression *)

Definition kCompressRatioOffPermille : Z := 980.

Definition TqModeFromRatioPermille (ratioPermille : Z) : bytes :=
  if kCompressRatioOffPermille <=? ratioPermille then str "off" else str "zstd".

Definition TqCompressionAdaptiveEnabled (cfg : TqConfig) : bool :=
  bool_decide (Compress cfg = str "auto").

Definition TqResolveAutoCompress (s : TqRuntimeState) (cfg : TqConfig) : bytes :=
  if negb (bool_decide (Compress cfg = str "auto")) then Compress cfg
  else
    let obs := CompObs s in
    if negb (HasSample obs) || (CompSampleCount obs =? 0) then str "off"
    else TqModeFromRatioPermille (RatioPermille obs).

(** ** Lemmas *)

#[global] Arguments override : simpl never.

Definition pick (o v d : Z) : Z := if 0 <? o then v else d.

Lemma override_lookup o f v out g :
  override o f v out g = pick (if decide (f = g) then o else 0) v (out g).
Proof.
  unfold override, pick, insert, fn_insert.
  destruct (decide (f = g)) as [->|]; simpl; destruct (0 <? o); try done.
  - by destruct (decide (g = g)).
  - by destruct (decide (f = g)).
Qed.

(** What the overrides leave in each field. *)
Lemma ApplyCustomOverrides_lookup cfg out f :
  ApplyCustomOverrides cfg out f =
  match f with
  | TerminalWatchdogSeconds =>
      let o := TuningOverrideTerminalWatchdogSeconds cfg in pick o o (out f)
  | RelayIoSize => let o := TuningOverrideRelayIoSize cfg in pick o o (out f)
  | RelayReadChunkSize =>
      let o := TuningOverrideRelayReadChunkSize cfg in
      let o' := TuningOverrideLinuxRelayReadChunkSize cfg in pick o o (pick o' o' (out f))
  | RelayTcpWriteMaxBytes =>
      let o := TuningOverrideRelayTcpWriteMaxBytes cfg in
      let o' := TuningOverrideLinuxRelayTcpWriteMaxBytes cfg in pick o o (pick o' o' (out f))
  | RelayTcpWriteBurstBytes =>
      let o := TuningOverrideRelayTcpWriteBurstBytes cfg in
      let o' := TuningOverrideLinuxRelayTcpWriteBurstBytes cfg in pick o o (pick o' o' (out f))
  | RelayEventQueueCapacity =>
      let o := TuningOverrideRelayEventQueueCapacity cfg in
      let o' := TuningOverrideLinuxRelayEventQueueCapacity cfg in
      pick o (TqNormalizeLinuxRelayEventQueueCapacity o)
        (pick o' (TqNormalizeLinuxRelayEventQueueCapacity o') (out f))
  | RelayWorkerCount =>
      let o := TuningOverrideRelayWorkerCount cfg in
      let o' := TuningOverrideLinuxRelayWorkerCount cfg in
      pick o (TqNormalizeRelayWorkerCount o) (pick o' (TqNormalizeRelayWorkerCount o') (out f))
  | WindowsRelayWorkerCount =>
      let o := TuningOverrideWindowsRelayWorkerCount cfg in
      pick o (TqNormalizeRelayWorkerCount o) (out f)
  | InitialWindowPackets => let o := TuningOverrideQuicIw cfg in pick o o (out f)
  | InitialRttMs => let o := TuningOverrideQuicInitRttMs cfg in pick o o (out f)
  | _ => out f
  end.
Proof. unfold ApplyCustomOverrides. rewrite !override_lookup. by destruct f. Qed.

(** The generic field a legacy field copies. *)
Definition legacy_of (f : field) : option field :=
  match f with
  | LinuxRelayWorkerCount => Some RelayWorkerCount
  | LinuxRelayMaxIov => Some RelayMaxIov
  | LinuxRelayReadChunkSize => Some RelayReadChunkSize
  | LinuxRelayReadBatchBytes => Some RelayReadBatchBytes
  | LinuxRelayQuicRecvBatchBytes => Some RelayQuicRecvBatchBytes
  | LinuxRelayTcpWriteMaxBytes => Some RelayTcpWriteMaxBytes
  | LinuxRelayTcpWriteBurstBytes => Some RelayTcpWriteBurstBytes
  | LinuxRelayGlobalPendingBytes => Some RelayGlobalPendingBytes
  | LinuxRelayPerTunnelPendingBytes => Some RelayPerTunnelPendingBytes
  | LinuxRelayWorkerEventBudget => Some RelayWorkerEventBudget
  | LinuxRelayEventQueueCapacity => Some RelayEventQueueCapacity
  | LinuxRelayWorkerByteBudgetPerTick => Some RelayWorkerByteBudgetPerTick
  | LinuxRelayQuicReceiveCompleteBatchBytes => Some RelayQuicReceiveCompleteBatchBytes
  | _ => None
  end.

Lemma Sync_lookup out f :
  SyncLinuxRelayLegacyFields out f = match legacy_of f with Some g => out g | None => out f end.
Proof. by destruct f. Qed.

(** The workers, chunk sizes and event budgets of a mode. *)
Definition relay_profile (h : Host) (mode : TqTuningMode) (budget ideal : Z) (f : field) :
    option Z :=
  let lan := is_lan mode in
  let global := ClampU64 budget kAutoRelayBudgetMinBytes kAutoRelayBudgetMaxBytes / 2 in
  let target := ClampU64 ideal kRelayPerTunnelTargetMinBytes kRelayPerTunnelTargetMaxBytes in
  let workers := TqDetectRelayWorkers h in
  match f with
  | RelayWorkerCount | WindowsRelayWorkerCount => Some workers
  | RelayMaxIov => Some (if lan then 8 else 16)
  | RelayReadChunkSize => Some (128 * 1024)
  | RelayReadBatchBytes | RelayQuicRecvBatchBytes =>
      Some (if lan then 256 * 1024 else 1024 * 1024)
  | RelayWorkerEventBudget => Some (if lan then 1024 else 4096)
  | RelayEventQueueCapacity => Some 4096
  | RelayWorkerByteBudgetPerTick => Some (if lan then 16 * 1024 * 1024 else 64 * 1024 * 1024)
  | RelayGlobalPendingBytes => Some global
  | RelayPerTunnelPendingBytes => Some target
  | MaxPendingBufferBytesPerRelay => Some (Z.max target (global / Z.max workers 1))
  | _ => None
  end.

Lemma RelayDefaults_lookup h mode budget out f :
  legacy_of f = None ->
  TqApplyLinuxRelayDefaults h mode budget out f =
  default (out f) (relay_profile h mode budget (out RelayDefaultIdealSend) f).
Proof.
  intros Hl. unfold TqApplyLinuxRelayDefaults. rewrite Sync_lookup, Hl.
  unfold relay_profile, ComputeTargetPendingPerTunnelBytes.
  destruct (is_lan mode); by destruct f.
Qed.

Lemma HighBdp_lookup out f :
  ApplyHighBdpPipelineScaling out f =
  if out RelayDefaultIdealSend <? kHighBdpThreshold then out f
  else
    let pending := Z.min (out RelayDefaultIdealSend) (512 * 1024 * 1024) in
    let tcpBuf := Z.min (pending / 4) (64 * 1024 * 1024) in
    match f with
    | RelayPerTunnelPendingBytes => pending
    | MaxPendingBufferBytesPerRelay =>
        Z.max pending (out RelayGlobalPendingBytes / Z.max (out RelayWorkerCount) 1)
    | RelayWorkerByteBudgetPerTick => Z.min pending (512 * 1024 * 1024)
    | InitialQuicReadAheadBytes => Z.max (out f) pending
    | RelayReadBatchBytes | RelayQuicRecvBatchBytes => Z.max (out f) (4 * 1024 * 1024)
    | RelayMaxIov => Z.max (out f) 32
    | TcpSocketBufferBytes =>
        if u64 (out f) <? tcpBuf then Z.max tcpBuf (16 * 1024 * 1024) else out f
    | _ => out f
    end.
Proof.
  unfold ApplyHighBdpPipelineScaling. destruct (_ <? kHighBdpThreshold); [done|].
  cbv zeta.
  match goal with |- (if ?b then _ else _) _ = _ =>
    change b with (u64 (out TcpSocketBufferBytes) <?
      Z.min (Z.min (out RelayDefaultIdealSend) (512 * 1024 * 1024) / 4) (64 * 1024 * 1024))
  end.
  destruct (u64 _ <? _) eqn:Hb; destruct f; try reflexivity; by rewrite Hb.
Qed.

Lemma floors_lookup out f :
  validation_floors out f =
  match f with
  | StreamRecvWindow | ConnFlowControlWindow => TqValidationFlowWindowBytes
  | InitialQuicReadAheadBytes => Z.max (out f) TqValidationInitialIdealSendFallbackBytes
  | MaxPendingBufferBytesPerRelay | RelayPerTunnelPendingBytes =>
      Z.max (out f) TqValidationRelaySendBufferCapBytes
  | RelayWorkerByteBudgetPerTick => Z.max (out f) TqValidationInitialIdealSendFallbackBytes
  | _ => out f
  end.
Proof. by destruct f. Qed.

(** ** The queue capacity *)

(** Bits [n - w + 1 .. n] of [c] are set and none above. *)
Definition top_run (n w c : Z) : Prop :=
  (forall i, n < i -> Z.testbit c i = false) /\
  (forall i, 0 <= i -> n - w < i <= n -> Z.testbit c i = true).

Lemma smear_run n w k c : 0 <= k <= w -> top_run n w c -> top_run n (w + k) (smear k c).
Proof.
  intros Hk [Hhi Hrun]. unfold smear.
  split; intros i Hi; [|intros Hn].
  - destruct (Z.neg_nonneg_cases i); [by apply Z.testbit_neg_r|].
    by rewrite Z.lor_spec, Z.shiftr_spec, !Hhi by lia.
  - rewrite Z.lor_spec, Z.shiftr_spec by lia.
    destruct (Z.lt_ge_cases (n - w) i); [by rewrite (Hrun i) by lia|].
    rewrite (Hrun (i + k)) by lia. apply orb_true_r.
Qed.

(** Smearing the bits of a 32-bit value sets every bit below its highest one. *)
Lemma smear_all c :
  0 < c < 2 ^ 32 ->
  smear 16 (smear 8 (smear 4 (smear 2 (smear 1 c)))) = 2 ^ (Z.log2 c + 1) - 1.
Proof.
  intros Hc. pose proof (Z.log2_nonneg c).
  assert (Hn : Z.log2 c < 32) by (apply Z.log2_lt_pow2; lia).
  assert (H1 : top_run (Z.log2 c) 1 c).
  { split; [intros; apply Z.bits_above_log2; lia|].
    intros i _ Hi. replace i with (Z.log2 c) by lia. apply Z.bit_log2; lia. }
  apply (smear_run _ _ 1) in H1; [|lia]. apply (smear_run _ _ 2) in H1; [|lia].
  apply (smear_run _ _ 4) in H1; [|lia]. apply (smear_run _ _ 8) in H1; [|lia].
  apply (smear_run _ _ 16) in H1 as [Hhi Hrun]; [|lia].
  rewrite Z.sub_1_r, <- Z.ones_equiv. apply Z.bits_inj'. intros i Hi.
  destruct (Z.lt_ge_cases i (Z.log2 c + 1)).
  - rewrite Z.ones_spec_low by lia. apply Hrun; lia.
  - rewrite Z.ones_spec_high by lia. apply Hhi. lia.
Qed.

(** The capacity is the least power of two in range that is not below the request. *)
Lemma capacity_spec c :
  is_u32 c ->
  exists k, TqNormalizeLinuxRelayEventQueueCapacity c = 2 ^ k /\ 10 <= k <= 20 /\
    Z.min c (2 ^ 20) <= 2 ^ k /\ 2 ^ k < 2 * Z.max c (2 ^ 10).
Proof.
  unfold is_u32, TqNormalizeLinuxRelayEventQueueCapacity, TqLinuxRelayEventQueueCapacityMin,
    TqLinuxRelayEventQueueCapacityMax. intros Hc.
  destruct (Z.leb_spec c 1024); [by exists 10; lia|].
  destruct (Z.leb_spec 1048576 c); [by exists 20; lia|].
  rewrite (u32_small (c - 1)) by widths. rewrite smear_all by lia.
  set (n := Z.log2 (c - 1)).
  destruct (Z.log2_spec (c - 1)) as [Hlo Hhi]; [lia|]. fold n in Hlo, Hhi.
  rewrite <- Z.add_1_r in Hhi.
  assert (Hn : 10 <= n < 20).
  { split; [apply Z.log2_le_pow2; lia|apply Z.log2_lt_pow2; lia]. }
  assert (2 ^ (n + 1) <= 2 ^ 20) by (apply Z.pow_le_mono_r; lia).
  assert (Hdbl : 2 ^ (n + 1) = 2 * 2 ^ n) by (rewrite Z.pow_add_r by lia; lia).
  exists (n + 1). rewrite Z.sub_add, u32_small by widths. lia.
Qed.

(** ** The profile in closed form *)

Definition detected_budget (h : Host) (cfg : TqConfig) : Z :=
  if 0 <? MaxMemoryMb cfg then MaxMemoryMb cfg * MiB
  else Z.max (ComputeSystemSoftLimitBytes h) (512 * MiB).

(** What [TqComputeTuning] leaves in the fields that are not legacy copies: a value of the
    mode, replaced by the configuration's override; the generic override wins over the Linux
    one.  The last line lists by omission the fields that keep what they held. *)
Definition tuning_profile (h : Host) (cfg : TqConfig) (out : TqTuningConfig) (f : field) : Z :=
  let by_mode := fun lan wan => if is_lan (TuningMode cfg) then lan else wan in
  let one := fun o d => pick o o d in
  let global :=
    ClampU64 (detected_budget h cfg) kAutoRelayBudgetMinBytes kAutoRelayBudgetMaxBytes / 2 in
  match f with
  | TerminalWatchdogSeconds => one (TuningOverrideTerminalWatchdogSeconds cfg) (out f)
  | StreamRecvWindow | ConnFlowControlWindow => 2 ^ 31
  | InitialWindowPackets => one (TuningOverrideQuicIw cfg) (by_mode 256 2000)
  | InitialRttMs => one (TuningOverrideQuicInitRttMs cfg) (by_mode 10 100)
  | RelayIoSize => one (TuningOverrideRelayIoSize cfg) (by_mode (256 * KiB) MiB)
  | RelayCompressIoSize => by_mode (64 * KiB) (256 * KiB)
  | RelayDefaultIdealSend => by_mode (4 * MiB) (64 * MiB)
  | RelayMaxInFlightSends | RelayMaxFreeSendContexts => by_mode 16 64
  | TcpSocketBufferBytes => by_mode MiB (16 * MiB)
  | RelayWorkerCount =>
      let o := TuningOverrideRelayWorkerCount cfg in
      let o' := TuningOverrideLinuxRelayWorkerCount cfg in
      pick o (TqNormalizeRelayWorkerCount o)
        (pick o' (TqNormalizeRelayWorkerCount o') (TqDetectRelayWorkers h))
  | WindowsRelayWorkerCount =>
      let o := TuningOverrideWindowsRelayWorkerCount cfg in
      pick o (TqNormalizeRelayWorkerCount o) (TqDetectRelayWorkers h)
  | RelayMaxIov => by_mode 8 32
  | RelayReadChunkSize =>
      one (TuningOverrideRelayReadChunkSize cfg)
        (one (TuningOverrideLinuxRelayReadChunkSize cfg) (128 * KiB))
  | RelayReadBatchBytes | RelayQuicRecvBatchBytes => by_mode (256 * KiB) (4 * MiB)
  | RelayTcpWriteMaxBytes =>
      one (TuningOverrideRelayTcpWriteMaxBytes cfg)
        (one (TuningOverrideLinuxRelayTcpWriteMaxBytes cfg) (out f))
  | RelayTcpWriteBurstBytes =>
      one (TuningOverrideRelayTcpWriteBurstBytes cfg)
        (one (TuningOverrideLinuxRelayTcpWriteBurstBytes cfg) (out f))
  | RelayGlobalPendingBytes => global
  | RelayPerTunnelPendingBytes => 512 * MiB
  | MaxPendingBufferBytesPerRelay => Z.max (512 * MiB) (global / TqDetectRelayWorkers h)
  | RelayWorkerEventBudget => by_mode 1024 4096
  | RelayEventQueueCapacity =>
      let o := TuningOverrideRelayEventQueueCapacity cfg in
      let o' := TuningOverrideLinuxRelayEventQueueCapacity cfg in
      pick o (TqNormalizeLinuxRelayEventQueueCapacity o)
        (pick o' (TqNormalizeLinuxRelayEventQueueCapacity o') 4096)
  | RelayWorkerByteBudgetPerTick => 128 * MiB
  | InitialQuicReadAheadBytes => Z.max (out f) (128 * MiB)
  | _ => out f
  end.

Lemma workers_bounds h : is_u32 (hardware_concurrency h) -> 1 <= TqDetectRelayWorkers h <= 8.
Proof.
  unfold TqDetectRelayWorkers, TqRelayWorkerCountMin, TqRelayWorkerCountMax.
  intros. destruct (_ =? 0); widths.
Qed.

Lemma normalized_workers o : is_u32 o -> 1 <= TqNormalizeRelayWorkerCount o <= 8.
Proof. unfold TqNormalizeRelayWorkerCount, TqRelayWorkerCountMin, TqRelayWorkerCountMax. lia. Qed.

Lemma soft_limit_bounds h : 256 * MiB <= ComputeSystemSoftLimitBytes h <= 8 * 1024 * MiB.
Proof.
  unfold ComputeSystemSoftLimitBytes, ClampU64, kAutoRelayBudgetFallbackBytes,
    kAutoRelayBudgetMinBytes, kAutoRelayBudgetMaxBytes, MiB, KiB.
  destruct (_ =? 0); lia.
Qed.

Lemma pick_idem o v o' v' d : pick o v (pick o' v' (pick o v (pick o' v' d))) = pick o v (pick o' v' d).
Proof. unfold pick. destruct (0 <? o), (0 <? o'); done. Qed.
Lemma pick_idem1 o v d : pick o v (pick o v d) = pick o v d.
Proof. unfold pick. destruct (0 <? o); done. Qed.

Lemma relay_budget_eq h cfg out :
  is_u32 (MaxMemoryMb cfg) -> relay_budget h cfg out = detected_budget h cfg.
Proof.
  intros Hm. unfold relay_budget, detected_budget. destruct (0 <? MaxMemoryMb cfg).
  - apply u64_small. unfold MiB, KiB. widths.
  - unfold ComputeAutomaticRelayBudgetBytes, ComputeTargetPendingPerTunnelBytes, ClampU64.
    pose proof (soft_limit_bounds h).
    unfold kAutoRelayBudgetFallbackBytes, kAutoRelayBudgetMinBytes, kAutoRelayBudgetMaxBytes,
      kRelayPerTunnelTargetMinBytes, kRelayPerTunnelTargetMaxBytes, MiB, KiB in *. lia.
Qed.

Lemma budget_mb_eq h cfg :
  is_u32 (MaxMemoryMb cfg) ->
  BytesToMbRoundUp (detected_budget h cfg) =
  pick (MaxMemoryMb cfg) (MaxMemoryMb cfg) ((detected_budget h cfg + MiB - 1) / MiB) /\
  (MaxMemoryMb cfg = 0 -> 512 <= BytesToMbRoundUp (detected_budget h cfg) <= 8192).
Proof.
  intros Hm. unfold detected_budget, BytesToMbRoundUp, ClampU32, ClampU64, UINT32_MAX, pick.
  pose proof (soft_limit_bounds h) as Hs.
  destruct (0 <? MaxMemoryMb cfg) eqn:Hp; to_prop.
  - split; [|lia]. rewrite u64_small by (unfold MiB, KiB in *; widths).
    replace ((MaxMemoryMb cfg * MiB + MiB - 1) / MiB) with (MaxMemoryMb cfg)
      by (unfold MiB, KiB in *; dlia).
    rewrite u32_small by widths. widths.
  - set (b := Z.max (ComputeSystemSoftLimitBytes h) _). assert (512 * MiB <= b <= 8192 * MiB) by (unfold b, MiB, KiB in *; lia).
    rewrite u64_small by (unfold MiB, KiB in *; widths).
    assert (512 <= (b + MiB - 1) / MiB <= 8192) by (unfold MiB, KiB in *; dlia).
    rewrite u32_small by widths. lia.
Qed.

Lemma mode_defaults_ideal mode out :
  mode_defaults mode out RelayDefaultIdealSend = if is_lan mode then 4 * MiB else 64 * MiB.
Proof. by destruct mode. Qed.

Lemma ideal_test mode :
  ((if is_lan mode then 4 * MiB else 64 * MiB) <? kHighBdpThreshold) =
  is_lan mode.
Proof. by destruct mode. Qed.

(** [TqComputeTuning] is the closed form; the legacy fields copy the generic ones. *)
Lemma computed_field h cfg out f :
  host_ok h -> is_u32 (MaxMemoryMb cfg) ->
  (TqComputeTuning h cfg out).1 f =
  tuning_profile h cfg out (default f (legacy_of f)).
Proof.
  intros Hh Hm. pose proof (workers_bounds h (proj2 (proj2 Hh))) as Hw.
  unfold TqComputeTuning. cbn [fst]. rewrite Sync_lookup.
  rewrite (relay_budget_eq _ _ _ Hm).
  set (budget := detected_budget h cfg).
  assert (Hdef : match legacy_of f with
                 | Some g => legacy_of g = None | None => legacy_of f = None end) by (by destruct f).
  transitivity (validation_floors (ApplyCustomOverrides cfg (ApplyHighBdpPipelineScaling
    (TqApplyLinuxRelayDefaults h (TuningMode cfg) budget
      (ApplyCustomOverrides cfg (mode_defaults (TuningMode cfg) out))))) (default f (legacy_of f))).
  { by destruct (legacy_of f). }
  assert (Hg : legacy_of (default f (legacy_of f)) = None) by (by destruct f).
  generalize dependent (default f (legacy_of f)). clear f Hdef. intros f Hf.
  destruct f; try discriminate Hf; clear Hf;
    rewrite floors_lookup; cbv beta iota zeta;
    rewrite ?ApplyCustomOverrides_lookup; cbv beta iota zeta;
    rewrite ?HighBdp_lookup; cbv beta iota zeta;
    rewrite ?RelayDefaults_lookup by done; cbn [relay_profile default];
    rewrite ?ApplyCustomOverrides_lookup; cbv beta iota zeta;
    rewrite ?mode_defaults_ideal, ?ideal_test; unfold tuning_profile; cbv beta iota zeta; fold budget;
    destruct (TuningMode cfg); cbn [is_lan];
    rewrite ?pick_idem, ?pick_idem1; try reflexivity.
  all: unfold id; rewrite ?(Z.max_l (TqDetectRelayWorkers h) 1) by lia;
    try change (mode_defaults _ out ?g) with (out g).
  all: cbv [TqValidationInitialIdealSendFallbackBytes TqValidationRelaySendBufferCapBytes
    kRelayPerTunnelTargetMinBytes kRelayPerTunnelTargetMaxBytes MiB KiB] in *;
    first [lia | unfold ClampU64 at 1; lia].
Qed.

Lemma div_bounds a b : 0 <= a -> 1 <= b -> 0 <= a / b <= a.
Proof. intros. split; [apply Z.div_pos; lia|]. apply Z.div_le_upper_bound; nia. Qed.

Lemma pick_bounds o v d lo hi :
  (0 < o -> lo <= v < hi) -> lo <= d < hi -> lo <= pick o v d < hi.
Proof. unfold pick. intros. destruct (0 <? o) eqn:?; to_prop; auto. Qed.

Lemma global_bounds h cfg :
  128 * MiB <= ClampU64 (detected_budget h cfg) kAutoRelayBudgetMinBytes
                 kAutoRelayBudgetMaxBytes / 2 <= 4 * 1024 * MiB.
Proof.
  unfold ClampU64, kAutoRelayBudgetMinBytes, kAutoRelayBudgetMaxBytes, MiB, KiB. dlia.
Qed.

Lemma capacity_bounds c :
  is_u32 c -> 1024 <= TqNormalizeLinuxRelayEventQueueCapacity c < 1048577.
Proof.
  intros Hc. destruct (capacity_spec c Hc) as (k & -> & Hk & _).
  assert (2 ^ 10 <= 2 ^ k <= 2 ^ 20) by (split; apply Z.pow_le_mono_r; lia). lia.
Qed.

(** Every value the profile computes fits the type of its field. *)
Lemma profile_ok h cfg out f :
  host_ok h -> config_ok cfg -> tuning_ok out -> legacy_of f = None ->
  0 <= tuning_profile h cfg out f < field_limit f.
Proof.
  intros Hh Hc Ho Hf. pose proof (workers_bounds h (proj2 (proj2 Hh))) as Hw.
  pose proof (global_bounds h cfg) as Hg. specialize (Ho f).
  set (global := _ / 2) in Hg.
  assert (Hd : 0 <= global / TqDetectRelayWorkers h <= global).
  { apply div_bounds; [|lia]. unfold MiB, KiB in Hg. lia. }
  unfold config_ok in Hc. decompose_Forall_hyps.
  destruct f; try discriminate Hf; unfold tuning_profile; fold global; cbv beta iota zeta;
    repeat (apply pick_bounds; [intros _|]); cbn [field_limit] in Ho |- *;
    try (destruct (is_lan _); done); try (unfold MiB, KiB in *; widths).
  all: match goal with
       | |- context [TqNormalizeRelayWorkerCount ?o] => pose proof (normalized_workers o)
       | |- context [TqNormalizeLinuxRelayEventQueueCapacity ?o] => pose proof (capacity_bounds o)
       end; naive_solver lia.
Qed.

Lemma legacy_idle f : legacy_of (default f (legacy_of f)) = None.
Proof. by destruct f. Qed.

Lemma computed_ok h cfg out :
  host_ok h -> config_ok cfg -> tuning_ok out -> tuning_ok (TqComputeTuning h cfg out).1.
Proof.
  intros Hh Hc Ho f. rewrite computed_field; [|done|by apply (Forall_inv Hc)].
  replace (field_limit f) with (field_limit (default f (legacy_of f))) by (by destruct f).
  apply profile_ok; auto using legacy_idle.
Qed.

(** Computing the profile again changes nothing. *)
Lemma profile_idem h cfg out t f :
  (forall f, t f = tuning_profile h cfg out (default f (legacy_of f))) -> legacy_of f = None ->
  tuning_profile h cfg t f = tuning_profile h cfg out f.
Proof.
  intros Ht Hf. destruct f; try discriminate Hf; try reflexivity;
    unfold tuning_profile at 1; cbv beta iota zeta; rewrite Ht; cbn [legacy_of default];
    unfold tuning_profile; cbv beta iota zeta; rewrite ?pick_idem, ?pick_idem1; try done; lia.
Qed.

Lemma computed_workers h cfg out :
  host_ok h -> config_ok cfg ->
  1 <= (TqComputeTuning h cfg out).1 RelayWorkerCount <= 8 /\
  1 <= (TqComputeTuning h cfg out).1 WindowsRelayWorkerCount <= 8.
Proof.
  intros Hh Hc. pose proof (workers_bounds h (proj2 (proj2 Hh))) as Hw.
  rewrite !computed_field; try done; try by apply (Forall_inv Hc).
  unfold config_ok in Hc. decompose_Forall_hyps. cbn.
  assert (Hn := normalized_workers). unfold pick.
  repeat case_match; naive_solver lia.
Qed.

(** The capacity the profile asks for is the capacity the queue has. *)
Lemma computed_capacity h cfg out :
  host_ok h -> config_ok cfg ->
  let c := (TqComputeTuning h cfg out).1 RelayEventQueueCapacity in
  1024 <= c <= 1048576 /\ Mpmc.NormalizeCapacity c = Some c.
Proof.
  intros Hh Hc. cbv zeta. rewrite computed_field; [|done|by apply (Forall_inv Hc)].
  unfold config_ok in Hc. decompose_Forall_hyps. cbn.
  assert (Hp : forall c, (exists k, c = 2 ^ k /\ 10 <= k <= 20) ->
    1024 <= c <= 1048576 /\ Mpmc.NormalizeCapacity c = Some c).
  { clear. intros c (k & -> & Hk). assert (k ∈ seqZ 10 11) as Hin by (apply elem_of_seqZ; lia).
    clear Hk. cbn in Hin. by repeat (apply elem_of_cons in Hin as [->|Hin]; [by vm_compute|]);
      apply elem_of_nil in Hin. }
  apply Hp. unfold pick. repeat case_match.
  - destruct (capacity_spec (TuningOverrideRelayEventQueueCapacity cfg)) as (k & ? & ? & _);
      [done|by exists k].
  - destruct (capacity_spec (TuningOverrideLinuxRelayEventQueueCapacity cfg)) as (k & ? & ? & _);
      [done|by exists k].
  - by exists 12.
Qed.


(** ** The budget is shared *)

Lemma clamp32_spec v lo hi :
  is_u32 hi -> 0 <= lo -> 0 <= v -> ClampU32 v lo hi = Z.min (Z.max v lo) hi.
Proof. intros. unfold ClampU32, ClampU64. apply u32_small. widths. Qed.

Lemma read_same (t : TqTuningConfig) f v : <[f := v]> t f = v.
Proof. apply fn_lookup_insert. Qed.
Lemma read_other (t : TqTuningConfig) f g v : f <> g -> <[f := v]> t g = t g.
Proof. apply fn_lookup_insert_ne. Qed.

(** Reads fields through assignments to known fields. *)
Ltac read_fields :=
  repeat first [rewrite read_same | rewrite read_other by discriminate].

(** The three fields the pool budget sets. *)
Lemma pool_budget_fields g active t f :
  tuning_ok t -> is_u32 (g_TqRelayMemoryBudgetMb g) -> is_u32 active ->
  0 < g_TqRelayMemoryBudgetMb g -> 0 < active -> 0 < t RelayIoSize ->
  let share := g_TqRelayMemoryBudgetMb g * MiB / active in
  let contexts := Z.min (Z.max (share / t RelayIoSize) 1) (t RelayMaxInFlightSends) in
  TqApplyRelayPoolBudget g active t f =
  match f with
  | RelayMaxFreeSendContexts | RelayMaxInFlightSends => contexts
  | RelayDefaultIdealSend => Z.min (t f) (Z.min share (t RelayIoSize * contexts))
  | _ => t f
  end.
Proof.
  intros Ht Hb Ha Hb0 Ha0 Hi share contexts. unfold TqApplyRelayPoolBudget.
  rewrite (u64_small (g_TqRelayMemoryBudgetMb g * MiB)) by (unfold MiB, KiB in *; widths).
  fold share.
  rewrite !(proj2 (Z.eqb_neq _ _)) by lia. cbn [orb].
  assert (Hs : 0 <= share < 18446744073709551616).
  { pose proof (div_bounds (g_TqRelayMemoryBudgetMb g * MiB) active
      ltac:(unfold MiB, KiB; lia) ltac:(lia)).
    unfold share. unfold MiB, KiB in *. widths. }
  assert (Hq : 0 <= share / t RelayIoSize) by (apply Z.div_pos; lia).
  rewrite clamp32_spec; [|apply Ht|lia|done]. fold contexts. cbv zeta.
  pose proof (Ht RelayMaxInFlightSends) as Hm. cbn in Hm.
  assert (Hp : 0 <= t RelayIoSize * contexts < 18446744073709551616).
  { pose proof (Ht RelayIoSize) as Hio. cbn in Hio.
    assert (0 <= contexts <= Z.max (share / t RelayIoSize) 1) by (unfold contexts; lia).
    pose proof (Z.mul_div_le share (t RelayIoSize) Hi). nia. }
  assert (Hle : contexts <= t RelayMaxInFlightSends) by (unfold contexts; lia).
  clearbody contexts share.
  read_fields.
  rewrite (u64_small (t RelayIoSize * contexts)) by widths.
  destruct (_ <? t RelayDefaultIdealSend) eqn:Hc; to_prop;
    destruct f; read_fields; try done; lia.
Qed.


(** ** Histories of observations *)

Inductive observation :=
| RttSample (nowMs rttMs : Z)
| IdealHint (nowMs idealSendBytes : Z)
| Throughput (nowMs bytesSent elapsedMs idealSendBytes : Z)
| CompressionSample (nowMs rawBytes compressedBytes : Z)
| ResetRuntime
| ResetCompression.

Definition observe (s : TqRuntimeState) (o : observation) : TqRuntimeState :=
  match o with
  | RttSample now rtt => TqRecordMeasuredRtt now rtt s
  | IdealHint now ideal => TqRecordIdealSendHint now ideal s
  | Throughput now b elapsed ideal => TqRecordRelayThroughput now b elapsed ideal s
  | CompressionSample now raw compressed => TqRecordCompressionSample now raw compressed s
  | ResetRuntime => TqResetRuntimeObservations s
  | ResetCompression => TqResetCompressionObservations s
  end.

Definition observed (ops : list observation) : TqRuntimeState :=
  foldl observe {| Obs := no_observations; CompObs := no_compression; LastLogUnixMs := 0 |} ops.

(** The arguments are in their types, and round-trip samples are between [lo] and [hi]
    milliseconds or zero, which is ignored. *)
Definition observation_ok (lo hi : Z) (o : observation) : Prop :=
  match o with
  | RttSample _ rtt => rtt = 0 \/ lo <= rtt <= hi
  | IdealHint _ ideal => is_u64 ideal
  | Throughput _ b elapsed ideal => is_u64 b /\ is_u32 elapsed /\ is_u64 ideal
  | CompressionSample _ raw compressed => is_u64 raw /\ is_u64 compressed
  | ResetRuntime | ResetCompression => True
  end.

(** The hint an operation passes on, and the largest since the last reset. *)
Definition hint_of (o : observation) : Z :=
  match o with
  | IdealHint _ ideal => ideal
  | Throughput _ b elapsed ideal =>
      if (b =? 0) || (elapsed <? 100) || (throughput_mbps b elapsed =? 0) then 0 else ideal
  | _ => 0
  end.

Definition best_hint (ops : list observation) : Z :=
  foldl (fun best o => match o with ResetRuntime => 0 | _ => Z.max best (hint_of o) end) 0 ops.

Record observed_inv (lo hi best : Z) (s : TqRuntimeState) : Prop := {
  oi_rtt : if HasRtt (Obs s) then lo <= MeasuredRttMs (Obs s) <= hi else MeasuredRttMs (Obs s) = 0;
  oi_ideal : IdealSendBytes (Obs s) = best /\ HasIdealSend (Obs s) = (0 <? best) /\ is_u64 best;
  oi_ratio : 0 <= RatioPermille (CompObs s) <= 2000;
}.

Lemma ema_between c x has lo hi :
  0 <= lo -> hi < 536870912 -> lo <= x <= hi -> (has = true -> lo <= c <= hi) ->
  lo <= TqUpdateEmaU32 c x has <= hi.
Proof.
  intros Hlo Hhi Hx Hc. unfold TqUpdateEmaU32. destruct has; [|done].
  specialize (Hc eq_refl). cbn. destruct (c =? 0); [done|].
  rewrite u32_small by widths. dlia.
Qed.

(** The log line does not touch the observations. *)
Lemma maybe_log_obs now s :
  Obs (TqMaybeLogRuntimeObservationsLocked now s).2 = Obs s /\
  CompObs (TqMaybeLogRuntimeObservationsLocked now s).2 = CompObs s.
Proof. unfold TqMaybeLogRuntimeObservationsLocked. by repeat case_match. Qed.

Lemma observed_inv_log lo hi best now s :
  observed_inv lo hi best s ->
  observed_inv lo hi best (TqMaybeLogRuntimeObservationsLocked now s).2.
Proof.
  destruct (maybe_log_obs now s) as [E1 E2]. intros [H1 H2 H3].
  split; rewrite ?E1, ?E2; done.
Qed.

Lemma hint_inv lo hi best now b s :
  is_u64 b -> observed_inv lo hi best s ->
  observed_inv lo hi (Z.max best b) (TqRecordIdealSendHint now b s).
Proof.
  intros Hb [H1 (H2 & H3 & H4) H5]. unfold TqRecordIdealSendHint.
  destruct (b =? 0) eqn:E; to_prop.
  { rewrite Z.max_l by widths. by split. }
  apply observed_inv_log. split; cbn; [done| |done].
  rewrite H2, H3. split_and!.
  - destruct (0 <? best) eqn:?, (best <? b) eqn:?; cbn; to_prop; widths.
  - symmetry. apply Z.ltb_lt. widths.
  - widths.
Qed.

Lemma observed_inv_step lo hi best s o :
  0 < lo <= hi -> hi < 536870912 -> observation_ok lo hi o -> observed_inv lo hi best s ->
  observed_inv lo hi (match o with ResetRuntime => 0 | _ => Z.max best (hint_of o) end) (observe s o).
Proof.
  intros Hlo Hhi Ho Hi. pose proof Hi as [H1 (H2 & H3 & H4) H5].
  assert (Hmax : Z.max best 0 = best) by widths.
  destruct o as [now rtt|now b|now b elapsed ideal|now raw compressed| |]; cbn in *; rewrite ?Hmax.
  - unfold TqRecordMeasuredRtt. destruct (rtt =? 0) eqn:E; to_prop; [done|].
    apply observed_inv_log. split; cbn; [|done|done].
    apply ema_between; try lia. intros Hh. by rewrite Hh in H1.
  - by apply hint_inv.
  - unfold TqRecordRelayThroughput. destruct Ho as (Hb & He & Hd).
    destruct ((b =? 0) || (elapsed <? 100)); cbn; [by rewrite Hmax|].
    destruct (throughput_mbps b elapsed =? 0); [by rewrite Hmax|].
    assert (observed_inv lo hi best (record_throughput (throughput_mbps b elapsed) s)) by by split.
    destruct (0 <? ideal) eqn:Hz; to_prop; [by apply hint_inv|].
    by rewrite Z.max_l by widths.
  - unfold TqRecordCompressionSample. destruct Ho as [Hr Hc].
    destruct (_ || _) eqn:E; to_prop; [done|]. apply observed_inv_log. split; cbn; [done|done|].
    assert (0 <= u64 (compressed * 1000) / raw).
    { apply Z.div_pos; [apply u64_range|lia]. }
    rewrite u32_small by widths. by apply ema_between; try lia.
  - split; cbn; [done| |lia]. split_and!; [done|done|widths].
  - by split.
Qed.

Lemma observed_inv_run lo hi ops best s :
  0 < lo <= hi -> hi < 536870912 -> Forall (observation_ok lo hi) ops ->
  observed_inv lo hi best s ->
  observed_inv lo hi
    (foldl (fun best o => match o with ResetRuntime => 0 | _ => Z.max best (hint_of o) end) best ops)
    (foldl observe s ops).
Proof.
  intros Hlo Hhi Hops. revert best s.
  induction Hops as [|o ops Ho _ IH]; intros best s Hs; cbn; [done|].
  by apply IH, observed_inv_step.
Qed.

Lemma observed_invariant lo hi ops :
  0 < lo <= hi -> hi < 536870912 -> Forall (observation_ok lo hi) ops ->
  observed_inv lo hi (best_hint ops) (observed ops).
Proof.
  intros Hlo Hhi Hops. by apply observed_inv_run.
Qed.

(** The fields the observations set. *)
Lemma runtime_fields lo hi ops cfg f :
  0 < lo <= hi -> hi < 536870912 -> Forall (observation_ok lo hi) ops ->
  tuning_ok (Tuning cfg) ->
  let s := observed ops in
  let t := Tuning cfg in
  let adapts := HasIdealSend (Obs s) && (IdealSendBytes (Obs s) <? t RelayDefaultIdealSend) in
  let contexts := Z.min (t RelayMaxInFlightSends)
    (Z.max 1 (u64 (IdealSendBytes (Obs s) + t RelayIoSize - 1) / t RelayIoSize)) in
  TqApplyRuntimeObservations s cfg f =
  if negb (TqRuntimeTuningEnabled cfg) || (SampleCount (Obs s) =? 0) then t f
  else
    match f with
    | InitialRttMs =>
        if HasRtt (Obs s) && (TuningOverrideQuicInitRttMs cfg =? 0)
        then Z.min 60000 (MeasuredRttMs (Obs s)) else t f
    | RelayDefaultIdealSend => if adapts then IdealSendBytes (Obs s) else t f
    | RelayMaxInFlightSends | RelayMaxFreeSendContexts =>
        if adapts && (0 <? t RelayIoSize) then Z.min (t f) contexts else t f
    | StreamRecvWindow | ConnFlowControlWindow => TqValidationFlowWindowBytes
    | _ => t f
    end.
Proof.
  intros Hlo Hhi Hops Ht s t adapts contexts.
  destruct (observed_invariant lo hi ops Hlo Hhi Hops) as [Hr (Hi & Hh & Hu) _].
  fold s in Hr, Hi, Hh. unfold TqApplyRuntimeObservations. cbv zeta. fold t.
  destruct (negb _); [done|]. destruct (SampleCount _ =? 0); [done|]. cbn [orb].
  pose proof (Ht RelayIoSize) as Hio. pose proof (Ht RelayMaxInFlightSends) as Hm. cbn in Hio, Hm.
  fold t in Hio, Hm.
  assert (Hq : 0 < t RelayIoSize ->
    0 <= u64 (IdealSendBytes (Obs s) + t RelayIoSize - 1) / t RelayIoSize).
  { intros. apply Z.div_pos; [apply u64_range|done]. }
  assert (Hrtt : HasRtt (Obs s) = true ->
    ClampU32 (MeasuredRttMs (Obs s)) 1 60000 = Z.min 60000 (MeasuredRttMs (Obs s))).
  { intros Hx. rewrite Hx in Hr. rewrite clamp32_spec; [|widths..]. lia. }
  assert (Hctx : 0 < t RelayIoSize ->
    ClampU32 (u64 (IdealSendBytes (Obs s) + t RelayIoSize - 1) / t RelayIoSize) 1
      (t RelayMaxInFlightSends) = contexts).
  { intros Hx. rewrite clamp32_spec; [|widths|lia|auto]. unfold contexts. lia. }
  clearbody contexts.
  destruct (HasRtt (Obs s) && _) eqn:E1; to_prop; rewrite ?Hrtt by done;
    destruct f; read_fields; try done; fold adapts; clearbody adapts;
    (destruct adapts; [destruct (0 <? t RelayIoSize) eqn:E2; to_prop|]);
    rewrite ?Hctx by done; read_fields; done.
Qed.

(** [cfg.Tuning = t] *)
Definition with_tuning (cfg : TqConfig) (t : TqTuningConfig) : TqConfig :=
  {| Compress := Compress cfg; TuningMode := TuningMode cfg; MaxMemoryMb := MaxMemoryMb cfg;
     TuningOverrideRelayIoSize := TuningOverrideRelayIoSize cfg;
     TuningOverrideRelayReadChunkSize := TuningOverrideRelayReadChunkSize cfg;
     TuningOverrideRelayTcpWriteMaxBytes := TuningOverrideRelayTcpWriteMaxBytes cfg;
     TuningOverrideRelayTcpWriteBurstBytes := TuningOverrideRelayTcpWriteBurstBytes cfg;
     TuningOverrideRelayEventQueueCapacity := TuningOverrideRelayEventQueueCapacity cfg;
     TuningOverrideRelayWorkerCount := TuningOverrideRelayWorkerCount cfg;
     TuningOverrideLinuxRelayReadChunkSize := TuningOverrideLinuxRelayReadChunkSize cfg;
     TuningOverrideLinuxRelayTcpWriteMaxBytes := TuningOverrideLinuxRelayTcpWriteMaxBytes cfg;
     TuningOverrideLinuxRelayTcpWriteBurstBytes := TuningOverrideLinuxRelayTcpWriteBurstBytes cfg;
     TuningOverrideLinuxRelayEventQueueCapacity := TuningOverrideLinuxRelayEventQueueCapacity cfg;
     TuningOverrideLinuxRelayWorkerCount := TuningOverrideLinuxRelayWorkerCount cfg;
     TuningOverrideWindowsRelayWorkerCount := TuningOverrideWindowsRelayWorkerCount cfg;
     TuningOverrideQuicIw := TuningOverrideQuicIw cfg;
     TuningOverrideQuicInitRttMs := TuningOverrideQuicInitRttMs cfg;
     TuningOverrideTerminalWatchdogSeconds := TuningOverrideTerminalWatchdogSeconds cfg;
     Tuning := t |}.

Section Observed.
Context (lo hi : Z) (ops : list observation) (cfg : TqConfig).
Hypothesis Hlo : 0 < lo <= hi.
Hypothesis Hhi : hi < 536870912.
Hypothesis Hops : Forall (observation_ok lo hi) ops.
Hypothesis Ht : tuning_ok (Tuning cfg).
Let s := observed ops.
Let t' := TqApplyRuntimeObservations s cfg.

Lemma observed_tightens :
  tuning_ok t' /\
  t' RelayMaxInFlightSends <= Tuning cfg RelayMaxInFlightSends /\
  t' RelayMaxFreeSendContexts <= Tuning cfg RelayMaxFreeSendContexts /\
  t' RelayDefaultIdealSend <= Tuning cfg RelayDefaultIdealSend /\
  (1 <= Tuning cfg RelayMaxInFlightSends -> 1 <= t' RelayMaxInFlightSends) /\
  (t' InitialRttMs = Tuning cfg InitialRttMs \/ 1 <= t' InitialRttMs <= 60000).
Proof.
  pose proof (fun f => runtime_fields lo hi ops cfg f Hlo Hhi Hops Ht) as Hf. cbv zeta in Hf.
  destruct (observed_invariant lo hi ops Hlo Hhi Hops) as [Hr (Hi & Hh & Hu) _].
  fold s in Hr, Hi, Hf. fold t' in Hf. clearbody t'. rewrite !Hf.
  assert (Hw := fun f => Ht f). unfold TqValidationFlowWindowBytes in Hf.
  pose proof (Ht RelayMaxInFlightSends). cbn in H.
  split.
  { intros f. rewrite Hf. specialize (Hw f). destruct (_ || _); [done|].
    destruct f; try done; cbn in *; repeat case_match; to_prop; try done; widths. }
  destruct (_ || _); [by split_and!; (lia || left)|].
  repeat case_match; to_prop; split_and!; intros; try lia; first [by left|right; lia].
Qed.

(** The observations have their effect once. *)
Lemma observed_settles f : TqApplyRuntimeObservations s (with_tuning cfg t') f = t' f.
Proof.
  pose proof (fun f => runtime_fields lo hi ops cfg f Hlo Hhi Hops Ht) as Hf. cbv zeta in Hf.
  pose proof (runtime_fields lo hi ops (with_tuning cfg t') f Hlo Hhi Hops
    (proj1 observed_tightens)) as Hg. cbv zeta in Hg. cbn [Tuning with_tuning
    TuningOverrideQuicInitRttMs] in Hg.
  change (TqRuntimeTuningEnabled (with_tuning cfg t')) with (TqRuntimeTuningEnabled cfg) in Hg.
  fold s in Hf, Hg. fold t' in Hf. rewrite Hg. clear Hg. clearbody t'.
  destruct (_ || _) eqn:Ho; [done|].
  assert (Hn : HasIdealSend (Obs s) && (IdealSendBytes (Obs s) <? t' RelayDefaultIdealSend) = false).
  { rewrite Hf. destruct (HasIdealSend (Obs s)); [|done]. cbn.
    destruct (IdealSendBytes (Obs s) <? Tuning cfg RelayDefaultIdealSend) eqn:E; [|done].
    apply Z.ltb_irrefl. }
  rewrite Hn. cbn [andb]. destruct f; try done; rewrite Hf; by repeat case_match.
Qed.
End Observed.

(**  Whatever is observed, the smoothed round-trip time stays between the smallest and the
    largest sample (for samples below 2^29 ms, where the 32-bit average does not wrap), the
    ideal send size is the largest hint since the last reset, and the compression ratio is at
    most 2000.  Applying the observations to a profile never raises a limit, keeps every field
    in its type, leaves at least one send in flight, sets an initial round-trip time of at most
    a minute, and has its effect once.  Automatic compression resolves to zstd only for a
    smoothed ratio below 98%. *)
Theorem observations_stay_in_range lo hi ops cfg :
  0 < lo <= hi -> hi < 536870912 -> Forall (observation_ok lo hi) ops ->
  tuning_ok (Tuning cfg) ->
  let s := observed ops in
  let t' := TqApplyRuntimeObservations s cfg in
  (HasRtt (Obs s) = true -> lo <= MeasuredRttMs (Obs s) <= hi) /\
  IdealSendBytes (Obs s) = best_hint ops /\
  0 <= RatioPermille (CompObs s) <= 2000 /\
  (tuning_ok t' /\
   t' RelayMaxInFlightSends <= Tuning cfg RelayMaxInFlightSends /\
   t' RelayMaxFreeSendContexts <= Tuning cfg RelayMaxFreeSendContexts /\
   t' RelayDefaultIdealSend <= Tuning cfg RelayDefaultIdealSend /\
   (1 <= Tuning cfg RelayMaxInFlightSends -> 1 <= t' RelayMaxInFlightSends) /\
   (t' InitialRttMs = Tuning cfg InitialRttMs \/ 1 <= t' InitialRttMs <= 60000)) /\
  (forall f, TqApplyRuntimeObservations s (with_tuning cfg t') f = t' f) /\
  (Compress cfg = str "auto" -> TqResolveAutoCompress s cfg = str "zstd" ->
   HasSample (CompObs s) = true /\ RatioPermille (CompObs s) < 980).
Proof.
  intros Hlo Hhi Hops Ht s t'.
  destruct (observed_invariant lo hi ops Hlo Hhi Hops) as [Hr (Hi & _ & _) Hc].
  split; [intros Hh; fold s in Hr; by rewrite Hh in Hr|].
  split; [done|]. split; [done|].
  split; [by apply (observed_tightens lo hi)|]. split; [by apply (observed_settles lo hi)|].
  intros Ha. unfold TqResolveAutoCompress, TqModeFromRatioPermille, kCompressRatioOffPermille.
  rewrite Ha, bool_decide_eq_true_2 by done. cbn [negb].
  destruct (HasSample (CompObs s)); cbn; [|done]. destruct (_ =? 0); [done|].
  destruct (_ <=? _) eqn:E; [done|]. intros _. to_prop. done.
Qed.

(** ** Witnesses *)

Module Demo.
Definition host : Host :=
  {| sc_phys_pages := 4194304; sc_pagesize := 4096; hardware_concurrency := 16 |}.
Definition cfg : TqConfig :=
  {| Compress := str "auto"; TuningMode := Auto; MaxMemoryMb := 0;
     TuningOverrideRelayIoSize := 0; TuningOverrideRelayReadChunkSize := 65536;
     TuningOverrideRelayTcpWriteMaxBytes := 0; TuningOverrideRelayTcpWriteBurstBytes := 0;
     TuningOverrideRelayEventQueueCapacity := 5000; TuningOverrideRelayWorkerCount := 0;
     TuningOverrideLinuxRelayReadChunkSize := 4096; TuningOverrideLinuxRelayTcpWriteMaxBytes := 0;
     TuningOverrideLinuxRelayTcpWriteBurstBytes := 0;
     TuningOverrideLinuxRelayEventQueueCapacity := 0; TuningOverrideLinuxRelayWorkerCount := 3;
     TuningOverrideWindowsRelayWorkerCount := 0; TuningOverrideQuicIw := 0;
     TuningOverrideQuicInitRttMs := 0; TuningOverrideTerminalWatchdogSeconds := 0;
     Tuning := default_tuning |}.

Lemma default_tuning_ok : tuning_ok default_tuning.
Proof. intros f. by destruct f. Qed.

Definition globals0 : globals :=
  {| g_TqRelayMemoryBudgetMb := 512; g_TqActiveRelays := 100; g_TqQuicReadAheadInitialBytes := 1;
     g_TqQuicReadAheadBytes := 1 |}.

Definition history : list observation :=
  [RttSample 1000 40; RttSample 1001 48; IdealHint 1002 3000000;
   CompressionSample 1003 10000 5000; Throughput 1004 10000000 200 2000000].
End Demo.



Lemma observations_stay_in_range_witness :
  let s := observed Demo.history in
  MeasuredRttMs (Obs s) = 41 /\ IdealSendBytes (Obs s) = 3000000 /\
  TqResolveAutoCompress s Demo.cfg = str "zstd" /\
  TqApplyRuntimeObservations s Demo.cfg RelayMaxInFlightSends = 3 /\
  IdealSendBytes (Obs s) = best_hint Demo.history.
Proof.
  split_and!; [by vm_compute..|].
  apply (observations_stay_in_range 40 48 Demo.history Demo.cfg); try done.
  - by repeat constructor; vm_compute; auto.
  - apply Demo.default_tuning_ok.
Defined.
