(* ===== verification/QuicAddress.v ===== *)
(** QUIC endpoints of [src/src/protocol/quic_address.cpp]: the text of an endpoint and of an
    endpoint list, the expansion of a server's listen list to local addresses, the listeners
    the server binds for it and the check of the address a connection arrived on, and the
    assignment of a client's connection slots to peers.

    [QUIC_ADDR] and its accessors belong to MsQuic: they are the class [QuicAddrApi], with the
    documented behaviour the theorems rely on in [QuicAddrLaws].  [getifaddrs] and [inet_ntop]
    are parameters. *)

From stdpp Require Import base list strings numbers sets sorting.
From Stdlib Require Import ZArith Lia.
From S2P Require Import Prelude.

(** ** Endpoint texts *)

Record TqEndpoint := { Host : bytes; Port : Z }.

#[export] Instance TqEndpoint_eq_dec : EqDecision TqEndpoint.
Proof. solve_decision. Defined.

Definition TqParsePort (value : bytes) : option Z :=
  match value with
  | [] => None
  | _ =>
      match dec_loop 65535 value 0 with
      | None => None
      | Some parsed => if parsed =? 0 then None else Some (u16 parsed)
      end
  end.

Definition is_blank (c : Z) : bool := (c =? 32) || (c =? 9).

(** The first loop of [TqTrimListItem]: the bytes from [begin]. *)
Fixpoint skip_leading (value : bytes) : bytes :=
  match value with
  | c :: rest => if is_blank c then skip_leading rest else value
  | [] => []
  end.

Definition TqTrimListItem (value : bytes) : bytes :=
  rev (skip_leading (rev (skip_leading value))).

Definition TqParseEndpoint (value : bytes) : option TqEndpoint :=
  match value with
  | [] => None
  | front :: _ =>
      let parts :=
        if front =? 91 then
          match find_char value 93 0 with
          | None => None
          | Some close =>
              if size value <=? Z.of_nat (close + 1) then None
              else if bool_decide (value !! (close + 1)%nat = Some 58)
              then Some (substr value 1 (close - 1), substr_from value (close + 2))
              else None
          end
        else
          match find_char value 58 0 with
          | None => None
          | Some colon =>
              match find_char value 58 (colon + 1) with
              | Some _ => None
              | None =>
                  if (colon =? 0)%nat || (size value <=? Z.of_nat (colon + 1)) then None
                  else Some (substr value 0 colon, substr_from value (colon + 1))
              end
          end in
      match parts with
      | None => None
      | Some (host, portText) =>
          match host with
          | [] => None
          | _ =>
              match TqParsePort portText with
              | None => None
              | Some port => Some {| Host := host; Port := port |}
              end
          end
      end
  end.

(** The loop of [TqParseEndpointList] from [begin]; [inl] is the error text. *)
Fixpoint parse_list_loop (fuel : nat) (value : bytes) (begin : nat) (parsed : list TqEndpoint) :
    option (bytes + list TqEndpoint) :=
  match fuel with
  | O => None
  | S fuel =>
      if (length value <? begin)%nat then Some (inr parsed)
      else
        let comma := find_char value 44 begin in
        let stop := default (length value) comma in
        let item := TqTrimListItem (substr value begin (stop - begin)) in
        match TqParseEndpoint item with
        | None => Some (inl (str "invalid endpoint: " ++ item))
        | Some endpoint =>
            match comma with
            | None => Some (inr (parsed ++ [endpoint]))
            | Some comma => parse_list_loop fuel value (comma + 1) (parsed ++ [endpoint])
            end
        end
  end.

(** Every turn but the last moves past a comma, so the length of the text is fuel enough. *)
Definition TqParseEndpointList (value : bytes) : option (bytes + list TqEndpoint) :=
  parse_list_loop (S (length value)) value 0 [].

Definition TqFormatEndpoint (endpoint : TqEndpoint) : bytes :=
  match find_char (Host endpoint) 58 0 with
  | Some _ => [91] ++ Host endpoint ++ [93; 58] ++ to_string (Port endpoint)
  | None => Host endpoint ++ [58] ++ to_string (Port endpoint)
  end.

(** ** Addresses *)

Definition QUIC_ADDRESS_FAMILY_UNSPEC : Z := 0.
Definition QUIC_ADDRESS_FAMILY_INET : Z := 2.
Definition QUIC_ADDRESS_FAMILY_INET6 : Z := 10.

(** MsQuic's address type. *)
Class QuicAddrApi (QUIC_ADDR : Type) := {
  zero_addr : QUIC_ADDR;                                   (* after memset to 0 *)
  QuicAddrSetFamily : QUIC_ADDR -> Z -> QUIC_ADDR;
  QuicAddrSetPort : QUIC_ADDR -> Z -> QUIC_ADDR;
  QuicAddrGetFamily : QUIC_ADDR -> Z;
  QuicAddrGetPort : QUIC_ADDR -> Z;
  QuicAddrFromString : bytes -> Z -> option QUIC_ADDR;
  QuicAddrToString : QUIC_ADDR -> option bytes;
  QuicAddrCompare : QUIC_ADDR -> QUIC_ADDR -> bool;
  ipv4_is_any : QUIC_ADDR -> bool;                         (* Ipv4.sin_addr.s_addr == INADDR_ANY *)
  ipv6_is_unspecified : QUIC_ADDR -> bool;                 (* IN6_IS_ADDR_UNSPECIFIED *)
}.

(** One entry of [getifaddrs]: the address's family and bytes, if any, and the flags. *)
Record ifaddrs := { ifa_addr : option (Z * bytes); ifa_flags : Z }.

Definition IFF_UP : Z := 1.
Definition IFF_LOOPBACK : Z := 8.

Definition ipv4_skipped (a : bytes) : bool :=
  let a0 := default 0 (a !! 0%nat) in
  bool_decide (a = [0; 0; 0; 0]) || (a0 =? 127) || (Z.land a0 0xf0 =? 0xe0).

Definition ipv6_skipped (a : bytes) : bool :=
  let a0 := default 0 (a !! 0%nat) in
  let a1 := default 0 (a !! 1%nat) in
  bool_decide (a = replicate 16 0) || bool_decide (a = replicate 15 0 ++ [1]) ||
  (a0 =? 255) || ((a0 =? 254) && (Z.land a1 0xc0 =? 0x80)).

(** [std::string]'s order, byte by byte. *)
Fixpoint lex_leb (a b : bytes) : bool :=
  match a, b with
  | [], _ => true
  | _ :: _, [] => false
  | x :: a', y :: b' => (x <? y) || ((x =? y) && lex_leb a' b')
  end.

Definition lex_le (a b : bytes) : Prop := lex_leb a b = true.

#[export] Instance lex_le_dec a b : Decision (lex_le a b).
Proof. unfold lex_le; apply _. Defined.

Section Listens.
Context {QUIC_ADDR : Type} `{QuicAddrApi QUIC_ADDR}.
Context (getifaddrs : option (list ifaddrs)).
Context (inet_ntop : Z -> bytes -> option bytes).

Record TqResolvedListen := { Text : bytes; Address : QUIC_ADDR }.

(** One turn of the loop of [TqCollectIfaddrsAddresses]. *)
Definition usable_address (family : Z) (item : ifaddrs) : option bytes :=
  match ifa_addr item with
  | None => None
  | Some (sa_family, addr) =>
      if negb (sa_family =? family) || (Z.land (ifa_flags item) IFF_UP =? 0) ||
         negb (Z.land (ifa_flags item) IFF_LOOPBACK =? 0) then None
      else if family =? QUIC_ADDRESS_FAMILY_INET then
        if ipv4_skipped addr then None else inet_ntop family addr
      else if family =? QUIC_ADDRESS_FAMILY_INET6 then
        if ipv6_skipped addr then None else inet_ntop family addr
      else Some []
  end.

(** [seen.insert(text).second] guards the [push_back]. *)
Definition push_unique (hosts : list bytes) (text : bytes) : list bytes :=
  if bool_decide (text ∈ hosts) then hosts else hosts ++ [text].

Definition TqCollectIfaddrsAddresses (family : Z) : list bytes :=
  match getifaddrs with
  | None => []
  | Some items =>
      foldl (fun hosts item =>
        match usable_address family item with
        | Some text => push_unique hosts text
        | None => hosts
        end) [] items
  end.

Definition TqCollectLocalAddresses (family : Z) : list bytes :=
  let family := if family =? QUIC_ADDRESS_FAMILY_INET
                then QUIC_ADDRESS_FAMILY_INET else QUIC_ADDRESS_FAMILY_INET6 in
  merge_sort lex_le (TqCollectIfaddrsAddresses family).

Definition TqIsIpv4Wildcard (endpoint : TqEndpoint) : bool :=
  bool_decide (Host endpoint = str "0.0.0.0").
Definition TqIsIpv6Wildcard (endpoint : TqEndpoint) : bool :=
  bool_decide (Host endpoint = str "::").

Definition TqQuicAddressKey (address : QUIC_ADDR) (text : bytes) : bytes :=
  to_string (QuicAddrGetFamily address) ++ str "|" ++ text.

Definition TqServerBindGroupKey (address : QUIC_ADDR) : bytes :=
  to_string (QuicAddrGetFamily address) ++ str "|" ++ to_string (QuicAddrGetPort address).

Definition TqIsWildcardAddress (address : QUIC_ADDR) : bool :=
  let family := QuicAddrGetFamily address in
  if family =? QUIC_ADDRESS_FAMILY_UNSPEC then true
  else if family =? QUIC_ADDRESS_FAMILY_INET then ipv4_is_any address
  else if family =? QUIC_ADDRESS_FAMILY_INET6 then ipv6_is_unspecified address
  else false.

Definition TqMakeWildcardAddrForFamily (family port : Z) : option QUIC_ADDR :=
  let address := QuicAddrSetPort (QuicAddrSetFamily zero_addr family) port in
  match QuicAddrToString address with
  | Some _ => Some address
  | None => None
  end.

Definition TqMakeQuicAddr (endpoint : TqEndpoint) : option QUIC_ADDR :=
  if bool_decide (Host endpoint = str "*") then
    Some (QuicAddrSetPort (QuicAddrSetFamily zero_addr QUIC_ADDRESS_FAMILY_UNSPEC) (Port endpoint))
  else QuicAddrFromString (c_str (Host endpoint)) (Port endpoint).

(** The vector under construction with its set of keys. *)
Record unique_listens := { resolved : list TqResolvedListen; seen : list bytes }.
Definition no_listens : unique_listens := {| resolved := []; seen := [] |}.

Definition TqAppendUniqueResolvedListen (text : bytes) (address : QUIC_ADDR)
    (u : unique_listens) : bool * unique_listens :=
  let key := TqQuicAddressKey address text in
  if bool_decide (key ∈ seen u) then (false, u)
  else (true, {| resolved := resolved u ++ [{| Text := text; Address := address |}];
                 seen := key :: seen u |}).

Definition TqAppendResolvedListen (endpoint : TqEndpoint) (u : unique_listens) :
    bool * unique_listens :=
  match TqMakeQuicAddr endpoint with
  | None => (false, u)
  | Some address =>
      match QuicAddrToString address with
      | None => (false, u)
      | Some text => TqAppendUniqueResolvedListen text address u
      end
  end.

Definition no_local_addresses (endpoint : TqEndpoint) : bytes :=
  TqFormatEndpoint endpoint ++ str " expanded to no usable local addresses".
Definition invalid_listen (endpoint : TqEndpoint) : bytes :=
  str "invalid listen address: " ++ TqFormatEndpoint endpoint.

(** The loop over the local addresses a wildcard stands for. *)
Definition expand_hosts (port : Z) (hosts : list bytes) (u : unique_listens) :
    bool * unique_listens :=
  foldl (fun st host =>
    let '(expanded, u) := st in
    let '(added, u) := TqAppendResolvedListen {| Host := host; Port := port |} u in
    (added || expanded, u)) (false, u) hosts.

(** One turn of the loop of [TqResolveServerListenList]. *)
Definition resolve_endpoint (endpoint : TqEndpoint) (u : unique_listens) :
    bytes + unique_listens :=
  if bool_decide (Host endpoint = str "*") then
    match TqMakeQuicAddr endpoint with
    | None => inl (invalid_listen endpoint)
    | Some address =>
        inr (TqAppendUniqueResolvedListen (TqFormatEndpoint endpoint) address u).2
    end
  else if TqIsIpv4Wildcard endpoint || TqIsIpv6Wildcard endpoint then
    let family := if TqIsIpv4Wildcard endpoint
                  then QUIC_ADDRESS_FAMILY_INET else QUIC_ADDRESS_FAMILY_INET6 in
    match TqCollectLocalAddresses family with
    | [] => inl (no_local_addresses endpoint)
    | hosts =>
        let '(expanded, u) := expand_hosts (Port endpoint) hosts u in
        if expanded then inr u else inl (no_local_addresses endpoint)
    end
  else
    match TqMakeQuicAddr endpoint with
    | None => inl (invalid_listen endpoint)
    | Some address =>
        match QuicAddrToString address with
        | None => inl (invalid_listen endpoint)
        | Some text => inr (TqAppendUniqueResolvedListen text address u).2
        end
    end.

Fixpoint resolve_loop (endpoints : list TqEndpoint) (u : unique_listens) :
    bytes + unique_listens :=
  match endpoints with
  | [] => inr u
  | endpoint :: rest =>
      match resolve_endpoint endpoint u with
      | inl err => inl err
      | inr u => resolve_loop rest u
      end
  end.

Definition TqResolveServerListenList (value : bytes) : option (bytes + list TqResolvedListen) :=
  match TqParseEndpointList value with
  | None => None
  | Some (inl err) => Some (inl err)
  | Some (inr endpoints) =>
      Some (match resolve_loop endpoints no_listens with
            | inl err => inl err
            | inr u => inr (resolved u)
            end)
  end.

(** ** Binding *)

(** [groups[key].Listens.push_back(&listen)] on the ordered map. *)
Fixpoint push_group (key : bytes) (listen : TqResolvedListen)
    (groups : list (bytes * list TqResolvedListen)) : list (bytes * list TqResolvedListen) :=
  match groups with
  | [] => [(key, [listen])]
  | (k, g) :: rest =>
      if bool_decide (k = key) then (k, g ++ [listen]) :: rest
      else if lex_leb key k then (key, [listen]) :: groups
      else (k, g) :: push_group key listen rest
  end.

Definition bind_groups (resolvedListens : list TqResolvedListen) :
    list (bytes * list TqResolvedListen) :=
  foldl (fun groups listen => push_group (TqServerBindGroupKey (Address listen)) listen groups)
    [] resolvedListens.

Definition append_all (group : list TqResolvedListen) (binds : unique_listens) : unique_listens :=
  foldl (fun binds listen =>
    (TqAppendUniqueResolvedListen (Text listen) (Address listen) binds).2) binds group.

(** One turn of the loop over the groups. *)
Definition bind_group (group : list TqResolvedListen) (binds : unique_listens) : unique_listens :=
  match group with
  | [] => binds
  | first :: _ =>
      let family := QuicAddrGetFamily (Address first) in
      let port := QuicAddrGetPort (Address first) in
      let hasWildcard := existsb (fun l => TqIsWildcardAddress (Address l)) group in
      if (1 <? length group)%nat && negb hasWildcard then
        match TqMakeWildcardAddrForFamily family port with
        | None => append_all group binds
        | Some wildcard =>
            match QuicAddrToString wildcard with
            | None => append_all group binds
            | Some text => (TqAppendUniqueResolvedListen text wildcard binds).2
            end
        end
      else append_all group binds
  end.

Definition TqBuildServerListenerBindList (resolvedListens : list TqResolvedListen) :
    list TqResolvedListen :=
  resolved (foldl (fun binds item => bind_group item.2 binds) no_listens
              (bind_groups resolvedListens)).

Fixpoint listen_allows (resolvedListens : list TqResolvedListen) (localAddress : QUIC_ADDR) :
    bool :=
  match resolvedListens with
  | [] => false
  | listen :: rest =>
      if negb (QuicAddrGetPort (Address listen) =? QuicAddrGetPort localAddress)
      then listen_allows rest localAddress
      else if TqIsWildcardAddress (Address listen) then
        let listenFamily := QuicAddrGetFamily (Address listen) in
        if (listenFamily =? QUIC_ADDRESS_FAMILY_UNSPEC) ||
           (listenFamily =? QuicAddrGetFamily localAddress)
        then true else listen_allows rest localAddress
      else if QuicAddrCompare (Address listen) localAddress then true
      else listen_allows rest localAddress
  end.

(** [None] is a null pointer. *)
Definition TqServerListenAllowsLocalAddress (resolvedListens : list TqResolvedListen)
    (localAddress : option QUIC_ADDR) : bool :=
  match localAddress with
  | None => false
  | Some a => listen_allows resolvedListens a
  end.
End Listens.

(** ** Client slots *)

Record TqQuicPathConfig := {
  Name : bytes;
  LocalAddress : bytes;
  Peer : bytes;
  Connections : Z;
}.

(** The part of [TqConfig] the slots are built from. *)
Record TqConfig := {
  QuicPeer : bytes;
  QuicPaths : list TqQuicPathConfig;
  QuicConnections : Z;
}.

Record TqClientSlotPath := {
  SlotName : bytes;
  SlotLocalAddress : bytes;
  PeerHost : bytes;
  PeerPort : Z;
  PeerText : bytes;
}.

Definition slot_of (name localAddress : bytes) (endpoint : TqEndpoint) : TqClientSlotPath :=
  {| SlotName := name; SlotLocalAddress := localAddress; PeerHost := Host endpoint;
     PeerPort := Port endpoint; PeerText := TqFormatEndpoint endpoint |}.

Fixpoint path_slots (paths : list TqQuicPathConfig) (expanded : list TqClientSlotPath) :
    bytes + list TqClientSlotPath :=
  match paths with
  | [] => inr expanded
  | path :: rest =>
      if Connections path =? 0
      then inl (str "path connections must be greater than zero: " ++ Name path)
      else
        match TqParseEndpoint (Peer path) with
        | None => inl (str "invalid path peer: " ++ Peer path)
        | Some endpoint =>
            path_slots rest
              (expanded ++ replicate (Z.to_nat (Connections path))
                             (slot_of (Name path) (LocalAddress path) endpoint))
        end
  end.

(** [peers[i % peers.size()]] for the connection indices. *)
Definition peer_slots (peers : list TqEndpoint) (connections : nat) : list TqClientSlotPath :=
  flat_map (fun i =>
    match peers !! (i mod length peers)%nat with
    | Some endpoint => [slot_of (str "default") [] endpoint]
    | None => []
    end) (seq 0 connections).

Definition TqBuildClientSlotPaths (cfg : TqConfig) : option (bytes + list TqClientSlotPath) :=
  match QuicPaths cfg with
  | _ :: _ =>
      Some (match path_slots (QuicPaths cfg) [] with
            | inl err => inl err
            | inr [] => inl (str "path-mode produced no connection slots")
            | inr expanded => inr expanded
            end)
  | [] =>
      if QuicConnections cfg =? 0
      then Some (inl (str "quic connections must be greater than zero"))
      else
        match TqParseEndpointList (QuicPeer cfg) with
        | None => None
        | Some (inl []) => Some (inl (str "invalid quic peer list"))
        | Some (inl err) => Some (inl err)
        | Some (inr []) => Some (inl (str "quic peer list is empty"))
        | Some (inr peers) => Some (inr (peer_slots peers (Z.to_nat (QuicConnections cfg))))
        end
  end.

(** ** Endpoint texts: lemmas *)

Lemma port_to_string_parses port :
  1 <= port <= 65535 -> TqParsePort (to_string port) = Some port.
Proof.
  intros Hp. destruct (dec_loop_to_string 65535 port) as [Hne Hv]; [widths|lia|].
  unfold TqParsePort. rewrite Hv. destruct (to_string port); [done|].
  rewrite (proj2 (Z.eqb_neq _ _)) by lia. by rewrite u16_small by widths.
Qed.

Lemma TqParsePort_range text port : TqParsePort text = Some port -> 1 <= port <= 65535.
Proof.
  unfold TqParsePort. destruct text as [|c s]; [done|]. rewrite dec_loop_spec by lia.
  cbv zeta. destruct (forallb _ _) eqn:Hd; [|done]. cbn [andb].
  pose proof (fold_dec_ge (c :: s) 0 Hd ltac:(lia)) as Hge.
  set (r := fold_left _ _ _) in *. clearbody r.
  destruct (_ <=? 65535) eqn:Hm; [|done]. destruct (r =? 0) eqn:Hz; [done|]. to_prop.
  intros [= <-]. rewrite u16_small by widths. lia.
Qed.

Lemma parsed_endpoint_ok value e :
  TqParseEndpoint value = Some e -> Host e <> [] /\ 1 <= Port e <= 65535.
Proof.
  unfold TqParseEndpoint. destruct value as [|front rest]; [done|]. cbv zeta.
  match goal with |- context [match ?p with Some _ => _ | None => _ end] => destruct p as [[h pt]|] end;
    [|done].
  destruct h as [|c h]; [done|]. destruct (TqParsePort pt) as [port|] eqn:Hp; [|done].
  intros [= <-]. split; [done|]. by eapply TqParsePort_range.
Qed.

(** Hosts whose printed form is read back: a host with a colon is printed in brackets. *)
Definition host_ok (host : bytes) : Prop :=
  host <> [] /\
  if bool_decide (58 ∈ host) then 93 ∉ host else head host <> Some 91.

Lemma find_char_none s ch : ch ∉ s -> find_char s ch 0 = None.
Proof. intros. unfold find_char. rewrite drop_0. by apply find_char_from_none. Qed.

Lemma find_char_later p ch q :
  ch ∉ q -> find_char (p ++ ch :: q) ch (length p + 1) = None.
Proof.
  intros Hq. unfold find_char. replace (length p + 1)%nat with (S (length p)) by lia.
  apply find_char_from_none. rewrite cons_middle, app_assoc.
  rewrite drop_app_ge by (rewrite length_app; simpl; lia).
  rewrite length_app. simpl. by replace (S (length p) - (length p + 1))%nat with 0%nat by lia.
Qed.

Lemma endpoint_roundtrip e :
  host_ok (Host e) -> 1 <= Port e <= 65535 -> TqParseEndpoint (TqFormatEndpoint e) = Some e.
Proof.
  destruct e as [host port]. unfold TqFormatEndpoint. cbn [Host Port]. intros [Hne Hh] Hp.
  pose proof (port_to_string_parses port Hp) as Hport.
  pose proof (to_string_free port 58 ltac:(widths) eq_refl) as H58.
  assert (Htl : (0 < length (to_string port))%nat).
  { destruct (dec_loop_to_string 65535 port) as [Hx _]; [widths|lia|].
    destruct (to_string port); [done|simpl; lia]. }
  destruct (bool_decide (58 ∈ host)) eqn:Hc; to_prop_nat.
  - destruct (find_char host 58 0) as [j|] eqn:Hf.
    2:{ exfalso. unfold find_char in Hf. rewrite drop_0 in Hf.
        pose proof (find_char_from_spec host 58 0) as Hs. by rewrite Hf in Hs. }
    unfold TqParseEndpoint. cbn [app].
    change (91 :: host ++ 93 :: 58 :: to_string port)
      with ((91 :: host) ++ 93 :: 58 :: to_string port).
    rewrite find_char_app by set_solver. cbn [app Z.eqb Pos.eqb].
    set (v := 91 :: host ++ 93 :: 58 :: to_string port).
    assert (Hlen : length v = (length host + 3 + length (to_string port))%nat).
    { unfold v. simpl. rewrite length_app. simpl. lia. }
    assert (Hv : forall k, drop (S (S (S (length host)) + k)) v = drop k (to_string port)).
    { intros k. unfold v. change (91 :: host ++ 93 :: 58 :: to_string port)
        with ((91 :: host) ++ [93; 58] ++ to_string port). rewrite app_assoc.
      rewrite drop_app_ge by (rewrite length_app; simpl; lia). f_equal.
      rewrite length_app. simpl. lia. }
    rewrite (proj2 (Z.leb_gt _ _)) by (unfold size; rewrite Hlen; simpl; lia).
    rewrite bool_decide_eq_true_2.
    2:{ unfold v. change (91 :: host ++ 93 :: 58 :: to_string port)
          with ((91 :: host) ++ [93] ++ 58 :: to_string port). rewrite app_assoc.
        rewrite lookup_app_r by (rewrite length_app; simpl; lia).
        rewrite length_app. cbn [length]. by replace (_ - _)%nat with 0%nat by lia. }
    replace (substr v 1 _) with host.
    2:{ unfold substr, v. simpl. rewrite Nat.sub_0_r. symmetry. apply take_app_length. }
    replace (substr_from v _) with (to_string port).
    2:{ unfold substr_from. specialize (Hv 0%nat). rewrite drop_0 in Hv. rewrite <- Hv. f_equal.
        simpl. lia. }
    destruct host; [done|]. by rewrite Hport.
  - rewrite find_char_none by done.
    unfold TqParseEndpoint. destruct host as [|c host]; [done|]. cbn [app].
    change (c :: host ++ 58 :: to_string port) with ((c :: host) ++ 58 :: to_string port).
    rewrite (proj2 (Z.eqb_neq c 91)) by (intros ->; done).
    rewrite find_char_app, find_char_later by done.
    rewrite (proj2 (Nat.eqb_neq _ _)) by (simpl; lia).
    rewrite (proj2 (Z.leb_gt _ _)) by (unfold size; rewrite length_app; simpl; lia). cbn [orb].
    unfold substr, substr_from. rewrite drop_0, take_app_length.
    replace (drop _ _) with (to_string port).
    2:{ change ((c :: host) ++ 58 :: to_string port) with ((c :: host) ++ [58] ++ to_string port).
        rewrite app_assoc, drop_app_ge by (rewrite length_app; simpl; lia).
        rewrite length_app. cbn [length]. by replace (_ - _)%nat with 0%nat by lia. }
    by rewrite Hport.
Qed.

(** ** Endpoint lists *)

(** The items between separators. *)
Fixpoint split_on (ch : Z) (s : bytes) : list bytes :=
  match s with
  | [] => [[]]
  | c :: s' =>
      if c =? ch then [] :: split_on ch s'
      else match split_on ch s' with
           | item :: items => (c :: item) :: items
           | [] => [[c]]
           end
  end.

(** The endpoints of the items, or the error for the first item that is none. *)
Fixpoint parse_items (items : list bytes) (parsed : list TqEndpoint) : bytes + list TqEndpoint :=
  match items with
  | [] => inr parsed
  | item :: items =>
      match TqParseEndpoint item with
      | None => inl (str "invalid endpoint: " ++ item)
      | Some endpoint => parse_items items (parsed ++ [endpoint])
      end
  end.

Lemma split_on_app ch p q :
  ch ∉ p -> split_on ch (p ++ ch :: q) = p :: split_on ch q.
Proof.
  induction p as [|c p IH]; intros Hp; simpl; [by rewrite Z.eqb_refl|].
  rewrite (proj2 (Z.eqb_neq c ch)) by set_solver. by rewrite IH by set_solver.
Qed.

Lemma split_on_none ch p : ch ∉ p -> split_on ch p = [p].
Proof.
  induction p as [|c p IH]; intros Hp; simpl; [done|].
  rewrite (proj2 (Z.eqb_neq c ch)) by set_solver. by rewrite IH by set_solver.
Qed.

(** [find] from a position splits the rest of the string there. *)
Lemma find_char_pos s ch pos j :
  find_char s ch pos = Some j ->
  (pos <= j < length s)%nat /\ ch ∉ substr s pos (j - pos) /\
  drop pos s = substr s pos (j - pos) ++ ch :: drop (j + 1) s.
Proof.
  unfold find_char, substr. intros Hj.
  pose proof (find_char_from_spec (drop pos s) ch pos) as H. rewrite Hj in H.
  destruct H as ((H1 & H2) & H3 & H4). rewrite length_drop in H2.
  split_and!; [lia|lia|done|].
  rewrite <- (take_drop_middle _ _ _ H3) at 1. do 2 f_equal.
  rewrite drop_drop. f_equal. lia.
Qed.

Lemma find_char_pos_none s ch pos : find_char s ch pos = None -> ch ∉ drop pos s.
Proof.
  unfold find_char. intros Hj.
  pose proof (find_char_from_spec (drop pos s) ch pos) as H. by rewrite Hj in H.
Qed.

(** The loop visits the items in order and ends within its fuel. *)
Lemma parse_list_loop_spec fuel value begin parsed :
  (begin <= length value)%nat -> (length value - begin < fuel)%nat ->
  parse_list_loop fuel value begin parsed =
  Some (parse_items (TqTrimListItem <$> split_on 44 (drop begin value)) parsed).
Proof.
  revert begin parsed. induction fuel as [|fuel IH]; intros begin parsed Hb Hf; [lia|].
  cbn [parse_list_loop]. rewrite (proj2 (Nat.ltb_ge _ _)) by lia.
  destruct (find_char value 44 begin) as [comma|] eqn:Hc; cbn [default].
  - apply find_char_pos in Hc as (Hr & Hn & Hd). rewrite Hd, split_on_app by done.
    cbn [fmap list_fmap parse_items].
    destruct (TqParseEndpoint _); [|done]. apply IH; lia.
  - apply find_char_pos_none in Hc. rewrite split_on_none by done.
    cbn [fmap list_fmap parse_items].
    replace (substr value begin _) with (drop begin value); [by destruct (TqParseEndpoint _)|].
    unfold substr. symmetry. apply take_ge. rewrite length_drop. unfold id. lia.
Qed.

Lemma endpoint_list_items value :
  TqParseEndpointList value = Some (parse_items (TqTrimListItem <$> split_on 44 value) []).
Proof.
  unfold TqParseEndpointList. rewrite parse_list_loop_spec by lia. by rewrite drop_0.
Qed.

Lemma parse_items_app items eps parsed :
  Forall2 (fun item e => TqParseEndpoint item = Some e) items eps ->
  parse_items items parsed = inr (parsed ++ eps).
Proof.
  intros Hi. revert parsed. induction Hi as [|item e items eps He _ IH]; intros parsed; cbn.
  - by rewrite app_nil_r.
  - by rewrite He, IH, <- app_assoc.
Qed.

(** Trimming leaves a text with no blank at either end. *)
Lemma skip_leading_id c s : is_blank c = false -> skip_leading (c :: s) = c :: s.
Proof. simpl. by intros ->. Qed.

Lemma trim_id c s d : is_blank c = false -> is_blank d = false ->
  TqTrimListItem (c :: s ++ [d]) = c :: s ++ [d].
Proof.
  intros Hc Hd. unfold TqTrimListItem. rewrite skip_leading_id by done.
  rewrite app_comm_cons, rev_app_distr. change (rev [d] ++ rev (c :: s)) with (d :: rev (c :: s)).
  rewrite skip_leading_id by done. simpl. by rewrite rev_app_distr, rev_involutive.
Qed.

Lemma to_string_last n : is_u64 n -> exists s d, to_string n = s ++ [d] /\ isdigit d = true.
Proof.
  intros Hn. destruct (dec_value_to_string n Hn) as (Hd & Hne & _).
  destruct (exists_last Hne) as (s & d & Hs). exists s, d. split; [done|].
  rewrite Hs, forallb_app in Hd. cbn in Hd. by to_prop.
Qed.

Lemma digit_not_blank d : isdigit d = true -> is_blank d = false.
Proof. unfold isdigit, is_blank. intros. to_prop. apply orb_false_iff. lia. Qed.

(** What an endpoint must be like to survive printing as an item of a list. *)
Definition endpoint_ok (e : TqEndpoint) : Prop :=
  host_ok (Host e) /\ 1 <= Port e <= 65535 /\ 44 ∉ Host e /\
  (58 ∉ Host e -> match Host e with c :: _ => is_blank c = false | [] => True end).

Lemma trim_format e : endpoint_ok e -> TqTrimListItem (TqFormatEndpoint e) = TqFormatEndpoint e.
Proof.
  destruct e as [host port]. intros ([Hne _] & Hp & _ & Hb). cbn in *.
  destruct (to_string_last port) as (s & d & Hs & Hd); [widths|].
  apply digit_not_blank in Hd. unfold TqFormatEndpoint. cbn [Host Port]. rewrite Hs.
  destruct (find_char host 58 0) as [j|] eqn:Hf.
  - cbn [app]. rewrite (app_comm_cons _ _ 58), (app_comm_cons _ _ 93), app_assoc. by apply trim_id.
  - apply find_char_pos_none in Hf. rewrite drop_0 in Hf. destruct host as [|c host]; [done|].
    cbn [app]. rewrite (app_comm_cons _ _ 58), app_assoc. apply trim_id; auto.
Qed.

Lemma format_no_comma e : endpoint_ok e -> 44 ∉ TqFormatEndpoint e.
Proof.
  destruct e as [host port]. intros (_ & Hp & Hc & _). cbn in *.
  pose proof (to_string_free port 44 ltac:(widths) eq_refl).
  unfold TqFormatEndpoint. cbn [Host Port]. destruct (find_char host 58 0); set_solver.
Qed.

(** Endpoints separated by commas. *)
Fixpoint list_text (eps : list TqEndpoint) : bytes :=
  match eps with
  | [] => []
  | [e] => TqFormatEndpoint e
  | e :: eps => TqFormatEndpoint e ++ [44] ++ list_text eps
  end.

Lemma split_list_text eps :
  eps <> [] -> Forall endpoint_ok eps -> split_on 44 (list_text eps) = TqFormatEndpoint <$> eps.
Proof.
  intros Hne Hok. induction Hok as [|e eps He Hok IH]; [done|].
  pose proof (format_no_comma e He). destruct eps as [|e' eps]; cbn.
  - by apply split_on_none.
  - rewrite split_on_app by done. f_equal. by apply IH.
Qed.

Lemma parse_items_ok items parsed read :
  Forall (fun e => Host e <> [] /\ 1 <= Port e <= 65535) parsed ->
  parse_items items parsed = inr read ->
  length read = (length parsed + length items)%nat /\
  Forall (fun e => Host e <> [] /\ 1 <= Port e <= 65535) read.
Proof.
  revert parsed. induction items as [|item items IH]; intros parsed Hp; cbn.
  - intros [= <-]. split; [lia|done].
  - destruct (TqParseEndpoint item) as [e|] eqn:He; [|done]. intros Hx.
    apply IH in Hx as [Hl ?]; [rewrite length_app in Hl; cbn in Hl; split; [lia|done]|].
    apply Forall_app. split; [done|]. constructor; [|done]. by eapply parsed_endpoint_ok.
Qed.

(** C15.  A comma-separated list of endpoints is read item by item, blanks around an item
    trimmed, and refused with the first item that is no endpoint; every endpoint read has a
    host and a port between 1 and 65535; and the printed form of a list of endpoints is read
    back as the same list, IPv6 hosts in brackets included. *)
Theorem endpoint_lists_round_trip eps value :
  eps <> [] -> Forall endpoint_ok eps ->
  TqParseEndpointList (list_text eps) = Some (inr eps) /\
  TqParseEndpointList value = Some (parse_items (TqTrimListItem <$> split_on 44 value) []) /\
  (forall read, TqParseEndpointList value = Some (inr read) ->
     length read = length (split_on 44 value) /\
     Forall (fun e => Host e <> [] /\ 1 <= Port e <= 65535) read).
Proof.
  intros Hne Hok. split_and!; [|apply endpoint_list_items|].
  - rewrite endpoint_list_items, split_list_text by done. f_equal.
    apply (parse_items_app _ _ []). rewrite <- list_fmap_compose. apply Forall2_fmap_l.
    eapply Forall_Forall2_diag, Forall_impl; [done|]. intros e He. cbn.
    rewrite trim_format by done. destruct He as (? & ? & _). by apply endpoint_roundtrip.
  - intros read. rewrite endpoint_list_items. intros [= Hr].
    rewrite <- (length_fmap TqTrimListItem (split_on 44 value)).
    by apply parse_items_ok in Hr.
Qed.

(** ** Client slots: lemmas *)

Lemma peer_slots_eq peers n :
  peers <> [] ->
  length (peer_slots peers n) = n /\
  forall i, (i < n)%nat ->
    peer_slots peers n !! i = slot_of (str "default") [] <$> peers !! (i mod length peers)%nat.
Proof.
  intros Hne. assert (Hl : (length peers <> 0)%nat) by (by destruct peers).
  assert (Hsome : forall i, exists e, peers !! (i mod length peers)%nat = Some e).
  { intros i. apply lookup_lt_is_Some_2. by apply Nat.mod_upper_bound. }
  unfold peer_slots. induction n as [|n [IHl IHi]]; [split; [done|lia]|].
  rewrite seq_S, flat_map_app, length_app. cbn [plus flat_map].
  destruct (Hsome n) as [e He]. rewrite He. cbn [app length]. split; [lia|].
  intros i Hi. destruct (decide (i = n)) as [->|].
  - rewrite He. rewrite lookup_app_r by lia. by rewrite IHl, Nat.sub_diag.
  - rewrite lookup_app_l by lia. apply IHi. lia.
Qed.

(** How many of the first [n] connections go to peer [j] of [k]. *)
Definition share (n k j : nat) : nat :=
  length (List.filter (fun i => (i mod k =? j)%nat) (seq 0 n)).

Lemma share_eq n k j :
  (j < k)%nat -> share n k j = (n / k + Nat.b2n (j <? n mod k)%nat)%nat.
Proof.
  intros Hj. induction n as [|n IH].
  - cbn. rewrite Nat.Div0.mod_0_l, Nat.Div0.div_0_l. done.
  - unfold share in *. rewrite seq_S, List.filter_app, length_app, IH. cbn [plus].
    pose proof (Nat.div_mod_eq n k). pose proof (Nat.mod_upper_bound n k ltac:(lia)).
    assert (Hs : (S n / k = if n mod k =? k - 1 then S (n / k) else n / k)%nat /\
                 (S n mod k = if n mod k =? k - 1 then 0 else S (n mod k))%nat).
    { destruct (n mod k =? k - 1)%nat eqn:E; to_prop_nat.
      - split; symmetry; [eapply (Nat.div_unique _ _ _ 0)|eapply (Nat.mod_unique _ _ (S (n / k)))]; nia.
      - split; symmetry; [eapply (Nat.div_unique _ _ _ (S (n mod k)))|
                          eapply (Nat.mod_unique _ _ (n / k))]; nia. }
    destruct Hs as [-> ->]. cbn [List.filter].
    clear IH. generalize dependent (n mod k)%nat. generalize (n / k)%nat. intros q m _ Hm.
    destruct (Nat.eqb_spec m j), (Nat.eqb_spec m (k - 1)), (Nat.ltb_spec j m); cbn [length Nat.b2n];
      repeat match goal with |- context [(?x <? ?y)%nat] => destruct (Nat.ltb_spec x y) end;
      cbn [Nat.b2n]; lia.
Qed.

(** The first path at fault, and the error that names it. *)
Definition path_fault (paths : list TqQuicPathConfig) (err : bytes) : Prop :=
  exists before p after, paths = before ++ p :: after /\
    Forall (fun p => Connections p <> 0 /\ is_Some (TqParseEndpoint (Peer p))) before /\
    (Connections p = 0 /\ err = str "path connections must be greater than zero: " ++ Name p \/
     Connections p <> 0 /\ TqParseEndpoint (Peer p) = None /\
     err = str "invalid path peer: " ++ Peer p).

Lemma path_slots_spec paths expanded :
  match path_slots paths expanded with
  | inl err => path_fault paths err
  | inr slots => exists eps,
      Forall2 (fun p e => Connections p <> 0 /\ TqParseEndpoint (Peer p) = Some e) paths eps /\
      slots = expanded ++ concat (zip_with (fun p e =>
        replicate (Z.to_nat (Connections p)) (slot_of (Name p) (LocalAddress p) e)) paths eps)
  end.
Proof.
  revert expanded. induction paths as [|p paths IH]; intros expanded; cbn [path_slots].
  { exists []. split; [constructor|]. by rewrite app_nil_r. }
  destruct (Connections p =? 0) eqn:Hc; to_prop.
  { exists [], p, paths. split_and!; [done|constructor|by left]. }
  destruct (TqParseEndpoint (Peer p)) as [e|] eqn:He.
  2:{ exists [], p, paths. split_and!; [done|constructor|by right]. }
  specialize (IH (expanded ++ replicate (Z.to_nat (Connections p))
    (slot_of (Name p) (LocalAddress p) e))).
  destruct (path_slots paths _) as [err|slots].
  - destruct IH as (l & q & k & -> & Hl & Hq). exists (p :: l), q, k. split_and!; [done| |done].
    constructor; [|done]. rewrite He. by split.
  - destruct IH as (eps & H2 & ->). exists (e :: eps). split; [by constructor|].
    cbn. by rewrite <- app_assoc.
Qed.

(** The first item that is no endpoint, and the error that names it. *)
Definition item_fault (items : list bytes) (err : bytes) : Prop :=
  exists before item after, items = before ++ item :: after /\
    Forall (fun i => is_Some (TqParseEndpoint i)) before /\ TqParseEndpoint item = None /\
    err = str "invalid endpoint: " ++ item.

Lemma parse_items_error items parsed err :
  parse_items items parsed = inl err -> item_fault items err.
Proof.
  revert parsed. induction items as [|item items IH]; intros parsed; cbn; [done|].
  destruct (TqParseEndpoint item) as [e|] eqn:He.
  - intros (l & i & k & -> & Hl & Hi & Herr)%IH. exists (item :: l), i, k. split_and!; [done| |done..].
    constructor; [|done]. by rewrite He.
  - intros [= <-]. exists [], item, items. split_and!; [done|constructor|done..].
Qed.

(** C6.  The slots of a client's connections always come out, or an error that names the first
    number or endpoint at fault: the path without connections, the peer text of a path, the
    missing number of connections, the item of the peer list.  With paths, each path
    contributes its number of connections to its own peer.  Without, there are exactly
    [QuicConnections] slots, slot [i] goes to peer [i] modulo the number of peers, and every
    peer gets the same number of connections up to one.  (The numbers of connections are
    unsigned in the sources.) *)
Theorem client_slots_are_shared_evenly cfg :
  Forall (fun p => 0 <= Connections p) (QuicPaths cfg) ->
  match TqBuildClientSlotPaths cfg with
  | None => False
  | Some (inl err) =>
      QuicPaths cfg <> [] /\ path_fault (QuicPaths cfg) err \/
      QuicPaths cfg = [] /\
        (QuicConnections cfg = 0 /\ err = str "quic connections must be greater than zero" \/
         QuicConnections cfg <> 0 /\
         item_fault (TqTrimListItem <$> split_on 44 (QuicPeer cfg)) err)
  | Some (inr slots) =>
      (QuicPaths cfg <> [] -> exists eps,
         Forall2 (fun p e => TqParseEndpoint (Peer p) = Some e) (QuicPaths cfg) eps /\
         slots = concat (zip_with (fun p e => replicate (Z.to_nat (Connections p))
           (slot_of (Name p) (LocalAddress p) e)) (QuicPaths cfg) eps)) /\
      (QuicPaths cfg = [] -> exists peers,
         TqParseEndpointList (QuicPeer cfg) = Some (inr peers) /\ peers <> [] /\
         length slots = Z.to_nat (QuicConnections cfg) /\
         (forall i, (i < length slots)%nat ->
            slots !! i = slot_of (str "default") [] <$> peers !! (i mod length peers)%nat) /\
         (forall j, (j < length peers)%nat ->
            let n := share (length slots) (length peers) j in
            n = (length slots / length peers)%nat \/ n = S (length slots / length peers)))
  end.
Proof.
  intros Hpos. unfold TqBuildClientSlotPaths. destruct (QuicPaths cfg) as [|p paths] eqn:Hp.
  - destruct (QuicConnections cfg =? 0) eqn:Hc; to_prop.
    { right. split; [done|]. by left. }
    rewrite endpoint_list_items. set (items := TqTrimListItem <$> _).
    destruct (parse_items items []) as [err|peers] eqn:Hi.
    { pose proof (parse_items_error _ _ _ Hi) as He. destruct err.
      { destruct He as (? & ? & ? & _ & _ & _ & He). discriminate He. }
      right. split; [done|]. by right. }
    assert (Hne : peers <> []).
    { intros ->. apply parse_items_ok in Hi as [Hl _]; [|constructor]. unfold items in Hl.
      destruct (QuicPeer cfg) as [|c q]; [done|]. cbn [split_on] in Hl.
      destruct (c =? 44); [done|]. by destruct (split_on 44 q). }
    destruct peers as [|e peers]; [done|]. set (ps := e :: peers) in *.
    destruct (peer_slots_eq ps (Z.to_nat (QuicConnections cfg)) Hne) as [Hl Hs].
    split; [done|]. intros _. exists ps. split_and!; try done.
    + intros i Hi'. apply Hs. by rewrite Hl in Hi'.
    + intros j Hj. cbv zeta. rewrite share_eq by done.
      destruct (j <? _)%nat; cbn; lia.
  - pose proof (path_slots_spec (p :: paths) []) as Hs.
    destruct (path_slots (p :: paths) []) as [err|slots]; [by left|].
    destruct Hs as (eps & H2 & ->). cbn [app] in *.
    destruct (concat _) as [|s0 slots] eqn:Hcat.
    + exfalso. apply Forall_cons_1 in Hpos as [Hpos _].
      apply Forall2_cons_inv_l in H2 as (e & eps' & [Hn _] & _ & ->).
      cbn in Hcat. apply app_eq_nil in Hcat as [Hr _]. apply (f_equal length) in Hr.
      rewrite length_replicate in Hr. cbn in Hr. lia.
    + split; [|done]. intros _. exists eps. split; [|done].
      eapply Forall2_impl; [exact H2|]. by intros ? ? [].
Qed.

(** ** Listens: what MsQuic promises *)

Class QuicAddrLaws (QUIC_ADDR : Type) `{QuicAddrApi QUIC_ADDR} := {
  family_u16 (a : QUIC_ADDR) : is_u16 (QuicAddrGetFamily a);
  port_u16 (a : QUIC_ADDR) : is_u16 (QuicAddrGetPort a);
  (** the setters set, on a zeroed address, which stays the family's wildcard *)
  set_family_port (f p : Z) :
    f ∈ [QUIC_ADDRESS_FAMILY_UNSPEC; QUIC_ADDRESS_FAMILY_INET; QUIC_ADDRESS_FAMILY_INET6] ->
    is_u16 p ->
    let a := QuicAddrSetPort (QuicAddrSetFamily zero_addr f) p in
    QuicAddrGetFamily a = f /\ QuicAddrGetPort a = p /\
    ipv4_is_any a = true /\ ipv6_is_unspecified a = true;
  (** a literal is an IPv4 or IPv6 address with the port given *)
  from_string_spec (s : bytes) (p : Z) (a : QUIC_ADDR) :
    QuicAddrFromString s p = Some a ->
    QuicAddrGetPort a = p /\
    QuicAddrGetFamily a ∈ [QUIC_ADDRESS_FAMILY_INET; QUIC_ADDRESS_FAMILY_INET6];
  (** the text of an address ends in its port *)
  to_string_port (a b : QUIC_ADDR) (t : bytes) :
    QuicAddrToString a = Some t -> QuicAddrToString b = Some t ->
    QuicAddrGetPort a = QuicAddrGetPort b;
}.

(** ** The order of the groups *)

Lemma lex_leb_refl a : lex_leb a a = true.
Proof. induction a as [|x a IH]; cbn; [done|]. by rewrite Z.eqb_refl, IH, orb_true_r. Qed.

Lemma lex_leb_antisym a b : lex_leb a b = true -> lex_leb b a = true -> a = b.
Proof.
  revert b. induction a as [|x a IH]; intros [|y b]; cbn; try done. intros H1 H2.
  destruct (Z.ltb_spec x y), (Z.ltb_spec y x), (Z.eqb_spec x y), (Z.eqb_spec y x); try lia;
    cbn in *; try done. subst. f_equal. by apply IH.
Qed.

Lemma lex_leb_trans a b c : lex_leb a b = true -> lex_leb b c = true -> lex_leb a c = true.
Proof.
  revert b c. induction a as [|x a IH]; intros [|y b] [|z c]; cbn; try done. intros H1 H2.
  destruct (Z.ltb_spec x y), (Z.ltb_spec y z), (Z.ltb_spec x z), (Z.eqb_spec x y),
    (Z.eqb_spec y z), (Z.eqb_spec x z); try lia; cbn in *; try done. by eapply IH.
Qed.

Lemma lex_leb_total a b : lex_leb a b = true \/ lex_leb b a = true.
Proof.
  revert b. induction a as [|x a IH]; intros [|y b]; cbn; auto.
  destruct (Z.ltb_spec x y), (Z.ltb_spec y x); auto.
  replace y with x by lia. rewrite Z.eqb_refl. cbn. auto.
Qed.

(** A separator that is in neither prefix determines the split. *)
Lemma separated_inj (ch : Z) (p p' q q' : bytes) :
  ch ∉ p -> ch ∉ p' -> p ++ ch :: q = p' ++ ch :: q' -> p = p' /\ q = q'.
Proof.
  intros Hp Hp' He. assert (Hl : length p = length p').
  { pose proof (find_char_app p ch q Hp) as H1. rewrite He, find_char_app in H1 by done. congruence. }
  apply app_inj_1 in He as [-> He]; [|done]. by simplify_eq.
Qed.

(** Keys are compared as texts, never computed. *)
#[local] Opaque to_string.

Section ListenLemmas.
Context {QUIC_ADDR : Type} `{QuicAddrLaws QUIC_ADDR}.
Context (getifaddrs : option (list ifaddrs)) (inet_ntop : Z -> bytes -> option bytes).
Notation TqResolvedListen := (@TqResolvedListen QUIC_ADDR).
Notation unique_listens := (@unique_listens QUIC_ADDR).

Definition family (l : TqResolvedListen) : Z := QuicAddrGetFamily (Address l).
Definition port (l : TqResolvedListen) : Z := QuicAddrGetPort (Address l).
Definition listen_key (l : TqResolvedListen) : bytes := TqQuicAddressKey (Address l) (Text l).
Definition group_key (l : TqResolvedListen) : bytes := TqServerBindGroupKey (Address l).
Definition is_wildcard (l : TqResolvedListen) : bool := TqIsWildcardAddress (Address l).

(** The entry for [*], or an address under its own text. *)
Definition listen_ok (l : TqResolvedListen) : Prop :=
  (family l = QUIC_ADDRESS_FAMILY_UNSPEC /\
   Text l = TqFormatEndpoint {| Host := str "*"; Port := port l |}) \/
  (family l ∈ [QUIC_ADDRESS_FAMILY_INET; QUIC_ADDRESS_FAMILY_INET6] /\
   QuicAddrToString (Address l) = Some (Text l)).

Lemma group_key_spec l l' : group_key l = group_key l' <-> family l = family l' /\ port l = port l'.
Proof.
  unfold group_key, TqServerBindGroupKey, family, port.
  split; [|by intros [-> ->]]. intros Hk.
  pose proof (family_u16 (Address l)). pose proof (family_u16 (Address l')).
  pose proof (port_u16 (Address l)). pose proof (port_u16 (Address l')).
  apply separated_inj in Hk as [K1 K2]; try (apply to_string_free; [widths|done]).
  apply to_string_inj in K1, K2; widths.
Qed.

Lemma star_text p :
  TqFormatEndpoint {| Host := str "*"; Port := p |} = str "*:" ++ to_string p.
Proof. reflexivity. Qed.

(** Listens under one key have one port. *)
Lemma listen_key_port l l' :
  listen_ok l -> listen_ok l' -> listen_key l = listen_key l' -> group_key l = group_key l'.
Proof.
  intros Hl Hl' Hk. unfold listen_key, TqQuicAddressKey in Hk.
  pose proof (family_u16 (Address l)). pose proof (family_u16 (Address l')).
  pose proof (port_u16 (Address l)). pose proof (port_u16 (Address l')).
  apply separated_inj in Hk as [K1 K2]; try (apply to_string_free; [widths|done]).
  apply to_string_inj in K1; try widths. apply group_key_spec. split; [done|].
  unfold listen_ok, family in *.
  destruct Hl as [[F1 T1]|[F1 T1]], Hl' as [[F2 T2]|[F2 T2]];
    try (rewrite F1 in K1; rewrite <- K1 in F2; set_solver);
    try (rewrite F2 in K1; rewrite K1 in F1; set_solver).
  - rewrite T1, T2, !star_text in K2. apply app_inv_head in K2.
    apply to_string_inj in K2; [done|unfold port; widths..].
  - rewrite K2 in T1. by eapply to_string_port.
Qed.

(** ** Collecting without duplicates *)

Record uniq (u : unique_listens) : Prop := {
  uniq_seen : forall k, k ∈ seen u <-> k ∈ listen_key <$> resolved u;
  uniq_keys : NoDup (listen_key <$> resolved u);
}.

Lemma uniq_empty : uniq no_listens.
Proof. split; cbn; [done|constructor]. Qed.

Lemma append_unique_spec text a u :
  uniq u ->
  let l := {| Text := text; Address := a |} in
  let u' := (TqAppendUniqueResolvedListen text a u).2 in
  uniq u' /\
  resolved u' = resolved u ++ (if bool_decide (listen_key l ∈ seen u) then [] else [l]).
Proof.
  intros [Hs Hn] l u'. unfold u', TqAppendUniqueResolvedListen.
  change (TqQuicAddressKey a text) with (listen_key l).
  destruct (bool_decide (listen_key l ∈ seen u)) eqn:Hk; to_prop_nat; cbn.
  - rewrite app_nil_r. by split; [split|].
  - split; [|done]. split; cbn.
    + intros k. rewrite fmap_app, elem_of_cons, elem_of_app, Hs. cbn [fmap list_fmap].
      rewrite list_elem_of_singleton. tauto.
    + rewrite fmap_app. apply NoDup_app. split_and!; [done| |apply NoDup_singleton].
      intros k Hk1 Hk2. cbn in Hk2. apply list_elem_of_singleton in Hk2 as ->. apply Hk. by apply Hs.
Qed.

(** Every entry added for an endpoint is well formed. *)
Definition grown (u u' : unique_listens) : Prop :=
  uniq u' /\ exists new, resolved u' = resolved u ++ new /\ Forall listen_ok new.

Lemma grown_refl u : uniq u -> grown u u.
Proof. intros. split; [done|]. exists []. by rewrite app_nil_r. Qed.

Lemma grown_trans u v w : grown u v -> grown v w -> grown u w.
Proof.
  intros [_ (n1 & E1 & F1)] [Hw (n2 & E2 & F2)]. split; [done|]. exists (n1 ++ n2).
  split; [by rewrite E2, E1, app_assoc|]. by apply Forall_app.
Qed.

Lemma grown_append text a u :
  uniq u -> listen_ok {| Text := text; Address := a |} ->
  grown u (TqAppendUniqueResolvedListen text a u).2.
Proof.
  intros Hu Hl. destruct (append_unique_spec text a u Hu) as [Hu' He].
  split; [done|]. eexists. split; [exact He|]. destruct (bool_decide _); auto.
Qed.

Lemma make_addr_ok e a :
  is_u16 (Port e) -> TqMakeQuicAddr e = Some a ->
  if bool_decide (Host e = str "*")
  then listen_ok {| Text := TqFormatEndpoint e; Address := a |}
  else forall t, QuicAddrToString a = Some t -> listen_ok {| Text := t; Address := a |}.
Proof.
  unfold TqMakeQuicAddr. intros Hp. destruct (bool_decide (Host e = str "*")) eqn:Hs; to_prop_nat.
  - intros [= <-]. destruct (set_family_port QUIC_ADDRESS_FAMILY_UNSPEC (Port e)) as (E1 & E2 & _); [set_solver|done|].
    left. unfold family, port. cbn [Address Text]. rewrite E1, E2. split; [done|].
    destruct e as [h p]. cbn in *. by rewrite Hs.
  - intros [E1 E2]%from_string_spec t Ht. right. by split.
Qed.

Lemma grown_resolved e u :
  is_u16 (Port e) -> Host e <> str "*" -> uniq u -> grown u (TqAppendResolvedListen e u).2.
Proof.
  intros Hp Hs Hu. unfold TqAppendResolvedListen.
  destruct (TqMakeQuicAddr e) as [a|] eqn:Ha; [|by apply grown_refl].
  apply make_addr_ok in Ha; [|done]. rewrite bool_decide_eq_false_2 in Ha by done.
  destruct (QuicAddrToString a) as [t|] eqn:Ht; [|by apply grown_refl].
  apply grown_append; auto.
Qed.

(** [inet_ntop] never prints a star. *)
Hypothesis ntop_not_star : forall f a, inet_ntop f a <> Some (str "*").

Lemma collected_not_star f hosts host :
  f = QUIC_ADDRESS_FAMILY_INET \/ f = QUIC_ADDRESS_FAMILY_INET6 ->
  TqCollectLocalAddresses getifaddrs inet_ntop f = hosts -> host ∈ hosts -> host <> str "*".
Proof.
  intros Hf <- Hh. unfold TqCollectLocalAddresses in Hh. rewrite merge_sort_Permutation in Hh.
  replace (if f =? QUIC_ADDRESS_FAMILY_INET then _ else _) with f in Hh
    by (by destruct Hf as [->| ->]).
  unfold TqCollectIfaddrsAddresses in Hh. destruct getifaddrs as [items|]; [|set_solver].
  revert Hh. assert (Hnil : host ∈ @nil bytes -> host <> str "*") by set_solver.
  revert Hnil. generalize (@nil bytes) as acc.
  induction items as [|item items IH]; intros acc Hacc; cbn [foldl]; [done|].
  apply IH. destruct (usable_address inet_ntop f item) as [text|] eqn:Hu; [|done].
  unfold push_unique. destruct (bool_decide _); [done|].
  rewrite elem_of_app, list_elem_of_singleton. intros [?| ->]; [by apply Hacc|].
  intros ->. unfold usable_address in Hu.
  destruct (ifa_addr item) as [[sf addr]|]; [|done]. destruct (_ || _); [done|].
  destruct Hf as [->| ->]; cbn in Hu; repeat case_match; try done; by eapply ntop_not_star.
Qed.

Lemma grown_hosts p hosts b u :
  is_u16 p -> (forall host, host ∈ hosts -> host <> str "*") -> uniq u ->
  grown u (foldl (fun st host =>
    let '(expanded, u) := st in
    let '(added, u) := TqAppendResolvedListen {| Host := host; Port := p |} u in
    (added || expanded, u)) (b, u) hosts).2.
Proof.
  intros Hp. revert b u. induction hosts as [|host hosts IH]; intros b u Hh Hu; cbn [foldl].
  - by apply grown_refl.
  - pose proof (grown_resolved {| Host := host; Port := p |} u Hp ltac:(cbn; set_solver) Hu) as Hg.
    destruct (TqAppendResolvedListen _ u) as [added u'] eqn:Ha. cbn in Hg.
    eapply grown_trans; [exact Hg|]. apply IH; [set_solver|apply Hg].
Qed.

Lemma grown_endpoint e u u' :
  is_u16 (Port e) -> uniq u -> resolve_endpoint getifaddrs inet_ntop e u = inr u' -> grown u u'.
Proof.
  intros Hp Hu. unfold resolve_endpoint.
  destruct (bool_decide (Host e = str "*")) eqn:Hs.
  - destruct (TqMakeQuicAddr e) as [a|] eqn:Ha; [|done]. intros [= <-].
    apply make_addr_ok in Ha; [|done]. rewrite Hs in Ha. by apply grown_append.
  - destruct (TqIsIpv4Wildcard e || TqIsIpv6Wildcard e).
    + set (f := if TqIsIpv4Wildcard e then _ else _).
      destruct (TqCollectLocalAddresses getifaddrs inet_ntop f) as [|h hs] eqn:Hc; [done|].
      pose proof (grown_hosts (Port e) (h :: hs) false u Hp) as Hg. unfold expand_hosts.
      destruct (foldl _ (false, u) (h :: hs)) as [expanded u2]. destruct expanded; [|done].
      intros [= <-]. apply Hg; [|done]. intros host.
      eapply collected_not_star; [|exact Hc]. unfold f. destruct (TqIsIpv4Wildcard e); auto.
    + destruct (TqMakeQuicAddr e) as [a|] eqn:Ha; [|done].
      destruct (QuicAddrToString a) as [t|] eqn:Ht; [|done]. intros [= <-].
      apply make_addr_ok in Ha; [|done]. rewrite Hs in Ha. apply grown_append; auto.
Qed.

Lemma resolved_listens_ok value listens :
  TqResolveServerListenList getifaddrs inet_ntop value = Some (inr listens) ->
  Forall listen_ok listens /\ NoDup (listen_key <$> listens).
Proof.
  unfold TqResolveServerListenList. destruct (TqParseEndpointList value) as [[err|eps]|] eqn:Hp;
    try done. intros [= Hr].
  assert (Hports : Forall (fun e => is_u16 (Port e)) eps).
  { rewrite endpoint_list_items in Hp. simplify_eq.
    apply parse_items_ok in Hp as [_ Hp]; [|constructor].
    eapply Forall_impl; [exact Hp|]. intros e [_ ?]. widths. }
  assert (Hgo : forall u u', uniq u -> resolve_loop getifaddrs inet_ntop eps u = inr u' -> grown u u').
  { clear Hp Hr. induction Hports as [|e eps He _ IH]; intros u u' Hu; cbn.
    - intros [= <-]. by apply grown_refl.
    - destruct (resolve_endpoint _ _ e u) as [|u1] eqn:H1; [done|]. intros H2.
      apply grown_endpoint in H1; [|done|done]. eapply grown_trans; [exact H1|].
      apply IH; [apply H1|done]. }
  destruct (resolve_loop _ _ eps no_listens) as [|u] eqn:Hl; [done|]. simplify_eq.
  apply Hgo in Hl as [[_ Hn] (new & Hx & Hf)]; [|apply uniq_empty].
  split; [by rewrite Hx|done].
Qed.

(** ** Grouping *)

Notation groups := (list (bytes * list TqResolvedListen)).

(** Keys in increasing order; each group is its key's part of the listens. *)
Record grouped (ls : list TqResolvedListen) (gs : groups) : Prop := {
  grouped_sorted : StronglySorted (fun a b => lex_leb a.1 b.1 = true /\ a.1 <> b.1) gs;
  grouped_part : forall k g, (k, g) ∈ gs -> g = filter (fun l => group_key l = k) ls /\ g <> [];
  grouped_all : forall l, l ∈ ls -> exists g, (group_key l, g) ∈ gs;
}.

Lemma push_group_elem key (l : TqResolvedListen) (gs : groups) k g :
  StronglySorted (fun a b => lex_leb a.1 b.1 = true /\ a.1 <> b.1) gs ->
  (k, g) ∈ push_group key l gs <->
  (k <> key /\ (k, g) ∈ gs) \/
  (k = key /\ ((exists old, (key, old) ∈ gs /\ g = old ++ [l]) \/
               ((forall old, (key, old) ∉ gs) /\ g = [l]))).
Proof.
  intros Hs. induction Hs as [|[k0 g0] gs Hs IH Hall]; cbn [push_group].
  { rewrite list_elem_of_singleton. split.
    - intros [= -> ->]. right. split; [done|]. right. set_solver.
    - intros [[_ Hx]|[-> [(old & Hx & _)|[_ ->]]]]; [by apply elem_of_nil in Hx|by apply elem_of_nil in Hx|done]. }
  rewrite Forall_forall in Hall.
  assert (Hnot : forall old, (k0, old) ∉ gs).
  { intros old Hin. by destruct (Hall _ Hin) as [_ ?]. }
  destruct (bool_decide (k0 = key)) eqn:Hk; to_prop_nat; [subst k0|].
  { rewrite !elem_of_cons. split.
    - intros [[= -> ->]|Hin].
      + right. split; [done|]. left. exists g0. split; [by apply elem_of_cons; left|done].
      + left. split; [|by right]. intros ->. by eapply Hnot.
    - intros [[Hne [[= -> ->]|Hin]]|[-> [(old & [[= ->]|Hin]%elem_of_cons & ->)|[Hno _]]]].
      + done.
      + by right.
      + by left.
      + by apply Hnot in Hin.
      + exfalso. apply (Hno g0). by apply elem_of_cons; left. }
  destruct (lex_leb key k0) eqn:Hle.
  - assert (Hkey : forall old, (key, old) ∉ (k0, g0) :: gs).
    { intros old [[= -> _]|Hin]%elem_of_cons; [done|].
      destruct (Hall _ Hin) as [Hlt _]. cbn in Hlt. apply Hk. by apply lex_leb_antisym. }
    rewrite elem_of_cons. split.
    + intros [[= -> ->]|Hin]; [right; auto|]. left. split; [|done]. intros ->. by eapply Hkey.
    + intros [[_ Hin]|[-> [(old & Hin & _)|[_ ->]]]]; [by right|by apply Hkey in Hin|by left].
  - rewrite elem_of_cons, IH. clear IH. split.
    + intros [[= -> ->]|[[Hne Hin]|[-> [(old & Hin & ->)|[Hno ->]]]]].
      * left. split; [done|by apply elem_of_cons; left].
      * left. split; [done|by apply elem_of_cons; right].
      * right. split; [done|]. left. exists old. split; [by apply elem_of_cons; right|done].
      * right. split; [done|]. right. split; [|done].
        intros old [[= -> _]|Hin]%elem_of_cons; [done|]. by eapply Hno.
    + intros [[Hne [[= -> ->]|Hin]%elem_of_cons]|[-> [(old & [[= -> _]|Hin]%elem_of_cons & ->)|[Hno ->]]]].
      * by left.
      * right. by left.
      * done.
      * right. right. split; [done|]. left. by exists old.
      * right. right. split; [done|]. right. split; [|done]. intros old Hin. apply (Hno old).
        by apply elem_of_cons; right.
Qed.

Lemma push_group_sorted key (l : TqResolvedListen) (gs : groups) :
  StronglySorted (fun a b => lex_leb a.1 b.1 = true /\ a.1 <> b.1) gs ->
  StronglySorted (fun a b => lex_leb a.1 b.1 = true /\ a.1 <> b.1) (push_group key l gs).
Proof.
  intros Hs. induction Hs as [|[k0 g0] gs Hs IH Hall]; cbn [push_group]; [repeat constructor|].
  destruct (bool_decide (k0 = key)) eqn:Hk; to_prop_nat; [by constructor|].
  destruct (lex_leb key k0) eqn:Hle.
  - constructor; [by constructor|]. rewrite Forall_forall in Hall |- *.
    intros [k g] [[= -> ->]|Hin]%elem_of_cons; [by split|]. destruct (Hall _ Hin) as [Hlt Hne].
    cbn in *. split; [by eapply lex_leb_trans|]. intros ->. apply Hk. by apply lex_leb_antisym.
  - constructor; [done|]. rewrite Forall_forall in Hall |- *. intros [k g].
    rewrite push_group_elem by done. intros [[_ Hin]|[-> _]]; [by apply (Hall (k, g))|].
    cbn. split; [|done]. destruct (lex_leb_total key k0); [congruence|done].
Qed.

Lemma grouped_push ls gs l :
  grouped ls gs -> grouped (ls ++ [l]) (push_group (group_key l) l gs).
Proof.
  intros [Hs Hp Ha]. split; [by apply push_group_sorted| |].
  - intros k g. rewrite push_group_elem by done. rewrite filter_app.
    intros [[Hne Hin]|[-> [(old & Hin & ->)|[Hno ->]]]].
    + rewrite filter_cons_False, filter_nil, app_nil_r by congruence. by apply Hp.
    + rewrite filter_cons_True, filter_nil by done. apply Hp in Hin as [<- _].
      split; [done|]. by destruct old.
    + rewrite filter_cons_True, filter_nil by done. split; [|done].
      destruct (filter (fun l' => group_key l' = group_key l) ls) as [|l' r] eqn:Hf; [done|].
      assert (Hin : l' ∈ filter (fun l' => group_key l' = group_key l) ls) by (rewrite Hf; set_solver).
      apply list_elem_of_filter in Hin as [Hk Hl']. apply Ha in Hl' as [g' Hg'].
      rewrite Hk in Hg'. exact (False_ind _ (Hno _ Hg')).
  - intros l' [Hl'|Hl']%elem_of_app.
    + apply Ha in Hl' as [g Hg]. destruct (decide (group_key l' = group_key l)) as [Heq|Hne].
      * exists (g ++ [l]). apply push_group_elem; [done|]. right. split; [done|].
        left. exists g. split; [rewrite <- Heq; exact Hg|reflexivity].
      * exists g. apply push_group_elem; [done|]. left. split; assumption.
    + apply list_elem_of_singleton in Hl' as ->.
      destruct (decide (group_key l ∈ gs.*1)) as [Hin|Hno].
      * apply list_elem_of_fmap in Hin as ([k g] & -> & Hin). exists (g ++ [l]).
        apply push_group_elem; [done|]. right. split; [done|]. left. by exists g.
      * exists [l]. apply push_group_elem; [done|]. right. split; [done|]. right.
        split; [|done]. intros old Hin. apply Hno. apply list_elem_of_fmap. by exists (group_key l, old).
Qed.

Lemma bind_groups_grouped ls : grouped ls (bind_groups ls).
Proof.
  induction ls as [|l ls IH] using rev_ind.
  - split; [constructor| |]; intros; by apply elem_of_nil in H1 || idtac.
  - unfold bind_groups. rewrite foldl_app. by apply grouped_push.
Qed.

(** ** Binding *)

(** What a group of listens on one family and port is bound as. *)
Definition binds_of (group : list TqResolvedListen) : list TqResolvedListen :=
  match group with
  | [] => []
  | first :: _ =>
      if (1 <? length group)%nat && negb (existsb is_wildcard group) then
        match TqMakeWildcardAddrForFamily (family first) (port first) with
        | None => group
        | Some wildcard =>
            match QuicAddrToString wildcard with
            | None => group
            | Some text => [{| Text := text; Address := wildcard |}]
            end
        end
      else group
  end.

(** A group of the listens: well formed, distinct, on one family and port. *)
Record group_ok (k : bytes) (g : list TqResolvedListen) : Prop := {
  group_listens : Forall listen_ok g;
  group_keys : NoDup (listen_key <$> g);
  group_same : Forall (fun l => group_key l = k) g;
}.

Lemma unspec_is_wildcard l : family l = QUIC_ADDRESS_FAMILY_UNSPEC -> is_wildcard l = true.
Proof. unfold is_wildcard, TqIsWildcardAddress. fold (family l). by intros ->. Qed.

Lemma make_wildcard_spec f p w :
  f ∈ [QUIC_ADDRESS_FAMILY_INET; QUIC_ADDRESS_FAMILY_INET6] -> is_u16 p ->
  TqMakeWildcardAddrForFamily f p = Some w ->
  QuicAddrGetFamily w = f /\ QuicAddrGetPort w = p /\ TqIsWildcardAddress w = true.
Proof.
  intros Hf Hp. unfold TqMakeWildcardAddrForFamily.
  destruct (set_family_port f p) as (E1 & E2 & E3 & E4); [by apply elem_of_cons; right|done|].
  destruct (QuicAddrToString _); [|done]. intros [= <-]. split_and!; [done..|].
  unfold TqIsWildcardAddress. rewrite E1, E3, E4.
  repeat rewrite elem_of_cons in Hf. rewrite elem_of_nil in Hf.
  destruct Hf as [->|[->|[]]]; done.
Qed.

(** A group is bound as it is, or replaced by one wildcard. *)
Lemma binds_of_cases k g :
  group_ok k g ->
  binds_of g = g \/
  exists b, binds_of g = [b] /\ listen_ok b /\ group_key b = k /\ is_wildcard b = true /\
    (1 < length g)%nat /\ existsb is_wildcard g = false.
Proof.
  intros [Hl _ Hs]. destruct g as [|first g]; [by left|]. unfold binds_of.
  apply Forall_cons_1 in Hl as [Hl _]. apply Forall_cons_1 in Hs as [Hs _].
  destruct (_ && _) eqn:Hc; [|by left]. apply andb_true_iff in Hc as [Hc1 Hc2]. to_prop_nat.
  destruct (TqMakeWildcardAddrForFamily _ _) as [w|] eqn:Hw; [|by left].
  destruct (QuicAddrToString w) as [t|] eqn:Ht; [|by left].
  right. exists {| Text := t; Address := w |}.
  assert (Hf : family first ∈ [QUIC_ADDRESS_FAMILY_INET; QUIC_ADDRESS_FAMILY_INET6]).
  { destruct Hl as [[Hu _]|[Hu _]]; [|done]. apply unspec_is_wildcard in Hu.
    cbn in Hc2. by rewrite Hu in Hc2. }
  apply make_wildcard_spec in Hw as (E1 & E2 & E3); [|done|apply port_u16].
  split; [reflexivity|]. split; [right; unfold family; cbn; by rewrite E1|].
  split; [rewrite <- Hs; apply group_key_spec; by split|].
  split; [exact E3|]. split; assumption.
Qed.

Lemma binds_of_ok k g b : group_ok k g -> b ∈ binds_of g -> listen_ok b /\ group_key b = k.
Proof.
  intros Hg. destruct (binds_of_cases k g Hg) as [->|(w & -> & ? & ? & _)].
  - destruct Hg as [Hl _ Hs]. rewrite Forall_forall in Hl, Hs. auto.
  - rewrite list_elem_of_singleton. by intros ->.
Qed.

Lemma append_all_spec g u :
  uniq u -> NoDup (listen_key <$> g) -> (forall l, l ∈ g -> listen_key l ∉ seen u) ->
  uniq (append_all g u) /\ resolved (append_all g u) = resolved u ++ g.
Proof.
  revert u. induction g as [|l g IH]; intros u Hu Hn Hs.
  { by rewrite app_nil_r. }
  cbn in Hn. apply NoDup_cons in Hn as [Hl Hn].
  destruct (append_unique_spec (Text l) (Address l) u Hu) as [Hu' He]. cbv zeta in He.
  replace {| Text := Text l; Address := Address l |} with l in He by (by destruct l).
  rewrite bool_decide_eq_false_2 in He by (apply Hs, elem_of_cons; by left).
  unfold append_all. cbn [foldl]. fold (append_all g (TqAppendUniqueResolvedListen (Text l) (Address l) u).2).
  destruct (IH _ Hu' Hn) as [HA HB].
  - intros l' Hl' Hk. apply (uniq_seen _ Hu') in Hk. rewrite He, fmap_app, elem_of_app in Hk.
    destruct Hk as [Hk|Hk].
    + apply (Hs l'); [apply elem_of_cons; by right|]. by apply (uniq_seen _ Hu).
    + cbn in Hk. apply list_elem_of_singleton in Hk. apply Hl. rewrite <- Hk.
      apply list_elem_of_fmap. by exists l'.
  - split; [done|]. by rewrite HB, He, <- app_assoc.
Qed.

Lemma bind_group_spec k g u :
  group_ok k g -> uniq u ->
  (forall b, b ∈ resolved u -> listen_ok b /\ group_key b <> k) ->
  uniq (bind_group g u) /\ resolved (bind_group g u) = resolved u ++ binds_of g.
Proof.
  intros Hg Hu Hb.
  assert (Hfresh : forall l, listen_ok l -> group_key l = k -> listen_key l ∉ seen u).
  { intros l Hl Hk Hin. apply (uniq_seen _ Hu), list_elem_of_fmap in Hin as (b & Hkey & Hin).
    destruct (Hb b Hin) as [Hbl Hbk]. apply Hbk. rewrite <- Hk. symmetry. by apply listen_key_port. }
  pose proof (binds_of_ok k g) as Hspec. pose proof Hg as [Hl Hn Hs].
  rewrite Forall_forall in Hl, Hs.
  assert (Hall : uniq (append_all g u) /\ resolved (append_all g u) = resolved u ++ g).
  { apply append_all_spec; auto. }
  destruct g as [|first g]; [cbn; by rewrite app_nil_r|].
  unfold bind_group. unfold binds_of in *. unfold is_wildcard, family, port in *.
  destruct (_ && _); [|done]. destruct (TqMakeWildcardAddrForFamily _ _) as [w|]; [|done].
  destruct (QuicAddrToString w) as [t|]; [|done].
  destruct (append_unique_spec t w u Hu) as [Hu' He]. split; [done|]. rewrite He.
  destruct (Hspec {| Text := t; Address := w |} Hg) as [G1 G2];
    [by apply list_elem_of_singleton|].
  by rewrite bool_decide_eq_false_2 by (apply Hfresh; [exact G1|exact G2]).
Qed.

Lemma bind_all_spec gs u :
  StronglySorted (fun a b => lex_leb a.1 b.1 = true /\ a.1 <> b.1) gs ->
  (forall k g, (k, g) ∈ gs -> group_ok k g) -> uniq u ->
  (forall b, b ∈ resolved u -> listen_ok b /\ group_key b ∉ gs.*1) ->
  let u' := foldl (fun binds item => bind_group item.2 binds) u gs in
  uniq u' /\ resolved u' = resolved u ++ concat (binds_of <$> gs.*2).
Proof.
  intros Hs. revert u. induction Hs as [|[k g] gs Hs IH Hall]; intros u Hg Hu Hb; cbn [foldl].
  { cbn. by rewrite app_nil_r. }
  rewrite Forall_forall in Hall.
  assert (Hgk : group_ok k g) by (apply Hg, elem_of_cons; by left).
  destruct (bind_group_spec k g u Hgk Hu) as [Hu1 He1].
  { intros b Hin. destruct (Hb b Hin) as [? Hn]. split; [done|]. intros Hk. apply Hn.
    rewrite Hk. cbn. apply elem_of_cons. by left. }
  destruct (IH (bind_group g u)) as [Hu2 He2]; [|done| |].
  - intros k' g' Hin. apply Hg, elem_of_cons. by right.
  - intros b. rewrite He1, elem_of_app. intros [Hin|Hin].
    + destruct (Hb b Hin) as [? Hn]. split; [done|]. intros Hx. apply Hn. cbn. apply elem_of_cons.
      by right.
    + apply (binds_of_ok k) in Hin as [? ->]; [|done]. split; [done|].
      rewrite list_elem_of_fmap. intros ([k' g'] & -> & Hin'). by destruct (Hall _ Hin').
  - cbv zeta in *. cbn [snd]. split; [done|]. rewrite He2, He1. cbn. by rewrite app_assoc.
Qed.

Lemma NoDup_fmap_filter (P : TqResolvedListen -> Prop) `{forall l, Decision (P l)} ls :
  NoDup (listen_key <$> ls) -> NoDup (listen_key <$> filter P ls).
Proof.
  intros Hn. induction ls as [|l ls IH]; [done|]. cbn in Hn. apply NoDup_cons in Hn as [Hl Hn].
  rewrite filter_cons. destruct (decide (P l)); [|auto]. cbn. apply NoDup_cons. split; [|auto].
  intros Hin. apply Hl. apply list_elem_of_fmap in Hin as (l' & -> & Hin).
  apply list_elem_of_filter in Hin as [_ Hin]. apply list_elem_of_fmap. by exists l'.
Qed.

(** The bind list is what the groups are bound as, nothing lost to the duplicate check. *)
Lemma bind_list_eq ls :
  Forall listen_ok ls -> NoDup (listen_key <$> ls) ->
  (forall k g, (k, g) ∈ bind_groups ls -> group_ok k g) /\
  NoDup (listen_key <$> TqBuildServerListenerBindList ls) /\
  TqBuildServerListenerBindList ls = concat (binds_of <$> (bind_groups ls).*2).
Proof.
  intros Hl Hn. destruct (bind_groups_grouped ls) as [Hs Hp Ha].
  assert (Hg : forall k g, (k, g) ∈ bind_groups ls -> group_ok k g).
  { intros k g Hin. apply Hp in Hin as [-> _]. split.
    - rewrite Forall_forall in Hl |- *. intros l [_ ?]%list_elem_of_filter. auto.
    - by apply NoDup_fmap_filter.
    - apply Forall_forall. by intros l [? _]%list_elem_of_filter. }
  split; [done|].
  destruct (bind_all_spec (bind_groups ls) no_listens Hs Hg uniq_empty) as [[_ G1] G2].
  { cbn. intros b Hb. by apply elem_of_nil in Hb. }
  by split.
Qed.

(** ** Admission *)

Lemma listen_allows_spec ls a :
  listen_allows ls a = true <->
  exists l, l ∈ ls /\ port l = QuicAddrGetPort a /\
    if is_wildcard l
    then family l = QUIC_ADDRESS_FAMILY_UNSPEC \/ family l = QuicAddrGetFamily a
    else QuicAddrCompare (Address l) a = true.
Proof.
  induction ls as [|l ls IH]; cbn.
  { split; [done|]. intros (l & Hl & _). by apply elem_of_nil in Hl. }
  assert (Hcons : (exists l', l' ∈ l :: ls /\ port l' = QuicAddrGetPort a /\
      if is_wildcard l' then family l' = QUIC_ADDRESS_FAMILY_UNSPEC \/
        family l' = QuicAddrGetFamily a else QuicAddrCompare (Address l') a = true) <->
    (port l = QuicAddrGetPort a /\
      if is_wildcard l then family l = QUIC_ADDRESS_FAMILY_UNSPEC \/
        family l = QuicAddrGetFamily a else QuicAddrCompare (Address l) a = true) \/
    listen_allows ls a = true).
  { rewrite IH. split.
    - intros (l' & [->|Hin]%elem_of_cons & ?); [by left|right; by exists l'].
    - intros [?|(l' & ? & ?)]; [exists l|exists l']; (split; [apply elem_of_cons; auto|done]). }
  rewrite Hcons. clear Hcons IH. unfold port, family, is_wildcard.
  destruct (Z.eqb_spec (QuicAddrGetPort (Address l)) (QuicAddrGetPort a)); cbn; [|naive_solver].
  destruct (TqIsWildcardAddress (Address l)).
  - destruct (Z.eqb_spec (QuicAddrGetFamily (Address l)) QUIC_ADDRESS_FAMILY_UNSPEC),
      (Z.eqb_spec (QuicAddrGetFamily (Address l)) (QuicAddrGetFamily a)); cbn; naive_solver.
  - destruct (QuicAddrCompare (Address l) a); naive_solver.
Qed.

Lemma elem_of_concat {A} (x : A) ls : x ∈ concat ls <-> exists l, x ∈ l /\ l ∈ ls.
Proof.
  rewrite list_elem_of_In, in_concat. split; intros (l & X & Y); exists l;
    rewrite ?list_elem_of_In in *; auto.
Qed.

(** C40.  The addresses a server listens on, once resolved, have distinct family and text, and
    the bind list serves every one of them: by itself, or by the one wildcard of its family
    and port that replaces several; and it binds nothing else: no address twice, and next to a
    replacing wildcard none of the addresses it replaces.  A connection is admitted
    exactly when the local address it arrived on is a configured one, so what a replacing
    wildcard accepts beyond them is refused. *)
Theorem server_binds_what_it_admits value listens :
  TqResolveServerListenList getifaddrs inet_ntop value = Some (inr listens) ->
  let binds := TqBuildServerListenerBindList listens in
  NoDup (listen_key <$> listens) /\ NoDup (listen_key <$> binds) /\
  (forall l, l ∈ listens -> exists b, b ∈ binds /\ family b = family l /\ port b = port l /\
     (b = l \/ is_wildcard b = true)) /\
  (forall b, b ∈ binds -> b ∈ listens \/
     is_wildcard b = true /\
     (1 < length (filter (fun l => group_key l = group_key b) listens))%nat /\
     forall l, l ∈ listens -> group_key l = group_key b -> is_wildcard l = false) /\
  (forall b b', b ∈ binds -> b' ∈ binds -> family b' = family b -> port b' = port b ->
     b ∉ listens -> b' = b) /\
  (forall a, TqServerListenAllowsLocalAddress listens (Some a) = true <->
     exists l, l ∈ listens /\ port l = QuicAddrGetPort a /\
       if is_wildcard l
       then family l = QUIC_ADDRESS_FAMILY_UNSPEC \/ family l = QuicAddrGetFamily a
       else QuicAddrCompare (Address l) a = true) /\
  TqServerListenAllowsLocalAddress listens None = false.
Proof.
  intros Hr binds. apply resolved_listens_ok in Hr as [Hl Hn].
  destruct (bind_list_eq listens Hl Hn) as (Hg & Hb & He). fold binds in Hb, He.
  destruct (bind_groups_grouped listens) as [_ Hp Ha].
  assert (Hfrom : forall b, b ∈ binds -> exists g, (group_key b, g) ∈ bind_groups listens /\ b ∈ binds_of g).
  { intros b. rewrite He. intros (bs & Hbs & Hin)%elem_of_concat.
    apply list_elem_of_fmap in Hin as (g & -> & Hin).
    apply list_elem_of_fmap in Hin as ([k g'] & -> & Hin). cbn in Hbs. exists g'.
    destruct (binds_of_ok k g' b (Hg _ _ Hin) Hbs) as [_ ->]. done. }
  split_and!; [done|done| | | |by intros; apply listen_allows_spec|done].
  - intros l Hin. destruct (Ha l Hin) as [g Hgl]. pose proof (Hg _ _ Hgl) as Hok.
    destruct (Hp _ _ Hgl) as [Heq _].
    assert (Hlg : l ∈ g) by (rewrite Heq; by apply list_elem_of_filter).
    assert (Hsub : forall b, b ∈ binds_of g -> b ∈ binds).
    { intros b Hb'. rewrite He. apply elem_of_concat. exists (binds_of g). split; [done|].
      apply list_elem_of_fmap. exists g. split; [done|]. apply list_elem_of_fmap.
      by exists (group_key l, g). }
    destruct (binds_of_cases _ g Hok) as [Hx|(b & Hx & _ & Hk & Hw & _)].
    + exists l. split_and!; auto. apply Hsub. by rewrite Hx.
    + exists b. apply group_key_spec in Hk as [Hf Hq]. split_and!; auto.
      apply Hsub. rewrite Hx. by apply list_elem_of_singleton.
  - intros b (g' & Hin & Hbs)%Hfrom. set (k := group_key b) in *.
    destruct (Hp _ _ Hin) as [Heq _].
    destruct (binds_of_cases k g' (Hg _ _ Hin)) as [Hx|(w & Hx & _ & Hk & Hw & Hlen & Hno)];
      rewrite Hx in Hbs.
    + left. rewrite Heq in Hbs. by apply list_elem_of_filter in Hbs as [_ ?].
    + apply list_elem_of_singleton in Hbs as ->. right.
      rewrite <- Heq. split_and!; [done..|]. intros l Hl' Hlk.
      apply not_true_iff_false. intros Hlw. apply not_true_iff_false in Hno. apply Hno.
      apply existsb_exists. exists l. split; [|done]. apply list_elem_of_In. rewrite Heq.
      apply list_elem_of_filter. split; [congruence|done].
  - intros b b' (g & Hin & Hbs)%Hfrom (g' & Hin' & Hbs')%Hfrom Hf Hpo Hnl.
    assert (group_key b' = group_key b) as Hk by (by apply group_key_spec).
    destruct (Hp _ _ Hin) as [Heq _]. destruct (Hp _ _ Hin') as [Heq' _].
    assert (g' = g) as ->.
    { rewrite Hk in Heq'. etrans; [exact Heq'|symmetry; exact Heq]. }
    destruct (binds_of_cases _ g (Hg _ _ Hin)) as [Hx|(w & Hx & _)]; rewrite Hx in Hbs, Hbs'.
    + destruct Hnl. rewrite Heq in Hbs. by apply list_elem_of_filter in Hbs as [_ ?].
    + apply list_elem_of_singleton in Hbs as ->. by apply list_elem_of_singleton in Hbs' as ->.
Qed.
End ListenLemmas.

(** ** Witnesses *)

Module Demo.
(** A small address type: family, port and the bytes of a literal, none for the wildcard. *)
Record addr := { fam : Z; prt : Z; ip : bytes }.

#[global] Instance addr_eq_dec : EqDecision addr.
Proof. solve_decision. Defined.

Definition literals : list bytes := [str "10.0.0.1"; str "10.0.0.2"; str "10.0.0.3"].

#[global] Instance api : QuicAddrApi addr := {
  zero_addr := {| fam := 0; prt := 0; ip := [] |};
  QuicAddrSetFamily a f := {| fam := f; prt := prt a; ip := ip a |};
  QuicAddrSetPort a p := {| fam := fam a; prt := p; ip := ip a |};
  QuicAddrGetFamily a := u16 (fam a);
  QuicAddrGetPort a := u16 (prt a);
  QuicAddrFromString s p :=
    if bool_decide (s ∈ literals) && bool_decide (is_u16 p)
    then Some {| fam := 2; prt := p; ip := s |} else None;
  QuicAddrToString a := Some (to_string (u16 (prt a)) ++ 58 :: ip a);
  QuicAddrCompare a b := bool_decide (a = b);
  ipv4_is_any a := bool_decide (ip a = []);
  ipv6_is_unspecified a := bool_decide (ip a = []);
}.

#[global] Instance laws : QuicAddrLaws addr.
Proof.
  split.
  - intros a. apply u16_range.
  - intros a. apply u16_range.
  - intros f p Hf Hp. cbn. split_and!; try done; apply u16_small; [|done].
    rewrite !elem_of_cons, elem_of_nil in Hf. by destruct Hf as [->|[->|[->|[]]]].
  - intros s p a. cbn. destruct (bool_decide _) eqn:E1; [|done].
    destruct (bool_decide (is_u16 p)) eqn:E2; [|done]. to_prop_nat. intros [= <-]. cbn.
    split; [by apply u16_small|]. apply elem_of_cons. by left.
  - intros a b t. cbn. intros [= <-] [= Ht].
    apply separated_inj in Ht as [Ht _].
    + apply to_string_inj in Ht; [done|pose proof (u16_range (prt b)); widths
        |pose proof (u16_range (prt a)); widths].
    + apply to_string_free; [pose proof (u16_range (prt b)); widths|done].
    + apply to_string_free; [pose proof (u16_range (prt a)); widths|done].
Qed.

Definition ntop (f : Z) (a : bytes) : option bytes := None.
Definition listens : list TqResolvedListen :=
  match TqResolveServerListenList (QUIC_ADDR := addr) None ntop
          (str "10.0.0.1:443, 10.0.0.2:443,*:8443,10.0.0.1:443") with
  | Some (inr l) => l
  | _ => []
  end.

Definition peers : list TqEndpoint :=
  [{| Host := str "::1"; Port := 443 |}; {| Host := str "example.com"; Port := 8443 |}].
(** A list of peers whose second item has no port. *)
Definition bad_peers : TqConfig :=
  {| QuicPeer := str "a:1,b"; QuicPaths := []; QuicConnections := 3 |}.
End Demo.

Lemma endpoint_lists_round_trip_witness :
  list_text Demo.peers = str "[::1]:443,example.com:8443" /\
  TqParseEndpointList (list_text Demo.peers) = Some (inr Demo.peers) /\
  TqParseEndpointList (str "a:1,b") = Some (inl (str "invalid endpoint: b")).
Proof.
  split; [by vm_compute|]. split; [|by vm_compute].
  apply (endpoint_lists_round_trip Demo.peers (str "a:1,b")); [done|].
  unfold Demo.peers. repeat constructor; cbn; try done; by compute_done.
Defined.

Lemma server_binds_what_it_admits_witness :
  length Demo.listens = 3%nat /\ length (TqBuildServerListenerBindList Demo.listens) = 2%nat /\
  (exists b : @TqResolvedListen Demo.addr, b ∈ TqBuildServerListenerBindList Demo.listens /\ port b = 443 /\ is_wildcard b = true) /\
  TqServerListenAllowsLocalAddress Demo.listens
    (QuicAddrFromString (str "10.0.0.3") 443) = false /\
  NoDup (listen_key <$> TqBuildServerListenerBindList Demo.listens).
Proof.
  split_and!; [by vm_compute..| |by vm_compute|].
  - eexists. split; [apply list_elem_of_further, list_elem_of_here|by vm_compute].
  - apply (server_binds_what_it_admits None Demo.ntop ltac:(done)
      (str "10.0.0.1:443, 10.0.0.2:443,*:8443,10.0.0.1:443")). by vm_compute.
Defined.

Lemma client_slots_are_shared_evenly_witness :
  TqBuildClientSlotPaths Demo.bad_peers = Some (inl (str "invalid endpoint: b")) /\
  item_fault (TqTrimListItem <$> split_on 44 (QuicPeer Demo.bad_peers)) (str "invalid endpoint: b").
Proof.
  assert (Hb : TqBuildClientSlotPaths Demo.bad_peers = Some (inl (str "invalid endpoint: b")))
    by (vm_compute; reflexivity).
  split; [exact Hb|].
  pose proof (client_slots_are_shared_evenly Demo.bad_peers ltac:(constructor)) as H.
  rewrite Hb in H. destruct H as [[H _]|[_ [[H _]|[_ H]]]]; [by destruct H|discriminate H|exact H].
Defined.

Example slots_go_round :
  PeerHost <$> match TqBuildClientSlotPaths
      {| QuicPeer := list_text Demo.peers; QuicPaths := []; QuicConnections := 3 |} with
    | Some (inr slots) => slots | _ => [] end =
  [str "::1"; str "example.com"; str "::1"].
Proof. by vm_compute. Qed.
