(* ===== verification/UvSend.v ===== *)
(** The sending half of the libuv relay, TCP to QUIC (src/src/tunnel/libuv_relay_tcp_to_quic.cpp,
    with the pending-byte ledger and the completion queue of libuv_relay_worker.cpp).

    One worker loop owns the relay, so its handlers are functions on the relay's state; what
    other parties answer (memory, the send-completion reservation, MsQuic's [Send], libuv) is an
    argument of the handler that asks.  This file has the state and the operations below the
    handlers; UvTerminal.v has the terminal protocol and UvRelay.v the handlers and the system
    they form.

    An operation is its fields and the views it owns; dropping one gives its buffers back to the
    budget, as the destructors do.  A relay has its [Worker], [StreamOwner] and [Binding] from
    registration to release.  The compressor is an object behind [ITqCompressor]; its state is
    the calls made on it.  The last fields of [Data] are not in the code: they record the bytes
    read, the units handed to [Submit] and the units MsQuic took, in order.  [OtherRelays] is the
    part of the worker's total that its other relays account for. *)

From stdpp Require Import base list numbers decidable.
From Stdlib Require Import ZArith Lia.
From S2P Require Import Prelude RelayBuffer.

(** ** Data *)

Inductive Call := CompressCall (input : list Z) (endStream : bool) | FlushCall.

(** [ITqCompressor]: what a call appends to the output, given the calls before it; [None] is
    failure. *)
Class ITqCompressor := {
  Compress : list Call -> list Z -> bool -> option (list Z);
  Flush : list Call -> option (list Z) }.

Record Identity := { RelayId : Z; RouteGeneration : Z; ControlGeneration : Z }.

#[global] Instance Identity_eq_dec : EqDecision Identity.
Proof. solve_decision. Defined.

(** What registration fixes. *)
Record Config := {
  RelayIdentity : Identity;
  Compressing : bool;
  TcpReadChunkSize : Z;
  MaxPendingBufferBytes : Z;
  MaxBufferedQuicSendBytes : Z;
  ResumeBufferedQuicSendBytes : Z }.

(** [TqBufferView]: its bytes and what its owner reserved in the budget. *)
Record TqBufferView := { Bytes : list Z; Reserved : Z }.

Inductive TqUvOperationOwnership := Created | Submitted | CompletionClaimed | Completed | Cancelled.

Record TqUvQuicSendOperation := {
  Address : nat;
  OperationIdentity : Identity;
  Views : list TqBufferView;
  TotalBytes : Z;
  Fin : bool;
  CompletionQueued : bool;
  CompletionCancelled : bool;
  Ownership : TqUvOperationOwnership }.

Definition set_Ownership (w : TqUvOperationOwnership) (o : TqUvQuicSendOperation) :=
  {| Address := Address o; OperationIdentity := OperationIdentity o; Views := Views o;
     TotalBytes := TotalBytes o; Fin := Fin o; CompletionQueued := CompletionQueued o;
     CompletionCancelled := CompletionCancelled o; Ownership := w |}.

Definition mark_completed (cancelled : bool) (o : TqUvQuicSendOperation) :=
  {| Address := Address o; OperationIdentity := OperationIdentity o; Views := Views o;
     TotalBytes := TotalBytes o; Fin := Fin o; CompletionQueued := true;
     CompletionCancelled := cancelled; Ownership := Ownership o |}.

(** What one send carries: bytes and whether they end the stream. *)
Definition Unit : Type := list Z * bool.

Definition payload (o : TqUvQuicSendOperation) : Unit := (concat (Bytes <$> Views o), Fin o).

Record Data := {
  TcpReadStarted : bool;
  TcpReadClosed : bool;
  TcpReadPausedByQuicBacklog : bool;
  TcpReadAcquireFailure : TqBufferAcquireFailure;
  TcpReadBuffers : list (nat * Z);
  PendingTcpReadBytes : Z;
  CompressorCalls : list Call;
  QuicSends : list TqUvQuicSendOperation;
  PendingQuicSendRetries : list TqUvQuicSendOperation;
  PendingQuicSendBytes : Z;
  AccountedTcpToQuicBytes : Z;
  QuicFinSubmitted : bool;
  QuicFinCompleted : bool;
  PendingBufferBytes : Z;
  AllocateCount : Z;
  TcpToQuicPendingBytes_ : Z;
  Completions : list nat;
  NextAddress : nat;
  TcpReadBytes_ : Z;
  CompressedTcpBytes_ : Z;
  TcpToQuicCompressFailures_ : Z;
  OtherRelays : Z;
  tcp_input : list Z;
  produced : list Unit;
  accepted : list Unit }.

Definition set_TcpReadStarted (v : bool) (d : Data) : Data :=
  {| TcpReadStarted := v; TcpReadClosed := TcpReadClosed d;
     TcpReadPausedByQuicBacklog := TcpReadPausedByQuicBacklog d;
     TcpReadAcquireFailure := TcpReadAcquireFailure d; TcpReadBuffers := TcpReadBuffers d;
     PendingTcpReadBytes := PendingTcpReadBytes d; CompressorCalls := CompressorCalls d;
     QuicSends := QuicSends d; PendingQuicSendRetries := PendingQuicSendRetries d;
     PendingQuicSendBytes := PendingQuicSendBytes d;
     AccountedTcpToQuicBytes := AccountedTcpToQuicBytes d;
     QuicFinSubmitted := QuicFinSubmitted d; QuicFinCompleted := QuicFinCompleted d;
     PendingBufferBytes := PendingBufferBytes d; AllocateCount := AllocateCount d;
     TcpToQuicPendingBytes_ := TcpToQuicPendingBytes_ d; Completions := Completions d;
     NextAddress := NextAddress d; TcpReadBytes_ := TcpReadBytes_ d;
     CompressedTcpBytes_ := CompressedTcpBytes_ d;
     TcpToQuicCompressFailures_ := TcpToQuicCompressFailures_ d; OtherRelays := OtherRelays d;
     tcp_input := tcp_input d; produced := produced d; accepted := accepted d |}.
Definition set_TcpReadClosed (v : bool) (d : Data) : Data :=
  {| TcpReadStarted := TcpReadStarted d; TcpReadClosed := v;
     TcpReadPausedByQuicBacklog := TcpReadPausedByQuicBacklog d;
     TcpReadAcquireFailure := TcpReadAcquireFailure d; TcpReadBuffers := TcpReadBuffers d;
     PendingTcpReadBytes := PendingTcpReadBytes d; CompressorCalls := CompressorCalls d;
     QuicSends := QuicSends d; PendingQuicSendRetries := PendingQuicSendRetries d;
     PendingQuicSendBytes := PendingQuicSendBytes d;
     AccountedTcpToQuicBytes := AccountedTcpToQuicBytes d;
     QuicFinSubmitted := QuicFinSubmitted d; QuicFinCompleted := QuicFinCompleted d;
     PendingBufferBytes := PendingBufferBytes d; AllocateCount := AllocateCount d;
     TcpToQuicPendingBytes_ := TcpToQuicPendingBytes_ d; Completions := Completions d;
     NextAddress := NextAddress d; TcpReadBytes_ := TcpReadBytes_ d;
     CompressedTcpBytes_ := CompressedTcpBytes_ d;
     TcpToQuicCompressFailures_ := TcpToQuicCompressFailures_ d; OtherRelays := OtherRelays d;
     tcp_input := tcp_input d; produced := produced d; accepted := accepted d |}.
Definition set_TcpReadPausedByQuicBacklog (v : bool) (d : Data) : Data :=
  {| TcpReadStarted := TcpReadStarted d; TcpReadClosed := TcpReadClosed d;
     TcpReadPausedByQuicBacklog := v; TcpReadAcquireFailure := TcpReadAcquireFailure d;
     TcpReadBuffers := TcpReadBuffers d; PendingTcpReadBytes := PendingTcpReadBytes d;
     CompressorCalls := CompressorCalls d; QuicSends := QuicSends d;
     PendingQuicSendRetries := PendingQuicSendRetries d;
     PendingQuicSendBytes := PendingQuicSendBytes d;
     AccountedTcpToQuicBytes := AccountedTcpToQuicBytes d;
     QuicFinSubmitted := QuicFinSubmitted d; QuicFinCompleted := QuicFinCompleted d;
     PendingBufferBytes := PendingBufferBytes d; AllocateCount := AllocateCount d;
     TcpToQuicPendingBytes_ := TcpToQuicPendingBytes_ d; Completions := Completions d;
     NextAddress := NextAddress d; TcpReadBytes_ := TcpReadBytes_ d;
     CompressedTcpBytes_ := CompressedTcpBytes_ d;
     TcpToQuicCompressFailures_ := TcpToQuicCompressFailures_ d; OtherRelays := OtherRelays d;
     tcp_input := tcp_input d; produced := produced d; accepted := accepted d |}.
Definition set_TcpReadAcquireFailure (v : TqBufferAcquireFailure) (d : Data) : Data :=
  {| TcpReadStarted := TcpReadStarted d; TcpReadClosed := TcpReadClosed d;
     TcpReadPausedByQuicBacklog := TcpReadPausedByQuicBacklog d; TcpReadAcquireFailure := v;
     TcpReadBuffers := TcpReadBuffers d; PendingTcpReadBytes := PendingTcpReadBytes d;
     CompressorCalls := CompressorCalls d; QuicSends := QuicSends d;
     PendingQuicSendRetries := PendingQuicSendRetries d;
     PendingQuicSendBytes := PendingQuicSendBytes d;
     AccountedTcpToQuicBytes := AccountedTcpToQuicBytes d;
     QuicFinSubmitted := QuicFinSubmitted d; QuicFinCompleted := QuicFinCompleted d;
     PendingBufferBytes := PendingBufferBytes d; AllocateCount := AllocateCount d;
     TcpToQuicPendingBytes_ := TcpToQuicPendingBytes_ d; Completions := Completions d;
     NextAddress := NextAddress d; TcpReadBytes_ := TcpReadBytes_ d;
     CompressedTcpBytes_ := CompressedTcpBytes_ d;
     TcpToQuicCompressFailures_ := TcpToQuicCompressFailures_ d; OtherRelays := OtherRelays d;
     tcp_input := tcp_input d; produced := produced d; accepted := accepted d |}.
Definition set_TcpReadBuffers (v : list (nat * Z)) (d : Data) : Data :=
  {| TcpReadStarted := TcpReadStarted d; TcpReadClosed := TcpReadClosed d;
     TcpReadPausedByQuicBacklog := TcpReadPausedByQuicBacklog d;
     TcpReadAcquireFailure := TcpReadAcquireFailure d; TcpReadBuffers := v;
     PendingTcpReadBytes := PendingTcpReadBytes d; CompressorCalls := CompressorCalls d;
     QuicSends := QuicSends d; PendingQuicSendRetries := PendingQuicSendRetries d;
     PendingQuicSendBytes := PendingQuicSendBytes d;
     AccountedTcpToQuicBytes := AccountedTcpToQuicBytes d;
     QuicFinSubmitted := QuicFinSubmitted d; QuicFinCompleted := QuicFinCompleted d;
     PendingBufferBytes := PendingBufferBytes d; AllocateCount := AllocateCount d;
     TcpToQuicPendingBytes_ := TcpToQuicPendingBytes_ d; Completions := Completions d;
     NextAddress := NextAddress d; TcpReadBytes_ := TcpReadBytes_ d;
     CompressedTcpBytes_ := CompressedTcpBytes_ d;
     TcpToQuicCompressFailures_ := TcpToQuicCompressFailures_ d; OtherRelays := OtherRelays d;
     tcp_input := tcp_input d; produced := produced d; accepted := accepted d |}.
Definition set_PendingTcpReadBytes (v : Z) (d : Data) : Data :=
  {| TcpReadStarted := TcpReadStarted d; TcpReadClosed := TcpReadClosed d;
     TcpReadPausedByQuicBacklog := TcpReadPausedByQuicBacklog d;
     TcpReadAcquireFailure := TcpReadAcquireFailure d; TcpReadBuffers := TcpReadBuffers d;
     PendingTcpReadBytes := v; CompressorCalls := CompressorCalls d; QuicSends := QuicSends d;
     PendingQuicSendRetries := PendingQuicSendRetries d;
     PendingQuicSendBytes := PendingQuicSendBytes d;
     AccountedTcpToQuicBytes := AccountedTcpToQuicBytes d;
     QuicFinSubmitted := QuicFinSubmitted d; QuicFinCompleted := QuicFinCompleted d;
     PendingBufferBytes := PendingBufferBytes d; AllocateCount := AllocateCount d;
     TcpToQuicPendingBytes_ := TcpToQuicPendingBytes_ d; Completions := Completions d;
     NextAddress := NextAddress d; TcpReadBytes_ := TcpReadBytes_ d;
     CompressedTcpBytes_ := CompressedTcpBytes_ d;
     TcpToQuicCompressFailures_ := TcpToQuicCompressFailures_ d; OtherRelays := OtherRelays d;
     tcp_input := tcp_input d; produced := produced d; accepted := accepted d |}.
Definition set_CompressorCalls (v : list Call) (d : Data) : Data :=
  {| TcpReadStarted := TcpReadStarted d; TcpReadClosed := TcpReadClosed d;
     TcpReadPausedByQuicBacklog := TcpReadPausedByQuicBacklog d;
     TcpReadAcquireFailure := TcpReadAcquireFailure d; TcpReadBuffers := TcpReadBuffers d;
     PendingTcpReadBytes := PendingTcpReadBytes d; CompressorCalls := v;
     QuicSends := QuicSends d; PendingQuicSendRetries := PendingQuicSendRetries d;
     PendingQuicSendBytes := PendingQuicSendBytes d;
     AccountedTcpToQuicBytes := AccountedTcpToQuicBytes d;
     QuicFinSubmitted := QuicFinSubmitted d; QuicFinCompleted := QuicFinCompleted d;
     PendingBufferBytes := PendingBufferBytes d; AllocateCount := AllocateCount d;
     TcpToQuicPendingBytes_ := TcpToQuicPendingBytes_ d; Completions := Completions d;
     NextAddress := NextAddress d; TcpReadBytes_ := TcpReadBytes_ d;
     CompressedTcpBytes_ := CompressedTcpBytes_ d;
     TcpToQuicCompressFailures_ := TcpToQuicCompressFailures_ d; OtherRelays := OtherRelays d;
     tcp_input := tcp_input d; produced := produced d; accepted := accepted d |}.
Definition set_QuicSends (v : list TqUvQuicSendOperation) (d : Data) : Data :=
  {| TcpReadStarted := TcpReadStarted d; TcpReadClosed := TcpReadClosed d;
     TcpReadPausedByQuicBacklog := TcpReadPausedByQuicBacklog d;
     TcpReadAcquireFailure := TcpReadAcquireFailure d; TcpReadBuffers := TcpReadBuffers d;
     PendingTcpReadBytes := PendingTcpReadBytes d; CompressorCalls := CompressorCalls d;
     QuicSends := v; PendingQuicSendRetries := PendingQuicSendRetries d;
     PendingQuicSendBytes := PendingQuicSendBytes d;
     AccountedTcpToQuicBytes := AccountedTcpToQuicBytes d;
     QuicFinSubmitted := QuicFinSubmitted d; QuicFinCompleted := QuicFinCompleted d;
     PendingBufferBytes := PendingBufferBytes d; AllocateCount := AllocateCount d;
     TcpToQuicPendingBytes_ := TcpToQuicPendingBytes_ d; Completions := Completions d;
     NextAddress := NextAddress d; TcpReadBytes_ := TcpReadBytes_ d;
     CompressedTcpBytes_ := CompressedTcpBytes_ d;
     TcpToQuicCompressFailures_ := TcpToQuicCompressFailures_ d; OtherRelays := OtherRelays d;
     tcp_input := tcp_input d; produced := produced d; accepted := accepted d |}.
Definition set_PendingQuicSendRetries (v : list TqUvQuicSendOperation) (d : Data) : Data :=
  {| TcpReadStarted := TcpReadStarted d; TcpReadClosed := TcpReadClosed d;
     TcpReadPausedByQuicBacklog := TcpReadPausedByQuicBacklog d;
     TcpReadAcquireFailure := TcpReadAcquireFailure d; TcpReadBuffers := TcpReadBuffers d;
     PendingTcpReadBytes := PendingTcpReadBytes d; CompressorCalls := CompressorCalls d;
     QuicSends := QuicSends d; PendingQuicSendRetries := v;
     PendingQuicSendBytes := PendingQuicSendBytes d;
     AccountedTcpToQuicBytes := AccountedTcpToQuicBytes d;
     QuicFinSubmitted := QuicFinSubmitted d; QuicFinCompleted := QuicFinCompleted d;
     PendingBufferBytes := PendingBufferBytes d; AllocateCount := AllocateCount d;
     TcpToQuicPendingBytes_ := TcpToQuicPendingBytes_ d; Completions := Completions d;
     NextAddress := NextAddress d; TcpReadBytes_ := TcpReadBytes_ d;
     CompressedTcpBytes_ := CompressedTcpBytes_ d;
     TcpToQuicCompressFailures_ := TcpToQuicCompressFailures_ d; OtherRelays := OtherRelays d;
     tcp_input := tcp_input d; produced := produced d; accepted := accepted d |}.
Definition set_PendingQuicSendBytes (v : Z) (d : Data) : Data :=
  {| TcpReadStarted := TcpReadStarted d; TcpReadClosed := TcpReadClosed d;
     TcpReadPausedByQuicBacklog := TcpReadPausedByQuicBacklog d;
     TcpReadAcquireFailure := TcpReadAcquireFailure d; TcpReadBuffers := TcpReadBuffers d;
     PendingTcpReadBytes := PendingTcpReadBytes d; CompressorCalls := CompressorCalls d;
     QuicSends := QuicSends d; PendingQuicSendRetries := PendingQuicSendRetries d;
     PendingQuicSendBytes := v; AccountedTcpToQuicBytes := AccountedTcpToQuicBytes d;
     QuicFinSubmitted := QuicFinSubmitted d; QuicFinCompleted := QuicFinCompleted d;
     PendingBufferBytes := PendingBufferBytes d; AllocateCount := AllocateCount d;
     TcpToQuicPendingBytes_ := TcpToQuicPendingBytes_ d; Completions := Completions d;
     NextAddress := NextAddress d; TcpReadBytes_ := TcpReadBytes_ d;
     CompressedTcpBytes_ := CompressedTcpBytes_ d;
     TcpToQuicCompressFailures_ := TcpToQuicCompressFailures_ d; OtherRelays := OtherRelays d;
     tcp_input := tcp_input d; produced := produced d; accepted := accepted d |}.
Definition set_AccountedTcpToQuicBytes (v : Z) (d : Data) : Data :=
  {| TcpReadStarted := TcpReadStarted d; TcpReadClosed := TcpReadClosed d;
     TcpReadPausedByQuicBacklog := TcpReadPausedByQuicBacklog d;
     TcpReadAcquireFailure := TcpReadAcquireFailure d; TcpReadBuffers := TcpReadBuffers d;
     PendingTcpReadBytes := PendingTcpReadBytes d; CompressorCalls := CompressorCalls d;
     QuicSends := QuicSends d; PendingQuicSendRetries := PendingQuicSendRetries d;
     PendingQuicSendBytes := PendingQuicSendBytes d; AccountedTcpToQuicBytes := v;
     QuicFinSubmitted := QuicFinSubmitted d; QuicFinCompleted := QuicFinCompleted d;
     PendingBufferBytes := PendingBufferBytes d; AllocateCount := AllocateCount d;
     TcpToQuicPendingBytes_ := TcpToQuicPendingBytes_ d; Completions := Completions d;
     NextAddress := NextAddress d; TcpReadBytes_ := TcpReadBytes_ d;
     CompressedTcpBytes_ := CompressedTcpBytes_ d;
     TcpToQuicCompressFailures_ := TcpToQuicCompressFailures_ d; OtherRelays := OtherRelays d;
     tcp_input := tcp_input d; produced := produced d; accepted := accepted d |}.
Definition set_QuicFinSubmitted (v : bool) (d : Data) : Data :=
  {| TcpReadStarted := TcpReadStarted d; TcpReadClosed := TcpReadClosed d;
     TcpReadPausedByQuicBacklog := TcpReadPausedByQuicBacklog d;
     TcpReadAcquireFailure := TcpReadAcquireFailure d; TcpReadBuffers := TcpReadBuffers d;
     PendingTcpReadBytes := PendingTcpReadBytes d; CompressorCalls := CompressorCalls d;
     QuicSends := QuicSends d; PendingQuicSendRetries := PendingQuicSendRetries d;
     PendingQuicSendBytes := PendingQuicSendBytes d;
     AccountedTcpToQuicBytes := AccountedTcpToQuicBytes d; QuicFinSubmitted := v;
     QuicFinCompleted := QuicFinCompleted d; PendingBufferBytes := PendingBufferBytes d;
     AllocateCount := AllocateCount d; TcpToQuicPendingBytes_ := TcpToQuicPendingBytes_ d;
     Completions := Completions d; NextAddress := NextAddress d;
     TcpReadBytes_ := TcpReadBytes_ d; CompressedTcpBytes_ := CompressedTcpBytes_ d;
     TcpToQuicCompressFailures_ := TcpToQuicCompressFailures_ d; OtherRelays := OtherRelays d;
     tcp_input := tcp_input d; produced := produced d; accepted := accepted d |}.
Definition set_QuicFinCompleted (v : bool) (d : Data) : Data :=
  {| TcpReadStarted := TcpReadStarted d; TcpReadClosed := TcpReadClosed d;
     TcpReadPausedByQuicBacklog := TcpReadPausedByQuicBacklog d;
     TcpReadAcquireFailure := TcpReadAcquireFailure d; TcpReadBuffers := TcpReadBuffers d;
     PendingTcpReadBytes := PendingTcpReadBytes d; CompressorCalls := CompressorCalls d;
     QuicSends := QuicSends d; PendingQuicSendRetries := PendingQuicSendRetries d;
     PendingQuicSendBytes := PendingQuicSendBytes d;
     AccountedTcpToQuicBytes := AccountedTcpToQuicBytes d;
     QuicFinSubmitted := QuicFinSubmitted d; QuicFinCompleted := v;
     PendingBufferBytes := PendingBufferBytes d; AllocateCount := AllocateCount d;
     TcpToQuicPendingBytes_ := TcpToQuicPendingBytes_ d; Completions := Completions d;
     NextAddress := NextAddress d; TcpReadBytes_ := TcpReadBytes_ d;
     CompressedTcpBytes_ := CompressedTcpBytes_ d;
     TcpToQuicCompressFailures_ := TcpToQuicCompressFailures_ d; OtherRelays := OtherRelays d;
     tcp_input := tcp_input d; produced := produced d; accepted := accepted d |}.
Definition set_PendingBufferBytes (v : Z) (d : Data) : Data :=
  {| TcpReadStarted := TcpReadStarted d; TcpReadClosed := TcpReadClosed d;
     TcpReadPausedByQuicBacklog := TcpReadPausedByQuicBacklog d;
     TcpReadAcquireFailure := TcpReadAcquireFailure d; TcpReadBuffers := TcpReadBuffers d;
     PendingTcpReadBytes := PendingTcpReadBytes d; CompressorCalls := CompressorCalls d;
     QuicSends := QuicSends d; PendingQuicSendRetries := PendingQuicSendRetries d;
     PendingQuicSendBytes := PendingQuicSendBytes d;
     AccountedTcpToQuicBytes := AccountedTcpToQuicBytes d;
     QuicFinSubmitted := QuicFinSubmitted d; QuicFinCompleted := QuicFinCompleted d;
     PendingBufferBytes := v; AllocateCount := AllocateCount d;
     TcpToQuicPendingBytes_ := TcpToQuicPendingBytes_ d; Completions := Completions d;
     NextAddress := NextAddress d; TcpReadBytes_ := TcpReadBytes_ d;
     CompressedTcpBytes_ := CompressedTcpBytes_ d;
     TcpToQuicCompressFailures_ := TcpToQuicCompressFailures_ d; OtherRelays := OtherRelays d;
     tcp_input := tcp_input d; produced := produced d; accepted := accepted d |}.
Definition set_AllocateCount (v : Z) (d : Data) : Data :=
  {| TcpReadStarted := TcpReadStarted d; TcpReadClosed := TcpReadClosed d;
     TcpReadPausedByQuicBacklog := TcpReadPausedByQuicBacklog d;
     TcpReadAcquireFailure := TcpReadAcquireFailure d; TcpReadBuffers := TcpReadBuffers d;
     PendingTcpReadBytes := PendingTcpReadBytes d; CompressorCalls := CompressorCalls d;
     QuicSends := QuicSends d; PendingQuicSendRetries := PendingQuicSendRetries d;
     PendingQuicSendBytes := PendingQuicSendBytes d;
     AccountedTcpToQuicBytes := AccountedTcpToQuicBytes d;
     QuicFinSubmitted := QuicFinSubmitted d; QuicFinCompleted := QuicFinCompleted d;
     PendingBufferBytes := PendingBufferBytes d; AllocateCount := v;
     TcpToQuicPendingBytes_ := TcpToQuicPendingBytes_ d; Completions := Completions d;
     NextAddress := NextAddress d; TcpReadBytes_ := TcpReadBytes_ d;
     CompressedTcpBytes_ := CompressedTcpBytes_ d;
     TcpToQuicCompressFailures_ := TcpToQuicCompressFailures_ d; OtherRelays := OtherRelays d;
     tcp_input := tcp_input d; produced := produced d; accepted := accepted d |}.
Definition set_TcpToQuicPendingBytes_ (v : Z) (d : Data) : Data :=
  {| TcpReadStarted := TcpReadStarted d; TcpReadClosed := TcpReadClosed d;
     TcpReadPausedByQuicBacklog := TcpReadPausedByQuicBacklog d;
     TcpReadAcquireFailure := TcpReadAcquireFailure d; TcpReadBuffers := TcpReadBuffers d;
     PendingTcpReadBytes := PendingTcpReadBytes d; CompressorCalls := CompressorCalls d;
     QuicSends := QuicSends d; PendingQuicSendRetries := PendingQuicSendRetries d;
     PendingQuicSendBytes := PendingQuicSendBytes d;
     AccountedTcpToQuicBytes := AccountedTcpToQuicBytes d;
     QuicFinSubmitted := QuicFinSubmitted d; QuicFinCompleted := QuicFinCompleted d;
     PendingBufferBytes := PendingBufferBytes d; AllocateCount := AllocateCount d;
     TcpToQuicPendingBytes_ := v; Completions := Completions d; NextAddress := NextAddress d;
     TcpReadBytes_ := TcpReadBytes_ d; CompressedTcpBytes_ := CompressedTcpBytes_ d;
     TcpToQuicCompressFailures_ := TcpToQuicCompressFailures_ d; OtherRelays := OtherRelays d;
     tcp_input := tcp_input d; produced := produced d; accepted := accepted d |}.
Definition set_Completions (v : list nat) (d : Data) : Data :=
  {| TcpReadStarted := TcpReadStarted d; TcpReadClosed := TcpReadClosed d;
     TcpReadPausedByQuicBacklog := TcpReadPausedByQuicBacklog d;
     TcpReadAcquireFailure := TcpReadAcquireFailure d; TcpReadBuffers := TcpReadBuffers d;
     PendingTcpReadBytes := PendingTcpReadBytes d; CompressorCalls := CompressorCalls d;
     QuicSends := QuicSends d; PendingQuicSendRetries := PendingQuicSendRetries d;
     PendingQuicSendBytes := PendingQuicSendBytes d;
     AccountedTcpToQuicBytes := AccountedTcpToQuicBytes d;
     QuicFinSubmitted := QuicFinSubmitted d; QuicFinCompleted := QuicFinCompleted d;
     PendingBufferBytes := PendingBufferBytes d; AllocateCount := AllocateCount d;
     TcpToQuicPendingBytes_ := TcpToQuicPendingBytes_ d; Completions := v;
     NextAddress := NextAddress d; TcpReadBytes_ := TcpReadBytes_ d;
     CompressedTcpBytes_ := CompressedTcpBytes_ d;
     TcpToQuicCompressFailures_ := TcpToQuicCompressFailures_ d; OtherRelays := OtherRelays d;
     tcp_input := tcp_input d; produced := produced d; accepted := accepted d |}.
Definition set_NextAddress (v : nat) (d : Data) : Data :=
  {| TcpReadStarted := TcpReadStarted d; TcpReadClosed := TcpReadClosed d;
     TcpReadPausedByQuicBacklog := TcpReadPausedByQuicBacklog d;
     TcpReadAcquireFailure := TcpReadAcquireFailure d; TcpReadBuffers := TcpReadBuffers d;
     PendingTcpReadBytes := PendingTcpReadBytes d; CompressorCalls := CompressorCalls d;
     QuicSends := QuicSends d; PendingQuicSendRetries := PendingQuicSendRetries d;
     PendingQuicSendBytes := PendingQuicSendBytes d;
     AccountedTcpToQuicBytes := AccountedTcpToQuicBytes d;
     QuicFinSubmitted := QuicFinSubmitted d; QuicFinCompleted := QuicFinCompleted d;
     PendingBufferBytes := PendingBufferBytes d; AllocateCount := AllocateCount d;
     TcpToQuicPendingBytes_ := TcpToQuicPendingBytes_ d; Completions := Completions d;
     NextAddress := v; TcpReadBytes_ := TcpReadBytes_ d;
     CompressedTcpBytes_ := CompressedTcpBytes_ d;
     TcpToQuicCompressFailures_ := TcpToQuicCompressFailures_ d; OtherRelays := OtherRelays d;
     tcp_input := tcp_input d; produced := produced d; accepted := accepted d |}.
Definition set_TcpReadBytes_ (v : Z) (d : Data) : Data :=
  {| TcpReadStarted := TcpReadStarted d; TcpReadClosed := TcpReadClosed d;
     TcpReadPausedByQuicBacklog := TcpReadPausedByQuicBacklog d;
     TcpReadAcquireFailure := TcpReadAcquireFailure d; TcpReadBuffers := TcpReadBuffers d;
     PendingTcpReadBytes := PendingTcpReadBytes d; CompressorCalls := CompressorCalls d;
     QuicSends := QuicSends d; PendingQuicSendRetries := PendingQuicSendRetries d;
     PendingQuicSendBytes := PendingQuicSendBytes d;
     AccountedTcpToQuicBytes := AccountedTcpToQuicBytes d;
     QuicFinSubmitted := QuicFinSubmitted d; QuicFinCompleted := QuicFinCompleted d;
     PendingBufferBytes := PendingBufferBytes d; AllocateCount := AllocateCount d;
     TcpToQuicPendingBytes_ := TcpToQuicPendingBytes_ d; Completions := Completions d;
     NextAddress := NextAddress d; TcpReadBytes_ := v;
     CompressedTcpBytes_ := CompressedTcpBytes_ d;
     TcpToQuicCompressFailures_ := TcpToQuicCompressFailures_ d; OtherRelays := OtherRelays d;
     tcp_input := tcp_input d; produced := produced d; accepted := accepted d |}.
Definition set_CompressedTcpBytes_ (v : Z) (d : Data) : Data :=
  {| TcpReadStarted := TcpReadStarted d; TcpReadClosed := TcpReadClosed d;
     TcpReadPausedByQuicBacklog := TcpReadPausedByQuicBacklog d;
     TcpReadAcquireFailure := TcpReadAcquireFailure d; TcpReadBuffers := TcpReadBuffers d;
     PendingTcpReadBytes := PendingTcpReadBytes d; CompressorCalls := CompressorCalls d;
     QuicSends := QuicSends d; PendingQuicSendRetries := PendingQuicSendRetries d;
     PendingQuicSendBytes := PendingQuicSendBytes d;
     AccountedTcpToQuicBytes := AccountedTcpToQuicBytes d;
     QuicFinSubmitted := QuicFinSubmitted d; QuicFinCompleted := QuicFinCompleted d;
     PendingBufferBytes := PendingBufferBytes d; AllocateCount := AllocateCount d;
     TcpToQuicPendingBytes_ := TcpToQuicPendingBytes_ d; Completions := Completions d;
     NextAddress := NextAddress d; TcpReadBytes_ := TcpReadBytes_ d; CompressedTcpBytes_ := v;
     TcpToQuicCompressFailures_ := TcpToQuicCompressFailures_ d; OtherRelays := OtherRelays d;
     tcp_input := tcp_input d; produced := produced d; accepted := accepted d |}.
Definition set_TcpToQuicCompressFailures_ (v : Z) (d : Data) : Data :=
  {| TcpReadStarted := TcpReadStarted d; TcpReadClosed := TcpReadClosed d;
     TcpReadPausedByQuicBacklog := TcpReadPausedByQuicBacklog d;
     TcpReadAcquireFailure := TcpReadAcquireFailure d; TcpReadBuffers := TcpReadBuffers d;
     PendingTcpReadBytes := PendingTcpReadBytes d; CompressorCalls := CompressorCalls d;
     QuicSends := QuicSends d; PendingQuicSendRetries := PendingQuicSendRetries d;
     PendingQuicSendBytes := PendingQuicSendBytes d;
     AccountedTcpToQuicBytes := AccountedTcpToQuicBytes d;
     QuicFinSubmitted := QuicFinSubmitted d; QuicFinCompleted := QuicFinCompleted d;
     PendingBufferBytes := PendingBufferBytes d; AllocateCount := AllocateCount d;
     TcpToQuicPendingBytes_ := TcpToQuicPendingBytes_ d; Completions := Completions d;
     NextAddress := NextAddress d; TcpReadBytes_ := TcpReadBytes_ d;
     CompressedTcpBytes_ := CompressedTcpBytes_ d; TcpToQuicCompressFailures_ := v;
     OtherRelays := OtherRelays d; tcp_input := tcp_input d; produced := produced d;
     accepted := accepted d |}.
Definition set_OtherRelays (v : Z) (d : Data) : Data :=
  {| TcpReadStarted := TcpReadStarted d; TcpReadClosed := TcpReadClosed d;
     TcpReadPausedByQuicBacklog := TcpReadPausedByQuicBacklog d;
     TcpReadAcquireFailure := TcpReadAcquireFailure d; TcpReadBuffers := TcpReadBuffers d;
     PendingTcpReadBytes := PendingTcpReadBytes d; CompressorCalls := CompressorCalls d;
     QuicSends := QuicSends d; PendingQuicSendRetries := PendingQuicSendRetries d;
     PendingQuicSendBytes := PendingQuicSendBytes d;
     AccountedTcpToQuicBytes := AccountedTcpToQuicBytes d;
     QuicFinSubmitted := QuicFinSubmitted d; QuicFinCompleted := QuicFinCompleted d;
     PendingBufferBytes := PendingBufferBytes d; AllocateCount := AllocateCount d;
     TcpToQuicPendingBytes_ := TcpToQuicPendingBytes_ d; Completions := Completions d;
     NextAddress := NextAddress d; TcpReadBytes_ := TcpReadBytes_ d;
     CompressedTcpBytes_ := CompressedTcpBytes_ d;
     TcpToQuicCompressFailures_ := TcpToQuicCompressFailures_ d; OtherRelays := v;
     tcp_input := tcp_input d; produced := produced d; accepted := accepted d |}.
Definition set_tcp_input (v : list Z) (d : Data) : Data :=
  {| TcpReadStarted := TcpReadStarted d; TcpReadClosed := TcpReadClosed d;
     TcpReadPausedByQuicBacklog := TcpReadPausedByQuicBacklog d;
     TcpReadAcquireFailure := TcpReadAcquireFailure d; TcpReadBuffers := TcpReadBuffers d;
     PendingTcpReadBytes := PendingTcpReadBytes d; CompressorCalls := CompressorCalls d;
     QuicSends := QuicSends d; PendingQuicSendRetries := PendingQuicSendRetries d;
     PendingQuicSendBytes := PendingQuicSendBytes d;
     AccountedTcpToQuicBytes := AccountedTcpToQuicBytes d;
     QuicFinSubmitted := QuicFinSubmitted d; QuicFinCompleted := QuicFinCompleted d;
     PendingBufferBytes := PendingBufferBytes d; AllocateCount := AllocateCount d;
     TcpToQuicPendingBytes_ := TcpToQuicPendingBytes_ d; Completions := Completions d;
     NextAddress := NextAddress d; TcpReadBytes_ := TcpReadBytes_ d;
     CompressedTcpBytes_ := CompressedTcpBytes_ d;
     TcpToQuicCompressFailures_ := TcpToQuicCompressFailures_ d; OtherRelays := OtherRelays d;
     tcp_input := v; produced := produced d; accepted := accepted d |}.
Definition set_produced (v : list Unit) (d : Data) : Data :=
  {| TcpReadStarted := TcpReadStarted d; TcpReadClosed := TcpReadClosed d;
     TcpReadPausedByQuicBacklog := TcpReadPausedByQuicBacklog d;
     TcpReadAcquireFailure := TcpReadAcquireFailure d; TcpReadBuffers := TcpReadBuffers d;
     PendingTcpReadBytes := PendingTcpReadBytes d; CompressorCalls := CompressorCalls d;
     QuicSends := QuicSends d; PendingQuicSendRetries := PendingQuicSendRetries d;
     PendingQuicSendBytes := PendingQuicSendBytes d;
     AccountedTcpToQuicBytes := AccountedTcpToQuicBytes d;
     QuicFinSubmitted := QuicFinSubmitted d; QuicFinCompleted := QuicFinCompleted d;
     PendingBufferBytes := PendingBufferBytes d; AllocateCount := AllocateCount d;
     TcpToQuicPendingBytes_ := TcpToQuicPendingBytes_ d; Completions := Completions d;
     NextAddress := NextAddress d; TcpReadBytes_ := TcpReadBytes_ d;
     CompressedTcpBytes_ := CompressedTcpBytes_ d;
     TcpToQuicCompressFailures_ := TcpToQuicCompressFailures_ d; OtherRelays := OtherRelays d;
     tcp_input := tcp_input d; produced := v; accepted := accepted d |}.
Definition set_accepted (v : list Unit) (d : Data) : Data :=
  {| TcpReadStarted := TcpReadStarted d; TcpReadClosed := TcpReadClosed d;
     TcpReadPausedByQuicBacklog := TcpReadPausedByQuicBacklog d;
     TcpReadAcquireFailure := TcpReadAcquireFailure d; TcpReadBuffers := TcpReadBuffers d;
     PendingTcpReadBytes := PendingTcpReadBytes d; CompressorCalls := CompressorCalls d;
     QuicSends := QuicSends d; PendingQuicSendRetries := PendingQuicSendRetries d;
     PendingQuicSendBytes := PendingQuicSendBytes d;
     AccountedTcpToQuicBytes := AccountedTcpToQuicBytes d;
     QuicFinSubmitted := QuicFinSubmitted d; QuicFinCompleted := QuicFinCompleted d;
     PendingBufferBytes := PendingBufferBytes d; AllocateCount := AllocateCount d;
     TcpToQuicPendingBytes_ := TcpToQuicPendingBytes_ d; Completions := Completions d;
     NextAddress := NextAddress d; TcpReadBytes_ := TcpReadBytes_ d;
     CompressedTcpBytes_ := CompressedTcpBytes_ d;
     TcpToQuicCompressFailures_ := TcpToQuicCompressFailures_ d; OtherRelays := OtherRelays d;
     tcp_input := tcp_input d; produced := produced d; accepted := v |}.

(** Computes with the fields and their setters. *)
Ltac fields := cbv beta iota zeta delta [
  set_TcpReadStarted set_TcpReadClosed set_TcpReadPausedByQuicBacklog set_TcpReadAcquireFailure
  set_TcpReadBuffers set_PendingTcpReadBytes set_CompressorCalls set_QuicSends
  set_PendingQuicSendRetries set_PendingQuicSendBytes set_AccountedTcpToQuicBytes
  set_QuicFinSubmitted set_QuicFinCompleted set_PendingBufferBytes set_AllocateCount
  set_TcpToQuicPendingBytes_ set_Completions set_NextAddress set_TcpReadBytes_
  set_CompressedTcpBytes_ set_TcpToQuicCompressFailures_ set_OtherRelays set_tcp_input
  set_produced set_accepted TcpReadStarted TcpReadClosed TcpReadPausedByQuicBacklog
  TcpReadAcquireFailure TcpReadBuffers PendingTcpReadBytes CompressorCalls QuicSends
  PendingQuicSendRetries PendingQuicSendBytes AccountedTcpToQuicBytes QuicFinSubmitted
  QuicFinCompleted PendingBufferBytes AllocateCount TcpToQuicPendingBytes_ Completions
  NextAddress TcpReadBytes_ CompressedTcpBytes_ TcpToQuicCompressFailures_ OtherRelays tcp_input
  produced accepted ].

(** ** The buffer budget, seen from the loop thread *)

(** [TqAllocateRelayBuffer]; a buffer is the number of bytes it reserved. *)
Definition TqAllocateRelayBuffer (cfg : Config) (ok : bool) (bytes : Z) (d : Data) :
    option Z * TqBufferAcquireFailure * Data :=
  if bytes =? 0 then (None, NoFailure, d)
  else if MaxPendingBufferBytes cfg <? u64 (PendingBufferBytes d + bytes)
  then (None, PendingBytesLimit, d)
  else if ok
  then (Some bytes, NoFailure,
        set_AllocateCount (u64 (AllocateCount d + 1))
          (set_PendingBufferBytes (u64 (PendingBufferBytes d + bytes)) d))
  else (None, AllocationFailure, d).

(** The destructor of a handle that reserved [bytes]. *)
Definition free_buffer (bytes : Z) (d : Data) : Data :=
  if 0 <? bytes then set_PendingBufferBytes (u64 (PendingBufferBytes d - bytes)) d else d.

Definition free_views (views : list TqBufferView) (d : Data) : Data :=
  fold_left (fun d v => free_buffer (Reserved v) d) views d.

Definition drop_operation (o : TqUvQuicSendOperation) (d : Data) : Data := free_views (Views o) d.

(** ** The pending-byte ledger *)

Definition UINT64_MAX : Z := 18446744073709551615.

Definition AddPendingBytes (bytes : Z) (d : Data) : bool * Data :=
  if bytes =? 0 then (true, d)
  else if UINT64_MAX - TcpToQuicPendingBytes_ d <? bytes then (false, d)
  else
    let d := set_TcpToQuicPendingBytes_ (TcpToQuicPendingBytes_ d + bytes) d in
    if UINT64_MAX - AccountedTcpToQuicBytes d <? bytes
    then (false, set_TcpToQuicPendingBytes_ (u64 (TcpToQuicPendingBytes_ d - bytes)) d)
    else (true, set_AccountedTcpToQuicBytes (AccountedTcpToQuicBytes d + bytes) d).

Definition CompletePendingBytes (bytes : Z) (d : Data) : bool * Data :=
  if bytes =? 0 then (true, d)
  else if AccountedTcpToQuicBytes d <? bytes then (false, d)
  else
    let d := set_AccountedTcpToQuicBytes (AccountedTcpToQuicBytes d - bytes) d in
    (true, set_TcpToQuicPendingBytes_ (u64 (TcpToQuicPendingBytes_ d - bytes)) d).

Definition ReleasePendingSend (bytes : Z) (d : Data) : Data :=
  let released := Z.min (PendingQuicSendBytes d) bytes in
  let d := set_PendingQuicSendBytes (PendingQuicSendBytes d - released) d in
  if negb (released =? 0) then snd (CompletePendingBytes released d) else d.

(** ** Submitting *)

Inductive SubmitResult := SubmittedResult | ResourceBlocked | Fatal.

Inductive QUIC_STATUS :=
| QUIC_STATUS_SUCCESS | QUIC_STATUS_OUT_OF_MEMORY | QUIC_STATUS_BUFFER_TOO_SMALL
| QUIC_STATUS_OTHER.

#[global] Instance QUIC_STATUS_eq_dec : EqDecision QUIC_STATUS.
Proof. solve_decision. Defined.

Definition IsResourceStatus (status : QUIC_STATUS) : bool :=
  bool_decide (status = QUIC_STATUS_OUT_OF_MEMORY) ||
  bool_decide (status = QUIC_STATUS_BUFFER_TOO_SMALL).

(** [QuicSends.find] and [QuicSends.erase]. *)
Definition find_send (a : nat) (l : list TqUvQuicSendOperation) : option TqUvQuicSendOperation :=
  List.find (fun o => (Address o =? a)%nat) l.

Definition erase_send (a : nat) (l : list TqUvQuicSendOperation) : list TqUvQuicSendOperation :=
  List.filter (fun o => negb (Address o =? a)%nat) l.

(** [QueueSendComplete]: the flag is set once; the queue and the fallback list are one list here,
    since a completion reaches the loop through either. *)
Definition QueueSendComplete (a : nat) (cancelled : bool) (d : Data) : Data :=
  match find_send a (QuicSends d) with
  | None => d
  | Some o =>
      if CompletionQueued o then d
      else
        set_Completions (Completions d ++ [a])
          (set_QuicSends
             ((fun o => if (Address o =? a)%nat then mark_completed cancelled o else o)
                <$> QuicSends d) d)
  end.

(** The answers one submission gets: the reservation, the map insertion, [Send] with a
    completion that arrives inside it, the retry queue's insertion. *)
Record SubmitAnswers := {
  reserve_ok : bool; emplace_ok : bool; status : QUIC_STATUS; synchronous : option bool;
  push_ok : bool }.

(** After [Send] returned [st]. *)
Definition after_send (a : nat) (st : QUIC_STATUS) (push : bool) (d : Data) :
    SubmitResult * Data :=
  match find_send a (QuicSends d) with
  | None => (SubmittedResult, d)
  | Some o =>
      if CompletionQueued o || bool_decide (st = QUIC_STATUS_SUCCESS)
      then (SubmittedResult, set_accepted (accepted d ++ [payload o]) d)
      else
        let d := set_QuicSends (erase_send a (QuicSends d)) d in
        let retained := set_Ownership Created o in
        let d := if Fin retained then set_QuicFinSubmitted false d else d in
        if IsResourceStatus st && push
        then (ResourceBlocked,
              set_PendingQuicSendRetries (PendingQuicSendRetries d ++ [retained]) d)
        else (Fatal, drop_operation retained (ReleasePendingSend (TotalBytes retained) d))
  end.

Definition TrySubmitOperation (e : SubmitAnswers) (operation : TqUvQuicSendOperation)
    (backlogAccounted : bool) (d : Data) : SubmitResult * Data :=
  let fail d :=
    (Fatal, drop_operation operation
              (if backlogAccounted then ReleasePendingSend (TotalBytes operation) d else d)) in
  if negb (reserve_ok e) then fail d
  else if negb (emplace_ok e) then fail d
  else
    let a := Address operation in
    let d := set_QuicSends (QuicSends d ++ [set_Ownership Submitted operation]) d in
    let '(added, d) :=
      if backlogAccounted then (true, d)
      else
        let '(added, d) := AddPendingBytes (TotalBytes operation) d in
        if added
        then (true, set_PendingQuicSendBytes (u64 (PendingQuicSendBytes d + TotalBytes operation)) d)
        else (false, drop_operation operation
                       (set_QuicSends (erase_send a (QuicSends d)) d)) in
    if negb added then (Fatal, d)
    else
      let d := if Fin operation then set_QuicFinSubmitted true d else d in
      let d := match synchronous e with
               | Some cancelled => QueueSendComplete a cancelled d
               | None => d
               end in
      after_send a (status e) (push_ok e) d.

(** The sum the loop of [Submit] builds; [None] when a view is too long for a [QUIC_BUFFER]. *)
Fixpoint total_bytes (views : list TqBufferView) (sum : Z) : option Z :=
  match views with
  | [] => Some sum
  | v :: rest => if 4294967295 <? size (Bytes v) then None
                 else total_bytes rest (u64 (sum + size (Bytes v)))
  end.

(** [Submit]; [new_ok] is whether the operation and its buffer array found memory.  The unit is
    recorded as produced when the operation is complete. *)
Definition Submit (cfg : Config) (terminalStarted new_ok : bool) (e : SubmitAnswers)
    (views : list TqBufferView) (fin : bool) (d : Data) : SubmitResult * Data :=
  if terminalStarted then (Fatal, free_views views d)
  else if negb new_ok then (Fatal, free_views views d)
  else
    match total_bytes views 0 with
    | None => (Fatal, free_views views d)
    | Some total =>
        let operation :=
          {| Address := NextAddress d; OperationIdentity := RelayIdentity cfg; Views := views;
             TotalBytes := total; Fin := fin; CompletionQueued := false;
             CompletionCancelled := false; Ownership := Created |} in
        let d := set_NextAddress (S (NextAddress d)) d in
        let d := set_produced (produced d ++ [payload operation]) d in
        TrySubmitOperation e operation false d
    end.

(** ** From bytes to views *)

(** The loop of [AllocateViews]; [oks] says which allocations find memory.  Each round takes at
    least one byte unless it fails, so the number of bytes bounds the rounds. *)
Fixpoint AllocateViews_loop (cfg : Config) (fuel : nat) (oks : list bool) (bytes : list Z)
    (views : list TqBufferView) (d : Data) : bool * list TqBufferView * Data :=
  match bytes, fuel with
  | [], _ => (true, views, d)
  | _, O => (false, views, d)
  | _, S fuel =>
      let chunk := Z.min (TcpReadChunkSize cfg) (size bytes) in
      match TqAllocateRelayBuffer cfg (default true (head oks)) chunk d with
      | (None, _, d) => (false, views, d)
      | (Some owner, _, d) =>
          AllocateViews_loop cfg fuel (tail oks) (drop (Z.to_nat chunk) bytes)
            (views ++ [{| Bytes := take (Z.to_nat chunk) bytes; Reserved := owner |}]) d
      end
  end.

Definition AllocateViews (cfg : Config) (oks : list bool) (bytes : list Z) (d : Data) :
    bool * list TqBufferView * Data :=
  AllocateViews_loop cfg (length bytes) oks bytes [] d.

Section Building.
  Context {K : ITqCompressor} (cfg : Config).

(** [BuildViews]: built, the views, the compressed size, whether the compressor failed.  [input]
    is the buffer that was read into, [emplace] whether the uncompressed view finds memory. *)
Definition BuildViews (emplace : bool) (oks : list bool) (input : option Z) (data : list Z)
    (endStream : bool) (d : Data) : bool * list TqBufferView * Z * bool * Data :=
  let free_input d := match input with Some b => free_buffer b d | None => d end in
  if negb (Compressing cfg)
  then
    match data, input with
    | [], _ => (true, [], 0, false, free_input d)
    | _, Some owner =>
        if emplace then (true, [{| Bytes := data; Reserved := owner |}], 0, false, d)
        else (false, [], 0, false, free_input d)
    | _, None => (false, [], 0, false, d)
    end
  else
    let calls := CompressorCalls d in
    let d := set_CompressorCalls (calls ++ [CompressCall data endStream]) d in
    match Compress calls data endStream with
    | None => (false, [], 0, true, free_input d)
    | Some out =>
        let flush := negb endStream && bool_decide (out = []) in
        let d := if flush then set_CompressorCalls (CompressorCalls d ++ [FlushCall]) d else d in
        match (if flush then Flush (calls ++ [CompressCall data endStream]) else Some []) with
        | None => (false, [], 0, true, free_input d)
        | Some more =>
            let out := out ++ more in
            let d := free_input d in
            let '(built, views, d) := AllocateViews cfg oks out d in
            (built, views, size out, false, d)
        end
    end.

End Building.

(** ** Read buffers *)

(** [TqUvAllocateTcpReadBuffer]: the address and size handed to libuv. *)
Definition TqUvAllocateTcpReadBuffer (cfg : Config) (ok : bool) (suggested : Z) (d : Data) :
    option (nat * Z) * TqBufferAcquireFailure * Data :=
  if (TcpReadChunkSize cfg =? 0) || (MaxPendingBufferBytes cfg =? 0)
  then (None, AllocationFailure, d)
  else
    let bytes := Z.min (TcpReadChunkSize cfg)
                   (if suggested =? 0 then TcpReadChunkSize cfg else suggested) in
    match TqAllocateRelayBuffer cfg ok bytes d with
    | (None, failure, d) => (None, failure, d)
    | (Some owner, _, d) =>
        let a := NextAddress d in
        let d := set_NextAddress (S a) d in
        (Some (a, owner), NoFailure,
         set_TcpReadBuffers (TcpReadBuffers d ++ [(a, owner)]) d)
    end.

#[global] Instance TqBufferAcquireFailure_eq_dec : EqDecision TqBufferAcquireFailure.
Proof. solve_decision. Defined.

(** [TqUvOnTcpAlloc]. *)
Definition TqUvOnTcpAlloc (cfg : Config) (ok : bool) (suggested : Z) (d : Data) :
    option (nat * Z) * Data :=
  match TqUvAllocateTcpReadBuffer cfg ok suggested d with
  | (Some buffer, _, d) => (Some buffer, set_TcpReadAcquireFailure NoFailure d)
  | (None, failure, d) =>
      (None, set_TcpReadAcquireFailure
               (if bool_decide (failure = NoFailure) then AllocationFailure else failure) d)
  end.

(** The lookup at the head of [TqUvHandleTcpRead]: the handle moves out of the map. *)
Definition take_buffer (base : option nat) (d : Data) : option Z * Data :=
  match base with
  | None => (None, d)
  | Some a =>
      match List.find (fun e => (fst e =? a)%nat) (TcpReadBuffers d) with
      | None => (None, d)
      | Some (_, owner) =>
          (Some owner,
           set_TcpReadBuffers (List.filter (fun e => negb (fst e =? a)%nat) (TcpReadBuffers d)) d)
      end
  end.

(** [TcpReadBuffers.clear()]. *)
Definition clear_read_buffers (d : Data) : Data :=
  set_TcpReadBuffers [] (fold_left (fun d e => free_buffer (snd e) d) (TcpReadBuffers d) d).

(** [DiscardUnsubmittedSends]: the sum of the queue, the queue cleared, the bytes released. *)
Definition retry_bytes (l : list TqUvQuicSendOperation) : Z :=
  fold_left (fun sum o => if TotalBytes o <=? UINT64_MAX - sum then sum + TotalBytes o else sum) l 0.

Definition DiscardUnsubmittedSends (d : Data) : Data :=
  let bytes := retry_bytes (PendingQuicSendRetries d) in
  let d := set_PendingQuicSendRetries []
             (fold_left (fun d o => drop_operation o d) (PendingQuicSendRetries d) d) in
  let released := Z.min (PendingQuicSendBytes d) bytes in
  let d := set_PendingQuicSendBytes (PendingQuicSendBytes d - released) d in
  snd (CompletePendingBytes released d).

(** ** Closed forms *)

(** The three ledgers move together; so does the budget. *)
Definition ledger (delta : Z) (d : Data) : Data :=
  set_PendingQuicSendBytes (PendingQuicSendBytes d + delta)
    (set_AccountedTcpToQuicBytes (AccountedTcpToQuicBytes d + delta)
       (set_TcpToQuicPendingBytes_ (TcpToQuicPendingBytes_ d + delta) d)).

Definition buffers (delta : Z) (d : Data) : Data :=
  set_PendingBufferBytes (PendingBufferBytes d + delta) d.

(** Equality of two nests of setters: both sides are records once [d] is. *)
Ltac setters d :=
  destruct d; unfold ledger, buffers in *; fields; rewrite ?Z.add_0_r;
  try reflexivity; f_equal; try lia.

Definition reserved (o : TqUvQuicSendOperation) : Z := sum Reserved (Views o).

Definition view_good (v : TqBufferView) : Prop := 0 < size (Bytes v) <= Reserved v.

Record op_good (cfg : Config) (o : TqUvQuicSendOperation) : Prop := {
  og_views : Forall view_good (Views o);
  og_total : TotalBytes o = sum (fun v => size (Bytes v)) (Views o);
  og_identity : OperationIdentity o = RelayIdentity cfg;
  og_bytes : Fin o = false -> Views o <> [] }.

(** The budget and the ledgers agree with what is owned; [p] is accounted for and [h] reserved by
    what the running handler has in its hands. *)
Record Books (cfg : Config) (p h : Z) (d : Data) : Prop := {
  b_pending : PendingQuicSendBytes d =
              sum TotalBytes (QuicSends d) + sum TotalBytes (PendingQuicSendRetries d) + p;
  b_accounted : AccountedTcpToQuicBytes d = PendingQuicSendBytes d;
  b_worker : TcpToQuicPendingBytes_ d = AccountedTcpToQuicBytes d + OtherRelays d;
  b_worker_max : TcpToQuicPendingBytes_ d <= UINT64_MAX;
  b_others : 0 <= OtherRelays d;
  b_budget : PendingBufferBytes d =
             sum reserved (QuicSends d) + sum reserved (PendingQuicSendRetries d) +
             sum snd (TcpReadBuffers d) + h;
  b_budget_max : PendingBufferBytes d <= MaxPendingBufferBytes cfg;
  b_staged : Forall (fun e : nat * Z => 0 < snd e) (TcpReadBuffers d);
  b_sends : Forall (op_good cfg) (QuicSends d);
  b_retries : Forall (op_good cfg) (PendingQuicSendRetries d);
  b_hand_bytes : 0 <= p;
  b_hand : 0 <= h }.

(** Completions in the queue and operations in the map correspond; retries are not among them. *)
Record Ids (d : Data) : Prop := {
  i_nodup : NoDup (Address <$> QuicSends d ++ PendingQuicSendRetries d);
  i_below : Forall (fun o => Address o < NextAddress d)%nat (QuicSends d ++ PendingQuicSendRetries d);
  i_queue : NoDup (Completions d);
  i_done : forall a, a ∈ Completions d <->
             exists o, o ∈ QuicSends d /\ Address o = a /\ CompletionQueued o = true;
  i_retry : Forall (fun o => CompletionQueued o = false) (PendingQuicSendRetries d) }.

(** How many units end the stream. *)
Definition fins (l : list Unit) : nat := total (fun u : Unit => if snd u then 1%nat else 0%nat) l.

(** The end of the stream is produced once, and its flags follow what MsQuic took; [u] is in the
    hands of the running handler. *)
Record Sent (u : list Unit) (d : Data) : Prop := {
  s_taken : Forall (fun o => payload o ∈ accepted d) (QuicSends d);
  s_fin : QuicFinSubmitted d = true <-> fins (accepted d) <> 0%nat;
  s_count : (fins (accepted d) + fins (payload <$> PendingQuicSendRetries d) + fins u <=
             fins (produced d))%nat;
  s_once : (fins (produced d) <= if TcpReadClosed d then 1 else 0)%nat;
  s_last : fins (removelast (produced d)) = 0%nat;
  s_completed : QuicFinCompleted d = true -> fins (accepted d) <> 0%nat }.

(** Budgets that leave room for one more chunk without wrapping. *)
Record Config_ok (cfg : Config) : Prop := {
  c_chunk : 0 <= TcpReadChunkSize cfg;
  c_max : 0 <= MaxPendingBufferBytes cfg;
  c_room : MaxPendingBufferBytes cfg + TcpReadChunkSize cfg <= UINT64_MAX }.

Lemma sum_nil {A} (f : A -> Z) : sum f [] = 0.
Proof. reflexivity. Qed.

Lemma sum_le {A} (f g : A -> Z) l :
  Forall (fun x => f x <= g x) l -> sum f l <= sum g l.
Proof. induction 1; rewrite ?sum_cons; [done|lia]. Qed.

Lemma views_nonneg views : Forall view_good views -> 0 <= sum Reserved views.
Proof. intros H. apply sum_nonneg. eapply List.Forall_impl; [|done]. unfold view_good. lia. Qed.

Lemma views_size views :
  Forall view_good views ->
  0 <= sum (fun v => size (Bytes v)) views <= sum Reserved views.
Proof.
  intros H. split.
  - apply sum_nonneg. eapply List.Forall_impl; [|done]. unfold view_good. lia.
  - apply sum_le. eapply List.Forall_impl; [|done]. unfold view_good. lia.
Qed.

Lemma op_good_bounds cfg o : op_good cfg o -> 0 <= TotalBytes o <= reserved o.
Proof. intros [Hv Ht _ _]. rewrite Ht. apply views_size, Hv. Qed.

Lemma ops_bounds cfg l :
  Forall (op_good cfg) l -> 0 <= sum TotalBytes l <= sum reserved l.
Proof.
  intros H. split.
  - apply sum_nonneg. eapply List.Forall_impl; [|done]. intros o Ho.
    pose proof (op_good_bounds cfg o Ho). lia.
  - apply sum_le. eapply List.Forall_impl; [|done]. intros o Ho.
    pose proof (op_good_bounds cfg o Ho). lia.
Qed.

Lemma op_good_pos cfg o : op_good cfg o -> Fin o = false -> 0 < TotalBytes o.
Proof.
  intros [Hv Ht _ Hb] Hf. rewrite Ht. destruct (Views o) as [|v l]; [by destruct (Hb Hf)|].
  inversion Hv as [|? ? Hv1 Hl]; subst. rewrite sum_cons.
  pose proof (views_size l Hl). unfold view_good in Hv1. lia.
Qed.

Lemma staged_nonneg (l : list (nat * Z)) : Forall (fun e => 0 < snd e) l -> 0 <= sum snd l.
Proof. intros H. apply sum_nonneg. eapply List.Forall_impl; [|done]. simpl. lia. Qed.

Section Forms.
  Context {cfg : Config} (Hcfg : Config_ok cfg).

(** Every part of the budget and of the ledgers is within its bounds. *)
Lemma books_bounds p h d :
  Books cfg p h d ->
  0 <= sum TotalBytes (QuicSends d) <= sum reserved (QuicSends d) /\
  0 <= sum TotalBytes (PendingQuicSendRetries d) <= sum reserved (PendingQuicSendRetries d) /\
  0 <= sum snd (TcpReadBuffers d).
Proof.
  intros H. split_and!; try apply (ops_bounds cfg); try apply H; apply staged_nonneg, H.
Qed.

Lemma free_buffer_form b d :
  0 <= b <= PendingBufferBytes d -> PendingBufferBytes d <= UINT64_MAX ->
  free_buffer b d = buffers (- b) d.
Proof.
  intros Hb Hm. unfold free_buffer, buffers, UINT64_MAX in *. destruct (0 <? b) eqn:E; to_prop.
  - rewrite u64_small by (unfold is_u64; lia). f_equal.
  - assert (b = 0) as -> by lia. setters d.
Qed.

Lemma free_views_form views d :
  Forall view_good views -> sum Reserved views <= PendingBufferBytes d ->
  PendingBufferBytes d <= UINT64_MAX ->
  free_views views d = buffers (- sum Reserved views) d.
Proof.
  intros Hv. revert d. induction Hv as [|v views Hg Hv IH]; intros d Hs Hm.
  - by setters d.
  - rewrite sum_cons in Hs. pose proof (views_nonneg views Hv). unfold view_good in Hg.
    unfold free_views in *. cbn [fold_left]. rewrite free_buffer_form by lia.
    rewrite IH by (unfold buffers; cbn; lia). rewrite sum_cons. setters d.
Qed.

Lemma ReleasePendingSend_form bytes d :
  0 <= bytes <= PendingQuicSendBytes d -> AccountedTcpToQuicBytes d = PendingQuicSendBytes d ->
  AccountedTcpToQuicBytes d <= TcpToQuicPendingBytes_ d <= UINT64_MAX ->
  ReleasePendingSend bytes d = ledger (- bytes) d.
Proof.
  intros Hb Ha Hw. unfold ReleasePendingSend, CompletePendingBytes.
  rewrite Z.min_r by lia. destruct (bytes =? 0) eqn:E; to_prop; cbn.
  - subst. by setters d.
  - rewrite (proj2 (Z.ltb_ge _ _)) by lia. cbn.
    rewrite u64_small by (unfold is_u64, UINT64_MAX in *; lia). setters d.
Qed.

Lemma AddPendingBytes_form bytes d :
  0 <= bytes -> AccountedTcpToQuicBytes d = PendingQuicSendBytes d -> 0 <= PendingQuicSendBytes d ->
  AccountedTcpToQuicBytes d <= TcpToQuicPendingBytes_ d <= UINT64_MAX ->
  (let '(added, d') := AddPendingBytes bytes d in
   if added
   then (true, set_PendingQuicSendBytes (u64 (PendingQuicSendBytes d' + bytes)) d')
   else (false, d')) =
  if TcpToQuicPendingBytes_ d + bytes <=? UINT64_MAX then (true, ledger bytes d) else (false, d).
Proof.
  intros Hb Ha Hp Hw. unfold AddPendingBytes.
  destruct (bytes =? 0) eqn:E0; to_prop.
  - subst. rewrite (proj2 (Z.leb_le _ _)) by lia. f_equal.
    rewrite Z.add_0_r, u64_small by (unfold is_u64, UINT64_MAX in *; lia). setters d.
  - destruct (_ <? bytes) eqn:E1; to_prop.
    + rewrite (proj2 (Z.leb_gt _ _)) by lia. done.
    + cbn. rewrite (proj2 (Z.ltb_ge _ _)) by lia. rewrite (proj2 (Z.leb_le _ _)) by lia.
      f_equal. cbn. rewrite u64_small by (unfold is_u64, UINT64_MAX in *; lia). setters d.
Qed.

End Forms.

(** ** The map of sends *)

Lemma find_send_spec a l o : find_send a l = Some o -> o ∈ l /\ Address o = a.
Proof.
  intros H. apply List.find_some in H as [Hin Ha]. to_prop_nat.
  split; [by apply list_elem_of_In|done].
Qed.

Lemma find_send_fresh a l o :
  Address o = a -> a ∉ Address <$> l -> find_send a (l ++ [o]) = Some o.
Proof.
  intros Ho Hl. unfold find_send. induction l as [|x l IH]; cbn.
  - by rewrite Ho, Nat.eqb_refl.
  - rewrite fmap_cons, not_elem_of_cons in Hl. destruct Hl as [Hx Hl].
    rewrite (proj2 (Nat.eqb_neq _ _)) by done. by apply IH.
Qed.

Lemma erase_send_fresh a l o :
  Address o = a -> a ∉ Address <$> l -> erase_send a (l ++ [o]) = l.
Proof.
  intros Ho Hl. unfold erase_send. induction l as [|x l IH]; cbn.
  - by rewrite Ho, Nat.eqb_refl.
  - rewrite fmap_cons, not_elem_of_cons in Hl. destruct Hl as [Hx Hl].
    rewrite (proj2 (Nat.eqb_neq _ _)) by done. cbn. f_equal. by apply IH.
Qed.

Lemma mark_fresh a c l o :
  Address o = a -> a ∉ Address <$> l ->
  (fun o => if (Address o =? a)%nat then mark_completed c o else o) <$> l ++ [o] =
  l ++ [mark_completed c o].
Proof.
  intros Ho Hl. rewrite fmap_app. cbn. rewrite Ho, Nat.eqb_refl. f_equal.
  induction l as [|x l IH]; [done|]. rewrite fmap_cons, not_elem_of_cons in Hl.
  destruct Hl as [Hx Hl]. cbn. rewrite (proj2 (Nat.eqb_neq _ _)) by done. f_equal. by apply IH.
Qed.

(** ** One submission *)

(** The operation as the map keeps it, with the mark of a completion inside [Send]. *)
Definition taken (e : SubmitAnswers) (o : TqUvQuicSendOperation) : TqUvQuicSendOperation :=
  match synchronous e with
  | Some cancelled => mark_completed cancelled (set_Ownership Submitted o)
  | None => set_Ownership Submitted o
  end.

(** MsQuic has the operation. *)
Definition submitted (e : SubmitAnswers) (o : TqUvQuicSendOperation) (d : Data) : Data :=
  set_accepted (accepted d ++ [payload o])
    (set_QuicFinSubmitted (Fin o || QuicFinSubmitted d)
       (set_Completions (Completions d ++ (if synchronous e then [Address o] else []))
          (set_QuicSends (QuicSends d ++ [taken e o]) d))).

(** The operation waits for another try. *)
Definition blocked (o : TqUvQuicSendOperation) (d : Data) : Data :=
  set_PendingQuicSendRetries (PendingQuicSendRetries d ++ [set_Ownership Created o]) d.

(** What a submission relies on. *)
Record Submittable (cfg : Config) (backlog : bool) (o : TqUvQuicSendOperation) (d : Data) : Prop := {
  sb_good : op_good cfg o;
  sb_fresh : Address o ∉ Address <$> QuicSends d;
  sb_open : CompletionQueued o = false;
  sb_fin : Fin o = true -> QuicFinSubmitted d = false;
  sb_accounted : AccountedTcpToQuicBytes d = PendingQuicSendBytes d;
  sb_pending : (if backlog then TotalBytes o else 0) <= PendingQuicSendBytes d;
  sb_worker : AccountedTcpToQuicBytes d <= TcpToQuicPendingBytes_ d <= UINT64_MAX;
  sb_budget : reserved o <= PendingBufferBytes d <= UINT64_MAX }.

Inductive SubmitEffect (e : SubmitAnswers) (backlog : bool) (o : TqUvQuicSendOperation) (d : Data) :
    SubmitResult * Data -> Prop :=
| effect_submitted :
    TcpToQuicPendingBytes_ d + (if backlog then 0 else TotalBytes o) <= UINT64_MAX ->
    SubmitEffect e backlog o d
      (SubmittedResult, submitted e o (ledger (if backlog then 0 else TotalBytes o) d))
| effect_blocked :
    TcpToQuicPendingBytes_ d + (if backlog then 0 else TotalBytes o) <= UINT64_MAX ->
    IsResourceStatus (status e) = true ->
    SubmitEffect e backlog o d
      (ResourceBlocked, blocked o (ledger (if backlog then 0 else TotalBytes o) d))
| effect_fatal :
    SubmitEffect e backlog o d
      (Fatal, buffers (- reserved o) (ledger (if backlog then - TotalBytes o else 0) d)).

(** [Send] and what follows it, once the operation is in the map and its bytes in the ledgers. *)
Lemma after_send_effect cfg e o d :
  Submittable cfg true o d ->
  let d1 := set_QuicSends (QuicSends d ++ [set_Ownership Submitted o]) d in
  let d2 := if Fin o then set_QuicFinSubmitted true d1 else d1 in
  let d3 := match synchronous e with
            | Some c => QueueSendComplete (Address o) c d2
            | None => d2
            end in
  SubmitEffect e true o d (after_send (Address o) (status e) (push_ok e) d3).
Proof.
  intros [Hg Hf Ho Hfin Ha Hp Hw Hb] d1 d2 d3.
  assert (QuicSends d2 = QuicSends d ++ [set_Ownership Submitted o]) as H2.
  { subst d2 d1. by destruct (Fin o). }
  destruct (synchronous e) as [c|] eqn:Hs.
  - assert (d3 = set_Completions (Completions d2 ++ [Address o])
                   (set_QuicSends (QuicSends d ++ [mark_completed c (set_Ownership Submitted o)]) d2))
      as ->.
    { subst d3. unfold QueueSendComplete. rewrite H2, find_send_fresh by done.
      cbn [CompletionQueued set_Ownership]. rewrite Ho. by rewrite mark_fresh. }
    unfold after_send. cbn [QuicSends set_Completions set_QuicSends].
    rewrite find_send_fresh by done. cbn [CompletionQueued mark_completed orb].
    replace (_, _) with (SubmittedResult, submitted e o (ledger 0 d)); [constructor; lia|].
    unfold submitted, taken. rewrite Hs. subst d2 d1. f_equal.
    destruct (Fin o) eqn:E; unfold payload; cbn [Views Fin mark_completed set_Ownership];
      rewrite E; setters d.
  - subst d3. unfold after_send. rewrite H2, find_send_fresh by done.
    cbn [CompletionQueued set_Ownership]. rewrite Ho. cbn [orb].
    destruct (bool_decide (status e = QUIC_STATUS_SUCCESS)) eqn:Est.
    + replace (_, _) with (SubmittedResult, submitted e o (ledger 0 d)); [constructor; lia|].
      unfold submitted, taken. rewrite Hs. subst d2 d1. f_equal.
      destruct (Fin o) eqn:E; unfold payload; cbn [Views Fin set_Ownership]; rewrite E; setters d.
      all: by rewrite app_nil_r.
    + rewrite erase_send_fresh by done.
      assert ((if Fin (set_Ownership Created (set_Ownership Submitted o))
               then set_QuicFinSubmitted false (set_QuicSends (QuicSends d) d2)
               else set_QuicSends (QuicSends d) d2) = d) as ->.
      { subst d2 d1. cbn [Fin set_Ownership]. destruct (Fin o) eqn:E; [|by setters d].
        specialize (Hfin eq_refl). destruct d; cbn in Hfin; subst; by fields. }
      destruct (IsResourceStatus (status e)) eqn:Er, (push_ok e); cbn [andb].
      1: { replace (_, _) with (ResourceBlocked, blocked o (ledger 0 d)); [constructor; lia || done|].
           f_equal. unfold blocked. setters d. }
      all: pose proof (op_good_bounds cfg o Hg); destruct Hg as [Hv _ _ _].
      all: unfold drop_operation; cbn [Views TotalBytes set_Ownership].
      all: rewrite ReleasePendingSend_form, free_views_form by (unfold reserved in *; cbn; lia || done).
      all: constructor.
Qed.

Lemma submittable_ledger cfg o d :
  Submittable cfg false o d -> 0 <= PendingQuicSendBytes d ->
  TcpToQuicPendingBytes_ d + TotalBytes o <= UINT64_MAX ->
  Submittable cfg true o (ledger (TotalBytes o) d).
Proof.
  intros [Hg Hf Ho Hfin Ha Hp Hw Hb] H0 Hm. pose proof (op_good_bounds cfg o Hg).
  constructor; unfold ledger; cbn; try done; lia.
Qed.

(** One submission: taken, kept for a retry, or given back. *)
Lemma TrySubmitOperation_effect cfg e o backlog d :
  Submittable cfg backlog o d -> 0 <= PendingQuicSendBytes d ->
  SubmitEffect e backlog o d (TrySubmitOperation e o backlog d).
Proof.
  intros H H0. pose proof H as [Hg Hf Ho Hfin Ha Hp Hw Hb].
  pose proof (op_good_bounds cfg o Hg) as Ht. pose proof (og_views _ _ Hg) as Hv.
  assert (SubmitEffect e backlog o d
            (Fatal, drop_operation o (if backlog then ReleasePendingSend (TotalBytes o) d else d)))
    as Hfail.
  { unfold drop_operation. destruct backlog.
    - rewrite ReleasePendingSend_form, free_views_form by (unfold reserved in *; cbn; lia || done).
      constructor.
    - rewrite free_views_form by (unfold reserved in *; lia || done).
      replace (buffers _ d) with (buffers (- reserved o) (ledger 0 d)) by setters d. constructor. }
  unfold TrySubmitOperation. destruct (reserve_ok e); cbn [negb]; [|done].
  destruct (emplace_ok e); cbn [negb]; [|done].
  destruct backlog.
  - cbn [negb]. by apply (after_send_effect cfg e o d).
  - set (d1 := set_QuicSends _ d).
    pose proof (AddPendingBytes_form (TotalBytes o) d1) as Hadd. subst d1.
    specialize (Hadd ltac:(lia) ltac:(done) ltac:(done) ltac:(done)).
    destruct (AddPendingBytes _ _) as [added d2] eqn:Eadd.
    destruct added; cbn [negb].
    + destruct (_ <=? UINT64_MAX) eqn:Em; [|done]. apply (f_equal snd) in Hadd. cbn [snd] in Hadd. rewrite Hadd.
      cbn [TcpToQuicPendingBytes_ set_QuicSends] in Em. to_prop.
      pose proof (submittable_ledger cfg o d H H0 ltac:(lia)) as Hs.
      pose proof (after_send_effect cfg e o _ Hs) as He. cbn [negb] in *.
      match type of He with SubmitEffect _ _ _ _ ?x => match goal with |- SubmitEffect _ _ _ _ ?y =>
        change y with x end end.
      destruct He as [_|_ Hr|].
      * replace (ledger 0 _) with (ledger (TotalBytes o) d) by setters d.
        by apply (effect_submitted e false o d).
      * replace (ledger 0 _) with (ledger (TotalBytes o) d) by setters d.
        by apply (effect_blocked e false o d).
      * replace (ledger (- _) _) with (ledger 0 d) by setters d. apply (effect_fatal e false o d).
    + destruct (_ <=? UINT64_MAX); [done|]. apply (f_equal snd) in Hadd. cbn [snd] in Hadd. subst d2.
      cbn [QuicSends set_QuicSends].
      rewrite erase_send_fresh by done. unfold drop_operation.
      rewrite free_views_form by (unfold reserved in *; cbn; lia || done).
      replace (buffers _ _) with (buffers (- reserved o) (ledger 0 d)) by setters d. constructor.
Qed.

(** ** What operations preserve *)

Lemma books_ledger cfg p h delta d :
  Books cfg p h d -> 0 <= p + delta -> TcpToQuicPendingBytes_ d + delta <= UINT64_MAX ->
  Books cfg (p + delta) h (ledger delta d).
Proof. intros []. constructor; unfold ledger; cbn; try done; lia. Qed.

Lemma books_buffers cfg p h delta d :
  Books cfg p h d -> 0 <= h + delta -> PendingBufferBytes d + delta <= MaxPendingBufferBytes cfg ->
  Books cfg p (h + delta) (buffers delta d).
Proof. intros []. constructor; unfold buffers; cbn; try done; lia. Qed.

Lemma reserved_nonneg cfg o : op_good cfg o -> 0 <= reserved o.
Proof. intros H. pose proof (op_good_bounds cfg o H). lia. Qed.

(** The fields an operation keeps when it is marked or relabelled. *)
Definition same_op (o o' : TqUvQuicSendOperation) : Prop :=
  Address o' = Address o /\ OperationIdentity o' = OperationIdentity o /\ Views o' = Views o /\
  TotalBytes o' = TotalBytes o /\ Fin o' = Fin o.

Lemma same_op_good cfg o o' : same_op o o' -> op_good cfg o -> op_good cfg o'.
Proof.
  intros (Ha & Hi & Hv & Ht & Hf) []. constructor; rewrite ?Hi, ?Hv, ?Ht, ?Hf; done.
Qed.

Lemma taken_same e o : same_op o (taken e o).
Proof. unfold taken. by destruct (synchronous e). Qed.

Lemma same_op_payload o o' : same_op o o' -> payload o' = payload o.
Proof. intros (_ & _ & Hv & _ & Hf). unfold payload. by rewrite Hv, Hf. Qed.

Lemma same_op_reserved o o' : same_op o o' -> reserved o' = reserved o.
Proof. intros (_ & _ & Hv & _). unfold reserved. by rewrite Hv. Qed.

Lemma books_submitted cfg p h e o d :
  Books cfg (p + TotalBytes o) (h + reserved o) d -> 0 <= p -> 0 <= h -> op_good cfg o ->
  Books cfg p h (submitted e o d).
Proof.
  intros [] Hp Hh Hg. pose proof (taken_same e o) as Hs.
  pose proof (same_op_reserved _ _ Hs) as Hr. pose proof Hs as (_ & _ & _ & Ht & _).
  constructor; unfold submitted; cbn; rewrite ?sum_app, ?sum_one, ?Hr, ?Ht; try done; try lia.
  apply Forall_app. split; [done|]. apply Forall_singleton. by eapply same_op_good.
Qed.

Lemma books_blocked cfg p h o d :
  Books cfg (p + TotalBytes o) (h + reserved o) d -> 0 <= p -> 0 <= h -> op_good cfg o ->
  Books cfg p h (blocked o d).
Proof.
  intros [] Hp Hh Hg.
  constructor; unfold blocked; cbn; rewrite ?sum_app, ?sum_one; try done.
  - cbn. lia.
  - change (reserved (set_Ownership Created o)) with (reserved o). lia.
  - apply Forall_app. split; [done|]. apply Forall_singleton. by eapply same_op_good; [|done].
Qed.

Lemma books_submit cfg p h e (backlog : bool) o d r d' :
  Books cfg (p + if backlog then TotalBytes o else 0) (h + reserved o) d -> 0 <= p -> 0 <= h ->
  op_good cfg o -> SubmitEffect e backlog o d (r, d') -> Books cfg p h d'.
Proof.
  intros Hb Hp Hh Hg He. pose proof (op_good_bounds cfg o Hg) as Ht.
  pose proof (books_bounds _ _ _ Hb) as Hbb. pose proof Hb as [].
  inversion He as [Hw|Hw _|]; subst; clear He.
  - apply books_submitted; try done.
    replace (p + TotalBytes o) with
      (p + (if backlog then TotalBytes o else 0) + (if backlog then 0 else TotalBytes o))
      by (destruct backlog; lia).
    apply books_ledger; [done|destruct backlog; lia|done].
  - apply books_blocked; try done.
    replace (p + TotalBytes o) with
      (p + (if backlog then TotalBytes o else 0) + (if backlog then 0 else TotalBytes o))
      by (destruct backlog; lia).
    apply books_ledger; [done|destruct backlog; lia|done].
  - replace h with (h + reserved o + - reserved o) by lia. apply books_buffers; [|lia|].
    + replace p with (p + (if backlog then TotalBytes o else 0) +
                      (if backlog then - TotalBytes o else 0)) by (destruct backlog; lia).
      apply books_ledger; [done|destruct backlog; lia|destruct backlog; lia].
    + unfold ledger. cbn. lia.
Qed.

Lemma ids_submit e (backlog : bool) o d r d' :
  Ids d -> Address o ∉ Address <$> (QuicSends d ++ PendingQuicSendRetries d) ->
  (Address o < NextAddress d)%nat -> CompletionQueued o = false ->
  SubmitEffect e backlog o d (r, d') -> Ids d'.
Proof.
  intros [Hn Hb Hq Hd Hr] Hf Ha Ho He.
  inversion He; subst; clear He; [| |by constructor].
  - pose proof (taken_same e o) as (Hta & _).
    assert (NoDup (Address <$> (QuicSends d ++ [taken e o]) ++ PendingQuicSendRetries d)) as Hn'.
    { rewrite !fmap_app in *. cbn. rewrite Hta, <- app_assoc. cbn.
      rewrite <- Permutation_middle. by constructor. }
    rewrite fmap_app, not_elem_of_app in Hf. destruct Hf as [Hf _].
    assert (Address o ∉ Completions d) as Hfc.
    { intros (o' & Hin & Heq & _)%Hd. apply Hf. rewrite <- Heq. by apply list_elem_of_fmap_2. }
    constructor; unfold submitted, ledger; cbn; try done.
    + rewrite !Forall_app in *. rewrite Forall_singleton, Hta. naive_solver.
    + destruct (synchronous e); [|by rewrite app_nil_r].
      apply list.NoDup_app. split; [done|]. split; [|apply NoDup_singleton].
      intros x Hx ->%list_elem_of_singleton. done.
    + intros a. rewrite elem_of_app, Hd. setoid_rewrite elem_of_app.
      unfold taken. destruct (synchronous e) as [c|]; setoid_rewrite list_elem_of_singleton; cbn.
      * split.
        -- intros [(o' & ? & ? & ?)| ->]; [by exists o'; eauto|].
           exists (mark_completed c (set_Ownership Submitted o)). by eauto.
        -- intros (o' & [Hin| ->] & <- & Hc); [left; by exists o'|by right].
      * split.
        -- intros [(o' & ? & ? & ?)|Hx]; [by exists o'; eauto|]. by apply not_elem_of_nil in Hx.
        -- intros (o' & [Hin| ->] & <- & Hc); [left; by exists o'|]. cbn in Hc. congruence.
  - constructor; unfold blocked, ledger; cbn; try done.
    + rewrite !fmap_app in *. cbn. rewrite app_assoc. apply list.NoDup_app. split; [done|].
      split; [|apply NoDup_singleton]. intros x Hx ->%list_elem_of_singleton. done.
    + rewrite !Forall_app in *. rewrite Forall_singleton. cbn. naive_solver.
    + rewrite Forall_app, Forall_singleton. by cbn.
Qed.

Lemma fins_app l k : fins (l ++ k) = (fins l + fins k)%nat.
Proof. apply total_app. Qed.

Lemma fins_cons x l : fins (x :: l) = ((if snd x then 1 else 0) + fins l)%nat.
Proof. reflexivity. Qed.

Lemma fins_one x : fins [x] = if snd x then 1%nat else 0%nat.
Proof. unfold fins, total. cbn. lia. Qed.

#[global] Arguments fins : simpl never.

Lemma fins_le_perm l k : l ≡ₚ k -> fins l = fins k.
Proof. apply total_perm. Qed.

Lemma sent_submit e (backlog : bool) o u d r d' :
  Sent (payload o :: u) d -> SubmitEffect e backlog o d (r, d') -> Sent u d'.
Proof.
  intros [Ht Hf Hc Ho Hla Hco] He. rewrite fins_cons in Hc. cbn [snd payload] in Hc.
  inversion He; subst; clear He.
  - constructor; unfold submitted, ledger; cbn; rewrite ?fins_app, ?fins_one; cbn.
    + apply Forall_app. split.
      * eapply List.Forall_impl; [|done]. intros o' Ho'. apply elem_of_app. by left.
      * rewrite Forall_singleton, (same_op_payload _ _ (taken_same e o)).
        apply elem_of_app. right. by apply list_elem_of_singleton.
    + rewrite orb_true_iff, Hf. destruct (Fin o); naive_solver lia.
    + lia.
    + done.
    + done.
    + intros H. specialize (Hco H). lia.
  - constructor; unfold blocked, ledger; cbn; try done.
    rewrite fmap_app, fins_app. cbn. rewrite fins_one. cbn. lia.
  - constructor; unfold buffers, ledger; cbn; try done. lia.
Qed.

(** The invariant of the data between handlers and inside them. *)
Definition Good (cfg : Config) (h : Z) (d : Data) : Prop := Books cfg 0 h d /\ Ids d /\ Sent [] d.

Section Steps.
  Context {cfg : Config} (Hcfg : Config_ok cfg).

Lemma good_budget h d : Good cfg h d -> 0 <= h <= PendingBufferBytes d /\ PendingBufferBytes d <= UINT64_MAX.
Proof.
  intros (Hb & _). pose proof (books_bounds _ _ _ Hb) as Hbb. destruct Hb, Hcfg. lia.
Qed.

(** Changing fields the invariant does not read. *)
Lemma good_ext h d d' :
  Good cfg h d ->
  QuicSends d' = QuicSends d -> PendingQuicSendRetries d' = PendingQuicSendRetries d ->
  PendingQuicSendBytes d' = PendingQuicSendBytes d ->
  AccountedTcpToQuicBytes d' = AccountedTcpToQuicBytes d ->
  TcpToQuicPendingBytes_ d' = TcpToQuicPendingBytes_ d -> OtherRelays d' = OtherRelays d ->
  PendingBufferBytes d' = PendingBufferBytes d -> TcpReadBuffers d' = TcpReadBuffers d ->
  Completions d' = Completions d -> (NextAddress d <= NextAddress d')%nat ->
  QuicFinSubmitted d' = QuicFinSubmitted d -> QuicFinCompleted d' = QuicFinCompleted d ->
  (TcpReadClosed d = true -> TcpReadClosed d' = true) -> accepted d' = accepted d ->
  produced d' = produced d -> Good cfg h d'.
Proof.
  intros ([] & [] & []) Hqs Hre Hp Ha Hw Ho Hbu Hs Hq Hn Hf Hfc Hcl Hac Hpr.
  split_and!; constructor; rewrite ?Hqs, ?Hre, ?Hp, ?Ha, ?Hw, ?Ho, ?Hbu, ?Hs, ?Hq, ?Hf, ?Hfc, ?Hac, ?Hpr; try done.
  all: rewrite ?Forall_app in *; try lia.
  - destruct i_below0 as [H1 H2].
    split; (eapply List.Forall_impl; [|first [exact H1|exact H2]]); intros o; cbn; lia.
  - destruct (TcpReadClosed d) eqn:E; [rewrite (Hcl eq_refl); done|].
    destruct (TcpReadClosed d'); lia.
Qed.

Lemma good_free_buffer h b d : Good cfg (h + b) d -> 0 <= h -> 0 <= b -> Good cfg h (free_buffer b d).
Proof.
  intros Hg Hh Hb. pose proof (good_budget _ _ Hg). destruct Hg as (Hbk & Hi & Hs).
  rewrite free_buffer_form by lia. split_and!; [|by destruct Hi|by destruct Hs].
  replace h with (h + b + - b) by lia. pose proof (b_budget_max _ _ _ _ Hbk).
  apply books_buffers; [done|lia|lia].
Qed.

Lemma good_free_views h views d :
  Good cfg (h + sum Reserved views) d -> 0 <= h -> Forall view_good views ->
  Good cfg h (free_views views d).
Proof.
  intros Hg Hh Hv. pose proof (good_budget _ _ Hg). destruct Hg as (Hbk & Hi & Hs).
  rewrite free_views_form by (done || lia). split_and!; [|by destruct Hi|by destruct Hs].
  pose proof (views_nonneg _ Hv). pose proof (b_budget_max _ _ _ _ Hbk).
  replace h with (h + sum Reserved views + - sum Reserved views) by lia.
  apply books_buffers; [done|lia|lia].
Qed.

Lemma good_alloc h ok bytes d r f d' :
  Good cfg h d -> 0 <= bytes <= TcpReadChunkSize cfg ->
  TqAllocateRelayBuffer cfg ok bytes d = (r, f, d') ->
  match r with
  | Some b => b = bytes /\ 0 < b /\ Good cfg (h + b) d'
  | None => d' = d
  end /\
  (f = PendingBytesLimit -> r = None /\ MaxPendingBufferBytes cfg < PendingBufferBytes d + bytes).
Proof.
  intros Hg Hb. pose proof (good_budget _ _ Hg) as Hbu. unfold TqAllocateRelayBuffer.
  destruct (bytes =? 0) eqn:E0; [by intros [= <- <- <-]|]. to_prop.
  pose proof Hg as ([] & Hi & Hs). destruct Hcfg as [c1 c2 c3].
  rewrite (u64_small (_ + bytes)) by (unfold is_u64, UINT64_MAX in *; lia).
  destruct (MaxPendingBufferBytes cfg <? _) eqn:El; to_prop.
  { intros [= <- <- <-]. done. }
  destruct ok; intros [= <- <- <-]; [|done]. split; [|done]. split_and!; [done|lia|].
  destruct Hg as (Hbk & _ & _).
  pose proof (books_buffers cfg 0 h bytes d Hbk ltac:(lia) ltac:(lia)) as [].
  split_and!; [constructor; done|by destruct Hi|by destruct Hs].
Qed.

End Steps.

(** ** Submitting, in terms of the invariant *)

(** What submissions and completions leave alone. *)
Definition same_reading (d d' : Data) : Prop :=
  TcpReadStarted d' = TcpReadStarted d /\ TcpReadClosed d' = TcpReadClosed d /\
  TcpReadPausedByQuicBacklog d' = TcpReadPausedByQuicBacklog d /\ tcp_input d' = tcp_input d /\
  CompressorCalls d' = CompressorCalls d /\ TcpReadBuffers d' = TcpReadBuffers d.

#[global] Instance same_reading_preorder : PreOrder same_reading.
Proof. split; [by intros d|]. unfold same_reading. intros d1 d2 d3. intuition congruence. Qed.

(** Where a unit has gone. *)
Definition routed (u : Unit) (r : SubmitResult) (d d' : Data) : Prop :=
  match r with
  | SubmittedResult => accepted d' = accepted d ++ [u] /\ QuicSends d' <> [] /\
                       PendingQuicSendRetries d' = PendingQuicSendRetries d
  | ResourceBlocked => accepted d' = accepted d /\
                       exists o, payload o = u /\
                         PendingQuicSendRetries d' = PendingQuicSendRetries d ++ [o]
  | Fatal => True
  end.

Section Flow.
  Context {cfg : Config} (Hcfg : Config_ok cfg).

Lemma submittable_intro h (backlog : bool) o d :
  Books cfg (if backlog then TotalBytes o else 0) (h + reserved o) d -> 0 <= h ->
  Sent [payload o] d -> op_good cfg o -> CompletionQueued o = false ->
  Address o ∉ Address <$> (QuicSends d ++ PendingQuicSendRetries d) ->
  Submittable cfg backlog o d /\ 0 <= PendingQuicSendBytes d.
Proof.
  intros Hb Hh [_ Hf Hc Ho _ _] Hg Hq Ha. pose proof (books_bounds _ _ _ Hb) as Hbb.
  pose proof (op_good_bounds cfg o Hg) as Ht. destruct Hb, Hcfg.
  rewrite fmap_app, not_elem_of_app in Ha. split; [constructor; try done; try lia|lia].
  - naive_solver.
  - intros Hfin. destruct (QuicFinSubmitted d) eqn:E; [|done].
    assert (fins (accepted d) <> 0)%nat by (by apply Hf). rewrite fins_one in Hc. cbn in Hc.
    rewrite Hfin in Hc. destruct (TcpReadClosed d); lia.
Qed.

Lemma try_submit_good h e (backlog : bool) o d r d' :
  Books cfg (if backlog then TotalBytes o else 0) (h + reserved o) d -> 0 <= h ->
  Ids d -> Sent [payload o] d -> op_good cfg o -> CompletionQueued o = false ->
  Address o ∉ Address <$> (QuicSends d ++ PendingQuicSendRetries d) ->
  (Address o < NextAddress d)%nat ->
  TrySubmitOperation e o backlog d = (r, d') ->
  Good cfg h d' /\ same_reading d d' /\ produced d' = produced d /\ routed (payload o) r d d' /\
  (r <> Fatal ->
   PendingQuicSendBytes d' = PendingQuicSendBytes d + if backlog then 0 else TotalBytes o).
Proof.
  intros Hb Hh Hi Hs Hg Hq Ha Hn Heq.
  destruct (submittable_intro h backlog o d) as [Hsub Hp]; [done..|].
  pose proof (TrySubmitOperation_effect cfg e o backlog d Hsub Hp) as He. rewrite Heq in He.
  split; [split_and!|].
  - eapply books_submit; [|done..|exact He]. done.
  - by eapply ids_submit.
  - by eapply sent_submit.
  - inversion He; subst; clear He.
    + unfold submitted, ledger, routed, same_reading; cbn. split_and!; try done.
      by intros [_ ?]%app_nil.
    + unfold blocked, ledger, routed, same_reading; cbn. split_and!; try done.
      by exists (set_Ownership Created o).
    + by unfold buffers, ledger, routed, same_reading; cbn.
Qed.

Lemma total_bytes_form views acc :
  Forall view_good views -> 0 <= acc ->
  acc + sum (fun v => size (Bytes v)) views <= UINT64_MAX ->
  total_bytes views acc = None \/
  total_bytes views acc = Some (acc + sum (fun v => size (Bytes v)) views).
Proof.
  intros Hv. revert acc. induction Hv as [|v views Hg Hv IH]; intros acc H0 Hm; cbn.
  - right. f_equal. unfold sum. cbn. lia.
  - rewrite sum_cons in *. pose proof (views_size views Hv). unfold view_good in Hg.
    destruct (_ <? size (Bytes v)); [by left|].
    rewrite u64_small by (unfold is_u64, UINT64_MAX in *; lia).
    destruct (IH (acc + size (Bytes v))) as [->| ->]; [lia|lia|by left|right].
    f_equal. lia.
Qed.

Lemma Submit_good h started new_ok e views fin d r d' :
  Good cfg (h + sum Reserved views) d -> 0 <= h -> Forall view_good views ->
  (fin = false -> views <> []) ->
  fins (produced d) = 0%nat -> (fin = true -> TcpReadClosed d = true) ->
  Submit cfg started new_ok e views fin d = (r, d') ->
  Good cfg h d' /\ same_reading d d' /\
  (r <> Fatal ->
   started = false /\ produced d' = produced d ++ [(concat (Bytes <$> views), fin)] /\
   routed (concat (Bytes <$> views), fin) r d d').
Proof.
  intros Hg Hh Hv Hne Hz Hfin. pose proof (good_budget Hcfg _ _ Hg) as Hbu.
  pose proof (good_free_views Hcfg h views d Hg Hh Hv) as Hfree.
  assert (same_reading d (free_views views d)) as Hread.
  { rewrite free_views_form by (done || lia). by destruct d. }
  pose proof (views_size views Hv) as Hvs. unfold Submit.
  destruct started; [by intros [= <- <-]|]. destruct new_ok; [cbn [negb]|by intros [= <- <-]].
  destruct (total_bytes_form views 0) as [->| ->]; [done|lia|lia|by intros [= <- <-]|].
  set (o := {| Address := NextAddress d; OperationIdentity := _; Views := _; TotalBytes := _;
               Fin := fin; CompletionQueued := _; CompletionCancelled := _; Ownership := _ |}).
  set (d1 := set_produced _ _). intros Heq.
  destruct Hg as ([] & Hi & Hs).
  assert (op_good cfg o) as Hgo by (by constructor).
  assert (Forall (fun o => Address o < NextAddress d)%nat
            (QuicSends d ++ PendingQuicSendRetries d)) as Hbel by (by destruct Hi).
  edestruct (try_submit_good h e false o d1) as (H1 & H2 & H3 & H4 & _); [..|exact Heq|]; try done.
  - destruct Hi. constructor; cbn; try done. eapply List.Forall_impl; [|exact i_below0].
    intros x. cbn. lia.
  - destruct Hs. constructor; cbn; try done.
    + rewrite fins_app. lia.
    + rewrite fins_app, fins_one. cbn. destruct fin; [|lia].
      rewrite (Hfin eq_refl). lia.
    + by rewrite removelast_last.
  - cbn. rewrite list_elem_of_fmap. intros (x & Hx & Hin).
    rewrite list.Forall_forall in Hbel. specialize (Hbel x Hin). lia.
  - cbn. lia.
Qed.

(** ** Buffers and compressed output *)

(** Only the budget's counters differ. *)
Definition budget_only (d d' : Data) : Prop :=
  exists count pending, d' = set_AllocateCount count (set_PendingBufferBytes pending d).

Lemma budget_only_refl d : budget_only d d.
Proof. exists (AllocateCount d), (PendingBufferBytes d). by destruct d. Qed.

Lemma budget_only_trans d1 d2 d3 : budget_only d1 d2 -> budget_only d2 d3 -> budget_only d1 d3.
Proof. intros (c & p & ->) (c' & p' & ->). exists c', p'. by destruct d1. Qed.

Lemma alloc_budget_only ok bytes d r f d' :
  TqAllocateRelayBuffer cfg ok bytes d = (r, f, d') -> budget_only d d'.
Proof.
  unfold TqAllocateRelayBuffer. intros H. cases_in H; try apply budget_only_refl.
  by eexists _, _.
Qed.

Lemma free_budget_only b d : budget_only d (free_buffer b d).
Proof.
  unfold free_buffer. destruct (0 <? b); [|apply budget_only_refl].
  exists (AllocateCount d), (u64 (PendingBufferBytes d - b)). by destruct d.
Qed.

Lemma AllocateViews_loop_good fuel oks bytes h views d built views' d' :
  Good cfg (h + sum Reserved views) d -> 0 <= h -> Forall view_good views ->
  AllocateViews_loop cfg fuel oks bytes views d = (built, views', d') ->
  Good cfg (h + sum Reserved views') d' /\ Forall view_good views' /\ budget_only d d' /\
  (built = true -> concat (Bytes <$> views') = concat (Bytes <$> views) ++ bytes).
Proof.
  revert oks bytes views d. induction fuel as [|fuel IH]; intros oks bytes views d Hg Hh Hv Heq;
    destruct bytes as [|b bytes]; cbn in Heq.
  1, 3: injection Heq as <- <- <-; split_and!; try done; try apply budget_only_refl;
        intros _; by rewrite app_nil_r.
  { injection Heq as <- <- <-. split_and!; try done. apply budget_only_refl. }
  destruct (TqAllocateRelayBuffer _ _ _ _) as [[r f] d1] eqn:Ea.
  pose proof (alloc_budget_only _ _ _ _ _ _ Ea) as Hbo.
  assert (0 < size (b :: bytes)) as Hsz by (unfold size; cbn [length]; lia).
  destruct Hcfg as [Hc _ _].
  eapply (good_alloc Hcfg) in Ea as [Hr _]; [|exact Hg|lia].
  destruct r as [owner|]; [|injection Heq as <- <- <-; subst d1; split_and!; try done; apply Hbo].
  destruct Hr as (-> & Hpos & Hg1).
  set (chunk := Z.min _ _) in *.
  set (v := {| Bytes := take (Z.to_nat chunk) (b :: bytes); Reserved := chunk |}) in *.
  assert (size (Bytes v) = chunk) as Hsv.
  { unfold size. cbn [Bytes v]. rewrite length_take. unfold size in *. lia. }
  apply IH in Heq as (H1 & H2 & H3 & H4).
  - split_and!; try done; [by eapply budget_only_trans|]. intros Hb. rewrite (H4 Hb).
    rewrite fmap_app, concat_app. cbn [fmap list_fmap concat Bytes v].
    rewrite app_nil_r, <- app_assoc, take_drop. done.
  - rewrite sum_app, sum_one. cbn [Reserved v]. by rewrite Z.add_assoc.
  - done.
  - apply Forall_app. split; [done|]. apply Forall_singleton. unfold view_good. cbn [Reserved v]. lia.
Qed.

(** More rounds than bytes are never needed. *)
Lemma AllocateViews_loop_fuel fuel oks bytes views d :
  0 < TcpReadChunkSize cfg -> (length bytes <= fuel)%nat ->
  AllocateViews_loop cfg fuel oks bytes views d =
  AllocateViews_loop cfg (length bytes) oks bytes views d.
Proof.
  intros Hc. revert oks bytes views d.
  assert (forall k, forall fuel oks bytes views d, (length bytes <= k)%nat -> (k <= fuel)%nat ->
            AllocateViews_loop cfg fuel oks bytes views d =
            AllocateViews_loop cfg k oks bytes views d) as H.
  { clear fuel. induction k as [|k IH]; intros fuel oks bytes views d Hl Hf.
    - destruct bytes; [|cbn in Hl; lia]. by destruct fuel.
    - destruct fuel as [|fuel]; [lia|]. destruct bytes as [|b bytes]; [done|]. cbn.
      destruct (TqAllocateRelayBuffer _ _ _ _) as [[[owner|] f] d1]; [|done].
      apply IH; [|lia]. change (b :: bytes) with ([b] ++ bytes) in *.
      destruct (Z.to_nat _) as [|n] eqn:En; [unfold size in En; cbn [length app] in En; lia|].
      cbn [app drop]. rewrite length_drop. cbn in Hl. lia. }
  intros. by apply H.
Qed.

(** ** The compressor's calls *)

Context {K : ITqCompressor}.

(** [calls] all succeeded and gave [out]. *)
Inductive Compressed : list Call -> list Z -> Prop :=
| compressed_none : Compressed [] []
| compressed_data calls out data endStream more :
    Compressed calls out -> Compress calls data endStream = Some more ->
    Compressed (calls ++ [CompressCall data endStream]) (out ++ more)
| compressed_flush calls out more :
    Compressed calls out -> Flush calls = Some more -> Compressed (calls ++ [FlushCall]) (out ++ more).

Definition inputs (calls : list Call) : list Z :=
  concat ((fun c => match c with CompressCall data _ => data | FlushCall => [] end) <$> calls).

Lemma inputs_app l k : inputs (l ++ k) = inputs l ++ inputs k.
Proof. unfold inputs. by rewrite fmap_app, concat_app. Qed.

(** The bytes produced so far are the input's encoding. *)
Definition encodes (d : Data) (stream : list Z) : Prop :=
  if Compressing cfg
  then Compressed (CompressorCalls d) stream /\ inputs (CompressorCalls d) = tcp_input d
  else stream = tcp_input d.

(** What [BuildViews] leaves alone. *)
Definition building (d d' : Data) : Prop :=
  exists calls d1, d1 = set_CompressorCalls calls d /\ budget_only d1 d'.

Lemma building_intro calls d d' : budget_only (set_CompressorCalls calls d) d' -> building d d'.
Proof. intros. by exists calls, (set_CompressorCalls calls d). Qed.

Lemma building_refl d d' : budget_only d d' -> building d d'.
Proof. intros H. apply (building_intro (CompressorCalls d)). by destruct d. Qed.

End Flow.

Section Operations.
  Context {cfg : Config} (Hcfg : Config_ok cfg) {K : ITqCompressor}.

Lemma good_calls h calls d : Good cfg h d -> Good cfg h (set_CompressorCalls calls d).
Proof. intros H. by eapply good_ext. Qed.

(** [input] is the reserved size of the handle the views may take over. *)
Lemma BuildViews_good h emplace oks input bytes fin d built views out failed d' :
  Good cfg (h + default 0 input) d -> 0 <= h -> 0 <= default 0 input ->
  match input with Some b => size bytes <= b | None => bytes = [] end ->
  BuildViews cfg emplace oks input bytes fin d = (built, views, out, failed, d') ->
  Good cfg (h + sum Reserved views) d' /\ Forall view_good views /\ building d d' /\
  (built = true -> forall input stream,
     encodes (cfg := cfg) (set_tcp_input input d) stream ->
     encodes (cfg := cfg) (set_tcp_input (input ++ bytes) d')
       (stream ++ concat (Bytes <$> views))) /\
  (built = true -> Compressing cfg = false -> bytes <> [] -> views <> []).
Proof.
  intros Hg Hh Hi Hin.
  assert (forall e, Good cfg (h + default 0 input) e ->
            Good cfg h (match input with Some b => free_buffer b e | None => e end)) as Hfree.
  { intros e He. destruct input; cbn in *; [by apply (good_free_buffer Hcfg)|].
    by rewrite Z.add_0_r in He. }
  assert (forall e, budget_only e (match input with Some b => free_buffer b e | None => e end)) as Hbo.
  { intros e. destruct input; [apply free_budget_only|apply budget_only_refl]. }
  unfold BuildViews. destruct (Compressing cfg) eqn:Hc; cbn [negb].
  - set (d1 := set_CompressorCalls _ d).
    assert (Good cfg (h + default 0 input) d1) as Hg1 by (by apply good_calls).
    destruct (Compress _ _ _) as [o|] eqn:Ec.
    2: { intros [= <- <- <- <- <-]. rewrite Z.add_0_r. split_and!; try done; [by apply Hfree|].
         eapply building_intro. apply Hbo. }
    set (flush := negb fin && _).
    set (d2 := if flush then _ else d1).
    assert (Good cfg (h + default 0 input) d2) as Hg2.
    { unfold d2. destruct flush; [by apply good_calls|done]. }
    destruct (if flush then Flush _ else Some []) as [more|] eqn:Ef.
    2: { intros [= <- <- <- <- <-]. rewrite Z.add_0_r. split_and!; try done; [by apply Hfree|].
         apply (building_intro (CompressorCalls d2)).
         replace (set_CompressorCalls _ d) with d2 by (unfold d2, d1; by destruct flush, d).
         apply Hbo. }
    destruct (AllocateViews _ _ _ _) as [[built' views'] d3] eqn:Ea. intros [= <- <- <- <- <-].
    eapply (AllocateViews_loop_good Hcfg _ _ _ h) in Ea as (H1 & H2 & H3 & H4); try done.
    2: { rewrite Z.add_0_r. by apply Hfree. }
    split_and!; try done.
    + apply (building_intro (CompressorCalls d2)).
      replace (set_CompressorCalls _ d) with d2 by (unfold d2, d1; by destruct flush, d).
      eapply budget_only_trans; [apply Hbo|done].
    + intros Hb inp stream. unfold encodes. rewrite Hc, (H4 Hb).
      cbn [CompressorCalls tcp_input set_tcp_input]. intros [Hs Hin'].
      assert (CompressorCalls d3 = CompressorCalls d2) as ->.
      { destruct H3 as (c & p & ->). cbn. destruct (Hbo d2) as (c' & p' & ->). done. }
      cbn [tcp_input set_tcp_input fmap list_fmap concat app].
      pose proof (compressed_data _ _ _ _ _ Hs Ec) as Hs1. unfold d2, d1. destruct flush.
      * split; [rewrite app_assoc; by apply compressed_flush|].
        cbn [CompressorCalls set_CompressorCalls]. rewrite !inputs_app, Hin'. unfold inputs. cbn. by rewrite !app_nil_r.
      * injection Ef as <-. rewrite app_nil_r. split; [done|].
        cbn [CompressorCalls set_CompressorCalls]. rewrite inputs_app, Hin'. unfold inputs. cbn. by rewrite app_nil_r.
  - assert (building d d) as Hbr by (apply building_refl, budget_only_refl).
    assert (building d (match input with Some b => free_buffer b d | None => d end)) as Hbf
      by (apply building_refl, Hbo).
    destruct bytes as [|b bytes].
    { intros [= <- <- <- <- <-]. rewrite Z.add_0_r. split_and!; try done; [by apply Hfree|].
      intros _ inp stream. unfold encodes. rewrite Hc. cbn. intros ->. by rewrite !app_nil_r. }
    destruct input as [owner|]; [|done]. destruct emplace; intros [= <- <- <- <- <-].
    + rewrite sum_one. cbn in *. split_and!; try done.
      * apply Forall_singleton. unfold view_good. cbn. unfold size in *. cbn [length] in *. lia.
      * intros _ inp stream. unfold encodes. rewrite Hc. cbn. intros ->. by rewrite app_nil_r.
    + rewrite Z.add_0_r. split_and!; try done. by apply Hfree.
Qed.

(** Fields [building] does not touch. *)
Lemma building_fields d d' :
  building d d' ->
  TcpReadStarted d' = TcpReadStarted d /\ TcpReadClosed d' = TcpReadClosed d /\
  TcpReadPausedByQuicBacklog d' = TcpReadPausedByQuicBacklog d /\
  TcpReadBuffers d' = TcpReadBuffers d /\ tcp_input d' = tcp_input d /\
  QuicSends d' = QuicSends d /\ PendingQuicSendRetries d' = PendingQuicSendRetries d /\
  PendingQuicSendBytes d' = PendingQuicSendBytes d /\
  produced d' = produced d /\ accepted d' = accepted d.
Proof. intros (c & d1 & -> & (c' & p & ->)). done. Qed.

(** ** Read buffers *)

(** The callback stages one buffer; the read takes it back out. *)
Lemma on_alloc_good h ok suggested d buffer d' :
  Good cfg h d -> TcpReadBuffers d = [] -> 0 <= suggested ->
  TqUvOnTcpAlloc cfg ok suggested d = (buffer, d') ->
  match buffer with
  | Some (a, b) => TcpReadBuffers d' = [(a, b)] /\ 0 < b /\ TcpReadAcquireFailure d' = NoFailure /\
                   Good cfg (h + b) (set_TcpReadBuffers [] d')
  | None => Good cfg h d' /\ TcpReadBuffers d' = [] /\
            (TcpReadAcquireFailure d' = PendingBytesLimit ->
             MaxPendingBufferBytes cfg < PendingBufferBytes d' + TcpReadChunkSize cfg)
  end /\ same_reading d (set_TcpReadBuffers [] d') /\ QuicSends d' = QuicSends d /\
  PendingQuicSendRetries d' = PendingQuicSendRetries d /\ produced d' = produced d /\
  accepted d' = accepted d /\ PendingQuicSendBytes d' = PendingQuicSendBytes d.
Proof.
  intros Hg Hst Hs. unfold TqUvOnTcpAlloc, TqUvAllocateTcpReadBuffer.
  assert (forall f, Good cfg h (set_TcpReadAcquireFailure f d)) as Hgf.
  { intros f. by eapply good_ext. }
  destruct (_ || _) eqn:Ez; cbn.
  { intros [= <- <-]. split_and!; first [done|apply Hgf|by unfold same_reading; cbn]. }
  to_prop. pose proof (c_chunk _ Hcfg).
  set (bytes := Z.min _ _).
  assert (0 <= bytes <= TcpReadChunkSize cfg) as Hb.
  { unfold bytes. destruct (suggested =? 0); lia. }
  destruct (TqAllocateRelayBuffer _ _ _ _) as [[r f] d1] eqn:Ea.
  pose proof (alloc_budget_only _ _ _ _ _ _ Ea) as (c & p & Hd1).
  eapply (good_alloc Hcfg) in Ea as [Hr Hf]; [|exact Hg|exact Hb].
  destruct r as [owner|]; cbn.
  - destruct Hr as (-> & Hpos & Hg1). intros [= <- <-]. rewrite Hd1. cbn. rewrite Hst. cbn.
    split_and!; try done.
    eapply good_ext; [exact Hg1|..]; rewrite Hd1; cbn; try done. lia.
  - clear Hd1. subst d1. intros [= <- <-]. split_and!; first [done|apply Hgf|idtac].
    cbn. case_bool_decide; [done|]. intros Hfl. destruct (Hf Hfl) as [_ Hlt]. lia.
Qed.

Lemma take_buffer_staged a b d :
  TcpReadBuffers d = [(a, b)] -> take_buffer (Some a) d = (Some b, set_TcpReadBuffers [] d).
Proof. intros H. unfold take_buffer. rewrite H. cbn. by rewrite Nat.eqb_refl. Qed.

(** ** What the terminal drops *)

Lemma drop_operations_form l d :
  Forall (op_good cfg) l -> sum reserved l <= PendingBufferBytes d ->
  PendingBufferBytes d <= UINT64_MAX ->
  fold_left (fun d o => drop_operation o d) l d = buffers (- sum reserved l) d.
Proof.
  intros Hl. revert d. induction Hl as [|o l Ho Hl IH]; intros d Hs Hm.
  - by setters d.
  - rewrite sum_cons in *. pose proof (op_good_bounds _ _ Ho). pose proof (ops_bounds _ _ Hl).
    cbn [fold_left]. unfold drop_operation at 2.
    rewrite free_views_form; [|apply Ho|unfold reserved in *; lia|lia].
    rewrite IH by (unfold buffers, reserved in *; cbn; lia).
    change (sum Reserved (Views o)) with (reserved o). setters d.
Qed.

Lemma retry_bytes_form l acc :
  Forall (op_good cfg) l -> 0 <= acc -> acc + sum TotalBytes l <= UINT64_MAX ->
  fold_left (fun s o => if TotalBytes o <=? UINT64_MAX - s then s + TotalBytes o else s) l acc =
  acc + sum TotalBytes l.
Proof.
  intros Hl. revert acc. induction Hl as [|o l Ho Hl IH]; intros acc H0 Hm.
  - cbn. unfold sum. cbn. lia.
  - rewrite sum_cons in *. pose proof (op_good_bounds _ _ Ho). pose proof (ops_bounds _ _ Hl).
    cbn [fold_left]. rewrite (proj2 (Z.leb_le _ _)) by lia. rewrite IH by lia. lia.
Qed.

Lemma discard_form h d :
  Good cfg h d ->
  DiscardUnsubmittedSends d =
  set_PendingQuicSendRetries []
    (ledger (- sum TotalBytes (PendingQuicSendRetries d))
       (buffers (- sum reserved (PendingQuicSendRetries d)) d)).
Proof.
  intros Hg. pose proof (good_budget Hcfg _ _ Hg) as Hbu. destruct Hg as (Hb & _).
  pose proof (books_bounds _ _ _ Hb) as Hbb. destruct Hb, Hcfg.
  unfold DiscardUnsubmittedSends, retry_bytes.
  rewrite drop_operations_form by (done || lia). rewrite retry_bytes_form by (done || lia).
  unfold buffers. cbn [PendingQuicSendBytes set_PendingQuicSendRetries set_PendingBufferBytes].
  rewrite Z.add_0_l, Z.min_r by lia.
  unfold CompletePendingBytes. destruct (_ =? 0) eqn:E; to_prop.
  - rewrite E. cbn [snd]. setters d.
  - cbn [AccountedTcpToQuicBytes set_PendingQuicSendBytes set_PendingQuicSendRetries
         set_PendingBufferBytes].
    rewrite (proj2 (Z.ltb_ge _ _)) by lia. cbn [snd TcpToQuicPendingBytes_ set_AccountedTcpToQuicBytes
      set_PendingQuicSendBytes set_PendingQuicSendRetries set_PendingBufferBytes].
    rewrite u64_small by (unfold is_u64, UINT64_MAX in *; lia). setters d.
Qed.

Lemma good_discard h d : Good cfg h d -> Good cfg h (DiscardUnsubmittedSends d).
Proof.
  intros Hg. rewrite (discard_form h d Hg). destruct Hg as (Hb & Hi & Hs).
  pose proof (books_bounds _ _ _ Hb) as Hbb. split_and!.
  - clear Hi Hs. destruct Hb.
    constructor; unfold ledger, buffers; cbn; rewrite ?sum_nil; try done; lia.
  - clear Hb Hs Hbb. destruct Hi as [Hn Hbe ? ? ?]. rewrite fmap_app in Hn. rewrite Forall_app in Hbe.
    apply list.NoDup_app in Hn as (Hn & _ & _). destruct Hbe as [Hbe _].
    constructor; unfold ledger, buffers; cbn; rewrite ?app_nil_r; try done.
  - clear Hb Hi Hbb. destruct Hs. constructor; unfold ledger, buffers; cbn; try done.
    change (fins []) with 0%nat in *. lia.
Qed.

Lemma fold_free_form (l : list (nat * Z)) d :
  Forall (fun e => 0 < snd e) l -> sum snd l <= PendingBufferBytes d ->
  PendingBufferBytes d <= UINT64_MAX ->
  fold_left (fun d e => free_buffer (snd e) d) l d = buffers (- sum snd l) d.
Proof.
  intros Hl. revert d. induction Hl as [|x l Hx Hl IH]; intros d Hs Hm.
  - by setters d.
  - rewrite sum_cons in *. pose proof (staged_nonneg _ Hl). cbn [fold_left].
    rewrite free_buffer_form by lia. rewrite IH by (unfold buffers; cbn; lia). setters d.
Qed.

Lemma good_clear h d : Good cfg h d -> Good cfg h (clear_read_buffers d).
Proof.
  intros Hg. pose proof (good_budget Hcfg _ _ Hg) as Hbu. destruct Hg as (Hb & [] & []).
  pose proof (books_bounds _ _ _ Hb) as Hbb. destruct Hb.
  unfold clear_read_buffers. rewrite fold_free_form by (done || lia).
  split_and!; constructor; unfold buffers; cbn; rewrite ?sum_nil; done || lia.
Qed.

(** ** Completions *)

Lemma sum_fmap {A} (f : A -> Z) (g : A -> A) (l : list A) :
  (forall x, f (g x) = f x) -> sum f (g <$> l) = sum f l.
Proof. intros H. induction l as [|x l IH]; [done|]. cbn. rewrite !sum_cons, H, IH. done. Qed.

Lemma sum_perm {A} (f : A -> Z) l k : l ≡ₚ k -> sum f l = sum f k.
Proof. induction 1; rewrite ?sum_cons in *; lia. Qed.

(** Marking one operation. *)
Definition mark (a : nat) (c : bool) (o : TqUvQuicSendOperation) : TqUvQuicSendOperation :=
  if (Address o =? a)%nat then mark_completed c o else o.

Lemma mark_same a c o : same_op o (mark a c o).
Proof. unfold mark. by destruct (_ =? _)%nat. Qed.

Lemma mark_addresses a c (l : list TqUvQuicSendOperation) : Address <$> (mark a c <$> l) = Address <$> l.
Proof.
  rewrite <- list_fmap_compose. apply list_fmap_ext. intros i o _. cbn. apply mark_same.
Qed.

Lemma good_queue h a c d : Good cfg h d -> Good cfg h (QueueSendComplete a c d).
Proof.
  intros Hg. unfold QueueSendComplete.
  destruct (find_send a (QuicSends d)) as [o|] eqn:Ef; [|done].
  destruct (CompletionQueued o) eqn:Eq; [done|]. apply find_send_spec in Ef as [Hin Ha].
  change (fun o => if (Address o =? a)%nat then mark_completed c o else o) with (mark a c).
  destruct Hg as (Hb & Hi & Hs).
  assert (forall P : TqUvQuicSendOperation -> Prop, (forall o o', same_op o o' -> P o -> P o') ->
            Forall P (QuicSends d) -> Forall P (mark a c <$> QuicSends d)) as Hall.
  { intros P HP Hl. apply Forall_fmap. eapply List.Forall_impl; [|exact Hl]. intros x Hx.
    by eapply HP; [apply mark_same|]. }
  split_and!.
  - destruct Hb. constructor; cbn; try done.
    + rewrite sum_fmap; [done|]. intros x. apply mark_same.
    + rewrite sum_fmap; [done|]. intros x. apply same_op_reserved, mark_same.
    + apply Hall; [|done]. intros x x' Hx. by apply same_op_good.
  - destruct Hi as [Hn Hbe Hq Hd Hr].
    assert (a ∉ Completions d) as Hna.
    { intros (o' & Hin' & Ha' & Hq')%Hd. rewrite fmap_app in Hn. apply list.NoDup_app in Hn as (Hn & _).
      assert (o = o') as ->; [|congruence].
      apply list_elem_of_lookup_1 in Hin as [i Hi], Hin' as [j Hj].
      assert (i = j) as ->; [|congruence].
      eapply (NoDup_lookup _ _ _ (Address o) Hn); rewrite list_lookup_fmap, ?Hi, ?Hj; cbn; congruence. }
    constructor; cbn; try done.
    + rewrite fmap_app in *. by rewrite mark_addresses.
    + rewrite Forall_app in *. destruct Hbe as [Hbe ?]. split; [|done].
      apply Hall; [|done]. by intros x x' (-> & _).
    + apply list.NoDup_app. split_and!; [done| |apply NoDup_singleton].
      by intros x Hx ->%list_elem_of_singleton.
    + intros b. rewrite elem_of_app, list_elem_of_singleton, Hd. setoid_rewrite list_elem_of_fmap.
      split.
      * intros [(x & Hx & <- & Hxq)| ->].
        -- exists (mark a c x). split_and!; [by exists x|apply mark_same|].
           unfold mark. by destruct (_ =? _)%nat.
        -- exists (mark a c o). split_and!; [by exists o|by rewrite (proj1 (mark_same a c o))|].
           unfold mark. by rewrite Ha, Nat.eqb_refl.
      * intros (x' & (x & -> & Hx) & Hax & Hxq). rewrite (proj1 (mark_same a c x)) in Hax.
        unfold mark in Hxq. destruct (Address x =? a)%nat eqn:E; to_prop_nat; [right; congruence|].
        left. by exists x.
  - destruct Hs. constructor; cbn; try done.
    apply Hall; [|done]. intros x x' Hx. by rewrite (same_op_payload _ _ Hx).
Qed.

Lemma erase_send_perm a o l :
  NoDup (Address <$> l) -> find_send a l = Some o -> l ≡ₚ o :: erase_send a l.
Proof.
  intros Hn Hf. induction l as [|x l IH]; [done|]. cbn in Hf. unfold erase_send. cbn.
  rewrite fmap_cons, list.NoDup_cons in Hn. destruct Hn as [Hx Hn].
  destruct (Address x =? a)%nat eqn:E; to_prop_nat; cbn.
  - injection Hf as ->. constructor. fold (erase_send a l). clear IH.
    assert (forall y, y ∈ l -> Address y <> a) as Hy.
    { intros y Hy Hya. apply Hx. rewrite E, <- Hya. by apply list_elem_of_fmap_2. }
    clear Hx Hn. induction l as [|y l IH]; [done|]. unfold erase_send. cbn.
    rewrite (proj2 (Nat.eqb_neq _ _)) by (apply Hy; left). cbn. constructor. apply IH.
    intros z Hz. apply Hy. by right.
  - etrans; [apply perm_skip, (IH Hn Hf)|apply perm_swap].
Qed.

(** A completion taken off the queue finds its operation; with the operation gone and its bytes
    and buffers released, the books balance again. *)
Lemma complete_good h a d :
  Good cfg h d -> a ∈ Completions d ->
  exists o, find_send a (QuicSends d) = Some o /\ CompletionQueued o = true /\ op_good cfg o /\
    payload o ∈ accepted d /\
    let d1 := set_Completions (filter (.≠ a) (Completions d)) d in
    let d2 := drop_operation o (set_QuicSends (erase_send a (QuicSends d1)) d1) in
    Good cfg h (ReleasePendingSend (TotalBytes o) d2) /\
    ReleasePendingSend (TotalBytes o) d2 =
      set_QuicSends (erase_send a (QuicSends d))
        (ledger (- TotalBytes o) (buffers (- reserved o) d1)).
Proof.
  intros Hg Ha. pose proof (good_budget Hcfg _ _ Hg) as Hbu. destruct Hg as (Hb & Hi & Hs).
  pose proof (proj1 (i_done _ Hi a) Ha) as (o & Hin & Hao & Hq).
  assert (NoDup (Address <$> QuicSends d)) as Hn.
  { pose proof (i_nodup _ Hi) as Hn. rewrite fmap_app in Hn.
    by apply list.NoDup_app in Hn as [Hn _]. }
  assert (find_send a (QuicSends d) = Some o) as Hf.
  { destruct (find_send a (QuicSends d)) as [o'|] eqn:E.
    - apply find_send_spec in E as [Hin' Ha']. f_equal.
      apply list_elem_of_lookup_1 in Hin as [i Hii], Hin' as [j Hj].
      assert (i = j) as ->; [|congruence].
      eapply (NoDup_lookup _ _ _ (Address o) Hn); rewrite list_lookup_fmap, ?Hii, ?Hj; cbn; congruence.
    - eapply List.find_none in E; [|by apply list_elem_of_In]. to_prop_nat. done. }
  pose proof (erase_send_perm a o (QuicSends d) Hn Hf) as Hp.
  assert (op_good cfg o) as Hgo.
  { pose proof (b_sends _ _ _ _ Hb) as Hl. rewrite list.Forall_forall in Hl. by apply Hl. }
  assert (payload o ∈ accepted d) as Hpa.
  { pose proof (s_taken _ _ Hs) as Hl. rewrite list.Forall_forall in Hl. by apply (Hl o). }
  pose proof (op_good_bounds _ _ Hgo) as Ht. pose proof (books_bounds _ _ _ Hb) as Hbb.
  pose proof (sum_perm TotalBytes _ _ Hp) as HpT. pose proof (sum_perm reserved _ _ Hp) as HpR.
  rewrite sum_cons in HpT, HpR.
  exists o. split_and!; [done..|]. cbn zeta.
  assert (Forall (op_good cfg) (erase_send a (QuicSends d))) as Her.
  { pose proof (b_sends _ _ _ _ Hb) as Hl. rewrite Hp in Hl. by apply list.Forall_cons in Hl as [_ ?]. }
  pose proof (ops_bounds _ _ Her) as Hbe.
  set (d1 := set_Completions _ d).
  assert (ReleasePendingSend (TotalBytes o)
            (drop_operation o (set_QuicSends (erase_send a (QuicSends d1)) d1)) =
          set_QuicSends (erase_send a (QuicSends d))
            (ledger (- TotalBytes o) (buffers (- reserved o) d1))) as ->.
  { destruct Hb, Hcfg. unfold drop_operation.
    rewrite free_views_form; [|apply Hgo|unfold reserved in *; cbn; lia|cbn; lia].
    rewrite ReleasePendingSend_form by (unfold buffers; cbn; lia). by destruct d. }
  split; [|done]. unfold d1. clear Hbu. split_and!.
  - clear Hi Hs. destruct Hb. constructor; unfold ledger, buffers; cbn; try done; lia.
  - clear Hb Hs Hbb. destruct Hi as [Hnd Hbelow Hqu Hd Hr].
    constructor; unfold ledger, buffers; cbn; try done.
    + rewrite fmap_app in *. apply list.NoDup_app in Hnd as (_ & H2 & H3).
      rewrite Hp, fmap_cons in Hn. apply list.NoDup_cons in Hn as [_ Hn].
      apply list.NoDup_app. split_and!; [done| |done]. intros x Hx. apply H2.
      rewrite Hp, fmap_cons. by right.
    + rewrite Forall_app in *. destruct Hbelow as [Hbelow ?]. split; [|done].
      rewrite Hp in Hbelow. by apply list.Forall_cons in Hbelow as [_ ?].
    + by apply list.NoDup_filter.
    + intros b. rewrite list_elem_of_filter, Hd. unfold erase_send.
      setoid_rewrite list_elem_of_In. setoid_rewrite filter_In. setoid_rewrite negb_true_iff.
      setoid_rewrite Nat.eqb_neq. naive_solver.
  - clear Hb Hi Hbb. destruct Hs. constructor; unfold ledger, buffers; cbn; try done.
    rewrite Hp in s_taken0. by apply list.Forall_cons in s_taken0 as [_ ?].
Qed.

End Operations.
