(* ===== verification/UvReceive.v ===== *)
(** The receiving half of the libuv relay, QUIC to TCP: its state and the operations of
    src/src/tunnel/libuv_relay_quic_to_tcp.cpp that stay inside it.  UvWrite.v has the handlers,
    which also call the terminal protocol of UvTerminal.v.

    MsQuic lends the relay the buffers of a RECEIVE event; a [TqUvPendingQuicReceive] holds them
    until [ReceiveComplete] gives them back.  Receives are shared (the queue, the fallback chain
    and a write all point to one), so they live in a [Store] and are passed by key; the chain's
    links are the map [FallbackNext].  A receive on its way to the loop is in [Admitting], then in
    [Posted], the commands the worker's queue holds.

    What other parties answer is drawn from [oracle], one [bool] per question in the order the
    code asks: whether the stream's owner gives the API, [ReceiveSetEnabled], an allocation,
    [uv_write], a post.  [inflations] are the results of [DecompressInto].  Growing the vectors
    inside one receive or one write is taken to succeed.  [Log] is not in the code; it records
    the streams that pass and what was told to MsQuic. *)

From stdpp Require Import base gmap list numbers decidable.
From Stdlib Require Import ZArith Lia.
From S2P Require Import Prelude RelayBuffer UvSend.

(** ** Data *)

(** What registration fixes for this direction. *)
Record ReceiveConfig := {
  Decompressing : bool;
  HasDecompressor : bool;
  PrecommitMaxPendingBytes : Z;
  QuicToTcpCallBudget : Z;
  QuicToTcpByteBudgetPerTick : Z }.

#[global] Instance ownership_eq_dec : EqDecision TqUvOperationOwnership.
Proof. solve_decision. Defined.

(** [TqUvPendingQuicReceive]; the bytes of a slice stand for its pointer and length. *)
Module Rx.
Record t := {
  Slices : list (list Z);
  SliceIndex : nat;
  SliceOffset : nat;
  TotalBytes : Z;
  CompletedBytes : Z;
  CompletionPendingBytes : Z;
  CompletionRetryCount : Z;
  DeferredOutputOwners : list (list Z);
  DeferredOutputBytes : Z;
  TcpWriteSubmitted : bool;
  DecompressionDrained : bool;
  Fin : bool;
  Settled : bool }.

Definition set_Slices (v : list (list Z)) (x : t) : t :=
  {| Slices := v; SliceIndex := SliceIndex x; SliceOffset := SliceOffset x;
     TotalBytes := TotalBytes x; CompletedBytes := CompletedBytes x;
     CompletionPendingBytes := CompletionPendingBytes x;
     CompletionRetryCount := CompletionRetryCount x;
     DeferredOutputOwners := DeferredOutputOwners x;
     DeferredOutputBytes := DeferredOutputBytes x; TcpWriteSubmitted := TcpWriteSubmitted x;
     DecompressionDrained := DecompressionDrained x; Fin := Fin x; Settled := Settled x |}.
Definition set_SliceIndex (v : nat) (x : t) : t :=
  {| Slices := Slices x; SliceIndex := v; SliceOffset := SliceOffset x;
     TotalBytes := TotalBytes x; CompletedBytes := CompletedBytes x;
     CompletionPendingBytes := CompletionPendingBytes x;
     CompletionRetryCount := CompletionRetryCount x;
     DeferredOutputOwners := DeferredOutputOwners x;
     DeferredOutputBytes := DeferredOutputBytes x; TcpWriteSubmitted := TcpWriteSubmitted x;
     DecompressionDrained := DecompressionDrained x; Fin := Fin x; Settled := Settled x |}.
Definition set_SliceOffset (v : nat) (x : t) : t :=
  {| Slices := Slices x; SliceIndex := SliceIndex x; SliceOffset := v;
     TotalBytes := TotalBytes x; CompletedBytes := CompletedBytes x;
     CompletionPendingBytes := CompletionPendingBytes x;
     CompletionRetryCount := CompletionRetryCount x;
     DeferredOutputOwners := DeferredOutputOwners x;
     DeferredOutputBytes := DeferredOutputBytes x; TcpWriteSubmitted := TcpWriteSubmitted x;
     DecompressionDrained := DecompressionDrained x; Fin := Fin x; Settled := Settled x |}.
Definition set_TotalBytes (v : Z) (x : t) : t :=
  {| Slices := Slices x; SliceIndex := SliceIndex x; SliceOffset := SliceOffset x;
     TotalBytes := v; CompletedBytes := CompletedBytes x;
     CompletionPendingBytes := CompletionPendingBytes x;
     CompletionRetryCount := CompletionRetryCount x;
     DeferredOutputOwners := DeferredOutputOwners x;
     DeferredOutputBytes := DeferredOutputBytes x; TcpWriteSubmitted := TcpWriteSubmitted x;
     DecompressionDrained := DecompressionDrained x; Fin := Fin x; Settled := Settled x |}.
Definition set_CompletedBytes (v : Z) (x : t) : t :=
  {| Slices := Slices x; SliceIndex := SliceIndex x; SliceOffset := SliceOffset x;
     TotalBytes := TotalBytes x; CompletedBytes := v;
     CompletionPendingBytes := CompletionPendingBytes x;
     CompletionRetryCount := CompletionRetryCount x;
     DeferredOutputOwners := DeferredOutputOwners x;
     DeferredOutputBytes := DeferredOutputBytes x; TcpWriteSubmitted := TcpWriteSubmitted x;
     DecompressionDrained := DecompressionDrained x; Fin := Fin x; Settled := Settled x |}.
Definition set_CompletionPendingBytes (v : Z) (x : t) : t :=
  {| Slices := Slices x; SliceIndex := SliceIndex x; SliceOffset := SliceOffset x;
     TotalBytes := TotalBytes x; CompletedBytes := CompletedBytes x; CompletionPendingBytes := v;
     CompletionRetryCount := CompletionRetryCount x;
     DeferredOutputOwners := DeferredOutputOwners x;
     DeferredOutputBytes := DeferredOutputBytes x; TcpWriteSubmitted := TcpWriteSubmitted x;
     DecompressionDrained := DecompressionDrained x; Fin := Fin x; Settled := Settled x |}.
Definition set_CompletionRetryCount (v : Z) (x : t) : t :=
  {| Slices := Slices x; SliceIndex := SliceIndex x; SliceOffset := SliceOffset x;
     TotalBytes := TotalBytes x; CompletedBytes := CompletedBytes x;
     CompletionPendingBytes := CompletionPendingBytes x; CompletionRetryCount := v;
     DeferredOutputOwners := DeferredOutputOwners x;
     DeferredOutputBytes := DeferredOutputBytes x; TcpWriteSubmitted := TcpWriteSubmitted x;
     DecompressionDrained := DecompressionDrained x; Fin := Fin x; Settled := Settled x |}.
Definition set_DeferredOutputOwners (v : list (list Z)) (x : t) : t :=
  {| Slices := Slices x; SliceIndex := SliceIndex x; SliceOffset := SliceOffset x;
     TotalBytes := TotalBytes x; CompletedBytes := CompletedBytes x;
     CompletionPendingBytes := CompletionPendingBytes x;
     CompletionRetryCount := CompletionRetryCount x; DeferredOutputOwners := v;
     DeferredOutputBytes := DeferredOutputBytes x; TcpWriteSubmitted := TcpWriteSubmitted x;
     DecompressionDrained := DecompressionDrained x; Fin := Fin x; Settled := Settled x |}.
Definition set_DeferredOutputBytes (v : Z) (x : t) : t :=
  {| Slices := Slices x; SliceIndex := SliceIndex x; SliceOffset := SliceOffset x;
     TotalBytes := TotalBytes x; CompletedBytes := CompletedBytes x;
     CompletionPendingBytes := CompletionPendingBytes x;
     CompletionRetryCount := CompletionRetryCount x;
     DeferredOutputOwners := DeferredOutputOwners x; DeferredOutputBytes := v;
     TcpWriteSubmitted := TcpWriteSubmitted x; DecompressionDrained := DecompressionDrained x;
     Fin := Fin x; Settled := Settled x |}.
Definition set_TcpWriteSubmitted (v : bool) (x : t) : t :=
  {| Slices := Slices x; SliceIndex := SliceIndex x; SliceOffset := SliceOffset x;
     TotalBytes := TotalBytes x; CompletedBytes := CompletedBytes x;
     CompletionPendingBytes := CompletionPendingBytes x;
     CompletionRetryCount := CompletionRetryCount x;
     DeferredOutputOwners := DeferredOutputOwners x;
     DeferredOutputBytes := DeferredOutputBytes x; TcpWriteSubmitted := v;
     DecompressionDrained := DecompressionDrained x; Fin := Fin x; Settled := Settled x |}.
Definition set_DecompressionDrained (v : bool) (x : t) : t :=
  {| Slices := Slices x; SliceIndex := SliceIndex x; SliceOffset := SliceOffset x;
     TotalBytes := TotalBytes x; CompletedBytes := CompletedBytes x;
     CompletionPendingBytes := CompletionPendingBytes x;
     CompletionRetryCount := CompletionRetryCount x;
     DeferredOutputOwners := DeferredOutputOwners x;
     DeferredOutputBytes := DeferredOutputBytes x; TcpWriteSubmitted := TcpWriteSubmitted x;
     DecompressionDrained := v; Fin := Fin x; Settled := Settled x |}.
Definition set_Fin (v : bool) (x : t) : t :=
  {| Slices := Slices x; SliceIndex := SliceIndex x; SliceOffset := SliceOffset x;
     TotalBytes := TotalBytes x; CompletedBytes := CompletedBytes x;
     CompletionPendingBytes := CompletionPendingBytes x;
     CompletionRetryCount := CompletionRetryCount x;
     DeferredOutputOwners := DeferredOutputOwners x;
     DeferredOutputBytes := DeferredOutputBytes x; TcpWriteSubmitted := TcpWriteSubmitted x;
     DecompressionDrained := DecompressionDrained x; Fin := v; Settled := Settled x |}.
Definition set_Settled (v : bool) (x : t) : t :=
  {| Slices := Slices x; SliceIndex := SliceIndex x; SliceOffset := SliceOffset x;
     TotalBytes := TotalBytes x; CompletedBytes := CompletedBytes x;
     CompletionPendingBytes := CompletionPendingBytes x;
     CompletionRetryCount := CompletionRetryCount x;
     DeferredOutputOwners := DeferredOutputOwners x;
     DeferredOutputBytes := DeferredOutputBytes x; TcpWriteSubmitted := TcpWriteSubmitted x;
     DecompressionDrained := DecompressionDrained x; Fin := Fin x; Settled := v |}.
End Rx.

(** [TqUvTcpWriteOperation], by the number of its request; [Buffers] are the bytes to write. *)
Module Tx.
Record t := {
  Request : nat;
  ReceiveOwner : nat;
  OutputOwners : list (list Z);
  Buffers : list (list Z);
  TotalBytes : Z;
  ReceiveCompleteBytes : Z;
  PressureBytes : Z;
  Ownership : TqUvOperationOwnership }.

Definition set_Request (v : nat) (w : t) : t :=
  {| Request := v; ReceiveOwner := ReceiveOwner w; OutputOwners := OutputOwners w;
     Buffers := Buffers w; TotalBytes := TotalBytes w;
     ReceiveCompleteBytes := ReceiveCompleteBytes w; PressureBytes := PressureBytes w;
     Ownership := Ownership w |}.
Definition set_ReceiveOwner (v : nat) (w : t) : t :=
  {| Request := Request w; ReceiveOwner := v; OutputOwners := OutputOwners w;
     Buffers := Buffers w; TotalBytes := TotalBytes w;
     ReceiveCompleteBytes := ReceiveCompleteBytes w; PressureBytes := PressureBytes w;
     Ownership := Ownership w |}.
Definition set_OutputOwners (v : list (list Z)) (w : t) : t :=
  {| Request := Request w; ReceiveOwner := ReceiveOwner w; OutputOwners := v;
     Buffers := Buffers w; TotalBytes := TotalBytes w;
     ReceiveCompleteBytes := ReceiveCompleteBytes w; PressureBytes := PressureBytes w;
     Ownership := Ownership w |}.
Definition set_Buffers (v : list (list Z)) (w : t) : t :=
  {| Request := Request w; ReceiveOwner := ReceiveOwner w; OutputOwners := OutputOwners w;
     Buffers := v; TotalBytes := TotalBytes w; ReceiveCompleteBytes := ReceiveCompleteBytes w;
     PressureBytes := PressureBytes w; Ownership := Ownership w |}.
Definition set_TotalBytes (v : Z) (w : t) : t :=
  {| Request := Request w; ReceiveOwner := ReceiveOwner w; OutputOwners := OutputOwners w;
     Buffers := Buffers w; TotalBytes := v; ReceiveCompleteBytes := ReceiveCompleteBytes w;
     PressureBytes := PressureBytes w; Ownership := Ownership w |}.
Definition set_ReceiveCompleteBytes (v : Z) (w : t) : t :=
  {| Request := Request w; ReceiveOwner := ReceiveOwner w; OutputOwners := OutputOwners w;
     Buffers := Buffers w; TotalBytes := TotalBytes w; ReceiveCompleteBytes := v;
     PressureBytes := PressureBytes w; Ownership := Ownership w |}.
Definition set_PressureBytes (v : Z) (w : t) : t :=
  {| Request := Request w; ReceiveOwner := ReceiveOwner w; OutputOwners := OutputOwners w;
     Buffers := Buffers w; TotalBytes := TotalBytes w;
     ReceiveCompleteBytes := ReceiveCompleteBytes w; PressureBytes := v;
     Ownership := Ownership w |}.
Definition set_Ownership (v : TqUvOperationOwnership) (w : t) : t :=
  {| Request := Request w; ReceiveOwner := ReceiveOwner w; OutputOwners := OutputOwners w;
     Buffers := Buffers w; TotalBytes := TotalBytes w;
     ReceiveCompleteBytes := ReceiveCompleteBytes w; PressureBytes := PressureBytes w;
     Ownership := v |}.
End Tx.

(** [TqDecompressResult] and the answer of [DecompressInto]. *)
Record Inflation := {
  decompressed : bool;
  InputConsumed : nat;
  Output : list Z;
  NeedsMoreInput : bool;
  NeedsMoreOutput : bool }.

Record Queue := {
  PrecommitReceives : list nat;
  FallbackReceiveHead : option nat;
  FallbackReceiveTail : option nat;
  FallbackNext : gmap nat nat;
  ActiveReceiveFallbackMode : bool;
  Store : gmap nat Rx.t;
  NextReceive : nat;
  Admitting : option nat;
  Posted : list nat }.

Definition set_PrecommitReceives (v : list nat) (q : Queue) : Queue :=
  {| PrecommitReceives := v; FallbackReceiveHead := FallbackReceiveHead q;
     FallbackReceiveTail := FallbackReceiveTail q; FallbackNext := FallbackNext q;
     ActiveReceiveFallbackMode := ActiveReceiveFallbackMode q; Store := Store q;
     NextReceive := NextReceive q; Admitting := Admitting q; Posted := Posted q |}.
Definition set_FallbackReceiveHead (v : option nat) (q : Queue) : Queue :=
  {| PrecommitReceives := PrecommitReceives q; FallbackReceiveHead := v;
     FallbackReceiveTail := FallbackReceiveTail q; FallbackNext := FallbackNext q;
     ActiveReceiveFallbackMode := ActiveReceiveFallbackMode q; Store := Store q;
     NextReceive := NextReceive q; Admitting := Admitting q; Posted := Posted q |}.
Definition set_FallbackReceiveTail (v : option nat) (q : Queue) : Queue :=
  {| PrecommitReceives := PrecommitReceives q; FallbackReceiveHead := FallbackReceiveHead q;
     FallbackReceiveTail := v; FallbackNext := FallbackNext q;
     ActiveReceiveFallbackMode := ActiveReceiveFallbackMode q; Store := Store q;
     NextReceive := NextReceive q; Admitting := Admitting q; Posted := Posted q |}.
Definition set_FallbackNext (v : gmap nat nat) (q : Queue) : Queue :=
  {| PrecommitReceives := PrecommitReceives q; FallbackReceiveHead := FallbackReceiveHead q;
     FallbackReceiveTail := FallbackReceiveTail q; FallbackNext := v;
     ActiveReceiveFallbackMode := ActiveReceiveFallbackMode q; Store := Store q;
     NextReceive := NextReceive q; Admitting := Admitting q; Posted := Posted q |}.
Definition set_ActiveReceiveFallbackMode (v : bool) (q : Queue) : Queue :=
  {| PrecommitReceives := PrecommitReceives q; FallbackReceiveHead := FallbackReceiveHead q;
     FallbackReceiveTail := FallbackReceiveTail q; FallbackNext := FallbackNext q;
     ActiveReceiveFallbackMode := v; Store := Store q; NextReceive := NextReceive q;
     Admitting := Admitting q; Posted := Posted q |}.
Definition set_Store (v : gmap nat Rx.t) (q : Queue) : Queue :=
  {| PrecommitReceives := PrecommitReceives q; FallbackReceiveHead := FallbackReceiveHead q;
     FallbackReceiveTail := FallbackReceiveTail q; FallbackNext := FallbackNext q;
     ActiveReceiveFallbackMode := ActiveReceiveFallbackMode q; Store := v;
     NextReceive := NextReceive q; Admitting := Admitting q; Posted := Posted q |}.
Definition set_NextReceive (v : nat) (q : Queue) : Queue :=
  {| PrecommitReceives := PrecommitReceives q; FallbackReceiveHead := FallbackReceiveHead q;
     FallbackReceiveTail := FallbackReceiveTail q; FallbackNext := FallbackNext q;
     ActiveReceiveFallbackMode := ActiveReceiveFallbackMode q; Store := Store q;
     NextReceive := v; Admitting := Admitting q; Posted := Posted q |}.
Definition set_Admitting (v : option nat) (q : Queue) : Queue :=
  {| PrecommitReceives := PrecommitReceives q; FallbackReceiveHead := FallbackReceiveHead q;
     FallbackReceiveTail := FallbackReceiveTail q; FallbackNext := FallbackNext q;
     ActiveReceiveFallbackMode := ActiveReceiveFallbackMode q; Store := Store q;
     NextReceive := NextReceive q; Admitting := v; Posted := Posted q |}.
Definition set_Posted (v : list nat) (q : Queue) : Queue :=
  {| PrecommitReceives := PrecommitReceives q; FallbackReceiveHead := FallbackReceiveHead q;
     FallbackReceiveTail := FallbackReceiveTail q; FallbackNext := FallbackNext q;
     ActiveReceiveFallbackMode := ActiveReceiveFallbackMode q; Store := Store q;
     NextReceive := NextReceive q; Admitting := Admitting q; Posted := v |}.

Record Ledger := {
  PendingQuicReceiveBytes : Z;
  AdmittedQuicReceiveBytes : Z;
  QuicToTcpPressureBytes : Z;
  PendingTcpWriteBytes : Z;
  AccountedQuicToTcpBytes : Z;
  QuicToTcpPendingBytes_ : Z;
  OutputPendingBufferBytes : Z;
  OutputAllocateCount : Z }.

Definition set_PendingQuicReceiveBytes (v : Z) (l : Ledger) : Ledger :=
  {| PendingQuicReceiveBytes := v; AdmittedQuicReceiveBytes := AdmittedQuicReceiveBytes l;
     QuicToTcpPressureBytes := QuicToTcpPressureBytes l;
     PendingTcpWriteBytes := PendingTcpWriteBytes l;
     AccountedQuicToTcpBytes := AccountedQuicToTcpBytes l;
     QuicToTcpPendingBytes_ := QuicToTcpPendingBytes_ l;
     OutputPendingBufferBytes := OutputPendingBufferBytes l;
     OutputAllocateCount := OutputAllocateCount l |}.
Definition set_AdmittedQuicReceiveBytes (v : Z) (l : Ledger) : Ledger :=
  {| PendingQuicReceiveBytes := PendingQuicReceiveBytes l; AdmittedQuicReceiveBytes := v;
     QuicToTcpPressureBytes := QuicToTcpPressureBytes l;
     PendingTcpWriteBytes := PendingTcpWriteBytes l;
     AccountedQuicToTcpBytes := AccountedQuicToTcpBytes l;
     QuicToTcpPendingBytes_ := QuicToTcpPendingBytes_ l;
     OutputPendingBufferBytes := OutputPendingBufferBytes l;
     OutputAllocateCount := OutputAllocateCount l |}.
Definition set_QuicToTcpPressureBytes (v : Z) (l : Ledger) : Ledger :=
  {| PendingQuicReceiveBytes := PendingQuicReceiveBytes l;
     AdmittedQuicReceiveBytes := AdmittedQuicReceiveBytes l; QuicToTcpPressureBytes := v;
     PendingTcpWriteBytes := PendingTcpWriteBytes l;
     AccountedQuicToTcpBytes := AccountedQuicToTcpBytes l;
     QuicToTcpPendingBytes_ := QuicToTcpPendingBytes_ l;
     OutputPendingBufferBytes := OutputPendingBufferBytes l;
     OutputAllocateCount := OutputAllocateCount l |}.
Definition set_PendingTcpWriteBytes (v : Z) (l : Ledger) : Ledger :=
  {| PendingQuicReceiveBytes := PendingQuicReceiveBytes l;
     AdmittedQuicReceiveBytes := AdmittedQuicReceiveBytes l;
     QuicToTcpPressureBytes := QuicToTcpPressureBytes l; PendingTcpWriteBytes := v;
     AccountedQuicToTcpBytes := AccountedQuicToTcpBytes l;
     QuicToTcpPendingBytes_ := QuicToTcpPendingBytes_ l;
     OutputPendingBufferBytes := OutputPendingBufferBytes l;
     OutputAllocateCount := OutputAllocateCount l |}.
Definition set_AccountedQuicToTcpBytes (v : Z) (l : Ledger) : Ledger :=
  {| PendingQuicReceiveBytes := PendingQuicReceiveBytes l;
     AdmittedQuicReceiveBytes := AdmittedQuicReceiveBytes l;
     QuicToTcpPressureBytes := QuicToTcpPressureBytes l;
     PendingTcpWriteBytes := PendingTcpWriteBytes l; AccountedQuicToTcpBytes := v;
     QuicToTcpPendingBytes_ := QuicToTcpPendingBytes_ l;
     OutputPendingBufferBytes := OutputPendingBufferBytes l;
     OutputAllocateCount := OutputAllocateCount l |}.
Definition set_QuicToTcpPendingBytes_ (v : Z) (l : Ledger) : Ledger :=
  {| PendingQuicReceiveBytes := PendingQuicReceiveBytes l;
     AdmittedQuicReceiveBytes := AdmittedQuicReceiveBytes l;
     QuicToTcpPressureBytes := QuicToTcpPressureBytes l;
     PendingTcpWriteBytes := PendingTcpWriteBytes l;
     AccountedQuicToTcpBytes := AccountedQuicToTcpBytes l; QuicToTcpPendingBytes_ := v;
     OutputPendingBufferBytes := OutputPendingBufferBytes l;
     OutputAllocateCount := OutputAllocateCount l |}.
Definition set_OutputPendingBufferBytes (v : Z) (l : Ledger) : Ledger :=
  {| PendingQuicReceiveBytes := PendingQuicReceiveBytes l;
     AdmittedQuicReceiveBytes := AdmittedQuicReceiveBytes l;
     QuicToTcpPressureBytes := QuicToTcpPressureBytes l;
     PendingTcpWriteBytes := PendingTcpWriteBytes l;
     AccountedQuicToTcpBytes := AccountedQuicToTcpBytes l;
     QuicToTcpPendingBytes_ := QuicToTcpPendingBytes_ l; OutputPendingBufferBytes := v;
     OutputAllocateCount := OutputAllocateCount l |}.
Definition set_OutputAllocateCount (v : Z) (l : Ledger) : Ledger :=
  {| PendingQuicReceiveBytes := PendingQuicReceiveBytes l;
     AdmittedQuicReceiveBytes := AdmittedQuicReceiveBytes l;
     QuicToTcpPressureBytes := QuicToTcpPressureBytes l;
     PendingTcpWriteBytes := PendingTcpWriteBytes l;
     AccountedQuicToTcpBytes := AccountedQuicToTcpBytes l;
     QuicToTcpPendingBytes_ := QuicToTcpPendingBytes_ l;
     OutputPendingBufferBytes := OutputPendingBufferBytes l; OutputAllocateCount := v |}.

Record Flow := {
  TcpWrites : list Tx.t;
  NextRequest : nat;
  QuicToTcpContinuationPending : bool;
  QuicReceivePausedByTcpBacklog : bool;
  QuicFinObserved : bool;
  TcpWriteClosed : bool;
  TcpShutdownPending : bool }.

Definition set_TcpWrites (v : list Tx.t) (f : Flow) : Flow :=
  {| TcpWrites := v; NextRequest := NextRequest f;
     QuicToTcpContinuationPending := QuicToTcpContinuationPending f;
     QuicReceivePausedByTcpBacklog := QuicReceivePausedByTcpBacklog f;
     QuicFinObserved := QuicFinObserved f; TcpWriteClosed := TcpWriteClosed f;
     TcpShutdownPending := TcpShutdownPending f |}.
Definition set_NextRequest (v : nat) (f : Flow) : Flow :=
  {| TcpWrites := TcpWrites f; NextRequest := v;
     QuicToTcpContinuationPending := QuicToTcpContinuationPending f;
     QuicReceivePausedByTcpBacklog := QuicReceivePausedByTcpBacklog f;
     QuicFinObserved := QuicFinObserved f; TcpWriteClosed := TcpWriteClosed f;
     TcpShutdownPending := TcpShutdownPending f |}.
Definition set_QuicToTcpContinuationPending (v : bool) (f : Flow) : Flow :=
  {| TcpWrites := TcpWrites f; NextRequest := NextRequest f; QuicToTcpContinuationPending := v;
     QuicReceivePausedByTcpBacklog := QuicReceivePausedByTcpBacklog f;
     QuicFinObserved := QuicFinObserved f; TcpWriteClosed := TcpWriteClosed f;
     TcpShutdownPending := TcpShutdownPending f |}.
Definition set_QuicReceivePausedByTcpBacklog (v : bool) (f : Flow) : Flow :=
  {| TcpWrites := TcpWrites f; NextRequest := NextRequest f;
     QuicToTcpContinuationPending := QuicToTcpContinuationPending f;
     QuicReceivePausedByTcpBacklog := v; QuicFinObserved := QuicFinObserved f;
     TcpWriteClosed := TcpWriteClosed f; TcpShutdownPending := TcpShutdownPending f |}.
Definition set_QuicFinObserved (v : bool) (f : Flow) : Flow :=
  {| TcpWrites := TcpWrites f; NextRequest := NextRequest f;
     QuicToTcpContinuationPending := QuicToTcpContinuationPending f;
     QuicReceivePausedByTcpBacklog := QuicReceivePausedByTcpBacklog f; QuicFinObserved := v;
     TcpWriteClosed := TcpWriteClosed f; TcpShutdownPending := TcpShutdownPending f |}.
Definition set_TcpWriteClosed (v : bool) (f : Flow) : Flow :=
  {| TcpWrites := TcpWrites f; NextRequest := NextRequest f;
     QuicToTcpContinuationPending := QuicToTcpContinuationPending f;
     QuicReceivePausedByTcpBacklog := QuicReceivePausedByTcpBacklog f;
     QuicFinObserved := QuicFinObserved f; TcpWriteClosed := v;
     TcpShutdownPending := TcpShutdownPending f |}.
Definition set_TcpShutdownPending (v : bool) (f : Flow) : Flow :=
  {| TcpWrites := TcpWrites f; NextRequest := NextRequest f;
     QuicToTcpContinuationPending := QuicToTcpContinuationPending f;
     QuicReceivePausedByTcpBacklog := QuicReceivePausedByTcpBacklog f;
     QuicFinObserved := QuicFinObserved f; TcpWriteClosed := TcpWriteClosed f;
     TcpShutdownPending := v |}.

(** The worker's counters. *)
Record Counters := {
  ZstdDecompressCalls_ : Z;
  ZstdDecompressInputBytes_ : Z;
  ZstdDecompressOutputBytes_ : Z;
  ZstdDecompressNeedInput_ : Z;
  ZstdDecompressNeedOutput_ : Z;
  ZstdDecompressFailures_ : Z;
  QuicReceiveDecompressFailures_ : Z;
  DecompressedTcpBytes_ : Z;
  TcpWriteBytes_ : Z }.

Definition set_ZstdDecompressCalls_ (v : Z) (c : Counters) : Counters :=
  {| ZstdDecompressCalls_ := v; ZstdDecompressInputBytes_ := ZstdDecompressInputBytes_ c;
     ZstdDecompressOutputBytes_ := ZstdDecompressOutputBytes_ c;
     ZstdDecompressNeedInput_ := ZstdDecompressNeedInput_ c;
     ZstdDecompressNeedOutput_ := ZstdDecompressNeedOutput_ c;
     ZstdDecompressFailures_ := ZstdDecompressFailures_ c;
     QuicReceiveDecompressFailures_ := QuicReceiveDecompressFailures_ c;
     DecompressedTcpBytes_ := DecompressedTcpBytes_ c; TcpWriteBytes_ := TcpWriteBytes_ c |}.
Definition set_ZstdDecompressInputBytes_ (v : Z) (c : Counters) : Counters :=
  {| ZstdDecompressCalls_ := ZstdDecompressCalls_ c; ZstdDecompressInputBytes_ := v;
     ZstdDecompressOutputBytes_ := ZstdDecompressOutputBytes_ c;
     ZstdDecompressNeedInput_ := ZstdDecompressNeedInput_ c;
     ZstdDecompressNeedOutput_ := ZstdDecompressNeedOutput_ c;
     ZstdDecompressFailures_ := ZstdDecompressFailures_ c;
     QuicReceiveDecompressFailures_ := QuicReceiveDecompressFailures_ c;
     DecompressedTcpBytes_ := DecompressedTcpBytes_ c; TcpWriteBytes_ := TcpWriteBytes_ c |}.
Definition set_ZstdDecompressOutputBytes_ (v : Z) (c : Counters) : Counters :=
  {| ZstdDecompressCalls_ := ZstdDecompressCalls_ c;
     ZstdDecompressInputBytes_ := ZstdDecompressInputBytes_ c; ZstdDecompressOutputBytes_ := v;
     ZstdDecompressNeedInput_ := ZstdDecompressNeedInput_ c;
     ZstdDecompressNeedOutput_ := ZstdDecompressNeedOutput_ c;
     ZstdDecompressFailures_ := ZstdDecompressFailures_ c;
     QuicReceiveDecompressFailures_ := QuicReceiveDecompressFailures_ c;
     DecompressedTcpBytes_ := DecompressedTcpBytes_ c; TcpWriteBytes_ := TcpWriteBytes_ c |}.
Definition set_ZstdDecompressNeedInput_ (v : Z) (c : Counters) : Counters :=
  {| ZstdDecompressCalls_ := ZstdDecompressCalls_ c;
     ZstdDecompressInputBytes_ := ZstdDecompressInputBytes_ c;
     ZstdDecompressOutputBytes_ := ZstdDecompressOutputBytes_ c; ZstdDecompressNeedInput_ := v;
     ZstdDecompressNeedOutput_ := ZstdDecompressNeedOutput_ c;
     ZstdDecompressFailures_ := ZstdDecompressFailures_ c;
     QuicReceiveDecompressFailures_ := QuicReceiveDecompressFailures_ c;
     DecompressedTcpBytes_ := DecompressedTcpBytes_ c; TcpWriteBytes_ := TcpWriteBytes_ c |}.
Definition set_ZstdDecompressNeedOutput_ (v : Z) (c : Counters) : Counters :=
  {| ZstdDecompressCalls_ := ZstdDecompressCalls_ c;
     ZstdDecompressInputBytes_ := ZstdDecompressInputBytes_ c;
     ZstdDecompressOutputBytes_ := ZstdDecompressOutputBytes_ c;
     ZstdDecompressNeedInput_ := ZstdDecompressNeedInput_ c; ZstdDecompressNeedOutput_ := v;
     ZstdDecompressFailures_ := ZstdDecompressFailures_ c;
     QuicReceiveDecompressFailures_ := QuicReceiveDecompressFailures_ c;
     DecompressedTcpBytes_ := DecompressedTcpBytes_ c; TcpWriteBytes_ := TcpWriteBytes_ c |}.
Definition set_ZstdDecompressFailures_ (v : Z) (c : Counters) : Counters :=
  {| ZstdDecompressCalls_ := ZstdDecompressCalls_ c;
     ZstdDecompressInputBytes_ := ZstdDecompressInputBytes_ c;
     ZstdDecompressOutputBytes_ := ZstdDecompressOutputBytes_ c;
     ZstdDecompressNeedInput_ := ZstdDecompressNeedInput_ c;
     ZstdDecompressNeedOutput_ := ZstdDecompressNeedOutput_ c; ZstdDecompressFailures_ := v;
     QuicReceiveDecompressFailures_ := QuicReceiveDecompressFailures_ c;
     DecompressedTcpBytes_ := DecompressedTcpBytes_ c; TcpWriteBytes_ := TcpWriteBytes_ c |}.
Definition set_QuicReceiveDecompressFailures_ (v : Z) (c : Counters) : Counters :=
  {| ZstdDecompressCalls_ := ZstdDecompressCalls_ c;
     ZstdDecompressInputBytes_ := ZstdDecompressInputBytes_ c;
     ZstdDecompressOutputBytes_ := ZstdDecompressOutputBytes_ c;
     ZstdDecompressNeedInput_ := ZstdDecompressNeedInput_ c;
     ZstdDecompressNeedOutput_ := ZstdDecompressNeedOutput_ c;
     ZstdDecompressFailures_ := ZstdDecompressFailures_ c; QuicReceiveDecompressFailures_ := v;
     DecompressedTcpBytes_ := DecompressedTcpBytes_ c; TcpWriteBytes_ := TcpWriteBytes_ c |}.
Definition set_DecompressedTcpBytes_ (v : Z) (c : Counters) : Counters :=
  {| ZstdDecompressCalls_ := ZstdDecompressCalls_ c;
     ZstdDecompressInputBytes_ := ZstdDecompressInputBytes_ c;
     ZstdDecompressOutputBytes_ := ZstdDecompressOutputBytes_ c;
     ZstdDecompressNeedInput_ := ZstdDecompressNeedInput_ c;
     ZstdDecompressNeedOutput_ := ZstdDecompressNeedOutput_ c;
     ZstdDecompressFailures_ := ZstdDecompressFailures_ c;
     QuicReceiveDecompressFailures_ := QuicReceiveDecompressFailures_ c;
     DecompressedTcpBytes_ := v; TcpWriteBytes_ := TcpWriteBytes_ c |}.
Definition set_TcpWriteBytes_ (v : Z) (c : Counters) : Counters :=
  {| ZstdDecompressCalls_ := ZstdDecompressCalls_ c;
     ZstdDecompressInputBytes_ := ZstdDecompressInputBytes_ c;
     ZstdDecompressOutputBytes_ := ZstdDecompressOutputBytes_ c;
     ZstdDecompressNeedInput_ := ZstdDecompressNeedInput_ c;
     ZstdDecompressNeedOutput_ := ZstdDecompressNeedOutput_ c;
     ZstdDecompressFailures_ := ZstdDecompressFailures_ c;
     QuicReceiveDecompressFailures_ := QuicReceiveDecompressFailures_ c;
     DecompressedTcpBytes_ := DecompressedTcpBytes_ c; TcpWriteBytes_ := v |}.

(** Records the relay does not keep, and what is outside it: the bytes admitted from QUIC, those
    handed on, those to be written, those [uv_write] took; the
    decompressor's steps; the bytes given back to MsQuic and those retired after its shutdown;
    whether MsQuic's receive API, or the post of a receive, was ever refused; whether receiving is
    disabled; the share of the worker's ledger that other relays have; the pressure lost with
    writes that could not be recorded. *)
Record Log := {
  admitted : list Z;
  taken : list Z;
  output : list Z;
  written : list Z;
  inflated : list (list Z * list Z);
  completed : Z;
  retired : Z;
  refused : bool;
  disabled : bool;
  OtherQuicToTcp : Z;
  lost : Z }.

Definition set_admitted (v : list Z) (l : Log) : Log :=
  {| admitted := v; taken := taken l; output := output l; written := written l;
     inflated := inflated l; completed := completed l; retired := retired l;
     refused := refused l; disabled := disabled l; OtherQuicToTcp := OtherQuicToTcp l;
     lost := lost l |}.
Definition set_taken (v : list Z) (l : Log) : Log :=
  {| admitted := admitted l; taken := v; output := output l; written := written l;
     inflated := inflated l; completed := completed l; retired := retired l;
     refused := refused l; disabled := disabled l; OtherQuicToTcp := OtherQuicToTcp l;
     lost := lost l |}.
Definition set_output (v : list Z) (l : Log) : Log :=
  {| admitted := admitted l; taken := taken l; output := v; written := written l;
     inflated := inflated l; completed := completed l; retired := retired l;
     refused := refused l; disabled := disabled l; OtherQuicToTcp := OtherQuicToTcp l;
     lost := lost l |}.
Definition set_written (v : list Z) (l : Log) : Log :=
  {| admitted := admitted l; taken := taken l; output := output l; written := v;
     inflated := inflated l; completed := completed l; retired := retired l;
     refused := refused l; disabled := disabled l; OtherQuicToTcp := OtherQuicToTcp l;
     lost := lost l |}.
Definition set_inflated (v : list (list Z * list Z)) (l : Log) : Log :=
  {| admitted := admitted l; taken := taken l; output := output l; written := written l;
     inflated := v; completed := completed l; retired := retired l; refused := refused l;
     disabled := disabled l; OtherQuicToTcp := OtherQuicToTcp l; lost := lost l |}.
Definition set_completed (v : Z) (l : Log) : Log :=
  {| admitted := admitted l; taken := taken l; output := output l; written := written l;
     inflated := inflated l; completed := v; retired := retired l; refused := refused l;
     disabled := disabled l; OtherQuicToTcp := OtherQuicToTcp l; lost := lost l |}.
Definition set_retired (v : Z) (l : Log) : Log :=
  {| admitted := admitted l; taken := taken l; output := output l; written := written l;
     inflated := inflated l; completed := completed l; retired := v; refused := refused l;
     disabled := disabled l; OtherQuicToTcp := OtherQuicToTcp l; lost := lost l |}.
Definition set_refused (v : bool) (l : Log) : Log :=
  {| admitted := admitted l; taken := taken l; output := output l; written := written l;
     inflated := inflated l; completed := completed l; retired := retired l; refused := v;
     disabled := disabled l; OtherQuicToTcp := OtherQuicToTcp l; lost := lost l |}.
Definition set_disabled (v : bool) (l : Log) : Log :=
  {| admitted := admitted l; taken := taken l; output := output l; written := written l;
     inflated := inflated l; completed := completed l; retired := retired l;
     refused := refused l; disabled := v; OtherQuicToTcp := OtherQuicToTcp l; lost := lost l |}.
Definition set_OtherQuicToTcp (v : Z) (l : Log) : Log :=
  {| admitted := admitted l; taken := taken l; output := output l; written := written l;
     inflated := inflated l; completed := completed l; retired := retired l;
     refused := refused l; disabled := disabled l; OtherQuicToTcp := v; lost := lost l |}.
Definition set_lost (v : Z) (l : Log) : Log :=
  {| admitted := admitted l; taken := taken l; output := output l; written := written l;
     inflated := inflated l; completed := completed l; retired := retired l;
     refused := refused l; disabled := disabled l; OtherQuicToTcp := OtherQuicToTcp l;
     lost := v |}.

Record World := {
  oracle : list bool;
  inflations : list Inflation }.

Definition set_oracle (v : list bool) (w : World) : World :=
  {| oracle := v; inflations := inflations w |}.
Definition set_inflations (v : list Inflation) (w : World) : World :=
  {| oracle := oracle w; inflations := v |}.

Record Recv := {
  queue : Queue;
  ledger : Ledger;
  flow : Flow;
  counters : Counters;
  log : Log;
  world : World }.

Definition set_queue (v : Queue) (r : Recv) : Recv :=
  {| queue := v; ledger := ledger r; flow := flow r; counters := counters r; log := log r;
     world := world r |}.
Definition set_ledger (v : Ledger) (r : Recv) : Recv :=
  {| queue := queue r; ledger := v; flow := flow r; counters := counters r; log := log r;
     world := world r |}.
Definition set_flow (v : Flow) (r : Recv) : Recv :=
  {| queue := queue r; ledger := ledger r; flow := v; counters := counters r; log := log r;
     world := world r |}.
Definition set_counters (v : Counters) (r : Recv) : Recv :=
  {| queue := queue r; ledger := ledger r; flow := flow r; counters := v; log := log r;
     world := world r |}.
Definition set_log (v : Log) (r : Recv) : Recv :=
  {| queue := queue r; ledger := ledger r; flow := flow r; counters := counters r; log := v;
     world := world r |}.
Definition set_world (v : World) (r : Recv) : Recv :=
  {| queue := queue r; ledger := ledger r; flow := flow r; counters := counters r; log := log r;
     world := v |}.

Definition on_queue (f : Queue -> Queue) (r : Recv) : Recv := set_queue (f (queue r)) r.
Definition on_ledger (f : Ledger -> Ledger) (r : Recv) : Recv := set_ledger (f (ledger r)) r.
Definition on_flow (f : Flow -> Flow) (r : Recv) : Recv := set_flow (f (flow r)) r.
Definition on_counters (f : Counters -> Counters) (r : Recv) : Recv := set_counters (f (counters r)) r.
Definition on_log (f : Log -> Log) (r : Recv) : Recv := set_log (f (log r)) r.

(** ** Answers *)

Definition ask_ok (r : Recv) : bool * Recv :=
  (default true (head (oracle (world r))),
   set_world (set_oracle (tail (oracle (world r))) (world r)) r).

Definition no_inflation : Inflation :=
  {| decompressed := true; InputConsumed := 0; Output := []; NeedsMoreInput := true;
     NeedsMoreOutput := false |}.

Definition ask_inflation (r : Recv) : Inflation * Recv :=
  (default no_inflation (head (inflations (world r))),
   set_world (set_inflations (tail (inflations (world r))) (world r)) r).

(** [TryAcquireReceiveApi]. *)
Definition TryAcquireReceiveApi (r : Recv) : bool * Recv :=
  let '(ok, r) := ask_ok r in
  (ok, if ok then r else on_log (set_refused true) r).

(** ** Receives *)

#[global] Instance rx_inhabited : Inhabited Rx.t :=
  populate {| Rx.Slices := []; Rx.SliceIndex := 0; Rx.SliceOffset := 0; Rx.TotalBytes := 0;
              Rx.CompletedBytes := 0; Rx.CompletionPendingBytes := 0;
              Rx.CompletionRetryCount := 0; Rx.DeferredOutputOwners := [];
              Rx.DeferredOutputBytes := 0; Rx.TcpWriteSubmitted := false;
              Rx.DecompressionDrained := false; Rx.Fin := false; Rx.Settled := false |}.

Definition rx (p : nat) (r : Recv) : Rx.t := Store (queue r) !!! p.
Definition on_rx (f : Rx.t -> Rx.t) (p : nat) (r : Recv) : Recv :=
  on_queue (fun q => set_Store (<[p := f (Store q !!! p)]> (Store q)) q) r.

Definition RemainingBytes (x : Rx.t) : Z :=
  if Rx.CompletedBytes x <=? Rx.TotalBytes x then Rx.TotalBytes x - Rx.CompletedBytes x else 0.

(** [CompletedBytes += bytes], and the receive is settled when that was all. *)
Definition complete (bytes : Z) (x : Rx.t) : Rx.t :=
  let x := Rx.set_CompletedBytes (u64 (Rx.CompletedBytes x + bytes)) x in
  if Rx.CompletedBytes x =? Rx.TotalBytes x then Rx.set_Settled true x else x.

Definition CompleteReceive (p : nat) (bytes : Z) (r : Recv) : bool * Recv :=
  if (bytes =? 0) || Rx.Settled (rx p r) then (bytes =? 0, r)
  else
    let '(lease, r) := TryAcquireReceiveApi r in
    if negb lease then (false, r)
    else
      let remaining := RemainingBytes (rx p r) in
      let part := Z.min bytes remaining in
      if part =? 0 then (true, r)
      else
        let r := on_log (fun l => set_completed (completed l + part) l) r in
        (part =? bytes, on_rx (complete part) p r).

(** [shut] is [QuicShutdownObserved]. *)
Definition CompleteReceiveForRelay (shut : bool) (p : nat) (bytes : Z) (r : Recv) : bool * Recv :=
  if negb shut then CompleteReceive p bytes r
  else if (bytes =? 0) || Rx.Settled (rx p r) then (bytes =? 0, r)
  else if RemainingBytes (rx p r) <? bytes then (false, r)
  else
    let r := on_log (fun l => set_retired (retired l + bytes) l) r in
    (true, on_rx (complete bytes) p r).

(** The loop of [AdvanceInput], over the slices from [index] on. *)
Fixpoint advance (slices : list (list Z)) (index offset bytes : nat) : nat * nat :=
  match slices with
  | [] => (index, offset)
  | slice :: slices =>
      if (bytes =? 0)%nat then (index, offset)
      else
        let available := (length slice - offset)%nat in
        let take := Nat.min bytes available in
        if (offset + take =? length slice)%nat
        then advance slices (S index) 0 (bytes - take)
        else (index, offset + take)%nat
  end.

Definition AdvanceInput (bytes : nat) (x : Rx.t) : Rx.t :=
  let '(index, offset) :=
    advance (drop (Rx.SliceIndex x) (Rx.Slices x)) (Rx.SliceIndex x) (Rx.SliceOffset x) bytes in
  Rx.set_SliceIndex index (Rx.set_SliceOffset offset x).

(** ** Ledgers *)

(** [AddPendingBytes] and [CompletePendingBytes] for this direction. *)
Definition AddQuicToTcp (bytes : Z) (r : Recv) : bool * Recv :=
  if bytes =? 0 then (true, r)
  else
    let l := ledger r in
    if UINT64_MAX - QuicToTcpPendingBytes_ l <? bytes then (false, r)
    else if UINT64_MAX - AccountedQuicToTcpBytes l <? bytes then (false, r)
    else (true, on_ledger (fun l =>
            set_AccountedQuicToTcpBytes (AccountedQuicToTcpBytes l + bytes)
              (set_QuicToTcpPendingBytes_ (QuicToTcpPendingBytes_ l + bytes) l)) r).

Definition CompleteQuicToTcp (bytes : Z) (r : Recv) : bool * Recv :=
  if bytes =? 0 then (true, r)
  else if AccountedQuicToTcpBytes (ledger r) <? bytes then (false, r)
  else (true, on_ledger (fun l =>
          set_QuicToTcpPendingBytes_ (u64 (QuicToTcpPendingBytes_ l - bytes))
            (set_AccountedQuicToTcpBytes (AccountedQuicToTcpBytes l - bytes) l)) r).

(** [current >= bytes ? current - bytes : 0]. *)
Definition less (current bytes : Z) : Z := if bytes <=? current then current - bytes else 0.

Definition ReleaseAdmitted (bytes : Z) (r : Recv) : Recv :=
  let current := AdmittedQuicReceiveBytes (ledger r) in
  let next := less current bytes in
  let r := on_ledger (set_AdmittedQuicReceiveBytes next) r in
  if negb (current - next =? 0) then snd (CompleteQuicToTcp (current - next) r) else r.

Definition ReleasePressure (bytes : Z) (r : Recv) : Recv :=
  on_ledger (fun l => set_QuicToTcpPressureBytes (less (QuicToTcpPressureBytes l) bytes) l) r.

Definition ReleasePendingReceive (bytes : Z) (r : Recv) : Recv :=
  on_ledger (fun l => set_PendingQuicReceiveBytes (less (PendingQuicReceiveBytes l) bytes) l) r.

(** What follows every completed part of a receive. *)
Definition release_completed (bytes : Z) (r : Recv) : Recv :=
  ReleasePressure bytes (ReleaseAdmitted bytes (ReleasePendingReceive bytes r)).

(** ** The queue *)

Definition FrontReceive (r : Recv) : option nat :=
  match PrecommitReceives (queue r) with p :: _ => Some p | [] => FallbackReceiveHead (queue r) end.

(** [PopReceive] up to its last call; [true] when a receive with the end of the stream went. *)
Definition unlink_fallback (p : nat) (q : Queue) : Queue :=
  let head := FallbackNext q !! p in
  let q := set_FallbackReceiveHead head q in
  let q := set_FallbackNext (delete p (FallbackNext q)) q in
  if bool_decide (head = None) then set_FallbackReceiveTail None q else q.

Definition pop (p : nat) (r : Recv) : bool * Recv :=
  let fin r := (Rx.Fin (rx p r),
                if Rx.Fin (rx p r) then on_flow (set_QuicFinObserved true) r else r) in
  match PrecommitReceives (queue r) with
  | front :: rest =>
      if (front =? p)%nat then fin (on_queue (set_PrecommitReceives rest) r)
      else if bool_decide (FallbackReceiveHead (queue r) = Some p)
      then fin (on_queue (unlink_fallback p) r) else (false, r)
  | [] =>
      if bool_decide (FallbackReceiveHead (queue r) = Some p)
      then fin (on_queue (unlink_fallback p) r) else (false, r)
  end.

Definition AppendFallbackReceive (p : nat) (q : Queue) : Queue :=
  let q := set_FallbackNext (delete p (FallbackNext q)) q in
  let q := match FallbackReceiveTail q with
           | Some t => set_FallbackNext (<[t := p]> (FallbackNext q)) q
           | None => set_FallbackReceiveHead (Some p) q
           end in
  set_FallbackReceiveTail (Some p) q.

(** [QueueReceiveOnLoop] up to the processing. *)
Definition enqueue (p : nat) (r : Recv) : Recv :=
  let r :=
    if negb (ActiveReceiveFallbackMode (queue r))
    then
      let '(pushed, r) := ask_ok r in
      if pushed
      then on_queue (fun q => set_PrecommitReceives (PrecommitReceives q ++ [p]) q) r
      else on_queue (AppendFallbackReceive p) (on_queue (set_ActiveReceiveFallbackMode true) r)
    else on_queue (AppendFallbackReceive p) r in
  on_ledger (fun l => set_PendingQuicReceiveBytes
                        (u64 (PendingQuicReceiveBytes l + Rx.TotalBytes (rx p r))) l) r.

(** How many receives the queue can hold, counting the chain by its links. *)
Definition receives (r : Recv) : nat :=
  length (PrecommitReceives (queue r)) +
  match FallbackReceiveHead (queue r) with
  | None => 0
  | Some _ => S (base.size (FallbackNext (queue r)))
  end.

(** ** Settling *)

(** The destructors of output buffers. *)
Definition free_outputs (owners : list (list Z)) (r : Recv) : Recv :=
  on_ledger (fun l => set_OutputPendingBufferBytes
    (fold_left (fun n owner => u64 (n - Z.of_nat (length owner))) owners
       (OutputPendingBufferBytes l)) l) r.

Definition drop_deferred (p : nat) (r : Recv) : Recv :=
  if negb (Rx.DeferredOutputBytes (rx p r) =? 0)
  then
    let r := ReleasePressure (Rx.DeferredOutputBytes (rx p r)) r in
    let r := free_outputs (Rx.DeferredOutputOwners (rx p r)) r in
    on_rx (fun x => Rx.set_DeferredOutputBytes 0 (Rx.set_DeferredOutputOwners [] x)) p r
  else r.

(** One turn of [TqUvSettleQuicReceivesAtTerminal] up to [PopReceive]; the receive to pop, if the
    loop goes on. *)
Definition settle_front (shut : bool) (r : Recv) : option nat * Recv :=
  match FrontReceive r with
  | None => (None, r)
  | Some p =>
      if Rx.TcpWriteSubmitted (rx p r) then (None, r)
      else
        let bytes := RemainingBytes (rx p r) in
        let '(ok, r) :=
          if negb (bytes =? 0) then CompleteReceiveForRelay shut p bytes r else (true, r) in
        if negb ok then (None, on_rx (Rx.set_CompletionPendingBytes bytes) p r)
        else
          let r := on_rx (Rx.set_CompletionPendingBytes 0) p r in
          let r := release_completed bytes r in
          let r := drop_deferred p r in
          (Some p, on_rx (Rx.set_Settled true) p r)
  end.

(** ** Backpressure *)

Definition SetReceiveEnabled (enabled : bool) (r : Recv) : bool * Recv :=
  let '(ok, r) := ask_ok r in
  (ok, if ok then on_log (set_disabled (negb enabled)) r else on_log (set_refused true) r).

Section Configured.
  Context (cfg : ReceiveConfig).

Definition UpdateBackpressure (r : Recv) : Recv :=
  let high := PrecommitMaxPendingBytes cfg in
  if high =? 0 then r
  else
    let pressure := QuicToTcpPressureBytes (ledger r) in
    if negb (QuicReceivePausedByTcpBacklog (flow r)) && (high <=? pressure)
    then
      let '(ok, r) := SetReceiveEnabled false r in
      if ok then on_flow (set_QuicReceivePausedByTcpBacklog true) r else r
    else
      let low := high / 2 in
      if QuicReceivePausedByTcpBacklog (flow r) && (pressure <=? low)
      then
        let '(ok, r) := SetReceiveEnabled true r in
        if ok then on_flow (set_QuicReceivePausedByTcpBacklog false) r else r
      else r.

Definition ReservePressure (bytes : Z) (r : Recv) : bool * Recv :=
  let limit := PrecommitMaxPendingBytes cfg in
  let current := QuicToTcpPressureBytes (ledger r) in
  if (limit =? 0) || (limit <? bytes) || (limit <? current) || (limit - current <? bytes)
  then (false, r)
  else (true, on_ledger (set_QuicToTcpPressureBytes (current + bytes)) r).

(** [TqAllocateRelayBuffer] on [BufferBudget], whose limit is the relay's. *)
Definition AllocateOutput (bytes : Z) (r : Recv) : bool * Recv :=
  let current := OutputPendingBufferBytes (ledger r) in
  if PrecommitMaxPendingBytes cfg <? u64 (current + bytes) then (false, r)
  else
    let '(ok, r) := ask_ok r in
    (ok, if ok
         then on_ledger (fun l => set_OutputPendingBufferBytes (u64 (current + bytes))
                (set_OutputAllocateCount (u64 (OutputAllocateCount l + 1)) l)) r
         else r).

(** ** Admission *)

(** The receive [TqUvAcceptQuicReceive] builds from an event. *)
Fixpoint total_length (slices : list (list Z)) (total : Z) : option Z :=
  match slices with
  | [] => Some total
  | slice :: slices =>
      if UINT64_MAX - total <? Z.of_nat (length slice) then None
      else total_length slices (total + Z.of_nat (length slice))
  end.

Definition new_receive (slices : list (list Z)) (total : Z) (fin : bool) : Rx.t :=
  {| Rx.Slices := slices; Rx.SliceIndex := 0; Rx.SliceOffset := 0; Rx.TotalBytes := total;
     Rx.CompletedBytes := 0; Rx.CompletionPendingBytes := 0; Rx.CompletionRetryCount := 0;
     Rx.DeferredOutputOwners := []; Rx.DeferredOutputBytes := 0; Rx.TcpWriteSubmitted := false;
     Rx.DecompressionDrained := false; Rx.Fin := fin; Rx.Settled := false |}.

Inductive ReceiveStatus := ReceiveSuccess | ReceiveOutOfMemory | ReceivePending.

(** [TqUvAcceptQuicReceive] for an event with bytes, up to the post; [active] is the binding's
    activation.  An admitted receive waits in [Admitting]. *)
Definition admit_receive (active : bool) (slices : list (list Z)) (fin : bool) (r : Recv) :
    ReceiveStatus * Recv :=
  let '(made, r) := ask_ok r in
  if negb made then (ReceiveOutOfMemory, r)
  else
    match total_length slices 0 with
    | None => (ReceiveOutOfMemory, r)
    | Some total =>
        if total =? 0 then (ReceiveSuccess, r)
        else if negb active then (ReceiveSuccess, r)
        else
          let '(reserved, r) := ReservePressure total r in
          if negb reserved then (ReceiveOutOfMemory, r)
          else
            let r := on_ledger (fun l => set_AdmittedQuicReceiveBytes
                                  (u64 (AdmittedQuicReceiveBytes l + total)) l) r in
            let '(added, r) := AddQuicToTcp total r in
            if negb added
            then (ReceiveOutOfMemory,
                  ReleasePressure total
                    (on_ledger (fun l => set_AdmittedQuicReceiveBytes
                                  (u64 (AdmittedQuicReceiveBytes l - total)) l) r))
            else
              let p := NextReceive (queue r) in
              let r := on_queue (fun q =>
                set_Store (<[p := new_receive slices total fin]> (Store q))
                  (set_NextReceive (S p) (set_Admitting (Some p) q))) r in
              (ReceivePending, r)
    end.

(** The post of an admitted receive. *)
Definition post (r : Recv) : ReceiveStatus * Recv :=
  match Admitting (queue r) with
  | None => (ReceiveSuccess, r)
  | Some p =>
      let r := on_queue (set_Admitting None) r in
      let bytes := Rx.TotalBytes (rx p r) in
      let '(posted, r) := ask_ok r in
      if posted
      then (ReceivePending,
            on_log (fun l => set_admitted (admitted l ++ concat (Rx.Slices (rx p r))) l)
              (on_queue (fun q => set_Posted (Posted q ++ [p]) q) r))
      else (ReceiveOutOfMemory,
            on_log (set_refused true) (ReleasePressure bytes (ReleaseAdmitted bytes r)))
  end.

End Configured.

(** ** The shape of the queue *)

(** Same receives in the same places. *)
Definition same_links (r r' : Recv) : Prop :=
  PrecommitReceives (queue r') = PrecommitReceives (queue r) /\
  FallbackReceiveHead (queue r') = FallbackReceiveHead (queue r) /\
  FallbackReceiveTail (queue r') = FallbackReceiveTail (queue r) /\
  FallbackNext (queue r') = FallbackNext (queue r) /\
  ActiveReceiveFallbackMode (queue r') = ActiveReceiveFallbackMode (queue r) /\
  NextReceive (queue r') = NextReceive (queue r) /\
  Admitting (queue r') = Admitting (queue r) /\ Posted (queue r') = Posted (queue r).

#[global] Instance same_links_preorder : PreOrder same_links.
Proof. split; [by intros r|]. unfold same_links. intros r1 r2 r3. intuition congruence. Qed.

Lemma same_links_receives r r' : same_links r r' -> receives r' = receives r.
Proof. intros (H1 & H2 & _ & H3 & _). unfold receives. by rewrite H1, H2, H3. Qed.

Lemma same_links_front r r' : same_links r r' -> FrontReceive r' = FrontReceive r.
Proof. intros (H1 & H2 & _). unfold FrontReceive. by rewrite H1, H2. Qed.

Lemma links_ask r : same_links r (snd (ask_ok r)).
Proof. done. Qed.

Lemma links_on_rx f p r : same_links r (on_rx f p r).
Proof. done. Qed.

Lemma links_acquire r : same_links r (snd (TryAcquireReceiveApi r)).
Proof. unfold TryAcquireReceiveApi, ask_ok. by destruct (default _ _). Qed.

Lemma links_complete p bytes r : same_links r (snd (CompleteReceive p bytes r)).
Proof.
  unfold CompleteReceive. destruct (_ || _); [done|].
  pose proof (links_acquire r) as H. destruct (TryAcquireReceiveApi r) as [lease r1].
  destruct (negb lease); [exact H|]. destruct (_ =? 0); exact H.
Qed.

Lemma links_complete_for shut p bytes r :
  same_links r (snd (CompleteReceiveForRelay shut p bytes r)).
Proof.
  unfold CompleteReceiveForRelay. destruct (negb shut); [apply links_complete|].
  destruct (_ || _); [done|]. by destruct (_ <? _).
Qed.

Lemma links_release bytes r : same_links r (release_completed bytes r).
Proof.
  unfold release_completed, ReleaseAdmitted, CompleteQuicToTcp.
  repeat match goal with |- context [if ?b then _ else _] => destruct b end; done.
Qed.

Lemma links_drop_deferred p r : same_links r (drop_deferred p r).
Proof. unfold drop_deferred. by destruct (negb _). Qed.

Lemma settle_front_links shut r :
  same_links r (snd (settle_front shut r)) /\
  (forall p, fst (settle_front shut r) = Some p -> FrontReceive r = Some p).
Proof.
  unfold settle_front. destruct (FrontReceive r) as [p|]; [|by split].
  destruct (Rx.TcpWriteSubmitted _); [by split|].
  set (bytes := RemainingBytes _).
  assert (same_links r (snd (if negb (bytes =? 0) then CompleteReceiveForRelay shut p bytes r
                             else (true, r)))) as H.
  { destruct (negb _); [apply links_complete_for|done]. }
  destruct (if negb _ then _ else _) as [ok r1]. cbn [snd] in H.
  destruct (negb ok); [by split|]. split; [|by intros p' [= <-]].
  etrans; [exact H|]. cbn [snd].
  eapply transitivity; [apply (links_on_rx (Rx.set_CompletionPendingBytes 0) p)|].
  eapply transitivity; [apply (links_release bytes)|].
  eapply transitivity; [apply (links_drop_deferred p)|]. done.
Qed.

(** Popping the front makes the queue shorter. *)
Lemma pop_shorter p r :
  FrontReceive r = Some p -> (receives (snd (pop p r)) < receives r)%nat.
Proof.
  unfold FrontReceive, pop, receives. destruct (PrecommitReceives (queue r)) as [|f rest] eqn:E.
  - intros H. rewrite H, bool_decide_eq_true_2 by done. cbn [snd].
    assert (forall r', queue r' = unlink_fallback p (queue r) ->
      (length (PrecommitReceives (queue r')) +
       match FallbackReceiveHead (queue r') with
       | None => 0
       | Some _ => S (base.size (FallbackNext (queue r')))
       end < length (@nil nat) + S (base.size (FallbackNext (queue r))))%nat) as Hr.
    { intros r' ->. unfold unlink_fallback. cbn. destruct (FallbackNext (queue r) !! p) eqn:En.
      - rewrite bool_decide_eq_false_2 by done. cbn. rewrite E. cbn.
        rewrite map_size_delete_Some by done.
        assert (base.size (FallbackNext (queue r)) <> 0)%nat; [|lia].
        intros H0%map_size_empty_inv. rewrite H0 in En. done.
      - rewrite bool_decide_eq_true_2 by done. cbn. rewrite E. cbn. lia. }
    destruct (Rx.Fin _); apply Hr; done.
  - intros [= ->]. rewrite Nat.eqb_refl. cbn [snd]. destruct (Rx.Fin _); cbn; lia.
Qed.

Lemma no_receives r : receives r = 0%nat -> FrontReceive r = None.
Proof.
  unfold receives, FrontReceive. destruct (PrecommitReceives (queue r)); [|done].
  by destruct (FallbackReceiveHead (queue r)).
Qed.
