(* ===== verification/UvTerminal.v ===== *)
(** The terminal protocol of the libuv relay (src/src/tunnel/libuv_relay_terminal.cpp, with
    [CloseRelay], [EraseRelay] and [TqUvOnTcpClosed] of libuv_relay_worker.cpp).

    The first trigger starts the terminal: reading stops, an abort drops what was never
    submitted, the stream's shutdown is handed to its owner and the TCP handle is closed.  The
    relay is released when the handle is closed, the handoff is complete and nothing is owned
    any more.

    What the stream's owner and libuv answer is taken from [answers], one per call of the routine
    that asks.  The status codes kept for diagnosis, the process-wide handoff counters, the
    worker's [ActiveRelays_] count, the tunnel's accounting ([ReleaseActiveAccountingOnce]), the
    binding's [TerminalRouteGeneration] and the test hooks are left out.  [ActivationMutex] is
    initialised at registration and destroyed with the relay, so its [Lock] succeeds.  A relay is
    modelled from its activation on, which settled the precommit queue, so that [SettlePrecommit]
    has nothing to do. *)

From stdpp Require Import base gmap list numbers decidable.
From Stdlib Require Import ZArith Lia.
From S2P Require Import Prelude RelayBuffer UvSend UvReceive.

(** ** State *)

Inductive TqUvTerminalTrigger :=
| TcpEof | TcpError | QuicFin | QuicAbort | QueueFailure | AllocationFailureTrigger | RuntimeStop
| DecompressionFailure | PressureFailure | ReceiveCompletionFailure | RegistrationFailure.

#[global] Instance trigger_eq_dec : EqDecision TqUvTerminalTrigger.
Proof. solve_decision. Defined.

Inductive TqUvActivation := Prepared | Active | Terminal | Failed.

#[global] Instance activation_eq_dec : EqDecision TqUvActivation.
Proof. solve_decision. Defined.

(** The enumerator's number. *)
Definition trigger_index (t : TqUvTerminalTrigger) : Z :=
  match t with
  | TcpEof => 0 | TcpError => 1 | QuicFin => 2 | QuicAbort => 3 | QueueFailure => 4
  | AllocationFailureTrigger => 5 | RuntimeStop => 6 | DecompressionFailure => 7
  | PressureFailure => 8 | ReceiveCompletionFailure => 9 | RegistrationFailure => 10
  end.

(** The terminal fields of [TqUvRelayState], whether the worker's map still has the relay, and the
    facts published to [TqTerminalHandoffControl]. *)
Record Term := {
  TerminalTriggerMask : Z;
  Activation : TqUvActivation;
  TerminalStarted : bool;
  TerminalAborted : bool;
  TerminalHandoffStarted : bool;
  TerminalHandoffSubmitted : bool;
  TerminalHandoffRetryScheduled : bool;
  TerminalHandoffRetryPending : bool;
  TerminalHandoffEscalated : bool;
  TerminalAbortUpgradePending : bool;
  TerminalAbortUpgradeApplied : bool;
  TerminalHandoffComplete : bool;
  LocalOwnershipDrained : bool;
  TerminalReleased : bool;
  QuicShutdownObserved : bool;
  TerminalBeginCount : Z;
  TerminalReleaseCount : Z;
  TcpHandleInitialized : bool;
  TcpClosePending : bool;
  TcpCloseCompleted : bool;
  StopSignalled : bool;
  Registered : bool;
  DataPlaneStopped : bool;
  PublishedHandoffComplete : bool;
  OwnershipTransferredOrDrained : bool;
  AbortUpgradePending : bool;
  AbortUpgradeApplied : bool }.

Definition set_TerminalTriggerMask (v : Z) (r : Term) : Term :=
  {| TerminalTriggerMask := v; Activation := Activation r; TerminalStarted := TerminalStarted r;
     TerminalAborted := TerminalAborted r; TerminalHandoffStarted := TerminalHandoffStarted r;
     TerminalHandoffSubmitted := TerminalHandoffSubmitted r;
     TerminalHandoffRetryScheduled := TerminalHandoffRetryScheduled r;
     TerminalHandoffRetryPending := TerminalHandoffRetryPending r;
     TerminalHandoffEscalated := TerminalHandoffEscalated r;
     TerminalAbortUpgradePending := TerminalAbortUpgradePending r;
     TerminalAbortUpgradeApplied := TerminalAbortUpgradeApplied r;
     TerminalHandoffComplete := TerminalHandoffComplete r;
     LocalOwnershipDrained := LocalOwnershipDrained r; TerminalReleased := TerminalReleased r;
     QuicShutdownObserved := QuicShutdownObserved r; TerminalBeginCount := TerminalBeginCount r;
     TerminalReleaseCount := TerminalReleaseCount r;
     TcpHandleInitialized := TcpHandleInitialized r; TcpClosePending := TcpClosePending r;
     TcpCloseCompleted := TcpCloseCompleted r; StopSignalled := StopSignalled r;
     Registered := Registered r; DataPlaneStopped := DataPlaneStopped r;
     PublishedHandoffComplete := PublishedHandoffComplete r;
     OwnershipTransferredOrDrained := OwnershipTransferredOrDrained r;
     AbortUpgradePending := AbortUpgradePending r;
     AbortUpgradeApplied := AbortUpgradeApplied r |}.
Definition set_Activation (v : TqUvActivation) (r : Term) : Term :=
  {| TerminalTriggerMask := TerminalTriggerMask r; Activation := v;
     TerminalStarted := TerminalStarted r; TerminalAborted := TerminalAborted r;
     TerminalHandoffStarted := TerminalHandoffStarted r;
     TerminalHandoffSubmitted := TerminalHandoffSubmitted r;
     TerminalHandoffRetryScheduled := TerminalHandoffRetryScheduled r;
     TerminalHandoffRetryPending := TerminalHandoffRetryPending r;
     TerminalHandoffEscalated := TerminalHandoffEscalated r;
     TerminalAbortUpgradePending := TerminalAbortUpgradePending r;
     TerminalAbortUpgradeApplied := TerminalAbortUpgradeApplied r;
     TerminalHandoffComplete := TerminalHandoffComplete r;
     LocalOwnershipDrained := LocalOwnershipDrained r; TerminalReleased := TerminalReleased r;
     QuicShutdownObserved := QuicShutdownObserved r; TerminalBeginCount := TerminalBeginCount r;
     TerminalReleaseCount := TerminalReleaseCount r;
     TcpHandleInitialized := TcpHandleInitialized r; TcpClosePending := TcpClosePending r;
     TcpCloseCompleted := TcpCloseCompleted r; StopSignalled := StopSignalled r;
     Registered := Registered r; DataPlaneStopped := DataPlaneStopped r;
     PublishedHandoffComplete := PublishedHandoffComplete r;
     OwnershipTransferredOrDrained := OwnershipTransferredOrDrained r;
     AbortUpgradePending := AbortUpgradePending r;
     AbortUpgradeApplied := AbortUpgradeApplied r |}.
Definition set_TerminalStarted (v : bool) (r : Term) : Term :=
  {| TerminalTriggerMask := TerminalTriggerMask r; Activation := Activation r;
     TerminalStarted := v; TerminalAborted := TerminalAborted r;
     TerminalHandoffStarted := TerminalHandoffStarted r;
     TerminalHandoffSubmitted := TerminalHandoffSubmitted r;
     TerminalHandoffRetryScheduled := TerminalHandoffRetryScheduled r;
     TerminalHandoffRetryPending := TerminalHandoffRetryPending r;
     TerminalHandoffEscalated := TerminalHandoffEscalated r;
     TerminalAbortUpgradePending := TerminalAbortUpgradePending r;
     TerminalAbortUpgradeApplied := TerminalAbortUpgradeApplied r;
     TerminalHandoffComplete := TerminalHandoffComplete r;
     LocalOwnershipDrained := LocalOwnershipDrained r; TerminalReleased := TerminalReleased r;
     QuicShutdownObserved := QuicShutdownObserved r; TerminalBeginCount := TerminalBeginCount r;
     TerminalReleaseCount := TerminalReleaseCount r;
     TcpHandleInitialized := TcpHandleInitialized r; TcpClosePending := TcpClosePending r;
     TcpCloseCompleted := TcpCloseCompleted r; StopSignalled := StopSignalled r;
     Registered := Registered r; DataPlaneStopped := DataPlaneStopped r;
     PublishedHandoffComplete := PublishedHandoffComplete r;
     OwnershipTransferredOrDrained := OwnershipTransferredOrDrained r;
     AbortUpgradePending := AbortUpgradePending r;
     AbortUpgradeApplied := AbortUpgradeApplied r |}.
Definition set_TerminalAborted (v : bool) (r : Term) : Term :=
  {| TerminalTriggerMask := TerminalTriggerMask r; Activation := Activation r;
     TerminalStarted := TerminalStarted r; TerminalAborted := v;
     TerminalHandoffStarted := TerminalHandoffStarted r;
     TerminalHandoffSubmitted := TerminalHandoffSubmitted r;
     TerminalHandoffRetryScheduled := TerminalHandoffRetryScheduled r;
     TerminalHandoffRetryPending := TerminalHandoffRetryPending r;
     TerminalHandoffEscalated := TerminalHandoffEscalated r;
     TerminalAbortUpgradePending := TerminalAbortUpgradePending r;
     TerminalAbortUpgradeApplied := TerminalAbortUpgradeApplied r;
     TerminalHandoffComplete := TerminalHandoffComplete r;
     LocalOwnershipDrained := LocalOwnershipDrained r; TerminalReleased := TerminalReleased r;
     QuicShutdownObserved := QuicShutdownObserved r; TerminalBeginCount := TerminalBeginCount r;
     TerminalReleaseCount := TerminalReleaseCount r;
     TcpHandleInitialized := TcpHandleInitialized r; TcpClosePending := TcpClosePending r;
     TcpCloseCompleted := TcpCloseCompleted r; StopSignalled := StopSignalled r;
     Registered := Registered r; DataPlaneStopped := DataPlaneStopped r;
     PublishedHandoffComplete := PublishedHandoffComplete r;
     OwnershipTransferredOrDrained := OwnershipTransferredOrDrained r;
     AbortUpgradePending := AbortUpgradePending r;
     AbortUpgradeApplied := AbortUpgradeApplied r |}.
Definition set_TerminalHandoffStarted (v : bool) (r : Term) : Term :=
  {| TerminalTriggerMask := TerminalTriggerMask r; Activation := Activation r;
     TerminalStarted := TerminalStarted r; TerminalAborted := TerminalAborted r;
     TerminalHandoffStarted := v; TerminalHandoffSubmitted := TerminalHandoffSubmitted r;
     TerminalHandoffRetryScheduled := TerminalHandoffRetryScheduled r;
     TerminalHandoffRetryPending := TerminalHandoffRetryPending r;
     TerminalHandoffEscalated := TerminalHandoffEscalated r;
     TerminalAbortUpgradePending := TerminalAbortUpgradePending r;
     TerminalAbortUpgradeApplied := TerminalAbortUpgradeApplied r;
     TerminalHandoffComplete := TerminalHandoffComplete r;
     LocalOwnershipDrained := LocalOwnershipDrained r; TerminalReleased := TerminalReleased r;
     QuicShutdownObserved := QuicShutdownObserved r; TerminalBeginCount := TerminalBeginCount r;
     TerminalReleaseCount := TerminalReleaseCount r;
     TcpHandleInitialized := TcpHandleInitialized r; TcpClosePending := TcpClosePending r;
     TcpCloseCompleted := TcpCloseCompleted r; StopSignalled := StopSignalled r;
     Registered := Registered r; DataPlaneStopped := DataPlaneStopped r;
     PublishedHandoffComplete := PublishedHandoffComplete r;
     OwnershipTransferredOrDrained := OwnershipTransferredOrDrained r;
     AbortUpgradePending := AbortUpgradePending r;
     AbortUpgradeApplied := AbortUpgradeApplied r |}.
Definition set_TerminalHandoffSubmitted (v : bool) (r : Term) : Term :=
  {| TerminalTriggerMask := TerminalTriggerMask r; Activation := Activation r;
     TerminalStarted := TerminalStarted r; TerminalAborted := TerminalAborted r;
     TerminalHandoffStarted := TerminalHandoffStarted r; TerminalHandoffSubmitted := v;
     TerminalHandoffRetryScheduled := TerminalHandoffRetryScheduled r;
     TerminalHandoffRetryPending := TerminalHandoffRetryPending r;
     TerminalHandoffEscalated := TerminalHandoffEscalated r;
     TerminalAbortUpgradePending := TerminalAbortUpgradePending r;
     TerminalAbortUpgradeApplied := TerminalAbortUpgradeApplied r;
     TerminalHandoffComplete := TerminalHandoffComplete r;
     LocalOwnershipDrained := LocalOwnershipDrained r; TerminalReleased := TerminalReleased r;
     QuicShutdownObserved := QuicShutdownObserved r; TerminalBeginCount := TerminalBeginCount r;
     TerminalReleaseCount := TerminalReleaseCount r;
     TcpHandleInitialized := TcpHandleInitialized r; TcpClosePending := TcpClosePending r;
     TcpCloseCompleted := TcpCloseCompleted r; StopSignalled := StopSignalled r;
     Registered := Registered r; DataPlaneStopped := DataPlaneStopped r;
     PublishedHandoffComplete := PublishedHandoffComplete r;
     OwnershipTransferredOrDrained := OwnershipTransferredOrDrained r;
     AbortUpgradePending := AbortUpgradePending r;
     AbortUpgradeApplied := AbortUpgradeApplied r |}.
Definition set_TerminalHandoffRetryScheduled (v : bool) (r : Term) : Term :=
  {| TerminalTriggerMask := TerminalTriggerMask r; Activation := Activation r;
     TerminalStarted := TerminalStarted r; TerminalAborted := TerminalAborted r;
     TerminalHandoffStarted := TerminalHandoffStarted r;
     TerminalHandoffSubmitted := TerminalHandoffSubmitted r; TerminalHandoffRetryScheduled := v;
     TerminalHandoffRetryPending := TerminalHandoffRetryPending r;
     TerminalHandoffEscalated := TerminalHandoffEscalated r;
     TerminalAbortUpgradePending := TerminalAbortUpgradePending r;
     TerminalAbortUpgradeApplied := TerminalAbortUpgradeApplied r;
     TerminalHandoffComplete := TerminalHandoffComplete r;
     LocalOwnershipDrained := LocalOwnershipDrained r; TerminalReleased := TerminalReleased r;
     QuicShutdownObserved := QuicShutdownObserved r; TerminalBeginCount := TerminalBeginCount r;
     TerminalReleaseCount := TerminalReleaseCount r;
     TcpHandleInitialized := TcpHandleInitialized r; TcpClosePending := TcpClosePending r;
     TcpCloseCompleted := TcpCloseCompleted r; StopSignalled := StopSignalled r;
     Registered := Registered r; DataPlaneStopped := DataPlaneStopped r;
     PublishedHandoffComplete := PublishedHandoffComplete r;
     OwnershipTransferredOrDrained := OwnershipTransferredOrDrained r;
     AbortUpgradePending := AbortUpgradePending r;
     AbortUpgradeApplied := AbortUpgradeApplied r |}.
Definition set_TerminalHandoffRetryPending (v : bool) (r : Term) : Term :=
  {| TerminalTriggerMask := TerminalTriggerMask r; Activation := Activation r;
     TerminalStarted := TerminalStarted r; TerminalAborted := TerminalAborted r;
     TerminalHandoffStarted := TerminalHandoffStarted r;
     TerminalHandoffSubmitted := TerminalHandoffSubmitted r;
     TerminalHandoffRetryScheduled := TerminalHandoffRetryScheduled r;
     TerminalHandoffRetryPending := v; TerminalHandoffEscalated := TerminalHandoffEscalated r;
     TerminalAbortUpgradePending := TerminalAbortUpgradePending r;
     TerminalAbortUpgradeApplied := TerminalAbortUpgradeApplied r;
     TerminalHandoffComplete := TerminalHandoffComplete r;
     LocalOwnershipDrained := LocalOwnershipDrained r; TerminalReleased := TerminalReleased r;
     QuicShutdownObserved := QuicShutdownObserved r; TerminalBeginCount := TerminalBeginCount r;
     TerminalReleaseCount := TerminalReleaseCount r;
     TcpHandleInitialized := TcpHandleInitialized r; TcpClosePending := TcpClosePending r;
     TcpCloseCompleted := TcpCloseCompleted r; StopSignalled := StopSignalled r;
     Registered := Registered r; DataPlaneStopped := DataPlaneStopped r;
     PublishedHandoffComplete := PublishedHandoffComplete r;
     OwnershipTransferredOrDrained := OwnershipTransferredOrDrained r;
     AbortUpgradePending := AbortUpgradePending r;
     AbortUpgradeApplied := AbortUpgradeApplied r |}.
Definition set_TerminalHandoffEscalated (v : bool) (r : Term) : Term :=
  {| TerminalTriggerMask := TerminalTriggerMask r; Activation := Activation r;
     TerminalStarted := TerminalStarted r; TerminalAborted := TerminalAborted r;
     TerminalHandoffStarted := TerminalHandoffStarted r;
     TerminalHandoffSubmitted := TerminalHandoffSubmitted r;
     TerminalHandoffRetryScheduled := TerminalHandoffRetryScheduled r;
     TerminalHandoffRetryPending := TerminalHandoffRetryPending r; TerminalHandoffEscalated := v;
     TerminalAbortUpgradePending := TerminalAbortUpgradePending r;
     TerminalAbortUpgradeApplied := TerminalAbortUpgradeApplied r;
     TerminalHandoffComplete := TerminalHandoffComplete r;
     LocalOwnershipDrained := LocalOwnershipDrained r; TerminalReleased := TerminalReleased r;
     QuicShutdownObserved := QuicShutdownObserved r; TerminalBeginCount := TerminalBeginCount r;
     TerminalReleaseCount := TerminalReleaseCount r;
     TcpHandleInitialized := TcpHandleInitialized r; TcpClosePending := TcpClosePending r;
     TcpCloseCompleted := TcpCloseCompleted r; StopSignalled := StopSignalled r;
     Registered := Registered r; DataPlaneStopped := DataPlaneStopped r;
     PublishedHandoffComplete := PublishedHandoffComplete r;
     OwnershipTransferredOrDrained := OwnershipTransferredOrDrained r;
     AbortUpgradePending := AbortUpgradePending r;
     AbortUpgradeApplied := AbortUpgradeApplied r |}.
Definition set_TerminalAbortUpgradePending (v : bool) (r : Term) : Term :=
  {| TerminalTriggerMask := TerminalTriggerMask r; Activation := Activation r;
     TerminalStarted := TerminalStarted r; TerminalAborted := TerminalAborted r;
     TerminalHandoffStarted := TerminalHandoffStarted r;
     TerminalHandoffSubmitted := TerminalHandoffSubmitted r;
     TerminalHandoffRetryScheduled := TerminalHandoffRetryScheduled r;
     TerminalHandoffRetryPending := TerminalHandoffRetryPending r;
     TerminalHandoffEscalated := TerminalHandoffEscalated r; TerminalAbortUpgradePending := v;
     TerminalAbortUpgradeApplied := TerminalAbortUpgradeApplied r;
     TerminalHandoffComplete := TerminalHandoffComplete r;
     LocalOwnershipDrained := LocalOwnershipDrained r; TerminalReleased := TerminalReleased r;
     QuicShutdownObserved := QuicShutdownObserved r; TerminalBeginCount := TerminalBeginCount r;
     TerminalReleaseCount := TerminalReleaseCount r;
     TcpHandleInitialized := TcpHandleInitialized r; TcpClosePending := TcpClosePending r;
     TcpCloseCompleted := TcpCloseCompleted r; StopSignalled := StopSignalled r;
     Registered := Registered r; DataPlaneStopped := DataPlaneStopped r;
     PublishedHandoffComplete := PublishedHandoffComplete r;
     OwnershipTransferredOrDrained := OwnershipTransferredOrDrained r;
     AbortUpgradePending := AbortUpgradePending r;
     AbortUpgradeApplied := AbortUpgradeApplied r |}.
Definition set_TerminalAbortUpgradeApplied (v : bool) (r : Term) : Term :=
  {| TerminalTriggerMask := TerminalTriggerMask r; Activation := Activation r;
     TerminalStarted := TerminalStarted r; TerminalAborted := TerminalAborted r;
     TerminalHandoffStarted := TerminalHandoffStarted r;
     TerminalHandoffSubmitted := TerminalHandoffSubmitted r;
     TerminalHandoffRetryScheduled := TerminalHandoffRetryScheduled r;
     TerminalHandoffRetryPending := TerminalHandoffRetryPending r;
     TerminalHandoffEscalated := TerminalHandoffEscalated r;
     TerminalAbortUpgradePending := TerminalAbortUpgradePending r;
     TerminalAbortUpgradeApplied := v; TerminalHandoffComplete := TerminalHandoffComplete r;
     LocalOwnershipDrained := LocalOwnershipDrained r; TerminalReleased := TerminalReleased r;
     QuicShutdownObserved := QuicShutdownObserved r; TerminalBeginCount := TerminalBeginCount r;
     TerminalReleaseCount := TerminalReleaseCount r;
     TcpHandleInitialized := TcpHandleInitialized r; TcpClosePending := TcpClosePending r;
     TcpCloseCompleted := TcpCloseCompleted r; StopSignalled := StopSignalled r;
     Registered := Registered r; DataPlaneStopped := DataPlaneStopped r;
     PublishedHandoffComplete := PublishedHandoffComplete r;
     OwnershipTransferredOrDrained := OwnershipTransferredOrDrained r;
     AbortUpgradePending := AbortUpgradePending r;
     AbortUpgradeApplied := AbortUpgradeApplied r |}.
Definition set_TerminalHandoffComplete (v : bool) (r : Term) : Term :=
  {| TerminalTriggerMask := TerminalTriggerMask r; Activation := Activation r;
     TerminalStarted := TerminalStarted r; TerminalAborted := TerminalAborted r;
     TerminalHandoffStarted := TerminalHandoffStarted r;
     TerminalHandoffSubmitted := TerminalHandoffSubmitted r;
     TerminalHandoffRetryScheduled := TerminalHandoffRetryScheduled r;
     TerminalHandoffRetryPending := TerminalHandoffRetryPending r;
     TerminalHandoffEscalated := TerminalHandoffEscalated r;
     TerminalAbortUpgradePending := TerminalAbortUpgradePending r;
     TerminalAbortUpgradeApplied := TerminalAbortUpgradeApplied r; TerminalHandoffComplete := v;
     LocalOwnershipDrained := LocalOwnershipDrained r; TerminalReleased := TerminalReleased r;
     QuicShutdownObserved := QuicShutdownObserved r; TerminalBeginCount := TerminalBeginCount r;
     TerminalReleaseCount := TerminalReleaseCount r;
     TcpHandleInitialized := TcpHandleInitialized r; TcpClosePending := TcpClosePending r;
     TcpCloseCompleted := TcpCloseCompleted r; StopSignalled := StopSignalled r;
     Registered := Registered r; DataPlaneStopped := DataPlaneStopped r;
     PublishedHandoffComplete := PublishedHandoffComplete r;
     OwnershipTransferredOrDrained := OwnershipTransferredOrDrained r;
     AbortUpgradePending := AbortUpgradePending r;
     AbortUpgradeApplied := AbortUpgradeApplied r |}.
Definition set_LocalOwnershipDrained (v : bool) (r : Term) : Term :=
  {| TerminalTriggerMask := TerminalTriggerMask r; Activation := Activation r;
     TerminalStarted := TerminalStarted r; TerminalAborted := TerminalAborted r;
     TerminalHandoffStarted := TerminalHandoffStarted r;
     TerminalHandoffSubmitted := TerminalHandoffSubmitted r;
     TerminalHandoffRetryScheduled := TerminalHandoffRetryScheduled r;
     TerminalHandoffRetryPending := TerminalHandoffRetryPending r;
     TerminalHandoffEscalated := TerminalHandoffEscalated r;
     TerminalAbortUpgradePending := TerminalAbortUpgradePending r;
     TerminalAbortUpgradeApplied := TerminalAbortUpgradeApplied r;
     TerminalHandoffComplete := TerminalHandoffComplete r; LocalOwnershipDrained := v;
     TerminalReleased := TerminalReleased r; QuicShutdownObserved := QuicShutdownObserved r;
     TerminalBeginCount := TerminalBeginCount r; TerminalReleaseCount := TerminalReleaseCount r;
     TcpHandleInitialized := TcpHandleInitialized r; TcpClosePending := TcpClosePending r;
     TcpCloseCompleted := TcpCloseCompleted r; StopSignalled := StopSignalled r;
     Registered := Registered r; DataPlaneStopped := DataPlaneStopped r;
     PublishedHandoffComplete := PublishedHandoffComplete r;
     OwnershipTransferredOrDrained := OwnershipTransferredOrDrained r;
     AbortUpgradePending := AbortUpgradePending r;
     AbortUpgradeApplied := AbortUpgradeApplied r |}.
Definition set_TerminalReleased (v : bool) (r : Term) : Term :=
  {| TerminalTriggerMask := TerminalTriggerMask r; Activation := Activation r;
     TerminalStarted := TerminalStarted r; TerminalAborted := TerminalAborted r;
     TerminalHandoffStarted := TerminalHandoffStarted r;
     TerminalHandoffSubmitted := TerminalHandoffSubmitted r;
     TerminalHandoffRetryScheduled := TerminalHandoffRetryScheduled r;
     TerminalHandoffRetryPending := TerminalHandoffRetryPending r;
     TerminalHandoffEscalated := TerminalHandoffEscalated r;
     TerminalAbortUpgradePending := TerminalAbortUpgradePending r;
     TerminalAbortUpgradeApplied := TerminalAbortUpgradeApplied r;
     TerminalHandoffComplete := TerminalHandoffComplete r;
     LocalOwnershipDrained := LocalOwnershipDrained r; TerminalReleased := v;
     QuicShutdownObserved := QuicShutdownObserved r; TerminalBeginCount := TerminalBeginCount r;
     TerminalReleaseCount := TerminalReleaseCount r;
     TcpHandleInitialized := TcpHandleInitialized r; TcpClosePending := TcpClosePending r;
     TcpCloseCompleted := TcpCloseCompleted r; StopSignalled := StopSignalled r;
     Registered := Registered r; DataPlaneStopped := DataPlaneStopped r;
     PublishedHandoffComplete := PublishedHandoffComplete r;
     OwnershipTransferredOrDrained := OwnershipTransferredOrDrained r;
     AbortUpgradePending := AbortUpgradePending r;
     AbortUpgradeApplied := AbortUpgradeApplied r |}.
Definition set_QuicShutdownObserved (v : bool) (r : Term) : Term :=
  {| TerminalTriggerMask := TerminalTriggerMask r; Activation := Activation r;
     TerminalStarted := TerminalStarted r; TerminalAborted := TerminalAborted r;
     TerminalHandoffStarted := TerminalHandoffStarted r;
     TerminalHandoffSubmitted := TerminalHandoffSubmitted r;
     TerminalHandoffRetryScheduled := TerminalHandoffRetryScheduled r;
     TerminalHandoffRetryPending := TerminalHandoffRetryPending r;
     TerminalHandoffEscalated := TerminalHandoffEscalated r;
     TerminalAbortUpgradePending := TerminalAbortUpgradePending r;
     TerminalAbortUpgradeApplied := TerminalAbortUpgradeApplied r;
     TerminalHandoffComplete := TerminalHandoffComplete r;
     LocalOwnershipDrained := LocalOwnershipDrained r; TerminalReleased := TerminalReleased r;
     QuicShutdownObserved := v; TerminalBeginCount := TerminalBeginCount r;
     TerminalReleaseCount := TerminalReleaseCount r;
     TcpHandleInitialized := TcpHandleInitialized r; TcpClosePending := TcpClosePending r;
     TcpCloseCompleted := TcpCloseCompleted r; StopSignalled := StopSignalled r;
     Registered := Registered r; DataPlaneStopped := DataPlaneStopped r;
     PublishedHandoffComplete := PublishedHandoffComplete r;
     OwnershipTransferredOrDrained := OwnershipTransferredOrDrained r;
     AbortUpgradePending := AbortUpgradePending r;
     AbortUpgradeApplied := AbortUpgradeApplied r |}.
Definition set_TerminalBeginCount (v : Z) (r : Term) : Term :=
  {| TerminalTriggerMask := TerminalTriggerMask r; Activation := Activation r;
     TerminalStarted := TerminalStarted r; TerminalAborted := TerminalAborted r;
     TerminalHandoffStarted := TerminalHandoffStarted r;
     TerminalHandoffSubmitted := TerminalHandoffSubmitted r;
     TerminalHandoffRetryScheduled := TerminalHandoffRetryScheduled r;
     TerminalHandoffRetryPending := TerminalHandoffRetryPending r;
     TerminalHandoffEscalated := TerminalHandoffEscalated r;
     TerminalAbortUpgradePending := TerminalAbortUpgradePending r;
     TerminalAbortUpgradeApplied := TerminalAbortUpgradeApplied r;
     TerminalHandoffComplete := TerminalHandoffComplete r;
     LocalOwnershipDrained := LocalOwnershipDrained r; TerminalReleased := TerminalReleased r;
     QuicShutdownObserved := QuicShutdownObserved r; TerminalBeginCount := v;
     TerminalReleaseCount := TerminalReleaseCount r;
     TcpHandleInitialized := TcpHandleInitialized r; TcpClosePending := TcpClosePending r;
     TcpCloseCompleted := TcpCloseCompleted r; StopSignalled := StopSignalled r;
     Registered := Registered r; DataPlaneStopped := DataPlaneStopped r;
     PublishedHandoffComplete := PublishedHandoffComplete r;
     OwnershipTransferredOrDrained := OwnershipTransferredOrDrained r;
     AbortUpgradePending := AbortUpgradePending r;
     AbortUpgradeApplied := AbortUpgradeApplied r |}.
Definition set_TerminalReleaseCount (v : Z) (r : Term) : Term :=
  {| TerminalTriggerMask := TerminalTriggerMask r; Activation := Activation r;
     TerminalStarted := TerminalStarted r; TerminalAborted := TerminalAborted r;
     TerminalHandoffStarted := TerminalHandoffStarted r;
     TerminalHandoffSubmitted := TerminalHandoffSubmitted r;
     TerminalHandoffRetryScheduled := TerminalHandoffRetryScheduled r;
     TerminalHandoffRetryPending := TerminalHandoffRetryPending r;
     TerminalHandoffEscalated := TerminalHandoffEscalated r;
     TerminalAbortUpgradePending := TerminalAbortUpgradePending r;
     TerminalAbortUpgradeApplied := TerminalAbortUpgradeApplied r;
     TerminalHandoffComplete := TerminalHandoffComplete r;
     LocalOwnershipDrained := LocalOwnershipDrained r; TerminalReleased := TerminalReleased r;
     QuicShutdownObserved := QuicShutdownObserved r; TerminalBeginCount := TerminalBeginCount r;
     TerminalReleaseCount := v; TcpHandleInitialized := TcpHandleInitialized r;
     TcpClosePending := TcpClosePending r; TcpCloseCompleted := TcpCloseCompleted r;
     StopSignalled := StopSignalled r; Registered := Registered r;
     DataPlaneStopped := DataPlaneStopped r;
     PublishedHandoffComplete := PublishedHandoffComplete r;
     OwnershipTransferredOrDrained := OwnershipTransferredOrDrained r;
     AbortUpgradePending := AbortUpgradePending r;
     AbortUpgradeApplied := AbortUpgradeApplied r |}.
Definition set_TcpHandleInitialized (v : bool) (r : Term) : Term :=
  {| TerminalTriggerMask := TerminalTriggerMask r; Activation := Activation r;
     TerminalStarted := TerminalStarted r; TerminalAborted := TerminalAborted r;
     TerminalHandoffStarted := TerminalHandoffStarted r;
     TerminalHandoffSubmitted := TerminalHandoffSubmitted r;
     TerminalHandoffRetryScheduled := TerminalHandoffRetryScheduled r;
     TerminalHandoffRetryPending := TerminalHandoffRetryPending r;
     TerminalHandoffEscalated := TerminalHandoffEscalated r;
     TerminalAbortUpgradePending := TerminalAbortUpgradePending r;
     TerminalAbortUpgradeApplied := TerminalAbortUpgradeApplied r;
     TerminalHandoffComplete := TerminalHandoffComplete r;
     LocalOwnershipDrained := LocalOwnershipDrained r; TerminalReleased := TerminalReleased r;
     QuicShutdownObserved := QuicShutdownObserved r; TerminalBeginCount := TerminalBeginCount r;
     TerminalReleaseCount := TerminalReleaseCount r; TcpHandleInitialized := v;
     TcpClosePending := TcpClosePending r; TcpCloseCompleted := TcpCloseCompleted r;
     StopSignalled := StopSignalled r; Registered := Registered r;
     DataPlaneStopped := DataPlaneStopped r;
     PublishedHandoffComplete := PublishedHandoffComplete r;
     OwnershipTransferredOrDrained := OwnershipTransferredOrDrained r;
     AbortUpgradePending := AbortUpgradePending r;
     AbortUpgradeApplied := AbortUpgradeApplied r |}.
Definition set_TcpClosePending (v : bool) (r : Term) : Term :=
  {| TerminalTriggerMask := TerminalTriggerMask r; Activation := Activation r;
     TerminalStarted := TerminalStarted r; TerminalAborted := TerminalAborted r;
     TerminalHandoffStarted := TerminalHandoffStarted r;
     TerminalHandoffSubmitted := TerminalHandoffSubmitted r;
     TerminalHandoffRetryScheduled := TerminalHandoffRetryScheduled r;
     TerminalHandoffRetryPending := TerminalHandoffRetryPending r;
     TerminalHandoffEscalated := TerminalHandoffEscalated r;
     TerminalAbortUpgradePending := TerminalAbortUpgradePending r;
     TerminalAbortUpgradeApplied := TerminalAbortUpgradeApplied r;
     TerminalHandoffComplete := TerminalHandoffComplete r;
     LocalOwnershipDrained := LocalOwnershipDrained r; TerminalReleased := TerminalReleased r;
     QuicShutdownObserved := QuicShutdownObserved r; TerminalBeginCount := TerminalBeginCount r;
     TerminalReleaseCount := TerminalReleaseCount r;
     TcpHandleInitialized := TcpHandleInitialized r; TcpClosePending := v;
     TcpCloseCompleted := TcpCloseCompleted r; StopSignalled := StopSignalled r;
     Registered := Registered r; DataPlaneStopped := DataPlaneStopped r;
     PublishedHandoffComplete := PublishedHandoffComplete r;
     OwnershipTransferredOrDrained := OwnershipTransferredOrDrained r;
     AbortUpgradePending := AbortUpgradePending r;
     AbortUpgradeApplied := AbortUpgradeApplied r |}.
Definition set_TcpCloseCompleted (v : bool) (r : Term) : Term :=
  {| TerminalTriggerMask := TerminalTriggerMask r; Activation := Activation r;
     TerminalStarted := TerminalStarted r; TerminalAborted := TerminalAborted r;
     TerminalHandoffStarted := TerminalHandoffStarted r;
     TerminalHandoffSubmitted := TerminalHandoffSubmitted r;
     TerminalHandoffRetryScheduled := TerminalHandoffRetryScheduled r;
     TerminalHandoffRetryPending := TerminalHandoffRetryPending r;
     TerminalHandoffEscalated := TerminalHandoffEscalated r;
     TerminalAbortUpgradePending := TerminalAbortUpgradePending r;
     TerminalAbortUpgradeApplied := TerminalAbortUpgradeApplied r;
     TerminalHandoffComplete := TerminalHandoffComplete r;
     LocalOwnershipDrained := LocalOwnershipDrained r; TerminalReleased := TerminalReleased r;
     QuicShutdownObserved := QuicShutdownObserved r; TerminalBeginCount := TerminalBeginCount r;
     TerminalReleaseCount := TerminalReleaseCount r;
     TcpHandleInitialized := TcpHandleInitialized r; TcpClosePending := TcpClosePending r;
     TcpCloseCompleted := v; StopSignalled := StopSignalled r; Registered := Registered r;
     DataPlaneStopped := DataPlaneStopped r;
     PublishedHandoffComplete := PublishedHandoffComplete r;
     OwnershipTransferredOrDrained := OwnershipTransferredOrDrained r;
     AbortUpgradePending := AbortUpgradePending r;
     AbortUpgradeApplied := AbortUpgradeApplied r |}.
Definition set_StopSignalled (v : bool) (r : Term) : Term :=
  {| TerminalTriggerMask := TerminalTriggerMask r; Activation := Activation r;
     TerminalStarted := TerminalStarted r; TerminalAborted := TerminalAborted r;
     TerminalHandoffStarted := TerminalHandoffStarted r;
     TerminalHandoffSubmitted := TerminalHandoffSubmitted r;
     TerminalHandoffRetryScheduled := TerminalHandoffRetryScheduled r;
     TerminalHandoffRetryPending := TerminalHandoffRetryPending r;
     TerminalHandoffEscalated := TerminalHandoffEscalated r;
     TerminalAbortUpgradePending := TerminalAbortUpgradePending r;
     TerminalAbortUpgradeApplied := TerminalAbortUpgradeApplied r;
     TerminalHandoffComplete := TerminalHandoffComplete r;
     LocalOwnershipDrained := LocalOwnershipDrained r; TerminalReleased := TerminalReleased r;
     QuicShutdownObserved := QuicShutdownObserved r; TerminalBeginCount := TerminalBeginCount r;
     TerminalReleaseCount := TerminalReleaseCount r;
     TcpHandleInitialized := TcpHandleInitialized r; TcpClosePending := TcpClosePending r;
     TcpCloseCompleted := TcpCloseCompleted r; StopSignalled := v; Registered := Registered r;
     DataPlaneStopped := DataPlaneStopped r;
     PublishedHandoffComplete := PublishedHandoffComplete r;
     OwnershipTransferredOrDrained := OwnershipTransferredOrDrained r;
     AbortUpgradePending := AbortUpgradePending r;
     AbortUpgradeApplied := AbortUpgradeApplied r |}.
Definition set_Registered (v : bool) (r : Term) : Term :=
  {| TerminalTriggerMask := TerminalTriggerMask r; Activation := Activation r;
     TerminalStarted := TerminalStarted r; TerminalAborted := TerminalAborted r;
     TerminalHandoffStarted := TerminalHandoffStarted r;
     TerminalHandoffSubmitted := TerminalHandoffSubmitted r;
     TerminalHandoffRetryScheduled := TerminalHandoffRetryScheduled r;
     TerminalHandoffRetryPending := TerminalHandoffRetryPending r;
     TerminalHandoffEscalated := TerminalHandoffEscalated r;
     TerminalAbortUpgradePending := TerminalAbortUpgradePending r;
     TerminalAbortUpgradeApplied := TerminalAbortUpgradeApplied r;
     TerminalHandoffComplete := TerminalHandoffComplete r;
     LocalOwnershipDrained := LocalOwnershipDrained r; TerminalReleased := TerminalReleased r;
     QuicShutdownObserved := QuicShutdownObserved r; TerminalBeginCount := TerminalBeginCount r;
     TerminalReleaseCount := TerminalReleaseCount r;
     TcpHandleInitialized := TcpHandleInitialized r; TcpClosePending := TcpClosePending r;
     TcpCloseCompleted := TcpCloseCompleted r; StopSignalled := StopSignalled r; Registered := v;
     DataPlaneStopped := DataPlaneStopped r;
     PublishedHandoffComplete := PublishedHandoffComplete r;
     OwnershipTransferredOrDrained := OwnershipTransferredOrDrained r;
     AbortUpgradePending := AbortUpgradePending r;
     AbortUpgradeApplied := AbortUpgradeApplied r |}.
Definition set_DataPlaneStopped (v : bool) (r : Term) : Term :=
  {| TerminalTriggerMask := TerminalTriggerMask r; Activation := Activation r;
     TerminalStarted := TerminalStarted r; TerminalAborted := TerminalAborted r;
     TerminalHandoffStarted := TerminalHandoffStarted r;
     TerminalHandoffSubmitted := TerminalHandoffSubmitted r;
     TerminalHandoffRetryScheduled := TerminalHandoffRetryScheduled r;
     TerminalHandoffRetryPending := TerminalHandoffRetryPending r;
     TerminalHandoffEscalated := TerminalHandoffEscalated r;
     TerminalAbortUpgradePending := TerminalAbortUpgradePending r;
     TerminalAbortUpgradeApplied := TerminalAbortUpgradeApplied r;
     TerminalHandoffComplete := TerminalHandoffComplete r;
     LocalOwnershipDrained := LocalOwnershipDrained r; TerminalReleased := TerminalReleased r;
     QuicShutdownObserved := QuicShutdownObserved r; TerminalBeginCount := TerminalBeginCount r;
     TerminalReleaseCount := TerminalReleaseCount r;
     TcpHandleInitialized := TcpHandleInitialized r; TcpClosePending := TcpClosePending r;
     TcpCloseCompleted := TcpCloseCompleted r; StopSignalled := StopSignalled r;
     Registered := Registered r; DataPlaneStopped := v;
     PublishedHandoffComplete := PublishedHandoffComplete r;
     OwnershipTransferredOrDrained := OwnershipTransferredOrDrained r;
     AbortUpgradePending := AbortUpgradePending r;
     AbortUpgradeApplied := AbortUpgradeApplied r |}.
Definition set_PublishedHandoffComplete (v : bool) (r : Term) : Term :=
  {| TerminalTriggerMask := TerminalTriggerMask r; Activation := Activation r;
     TerminalStarted := TerminalStarted r; TerminalAborted := TerminalAborted r;
     TerminalHandoffStarted := TerminalHandoffStarted r;
     TerminalHandoffSubmitted := TerminalHandoffSubmitted r;
     TerminalHandoffRetryScheduled := TerminalHandoffRetryScheduled r;
     TerminalHandoffRetryPending := TerminalHandoffRetryPending r;
     TerminalHandoffEscalated := TerminalHandoffEscalated r;
     TerminalAbortUpgradePending := TerminalAbortUpgradePending r;
     TerminalAbortUpgradeApplied := TerminalAbortUpgradeApplied r;
     TerminalHandoffComplete := TerminalHandoffComplete r;
     LocalOwnershipDrained := LocalOwnershipDrained r; TerminalReleased := TerminalReleased r;
     QuicShutdownObserved := QuicShutdownObserved r; TerminalBeginCount := TerminalBeginCount r;
     TerminalReleaseCount := TerminalReleaseCount r;
     TcpHandleInitialized := TcpHandleInitialized r; TcpClosePending := TcpClosePending r;
     TcpCloseCompleted := TcpCloseCompleted r; StopSignalled := StopSignalled r;
     Registered := Registered r; DataPlaneStopped := DataPlaneStopped r;
     PublishedHandoffComplete := v;
     OwnershipTransferredOrDrained := OwnershipTransferredOrDrained r;
     AbortUpgradePending := AbortUpgradePending r;
     AbortUpgradeApplied := AbortUpgradeApplied r |}.
Definition set_OwnershipTransferredOrDrained (v : bool) (r : Term) : Term :=
  {| TerminalTriggerMask := TerminalTriggerMask r; Activation := Activation r;
     TerminalStarted := TerminalStarted r; TerminalAborted := TerminalAborted r;
     TerminalHandoffStarted := TerminalHandoffStarted r;
     TerminalHandoffSubmitted := TerminalHandoffSubmitted r;
     TerminalHandoffRetryScheduled := TerminalHandoffRetryScheduled r;
     TerminalHandoffRetryPending := TerminalHandoffRetryPending r;
     TerminalHandoffEscalated := TerminalHandoffEscalated r;
     TerminalAbortUpgradePending := TerminalAbortUpgradePending r;
     TerminalAbortUpgradeApplied := TerminalAbortUpgradeApplied r;
     TerminalHandoffComplete := TerminalHandoffComplete r;
     LocalOwnershipDrained := LocalOwnershipDrained r; TerminalReleased := TerminalReleased r;
     QuicShutdownObserved := QuicShutdownObserved r; TerminalBeginCount := TerminalBeginCount r;
     TerminalReleaseCount := TerminalReleaseCount r;
     TcpHandleInitialized := TcpHandleInitialized r; TcpClosePending := TcpClosePending r;
     TcpCloseCompleted := TcpCloseCompleted r; StopSignalled := StopSignalled r;
     Registered := Registered r; DataPlaneStopped := DataPlaneStopped r;
     PublishedHandoffComplete := PublishedHandoffComplete r; OwnershipTransferredOrDrained := v;
     AbortUpgradePending := AbortUpgradePending r;
     AbortUpgradeApplied := AbortUpgradeApplied r |}.
Definition set_AbortUpgradePending (v : bool) (r : Term) : Term :=
  {| TerminalTriggerMask := TerminalTriggerMask r; Activation := Activation r;
     TerminalStarted := TerminalStarted r; TerminalAborted := TerminalAborted r;
     TerminalHandoffStarted := TerminalHandoffStarted r;
     TerminalHandoffSubmitted := TerminalHandoffSubmitted r;
     TerminalHandoffRetryScheduled := TerminalHandoffRetryScheduled r;
     TerminalHandoffRetryPending := TerminalHandoffRetryPending r;
     TerminalHandoffEscalated := TerminalHandoffEscalated r;
     TerminalAbortUpgradePending := TerminalAbortUpgradePending r;
     TerminalAbortUpgradeApplied := TerminalAbortUpgradeApplied r;
     TerminalHandoffComplete := TerminalHandoffComplete r;
     LocalOwnershipDrained := LocalOwnershipDrained r; TerminalReleased := TerminalReleased r;
     QuicShutdownObserved := QuicShutdownObserved r; TerminalBeginCount := TerminalBeginCount r;
     TerminalReleaseCount := TerminalReleaseCount r;
     TcpHandleInitialized := TcpHandleInitialized r; TcpClosePending := TcpClosePending r;
     TcpCloseCompleted := TcpCloseCompleted r; StopSignalled := StopSignalled r;
     Registered := Registered r; DataPlaneStopped := DataPlaneStopped r;
     PublishedHandoffComplete := PublishedHandoffComplete r;
     OwnershipTransferredOrDrained := OwnershipTransferredOrDrained r; AbortUpgradePending := v;
     AbortUpgradeApplied := AbortUpgradeApplied r |}.
Definition set_AbortUpgradeApplied (v : bool) (r : Term) : Term :=
  {| TerminalTriggerMask := TerminalTriggerMask r; Activation := Activation r;
     TerminalStarted := TerminalStarted r; TerminalAborted := TerminalAborted r;
     TerminalHandoffStarted := TerminalHandoffStarted r;
     TerminalHandoffSubmitted := TerminalHandoffSubmitted r;
     TerminalHandoffRetryScheduled := TerminalHandoffRetryScheduled r;
     TerminalHandoffRetryPending := TerminalHandoffRetryPending r;
     TerminalHandoffEscalated := TerminalHandoffEscalated r;
     TerminalAbortUpgradePending := TerminalAbortUpgradePending r;
     TerminalAbortUpgradeApplied := TerminalAbortUpgradeApplied r;
     TerminalHandoffComplete := TerminalHandoffComplete r;
     LocalOwnershipDrained := LocalOwnershipDrained r; TerminalReleased := TerminalReleased r;
     QuicShutdownObserved := QuicShutdownObserved r; TerminalBeginCount := TerminalBeginCount r;
     TerminalReleaseCount := TerminalReleaseCount r;
     TcpHandleInitialized := TcpHandleInitialized r; TcpClosePending := TcpClosePending r;
     TcpCloseCompleted := TcpCloseCompleted r; StopSignalled := StopSignalled r;
     Registered := Registered r; DataPlaneStopped := DataPlaneStopped r;
     PublishedHandoffComplete := PublishedHandoffComplete r;
     OwnershipTransferredOrDrained := OwnershipTransferredOrDrained r;
     AbortUpgradePending := AbortUpgradePending r; AbortUpgradeApplied := v |}.

(** [TqTerminalShutdownResult]. *)
Record TqTerminalShutdownResult := {
  ResultSubmitted : bool; ResultAlreadyTerminal : bool; ResultRetryScheduled : bool }.

(** What one run of [TqUvBeginTerminalLocal] or [TqUvCheckTerminalConvergence] is told:
    [uv_shutdown]; [BeginTerminalShutdown]; whether the ledger exists and shows the shutdown
    submitted; [UpgradeTerminalShutdownToAbort]; whether [uv_close] does not throw. *)
Record TermAnswer := {
  shutdown_ok : bool; shutdown : TqTerminalShutdownResult; ledger_submitted : option bool;
  upgrade : TqTerminalShutdownResult; close_ok : bool }.

Definition default_answer : TermAnswer :=
  {| shutdown_ok := true;
     shutdown := {| ResultSubmitted := true; ResultAlreadyTerminal := false;
                    ResultRetryScheduled := false |};
     ledger_submitted := None;
     upgrade := {| ResultSubmitted := true; ResultAlreadyTerminal := false;
                   ResultRetryScheduled := false |};
     close_ok := true |}.

Record State := {
  data : Data;
  term : Term;
  recv : Recv;
  answers : list TermAnswer }.

Definition set_data (v : Data) (s : State) : State :=
  {| data := v; term := term s; recv := recv s; answers := answers s |}.
Definition set_term (v : Term) (s : State) : State :=
  {| data := data s; term := v; recv := recv s; answers := answers s |}.
Definition set_recv (v : Recv) (s : State) : State :=
  {| data := data s; term := term s; recv := v; answers := answers s |}.
Definition set_answers (v : list TermAnswer) (s : State) : State :=
  {| data := data s; term := term s; recv := recv s; answers := v |}.

Definition ask (s : State) : TermAnswer * State :=
  (default default_answer (head (answers s)), set_answers (tail (answers s)) s).

Definition on_data (f : Data -> Data) (s : State) : State := set_data (f (data s)) s.
Definition on_term (f : Term -> Term) (s : State) : State := set_term (f (term s)) s.
Definition on_recv (f : Recv -> Recv) (s : State) : State := set_recv (f (recv s)) s.

(** ** Triggers *)

Definition IsAbort (t : TqUvTerminalTrigger) : bool :=
  negb (bool_decide (t = TcpEof)) && negb (bool_decide (t = QuicFin)) &&
  negb (bool_decide (t = RuntimeStop)).

Definition priority : list TqUvTerminalTrigger :=
  [RuntimeStop; QuicAbort; TcpError; QueueFailure; AllocationFailureTrigger;
   DecompressionFailure; PressureFailure; ReceiveCompletionFailure; RegistrationFailure;
   QuicFin; TcpEof].

Definition trigger_bit (t : TqUvTerminalTrigger) : Z := Z.shiftl 1 (trigger_index t).

Definition SelectTerminalTrigger (mask : Z) : TqUvTerminalTrigger :=
  default RegistrationFailure
    (List.find (fun t => negb (Z.land mask (trigger_bit t) =? 0)) priority).

(** [TqUvRequestTerminal]; waking the loop is not a change of the relay. *)
Definition TqUvRequestTerminal (t : TqUvTerminalTrigger) (s : State) : State :=
  on_term (fun r => set_TerminalTriggerMask (Z.lor (TerminalTriggerMask r) (trigger_bit t)) r) s.

(** ** Ownership *)

Definition LocalOwnershipDrainedImpl (d : Data) (r : Recv) : bool :=
  bool_decide (length (TcpWrites (flow r)) = 0)%nat && bool_decide (length (QuicSends d) = 0)%nat &&
  bool_decide (length (PendingQuicSendRetries d) = 0)%nat &&
  bool_decide (length (PrecommitReceives (queue r)) = 0)%nat &&
  bool_decide (FallbackReceiveHead (queue r) = None) &&
  bool_decide (length (TcpReadBuffers d) = 0)%nat && (PendingTcpWriteBytes (ledger r) =? 0) &&
  (PendingQuicSendBytes d =? 0) && (PendingQuicReceiveBytes (ledger r) =? 0) &&
  (PendingTcpReadBytes d =? 0) && (AccountedQuicToTcpBytes (ledger r) =? 0) &&
  (AccountedTcpToQuicBytes d =? 0) && (AdmittedQuicReceiveBytes (ledger r) =? 0) &&
  (QuicToTcpPressureBytes (ledger r) =? 0).

Definition NormalFinReady (s : State) : bool :=
  TcpReadClosed (data s) && QuicFinSubmitted (data s) && QuicFinCompleted (data s) &&
  QuicFinObserved (flow (recv s)) && TcpWriteClosed (flow (recv s)) &&
  negb (TcpShutdownPending (flow (recv s))) && LocalOwnershipDrainedImpl (data s) (recv s).

(** ** Handoff *)

Definition RecordHandoffResult (result : TqTerminalShutdownResult) (r : Term) : Term :=
  let r := set_TerminalHandoffSubmitted (ResultSubmitted result) r in
  let r := set_TerminalHandoffRetryScheduled (ResultRetryScheduled result) r in
  let r := set_TerminalHandoffRetryPending
             (negb (ResultSubmitted result) && negb (ResultAlreadyTerminal result) &&
              negb (ResultRetryScheduled result)) r in
  if ResultAlreadyTerminal result then set_TerminalHandoffComplete true r else r.

Definition RefreshHandoffResultFromOwner (submitted : option bool) (r : Term) : Term :=
  match submitted with
  | None => r
  | Some submitted =>
      let r := set_TerminalHandoffSubmitted submitted r in
      if submitted
      then set_TerminalHandoffRetryPending false (set_TerminalHandoffRetryScheduled false r)
      else r
  end.

Definition PublishHandoffFacts (r : Term) : Term :=
  let r := set_DataPlaneStopped (TcpCloseCompleted r) r in
  let r := set_PublishedHandoffComplete (TerminalHandoffComplete r) r in
  let r := set_OwnershipTransferredOrDrained (LocalOwnershipDrained r) r in
  let r := set_AbortUpgradePending (TerminalAbortUpgradePending r) r in
  set_AbortUpgradeApplied (TerminalAbortUpgradeApplied r) r.

(** [TqTerminalReleaseReady] of the published facts. *)
Definition TqTerminalReleaseReady (r : Term) : bool :=
  DataPlaneStopped r && PublishedHandoffComplete r && OwnershipTransferredOrDrained r.

(** ** Closing and erasing *)

(** [CloseRelay]; [false] when [uv_close] threw. *)
Definition CloseRelay (no_throw : bool) (s : State) : bool * State :=
  let r := term s in
  if negb (TcpHandleInitialized r) || TcpClosePending r || TcpCloseCompleted r then (true, s)
  else
    let s := if TcpReadStarted (data s) then on_data (set_TcpReadStarted false) s else s in
    (no_throw, on_term (set_TcpClosePending no_throw) s).

Definition EraseRelay (s : State) : State :=
  if Registered (term s)
  then
    let s := on_recv (fun r => snd (CompleteQuicToTcp (AccountedQuicToTcpBytes (ledger r)) r)) s in
    let s := on_data (fun d => snd (CompletePendingBytes (AccountedTcpToQuicBytes d) d)) s in
    on_term (set_Registered false) s
  else s.

(** ** Convergence *)

(** What an abort drops on the spot; [settle] is [TqUvSettleQuicReceivesAtTerminal]. *)
Definition abort_drops (settle : State -> State) (s : State) : State :=
  let s := on_data DiscardUnsubmittedSends s in
  let s := on_data clear_read_buffers s in
  let s := on_data (set_PendingTcpReadBytes 0) s in
  settle s.

(** [TqUvBeginTerminalLocal]; [check] is [TqUvCheckTerminalConvergence]. *)
Definition Begin_body (settle check : State -> State) (trigger : TqUvTerminalTrigger) (s : State) :
    State :=
  let '(a, s) := ask s in
  let selected := Z.lor (TerminalTriggerMask (term s)) (trigger_bit trigger) in
  let s := on_term (set_TerminalTriggerMask 0) s in
  let trigger := SelectTerminalTrigger selected in
  let r := term s in
  if TerminalStarted r
  then
    if negb (TerminalAborted r) && IsAbort trigger
    then
      let s := on_term (set_TerminalAborted true) s in
      let s :=
        if TerminalHandoffStarted r && negb (TerminalHandoffComplete r)
        then if TerminalHandoffSubmitted r
             then on_term (set_TerminalAbortUpgradePending true) s
             else on_term (set_TerminalHandoffRetryPending true) s
        else s in
      check (abort_drops settle s)
    else s
  else
    let s := on_term (set_TerminalStarted true) s in
    let s := on_term (set_TerminalAborted (IsAbort trigger)) s in
    let s := on_term (fun r => set_TerminalBeginCount (u64 (TerminalBeginCount r + 1)) r) s in
    let s := on_term (set_Activation Terminal) s in
    let s := if TcpReadStarted (data s) then on_data (set_TcpReadStarted false) s else s in
    let s := if IsAbort trigger then abort_drops settle s else s in
    let s :=
      if negb (TerminalHandoffStarted (term s))
      then on_term (fun r => RecordHandoffResult (shutdown a) (set_TerminalHandoffStarted true r)) s
      else s in
    let s := on_term (set_StopSignalled true) s in
    let s := snd (CloseRelay (close_ok a) s) in
    check s.

(** [TqUvProcessTerminalFactsLocal]. *)
Definition Process_body (settle check : State -> State) (s : State) : State :=
  let mask := TerminalTriggerMask (term s) in
  let s := on_term (set_TerminalTriggerMask 0) s in
  if mask =? 0 then check s else Begin_body settle check (SelectTerminalTrigger mask) s.

(** The rest of [TqUvCheckTerminalConvergence] is for a relay whose terminal has started.  First
    the handoff: what the ledger shows, a pending upgrade to an abort, a pending retry. *)
Definition converge_handoff (a : TermAnswer) (r : Term) : Term :=
  let r := RefreshHandoffResultFromOwner (ledger_submitted a) r in
  let r :=
    if TerminalAbortUpgradePending r && negb (TerminalAbortUpgradeApplied r)
    then if ResultSubmitted (upgrade a) || ResultAlreadyTerminal (upgrade a)
         then set_TerminalAbortUpgradeApplied (ResultSubmitted (upgrade a)) r else r
    else r in
  if TerminalHandoffRetryPending r
  then RecordHandoffResult (shutdown a) (set_TerminalHandoffEscalated true r) else r.

(** Last the release: the facts are computed and published, and the relay goes when all hold. *)
Definition converge_release (s : State) : State :=
  let s := on_term (set_LocalOwnershipDrained (LocalOwnershipDrainedImpl (data s) (recv s))) s in
  let s := if QuicShutdownObserved (term s)
           then on_term (set_TerminalAbortUpgradePending false)
                  (on_term (set_TerminalHandoffComplete true) s)
           else s in
  let s := on_term PublishHandoffFacts s in
  if negb (TerminalReleased (term s)) && TcpCloseCompleted (term s) &&
     TerminalHandoffComplete (term s) && LocalOwnershipDrained (term s)
  then
    let s := on_term (set_TerminalReleased true) s in
    let s := on_term (fun r => set_TerminalReleaseCount (u64 (TerminalReleaseCount r + 1)) r) s in
    EraseRelay s
  else s.

Definition converge (settle : State -> State) (a : TermAnswer) (s : State) : State :=
  let s := on_term (converge_handoff a) s in
  let '(closed, s) :=
    if TcpHandleInitialized (term s) && negb (TcpClosePending (term s)) &&
       negb (TcpCloseCompleted (term s))
    then CloseRelay (close_ok a) s else (true, s) in
  if negb closed then s
  else
    let s := if TerminalAborted (term s) then settle s else s in
    converge_release s.

(** [TqUvCheckTerminalConvergence]; [process] is [TqUvProcessTerminalFactsLocal]. *)
Definition Check_body (settle process : State -> State) (s : State) : State :=
  let '(a, s) := ask s in
  let started := TerminalStarted (term s) in
  let f := flow (recv s) in
  let shut := negb started && QuicFinObserved f && negb (TcpWriteClosed f) &&
              negb (TcpShutdownPending f) && bool_decide (length (TcpWrites f) = 0)%nat &&
              (PendingTcpWriteBytes (ledger (recv s)) =? 0) in
  let s := if shut then on_recv (on_flow (set_TcpShutdownPending true)) s else s in
  if shut && negb (shutdown_ok a)
  then process (TqUvRequestTerminal TcpError (on_recv (on_flow (set_TcpShutdownPending false)) s))
  else if negb started && NormalFinReady s then process (TqUvRequestTerminal TcpEof s)
  else if negb started then s
  else converge settle a s.

(** [PopReceive]; [check] is [TqUvCheckTerminalConvergence]. *)
Definition Pop_body (check : State -> State) (p : nat) (s : State) : State :=
  let '(fin, r) := pop p (recv s) in
  let s := set_recv r s in
  if fin then check s else s.

(** The loop of [TqUvSettleQuicReceivesAtTerminal].  A receive with the end of the stream calls the
    check when it is popped; the terminal has started, so that the check converges, and if it
    settles again it does so on a shorter queue. *)
Definition check_with (settle : State -> State) : State -> State := Check_body settle id.

Fixpoint settle_loop (n : nat) (s : State) : State :=
  match n with
  | O => s
  | S n =>
      let '(front, r) := settle_front (QuicShutdownObserved (term s)) (recv s) in
      let s := set_recv r s in
      match front with
      | None => s
      | Some p => settle_loop n (Pop_body (check_with (settle_loop n)) p s)
      end
  end.

Definition TqUvSettleQuicReceivesAtTerminal (s : State) : State :=
  settle_loop (receives (recv s)) s.

(** The check and the processing of facts call each other.  A call nested three deep finds the
    terminal started and asks for nothing more, so three levels are the whole recursion
    ([terminal_recursion]). *)
Definition check_started : State -> State := check_with TqUvSettleQuicReceivesAtTerminal.
Definition process_triggered : State -> State :=
  Process_body TqUvSettleQuicReceivesAtTerminal check_started.
Definition TqUvCheckTerminalConvergence : State -> State :=
  Check_body TqUvSettleQuicReceivesAtTerminal process_triggered.
Definition TqUvProcessTerminalFactsLocal : State -> State :=
  Process_body TqUvSettleQuicReceivesAtTerminal TqUvCheckTerminalConvergence.
Definition TqUvBeginTerminalLocal : TqUvTerminalTrigger -> State -> State :=
  Begin_body TqUvSettleQuicReceivesAtTerminal TqUvCheckTerminalConvergence.
Definition PopReceive : nat -> State -> State := Pop_body TqUvCheckTerminalConvergence.

(** The two calls every failure makes. *)
Definition terminate (t : TqUvTerminalTrigger) (s : State) : State :=
  TqUvProcessTerminalFactsLocal (TqUvRequestTerminal t s).

(** [TqUvOnTcpShutdownComplete]. *)
Definition TqUvOnTcpShutdownComplete (ok : bool) (s : State) : State :=
  let s := on_recv (on_flow (set_TcpShutdownPending false)) s in
  if ok then TqUvCheckTerminalConvergence (on_recv (on_flow (set_TcpWriteClosed true)) s)
  else terminate TcpError s.

(** [TqUvOnTcpClosed]. *)
Definition TqUvOnTcpClosed (s : State) : State :=
  let s := on_term (fun r => set_TcpCloseCompleted true (set_TcpClosePending false r)) s in
  if negb (TerminalStarted (term s)) then EraseRelay s else TqUvCheckTerminalConvergence s.

(** ** Triggers *)

Lemma trigger_bit_pos t : 0 < trigger_bit t.
Proof. by destruct t. Qed.

Lemma mask_nonzero mask t : Z.lor mask (trigger_bit t) <> 0.
Proof. intros H. apply Z.lor_eq_0_iff in H as [_ H]. pose proof (trigger_bit_pos t). lia. Qed.

(** ** What the terminal does to the data *)

Definition stop_reading (d : Data) : Data :=
  if TcpReadStarted d then set_TcpReadStarted false d else d.

Definition dropped (d : Data) : Data :=
  set_PendingTcpReadBytes 0 (clear_read_buffers (DiscardUnsubmittedSends d)).

#[global] Arguments dropped : simpl never.
#[global] Arguments stop_reading : simpl never.

(** The protocol's own bookkeeping; [mid] is inside [TqUvBeginTerminalLocal], before the handoff. *)
Record Inv (mid : bool) (s : State) : Prop := {
  t_before : TerminalStarted (term s) = false ->
    TcpClosePending (term s) = false /\ TcpCloseCompleted (term s) = false /\
    TerminalBeginCount (term s) = 0 /\ TerminalHandoffStarted (term s) = false /\
    Activation (term s) = Active /\ TerminalAborted (term s) = false /\
    TerminalReleased (term s) = false /\ StopSignalled (term s) = false;
  t_after : TerminalStarted (term s) = true ->
    TcpReadStarted (data s) = false /\ TerminalBeginCount (term s) = 1 /\
    Activation (term s) = Terminal /\
    (mid = false -> TerminalHandoffStarted (term s) = true /\ StopSignalled (term s) = true);
  t_abort : TerminalAborted (term s) = true -> PendingQuicSendRetries (data s) = [];
  t_released : TerminalReleased (term s) = true ->
    TcpCloseCompleted (term s) = true /\ TerminalHandoffComplete (term s) = true /\
    QuicSends (data s) = [] /\ PendingQuicSendRetries (data s) = [] /\
    PendingQuicSendBytes (data s) = 0 /\ AccountedTcpToQuicBytes (data s) = 0;
  t_registered : Registered (term s) = negb (TerminalReleased (term s));
  t_count : TerminalReleaseCount (term s) = if TerminalReleased (term s) then 1 else 0;
  t_ready : TqTerminalReleaseReady (term s) = true -> TerminalReleased (term s) = true }.

Abbreviation TermInv := (Inv false).

(** Answers and the receiving direction play no part in it. *)
Lemma inv_ext mid s s' : Inv mid s -> data s' = data s -> term s' = term s -> Inv mid s'.
Proof. intros [] Hd Ht. constructor; rewrite ?Hd, ?Ht; done. Qed.

Lemma term_inv_ext s s' : TermInv s -> data s' = data s -> term s' = term s -> TermInv s'.
Proof. apply inv_ext. Qed.

Lemma drained_fields d r :
  LocalOwnershipDrainedImpl d r = true ->
  QuicSends d = [] /\ PendingQuicSendRetries d = [] /\ TcpReadBuffers d = [] /\
  PendingQuicSendBytes d = 0 /\ AccountedTcpToQuicBytes d = 0.
Proof.
  unfold LocalOwnershipDrainedImpl. intros H.
  repeat match goal with
         | H : _ && _ = true |- _ => apply andb_true_iff in H as [? ?]
         | H : bool_decide (length _ = _) = true |- _ =>
             apply bool_decide_eq_true, length_zero_iff_nil in H
         end.
  to_prop. done.
Qed.

(** [EraseRelay] of a drained relay. *)
Lemma erase_drained s :
  AccountedTcpToQuicBytes (data s) = 0 ->
  data (EraseRelay s) = data s /\ term (EraseRelay s) = set_Registered false (term s) \/
  EraseRelay s = s /\ Registered (term s) = false.
Proof.
  intros H. unfold EraseRelay. destruct (Registered (term s)) eqn:E; [left|by right].
  cbn. unfold CompletePendingBytes. rewrite H. by destruct s.
Qed.

(** Handoff flags may change, everything the invariant reads stays. *)
Definition same_core (r r' : Term) : Prop :=
  TerminalStarted r' = TerminalStarted r /\ TerminalAborted r' = TerminalAborted r /\
  TerminalHandoffStarted r' = TerminalHandoffStarted r /\
  TerminalReleased r' = TerminalReleased r /\ TerminalBeginCount r' = TerminalBeginCount r /\
  TerminalReleaseCount r' = TerminalReleaseCount r /\ Activation r' = Activation r /\
  StopSignalled r' = StopSignalled r /\ Registered r' = Registered r /\
  TcpHandleInitialized r' = TcpHandleInitialized r /\ TcpClosePending r' = TcpClosePending r /\
  TcpCloseCompleted r' = TcpCloseCompleted r /\ DataPlaneStopped r' = DataPlaneStopped r /\
  PublishedHandoffComplete r' = PublishedHandoffComplete r /\
  OwnershipTransferredOrDrained r' = OwnershipTransferredOrDrained r /\
  (TerminalHandoffComplete r = true -> TerminalHandoffComplete r' = true).

#[global] Instance same_core_preorder : PreOrder same_core.
Proof.
  split; [by intros r|]. unfold same_core. intros r1 r2 r3. intuition congruence.
Qed.

Lemma same_core_record result r : same_core r (RecordHandoffResult result r).
Proof. unfold RecordHandoffResult. destruct (ResultAlreadyTerminal result); by destruct r. Qed.

Lemma same_core_handoff a r : same_core r (converge_handoff a r).
Proof.
  unfold converge_handoff. set (r1 := RefreshHandoffResultFromOwner _ r).
  assert (same_core r r1) as H1.
  { unfold r1, RefreshHandoffResultFromOwner. destruct (ledger_submitted a) as [[]|]; by destruct r. }
  etrans; [exact H1|]. set (r2 := if _ && _ then _ else r1).
  assert (same_core r1 r2) as H2.
  { unfold r2. destruct (_ && _); [|done]. destruct (_ || _); [|done]. by destruct r1. }
  etrans; [exact H2|]. destruct (TerminalHandoffRetryPending r2); [|done].
  etrans; [|apply same_core_record]. by destruct r2.
Qed.

Lemma inv_core mid s r : Inv mid s -> same_core (term s) r -> Inv mid (set_term r s).
Proof.
  intros [] (H1 & H2 & H3 & H4 & H5 & H6 & H7 & H8 & H9 & H10 & H11 & H12 & H13 & H14 & H15 & H16).
  constructor; unfold TqTerminalReleaseReady in *; cbn; rewrite ?H1, ?H2, ?H3, ?H4, ?H5, ?H6, ?H7, ?H8,
    ?H9, ?H11, ?H12, ?H13, ?H14, ?H15; try done.
  intros H. destruct (t_released0 H) as (? & ? & ?). auto.
Qed.

Lemma inv_release mid s :
  TerminalStarted (term s) = true -> Inv mid s -> Inv mid (converge_release s).
Proof.
  intros Hs Hi. unfold converge_release.
  set (s1 := on_term (set_LocalOwnershipDrained _) s).
  assert (Inv mid s1) as Hi1 by (apply (inv_core mid s); [done|by destruct s as [? []]]).
  set (s2 := if QuicShutdownObserved (term s1) then _ else s1).
  assert (Inv mid s2 /\ TerminalStarted (term s2) = true /\ data s2 = data s /\
          LocalOwnershipDrained (term s2) = LocalOwnershipDrainedImpl (data s) (recv s))
    as (Hi2 & Hs2 & Hd2 & Hl2).
  { unfold s2. destruct (QuicShutdownObserved (term s1)); [|done]. split_and!; try done.
    apply (inv_core mid s1); [done|]. by destruct s1 as [? []]. }
  clearbody s2. clear Hi1 s1. cbn zeta. unfold on_term at 1 2 3 4.
  cbn [term set_term TerminalReleased TcpCloseCompleted TerminalHandoffComplete LocalOwnershipDrained].
  pose proof Hi2 as [_ Ha Hab Hr Hg Hc Hy].
  destruct (negb _ && _ && _ && _) eqn:E.
  - cbn in E. apply andb_true_iff in E as [E E1].
    change (LocalOwnershipDrained (term s2) = true) in E1. rewrite Hl2 in E1.
    apply andb_true_iff in E as [E E2]. apply andb_true_iff in E as [E E3]. apply negb_true_iff in E.
    pose proof (drained_fields _ _ E1) as (Q1 & Q2 & _ & Q3 & Q4).
    rewrite <- Hd2 in Q1, Q2, Q3, Q4.
    match goal with |- Inv mid (EraseRelay ?x) => set (s3 := x) end.
    destruct (erase_drained s3 Q4) as [[Hd Ht]|[_ Hreg]].
    2: { cbn in Hreg. rewrite Hg, E in Hreg. done. }
    constructor; rewrite ?Hd, ?Ht; unfold s3; cbn; rewrite ?Hs2; try done.
    + intros _. by apply Ha.
    + rewrite Hc, E. by rewrite u64_small.
  - constructor; cbn; try done; [by rewrite Hs2|].
    unfold TqTerminalReleaseReady. cbn. intros Hrdy. cbn in E.
    destruct (TerminalReleased (term s2)); [done|].
    apply andb_true_iff in Hrdy as [Hrdy H1]. apply andb_true_iff in Hrdy as [H2 H3].
    by rewrite H1, H2, H3 in E.
Qed.

Lemma release_data s : data (converge_release s) = data s.
Proof.
  unfold converge_release.
  set (s1 := on_term (set_LocalOwnershipDrained _) s).
  set (s2 := if QuicShutdownObserved (term s1) then _ else s1).
  assert (data s2 = data s /\
          LocalOwnershipDrained (term s2) = LocalOwnershipDrainedImpl (data s) (recv s)) as [Hd Hl].
  { unfold s2. by destruct (QuicShutdownObserved (term s1)). }
  clearbody s2. destruct (negb _ && _ && _ && _) eqn:E; [|done].
  cbn in E. apply andb_true_iff in E as [_ E]. rewrite Hl in E.
  pose proof (drained_fields _ _ E) as (_ & _ & _ & _ & Q4).
  edestruct erase_drained as [[-> _]|[-> _]]; [cbn; by rewrite Hd|done|done].
Qed.

Lemma release_core s :
  TerminalStarted (term (converge_release s)) = TerminalStarted (term s) /\
  TerminalAborted (term (converge_release s)) = TerminalAborted (term s) /\
  TerminalHandoffStarted (term (converge_release s)) = TerminalHandoffStarted (term s).
Proof.
  unfold converge_release, EraseRelay.
  repeat match goal with |- context [if ?b then _ else _] => destruct b end; done.
Qed.

(** What a routine does once the terminal has started: the data and the course of the protocol
    stay. *)
Record Calm (mid : bool) (s s' : State) : Prop := {
  c_inv : Inv mid s';
  c_data : data s' = data s;
  c_started : TerminalStarted (term s') = true;
  c_aborted : TerminalAborted (term s') = TerminalAborted (term s);
  c_handoff : TerminalHandoffStarted (term s') = TerminalHandoffStarted (term s) }.

Definition calms (mid : bool) (f : State -> State) : Prop :=
  forall s, TerminalStarted (term s) = true -> Inv mid s -> Calm mid s (f s).

Lemma calm_ext mid s s' :
  TerminalStarted (term s) = true -> Inv mid s -> data s' = data s -> term s' = term s ->
  Calm mid s s'.
Proof. intros Hs Hi Hd Ht. constructor; rewrite ?Ht; try done. by eapply inv_ext. Qed.

Lemma calm_trans mid s1 s2 s3 : Calm mid s1 s2 -> Calm mid s2 s3 -> Calm mid s1 s3.
Proof. intros [] []. constructor; congruence. Qed.

(** Start from a state with the same data and protocol fields. *)
Lemma calms_at mid f s s' :
  calms mid f -> TerminalStarted (term s) = true -> Inv mid s -> data s' = data s ->
  term s' = term s -> Calm mid s (f s').
Proof.
  intros Hf Hs Hi Hd Ht. eapply calm_trans; [by apply (calm_ext mid s s')|].
  apply Hf; [by rewrite Ht|by eapply inv_ext].
Qed.

Lemma release_calm mid : calms mid converge_release.
Proof.
  intros s Hs Hi. destruct (release_core s) as (H1 & H2 & H3).
  constructor; rewrite ?H1, ?H2, ?H3, ?release_data; try done. by apply inv_release.
Qed.

Lemma handoff_calm mid a : calms mid (on_term (converge_handoff a)).
Proof.
  intros s Hs Hi. pose proof (same_core_handoff a (term s)) as Hc.
  constructor; [by apply inv_core|done|..]; destruct Hc as (H1 & H2 & H3 & _); cbn; congruence.
Qed.

Lemma close_calm mid ok : calms mid (fun s => snd (CloseRelay ok s)).
Proof.
  intros s Hs Hi. unfold CloseRelay. destruct (_ || _ || _); [by apply calm_ext|].
  destruct (t_after _ _ Hi Hs) as (Hr & _). rewrite Hr. cbn [snd].
  constructor; try done. destruct Hi. constructor; cbn; try done. by rewrite Hs.
Qed.

Lemma converge_calm mid settle a : calms mid settle -> calms mid (converge settle a).
Proof.
  intros Hset s Hs Hi. unfold converge. pose proof (handoff_calm mid a s Hs Hi) as H1.
  set (s1 := on_term (converge_handoff a) s) in *.
  assert (Calm mid s1 (snd (if TcpHandleInitialized (term s1) && negb (TcpClosePending (term s1)) &&
             negb (TcpCloseCompleted (term s1)) then CloseRelay (close_ok a) s1 else (true, s1)))) as H2.
  { destruct (_ && _ && _); [|by apply calm_ext; destruct H1].
    apply (close_calm mid (close_ok a)); by destruct H1. }
  destruct (if _ && _ && _ then _ else _) as [closed s2]. cbn [snd] in H2.
  assert (Calm mid s s2) as H3 by (by eapply calm_trans). clear H1 H2.
  destruct (negb closed); [done|].
  set (s3 := if TerminalAborted (term s2) then settle s2 else s2).
  assert (Calm mid s2 s3) as H4.
  { unfold s3. destruct (TerminalAborted (term s2)); [apply Hset|apply calm_ext]; by destruct H3. }
  eapply calm_trans; [exact H3|]. eapply calm_trans; [exact H4|].
  apply release_calm; by destruct H4.
Qed.

Lemma check_calm mid settle p : calms mid settle -> calms mid (Check_body settle p).
Proof.
  intros Hset s Hs Hi. unfold Check_body, ask. cbn [term set_answers fst snd recv]. rewrite Hs.
  cbn [negb andb].
  apply (calms_at mid _ s (set_answers (tail (answers s)) s) (converge_calm mid settle _ Hset));
    done.
Qed.

Lemma pop_calm mid check p : calms mid check -> calms mid (Pop_body check p).
Proof.
  intros Hc s Hs Hi. unfold Pop_body. destruct (pop p (recv s)) as [fin r].
  destruct fin; [by apply (calms_at mid check s)|by apply calm_ext].
Qed.

Lemma settle_loop_calm mid n : calms mid (settle_loop n).
Proof.
  induction n as [|n IH]; intros s Hs Hi; cbn [settle_loop]; [by apply calm_ext|].
  destruct (settle_front _ _) as [front r]. destruct front as [p|]; [|by apply calm_ext].
  assert (Calm mid s (Pop_body (check_with (settle_loop n)) p (set_recv r s))) as H.
  { apply (calms_at mid (Pop_body (check_with (settle_loop n)) p) s); try done.
    apply pop_calm, check_calm, IH. }
  eapply calm_trans; [exact H|]. apply IH; by destruct H.
Qed.

Lemma settle_calm mid : calms mid TqUvSettleQuicReceivesAtTerminal.
Proof. intros s. apply settle_loop_calm. Qed.

(** What one call changes: nothing but the protocol's own fields, or the terminal has started and
    the data is what stopping, and an abort, leave. *)
Record Effect (s s' : State) : Prop := {
  e_inv : TermInv s';
  e_data : data s' = data s /\ TerminalStarted (term s') = TerminalStarted (term s) \/
           TerminalStarted (term s') = true /\
           (data s' = stop_reading (data s) \/
            data s' = dropped (stop_reading (data s)) /\ TerminalAborted (term s') = true);
  e_aborted : TerminalAborted (term s') = true ->
              TerminalAborted (term s) = true \/ data s' = dropped (stop_reading (data s));
  e_mono : TerminalAborted (term s) = true -> TerminalAborted (term s') = true }.

Lemma calm_effect s s' :
  TerminalStarted (term s) = true -> Calm false s s' -> Effect s s'.
Proof. intros Hs []. constructor; try congruence; [left; split; congruence|]. rewrite c_aborted0. auto. Qed.

(** ** What an abort leaves *)

Lemma fold_budget_only {A} (f : A -> Z) l d :
  budget_only d (fold_left (fun d x => free_buffer (f x) d) l d).
Proof.
  revert d. induction l as [|x l IH]; intros d; [apply budget_only_refl|]. cbn.
  eapply budget_only_trans; [apply free_budget_only|apply IH].
Qed.

Lemma drops_budget_only l d : budget_only d (fold_left (fun d o => drop_operation o d) l d).
Proof.
  revert d. induction l as [|x l IH]; intros d; [apply budget_only_refl|]. cbn.
  eapply budget_only_trans; [apply (fold_budget_only Reserved (Views x))|apply IH].
Qed.

Lemma dropped_fields d :
  QuicSends (dropped d) = QuicSends d /\ PendingQuicSendRetries (dropped d) = [] /\
  TcpReadBuffers (dropped d) = [] /\ TcpReadStarted (dropped d) = TcpReadStarted d /\
  (PendingQuicSendBytes d = 0 -> PendingQuicSendRetries d = [] ->
   PendingQuicSendBytes (dropped d) = 0 /\
  AccountedTcpToQuicBytes (dropped d) = AccountedTcpToQuicBytes d).
Proof.
  unfold dropped, clear_read_buffers. set (d1 := DiscardUnsubmittedSends d).
  destruct (fold_budget_only snd (TcpReadBuffers d1) d1) as (c & p & ->). cbn. unfold d1.
  unfold DiscardUnsubmittedSends.
  destruct (drops_budget_only (PendingQuicSendRetries d) d) as (c1 & p1 & ->).
  unfold CompletePendingBytes. cbn. split_and!; try (repeat case_match; done).
  intros H0 Hr. rewrite Hr. unfold retry_bytes. cbn [fold_left]. rewrite H0. done.
Qed.

(** The state [TqUvBeginTerminalLocal] hands to the check when it starts the terminal. *)
Definition begun (settle : State -> State) (a : TermAnswer) (trigger : TqUvTerminalTrigger)
    (s : State) : State :=
  let s := on_term (set_TerminalStarted true) s in
  let s := on_term (set_TerminalAborted (IsAbort trigger)) s in
  let s := on_term (fun r => set_TerminalBeginCount (u64 (TerminalBeginCount r + 1)) r) s in
  let s := on_term (set_Activation Terminal) s in
  let s := if TcpReadStarted (data s) then on_data (set_TcpReadStarted false) s else s in
  let s := if IsAbort trigger then abort_drops settle s else s in
  let s :=
    if negb (TerminalHandoffStarted (term s))
    then on_term (fun r => RecordHandoffResult (shutdown a) (set_TerminalHandoffStarted true r)) s
    else s in
  let s := on_term (set_StopSignalled true) s in
  snd (CloseRelay (close_ok a) s).

(** The data an abort leaves, or any other start. *)
Definition left_by (trigger : TqUvTerminalTrigger) (d : Data) : Data :=
  if IsAbort trigger then dropped (stop_reading d) else stop_reading d.

Lemma stop_reading_stops d : TcpReadStarted (stop_reading d) = false.
Proof. unfold stop_reading. by destruct (TcpReadStarted d) eqn:E. Qed.

Lemma begun_opened settle trigger s :
  calms true settle -> TermInv s -> TerminalStarted (term s) = false ->
  let s1 := on_term (set_Activation Terminal)
              (on_term (fun r => set_TerminalBeginCount (u64 (TerminalBeginCount r + 1)) r)
                 (on_term (set_TerminalAborted (IsAbort trigger))
                    (on_term (set_TerminalStarted true) s))) in
  let s2 := if TcpReadStarted (data s1) then on_data (set_TcpReadStarted false) s1 else s1 in
  let s3 := if IsAbort trigger then abort_drops settle s2 else s2 in
  Inv true s3 /\ TerminalStarted (term s3) = true /\ TerminalAborted (term s3) = IsAbort trigger /\
  TerminalHandoffStarted (term s3) = false /\ data s3 = left_by trigger (data s).
Proof.
  intros Hset [Hb _ Hab Hr Hg Hc Hy] Hs. destruct (Hb Hs) as (B1 & B2 & B3 & B4 & B5 & B6 & B7 & B8).
  intros s1 s2 s3.
  assert (data s2 = stop_reading (data s) /\ term s2 = term s1) as [Hd2 Ht2].
  { unfold s2, stop_reading. change (data s1) with (data s). by destruct (TcpReadStarted (data s)). }
  assert (forall d, TcpReadStarted d = false ->
            (IsAbort trigger = true -> PendingQuicSendRetries d = []) -> Inv true (set_data d s2)) as H.
  { intros d Hd1 Hd3. constructor; cbn; rewrite ?Ht2; unfold s1; cbn; try done.
    - intros _. by rewrite B3.
    - by rewrite B7. }
  assert (set_data (data s2) s2 = s2) as Heta by (by destruct s2).
  unfold s3, left_by. destruct (IsAbort trigger) eqn:Et.
  - pose proof (dropped_fields (stop_reading (data s))) as (_ & F2 & _ & F4 & _).
    set (s4 := set_data (dropped (stop_reading (data s))) s2).
    assert (abort_drops settle s2 = settle s4) as ->.
    { unfold abort_drops, s4, dropped, on_data, set_data. cbn. by rewrite Hd2. }
    assert (Calm true s4 (settle s4)) as [].
    { apply Hset; [unfold s4; cbn; by rewrite Ht2|]. apply H; [|done].
      rewrite F4. apply stop_reading_stops. }
    split_and!; try done; [rewrite c_aborted0|rewrite c_handoff0]; unfold s4; cbn; by rewrite Ht2.
  - rewrite Ht2. split_and!; try done.
    rewrite <- Heta. apply H; [rewrite Hd2; apply stop_reading_stops|done].
Qed.

Lemma begun_facts settle a trigger s :
  calms true settle -> TermInv s -> TerminalStarted (term s) = false ->
  TermInv (begun settle a trigger s) /\ TerminalStarted (term (begun settle a trigger s)) = true /\
  TerminalAborted (term (begun settle a trigger s)) = IsAbort trigger /\
  data (begun settle a trigger s) = left_by trigger (data s).
Proof.
  intros Hset Hi Hs. unfold begun.
  destruct (begun_opened settle trigger s Hset Hi Hs) as (Hi3 & Hs3 & Ha3 & Hh3 & Hd3).
  cbv zeta in *. set (s3 := if IsAbort trigger then _ else _) in *. clearbody s3.
  rewrite Hh3. cbn [negb].
  set (s4 := on_term (set_StopSignalled true) _).
  assert (data s4 = data s3 /\ TerminalStarted (term s4) = true /\
          TerminalAborted (term s4) = IsAbort trigger /\ TermInv s4) as (Hd4 & Hs4 & Ha4 & Hi4).
  { pose proof (same_core_record (shutdown a) (set_TerminalHandoffStarted true (term s3)))
      as (H1 & H2 & H3 & H4 & H5 & H6 & H7 & H8 & H9 & H10 & H11 & H12 & H13 & H14 & H15 & H16).
    cbn in H1, H2, H3, H4, H5, H6, H7, H8, H9, H10, H11, H12, H13, H14, H15, H16.
    unfold s4. cbn. rewrite H1, H2. split_and!; try done.
    destruct Hi3 as [_ Ha Hab Hr Hg Hc Hy]. destruct (Ha Hs3) as (A1 & A2 & A3 & _).
    constructor; unfold TqTerminalReleaseReady in *; cbn;
      rewrite ?H1, ?H2, ?H3, ?H4, ?H5, ?H6, ?H7, ?H9, ?H12, ?H13, ?H14, ?H15; try done;
      [by rewrite Hs3|].
    intros H. destruct (Hr H) as (? & ? & ?). auto. }
  clearbody s4. destruct (close_calm false (close_ok a) s4 Hs4 Hi4).
  rewrite c_aborted0, c_data0, Hd4, Ha4. by split_and!.
Qed.

(** The state in which a started terminal becomes an abort. *)
Lemma upgraded_inv s s' :
  TermInv s -> TerminalStarted (term s) = true ->
  same_core (set_TerminalAborted true (term s)) (term s') -> data s' = data s ->
  TermInv (set_data (dropped (data s')) s').
Proof.
  intros Hi Hs H1 H2.
  eapply inv_ext; [apply (inv_core false
    (set_data (dropped (data s)) (on_term (set_TerminalAborted true) s)) (term s'));
    [|exact H1]| |]; [|cbn; by rewrite H2|done].
  pose proof (dropped_fields (data s)) as (F1 & F2 & _ & F4 & F5).
  destruct Hi. constructor; cbn; rewrite ?F1, ?F2, ?F4; try done; [by rewrite Hs|].
  intros H. destruct (t_released0 H) as (? & ? & ? & ? & ? & ?). by destruct F5 as [-> ->].
Qed.

Lemma begin_effect settle check t s :
  (forall mid, calms mid settle) -> calms false check -> TermInv s ->
  Effect s (Begin_body settle check t s) /\
  TerminalStarted (term (Begin_body settle check t s)) = true.
Proof.
  intros Hset Hc Hi. unfold Begin_body, ask. cbn zeta beta iota.
  set (a := default default_answer _). set (trigger := SelectTerminalTrigger _).
  set (s1 := on_term (set_TerminalTriggerMask 0) _).
  assert (TermInv s1) as Hi1.
  { apply (inv_core false (set_answers (tail (answers s)) s)); [by eapply term_inv_ext|].
    by destruct s as [? []]. }
  assert (data s1 = data s /\ TerminalStarted (term s1) = TerminalStarted (term s) /\
          TerminalAborted (term s1) = TerminalAborted (term s)) as (Hd & Hst & Hab) by done.
  clearbody s1 a trigger.
  destruct (TerminalStarted (term s1)) eqn:Es.
  - assert (TcpReadStarted (data s1) = false) as Hr by (by apply (t_after _ _ Hi1)).
    assert (stop_reading (data s) = data s) as Hstop
      by (unfold stop_reading; by rewrite <- Hd, Hr).
    destruct (negb (TerminalAborted (term s1)) && IsAbort trigger) eqn:Eu.
    + set (s2 := if _ && _ then _ else _).
      assert (same_core (set_TerminalAborted true (term s1)) (term s2) /\ data s2 = data s1)
        as (H1 & H2).
      { split; unfold s2;
          repeat match goal with |- context [if ?b then _ else _] => destruct b end; try done;
          by destruct s1 as [? []]. }
      clearbody s2. set (s3 := set_data (dropped (data s2)) s2).
      assert (Inv false s3) as Hi3 by (by apply (upgraded_inv s1)).
      destruct H1 as (H1 & H3 & _). cbn in H1, H3.
      change (abort_drops settle s2) with (settle s3).
      assert (TerminalStarted (term s3) = true) as Hs3 by (unfold s3; cbn; by rewrite H1).
      pose proof (Hset false s3 Hs3 Hi3) as Hc3.
      destruct (calm_trans _ _ _ _ Hc3 (Hc _ (c_started _ _ _ Hc3) (c_inv _ _ _ Hc3)))
        as [K1 K2 K3 K4 _].
      change (data s3) with (dropped (data s2)) in K2. rewrite H2, Hd in K2.
      change (TerminalAborted (term s3)) with (TerminalAborted (term s2)) in K4. rewrite H3 in K4.
      split; [|done].
      constructor; rewrite ?Hstop, ?K2, ?K3; try done; [|intros _; by right].
      right. split; [done|]. right. by split.
    + split; [|done]. constructor.
      * done.
      * left. rewrite Es. by split.
      * rewrite Hab. intros Hx. by left.
      * by rewrite Hab.
  - destruct (begun_facts settle a trigger s1 (Hset true) Hi1 Es) as (Hi2 & Hs2 & Ha2 & Hd2).
    destruct (Hc _ Hs2 Hi2) as [K1 K2 K3 K4 _]. rewrite Ha2 in K4. rewrite Hd2, Hd in K2.
    match goal with |- Effect s ?x /\ _ => change x with (check (begun settle a trigger s1)) end.
    set (s9 := check _) in *. clearbody s9. split; [|exact K3]. unfold left_by in K2. constructor.
    + exact K1.
    + right. split; [exact K3|]. destruct (IsAbort trigger); [by right|by left].
    + intros Hx. right. rewrite <- K4, Hx in K2. exact K2.
    + rewrite <- Hab. destruct (t_before _ _ Hi1 Es) as (_ & _ & _ & _ & _ & -> & _). done.
Qed.

(** ** The routines *)

Lemma effect_refl s s' :
  TermInv s -> data s' = data s -> term s' = term s -> Effect s s'.
Proof.
  intros Hi Hd Ht. constructor; rewrite ?Ht; auto. by eapply term_inv_ext.
Qed.

(** Requests, the receiving direction and the answers do not matter for [Effect]. *)
Lemma effect_from s0 s s' :
  data s0 = data s -> TerminalStarted (term s0) = TerminalStarted (term s) ->
  TerminalAborted (term s0) = TerminalAborted (term s) -> Effect s0 s' -> Effect s s'.
Proof. intros Hd Hs Ha []. constructor; rewrite <- ?Hd, <- ?Hs, <- ?Ha; done. Qed.

Lemma mask_inv v s : TermInv s -> TermInv (on_term (set_TerminalTriggerMask v) s).
Proof. intros H. apply (inv_core false s); [done|]. by destruct s as [? []]. Qed.

Lemma request_inv t s : TermInv s -> TermInv (TqUvRequestTerminal t s).
Proof. intros H. apply (inv_core false s); [done|]. by destruct s as [? []]. Qed.

Lemma process_effect settle check s :
  (forall mid, calms mid settle) -> (forall s, TermInv s -> Effect s (check s)) ->
  calms false check -> TermInv s ->
  Effect s (Process_body settle check s) /\
  (TerminalTriggerMask (term s) <> 0 -> TerminalStarted (term (Process_body settle check s)) = true).
Proof.
  intros Hset Hcheck Hst Hi. unfold Process_body.
  set (s1 := on_term (set_TerminalTriggerMask 0) s).
  assert (TermInv s1) as Hi1 by (by apply mask_inv).
  destruct (TerminalTriggerMask (term s) =? 0) eqn:E; to_prop.
  - split; [|done]. apply (effect_from s1); try done. by apply Hcheck.
  - destruct (begin_effect settle check (SelectTerminalTrigger (TerminalTriggerMask (term s))) s1
                Hset Hst Hi1) as [He Hs1]. split; [|done]. by apply (effect_from s1).
Qed.

Lemma check_effect settle process s :
  (forall mid, calms mid settle) ->
  (forall t s, TermInv s -> Effect s (process (TqUvRequestTerminal t s))) ->
  TermInv s -> Effect s (Check_body settle process s).
Proof.
  intros Hset Hp Hi. destruct (TerminalStarted (term s)) eqn:Es.
  - by apply calm_effect, check_calm.
  - unfold Check_body, ask. cbn zeta beta iota.
    set (s1 := set_answers _ s). set (shut := _ && (PendingTcpWriteBytes _ =? 0)).
    set (s2 := if shut then _ else s1).
    assert (data s2 = data s /\ term s2 = term s) as [Hd Ht] by (unfold s2; by destruct shut).
    assert (TermInv s2) as Hi2 by (by eapply term_inv_ext).
    change (TerminalStarted (term s1)) with (TerminalStarted (term s)). rewrite Es. cbn [negb andb].
    destruct (shut && _).
    { eapply effect_from; [..|apply Hp]; try done.
      - cbn. by rewrite Ht.
      - cbn. by rewrite Ht.
      - by eapply term_inv_ext. }
    destruct (NormalFinReady s2).
    { apply (effect_from s2); [done|by rewrite Ht|by rewrite Ht|]. by apply Hp. }
    by apply effect_refl.
Qed.

Lemma triggered_effect t s :
  TermInv s -> Effect s (process_triggered (TqUvRequestTerminal t s)) /\
               TerminalStarted (term (process_triggered (TqUvRequestTerminal t s))) = true.
Proof.
  intros Hi. unfold process_triggered, Process_body.
  set (s1 := on_term (set_TerminalTriggerMask 0) _).
  assert (TermInv s1) as Hi1 by (by apply mask_inv, request_inv).
  rewrite (proj2 (Z.eqb_neq _ _)) by apply mask_nonzero.
  set (trigger := SelectTerminalTrigger _).
  destruct (begin_effect TqUvSettleQuicReceivesAtTerminal check_started trigger s1) as [He Hs1];
    [apply settle_calm|apply check_calm, settle_calm|done|].
  split; [|exact Hs1]. by apply (effect_from s1).
Qed.

(** [TqUvCheckTerminalConvergence] keeps the protocol's invariant. *)
Lemma convergence_effect s : TermInv s -> Effect s (TqUvCheckTerminalConvergence s).
Proof.
  intros Hi. apply check_effect; [apply settle_calm| |done]. intros t s' H. by apply triggered_effect.
Qed.

Lemma facts_effect s :
  TermInv s ->
  Effect s (TqUvProcessTerminalFactsLocal s) /\
  (TerminalTriggerMask (term s) <> 0 ->
   TerminalStarted (term (TqUvProcessTerminalFactsLocal s)) = true).
Proof.
  intros Hi. apply process_effect; [apply settle_calm|apply convergence_effect| |done].
  apply check_calm, settle_calm.
Qed.

(** Every failure ends in a started terminal. *)
Lemma terminate_effect t s :
  TermInv s -> Effect s (terminate t s) /\ TerminalStarted (term (terminate t s)) = true.
Proof.
  intros Hi. destruct (facts_effect (TqUvRequestTerminal t s)) as [He Hs]; [by apply request_inv|].
  split; [by apply (effect_from (TqUvRequestTerminal t s))|]. apply Hs, mask_nonzero.
Qed.

Lemma pop_effect p s : TermInv s -> Effect s (PopReceive p s).
Proof.
  intros Hi. unfold PopReceive, Pop_body. destruct (pop p (recv s)) as [fin r]. destruct fin.
  - apply (effect_from (set_recv r s)); try done. apply convergence_effect. by eapply term_inv_ext.
  - by apply effect_refl.
Qed.

(** ** The recursion *)

Section Recursion.
  Context (settle : State -> State) (p q : State -> State).

Lemma check_started_ext s :
  TerminalStarted (term s) = true -> Check_body settle p s = Check_body settle q s.
Proof. intros H. unfold Check_body, ask. cbn. rewrite H. done. Qed.

Lemma begin_ext t s :
  (forall s, TerminalStarted (term s) = true -> TermInv s -> p s = q s) ->
  (forall mid, calms mid settle) -> TermInv s ->
  Begin_body settle p t s = Begin_body settle q t s.
Proof.
  intros Hpq Hset Hi. unfold Begin_body, ask. cbn zeta beta iota.
  set (a := default default_answer _). set (trigger := SelectTerminalTrigger _).
  set (s1 := on_term (set_TerminalTriggerMask 0) _).
  assert (TermInv s1) as Hi1 by (apply mask_inv; by eapply term_inv_ext).
  clearbody s1 a trigger. destruct (TerminalStarted (term s1)) eqn:E.
  - destruct (negb (TerminalAborted _) && _) eqn:Eu; [|done].
    set (s2 := if _ && _ then _ else _).
    assert (same_core (set_TerminalAborted true (term s1)) (term s2) /\ data s2 = data s1)
      as (H1 & H2).
    { split; unfold s2;
        repeat match goal with |- context [if ?b then _ else _] => destruct b end; try done;
        by destruct s1 as [? []]. }
    destruct (Hset false (set_data (dropped (data s2)) s2)) as [];
      [destruct H1 as (H1 & _); cbn in *; by rewrite H1|by apply (upgraded_inv s1)|by apply Hpq].
  - pose proof (begun_facts settle a trigger s1 (Hset true) Hi1 E) as (H1 & H2 & _).
    exact (Hpq _ H2 H1).
Qed.

End Recursion.

(** Nothing the protocol does lengthens the queue of receives. *)
Definition shrinks (f : State -> State) : Prop :=
  forall s, (receives (recv (f s)) <= receives (recv s))%nat.

Lemma release_shrinks : shrinks converge_release.
Proof.
  intros s. unfold converge_release, EraseRelay, on_recv, CompleteQuicToTcp.
  repeat match goal with |- context [if ?b then _ else _] => destruct b end; done.
Qed.

Lemma close_recv ok s : recv (snd (CloseRelay ok s)) = recv s.
Proof.
  unfold CloseRelay. repeat match goal with |- context [if ?b then _ else _] => destruct b end; done.
Qed.

Lemma converge_shrinks settle a : shrinks settle -> shrinks (converge settle a).
Proof.
  intros Hs s. unfold converge. set (s1 := on_term _ s).
  assert (recv (snd (if TcpHandleInitialized (term s1) && negb (TcpClosePending (term s1)) &&
             negb (TcpCloseCompleted (term s1)) then CloseRelay (close_ok a) s1 else (true, s1)))
          = recv s) as H by (destruct (_ && _ && _); [by rewrite close_recv|done]).
  destruct (if _ && _ && _ then _ else _) as [closed s2]. cbn [snd] in H. rewrite <- H.
  destruct (negb closed); [done|]. etrans; [apply release_shrinks|].
  destruct (TerminalAborted (term s2)); [apply Hs|done].
Qed.

Lemma check_with_shrinks settle : shrinks settle -> shrinks (check_with settle).
Proof.
  intros Hs s. unfold check_with, Check_body, ask. cbn zeta beta iota.
  set (s1 := set_answers _ s). set (shut := _ && (PendingTcpWriteBytes _ =? 0)).
  set (s2 := if shut then _ else s1).
  assert (receives (recv s2) = receives (recv s)) as H by (unfold s2; by destruct shut).
  destruct (shut && _); [cbn; rewrite <- H; done|].
  destruct (negb _ && NormalFinReady s2); [cbn; by rewrite <- H|].
  destruct (negb _); [by rewrite H|]. rewrite <- H. by apply converge_shrinks.
Qed.

Lemma pop_shrinks check p s :
  shrinks check -> FrontReceive (recv s) = Some p ->
  (receives (recv (Pop_body check p s)) < receives (recv s))%nat.
Proof.
  intros Hc Hf. unfold Pop_body. pose proof (pop_shorter p (recv s) Hf) as H.
  destruct (pop p (recv s)) as [fin r]. cbn [snd] in H. destruct fin; [|done].
  eapply Nat.le_lt_trans; [apply Hc|done].
Qed.

(** The state of the loop after its first turn. *)
Lemma settle_turn n s :
  settle_loop (S n) s = set_recv (snd (settle_front (QuicShutdownObserved (term s)) (recv s))) s /\
    fst (settle_front (QuicShutdownObserved (term s)) (recv s)) = None \/
  exists p s', settle_loop (S n) s = settle_loop n (Pop_body (check_with (settle_loop n)) p s') /\
    fst (settle_front (QuicShutdownObserved (term s)) (recv s)) = Some p /\
    s' = set_recv (snd (settle_front (QuicShutdownObserved (term s)) (recv s))) s /\
    FrontReceive (recv s') = Some p /\ receives (recv s') = receives (recv s).
Proof.
  cbn [settle_loop].
  destruct (settle_front_links (QuicShutdownObserved (term s)) (recv s)) as [Hl Hf].
  destruct (settle_front _ _) as [[p|] r]; [right|by left]. exists p, (set_recv r s).
  split_and!; try done; cbn in *.
  - rewrite (same_links_front _ _ Hl). by apply Hf.
  - by apply same_links_receives.
Qed.

Lemma settle_loop_shrinks n : shrinks (settle_loop n).
Proof.
  induction n as [|n IH]; intros s; [done|].
  destruct (settle_turn n s) as [[-> _]|(p & s' & -> & _ & _ & Hf & Hr)].
  - cbn. destruct (settle_front_links (QuicShutdownObserved (term s)) (recv s)) as [Hl _].
    by rewrite (same_links_receives _ _ Hl).
  - etrans; [apply IH|]. rewrite <- Hr. apply Nat.lt_le_incl, pop_shrinks; [|done].
    by apply check_with_shrinks.
Qed.

Lemma converge_local settle settle' a s :
  (forall s', (receives (recv s') <= receives (recv s))%nat -> settle s' = settle' s') ->
  converge settle a s = converge settle' a s.
Proof.
  intros H. unfold converge. set (s1 := on_term _ s).
  assert (recv (snd (if TcpHandleInitialized (term s1) && negb (TcpClosePending (term s1)) &&
             negb (TcpCloseCompleted (term s1)) then CloseRelay (close_ok a) s1 else (true, s1)))
          = recv s) as Hr by (destruct (_ && _ && _); [by rewrite close_recv|done]).
  destruct (if _ && _ && _ then _ else _) as [closed s2]. cbn [snd] in Hr.
  destruct (negb closed); [done|]. destruct (TerminalAborted (term s2)); [|done].
  rewrite H; [done|]. by rewrite Hr.
Qed.

Lemma check_with_local settle settle' s :
  (forall s', (receives (recv s') <= receives (recv s))%nat -> settle s' = settle' s') ->
  check_with settle s = check_with settle' s.
Proof.
  intros H. unfold check_with, Check_body, ask. cbn zeta beta iota.
  set (s1 := set_answers _ s). set (shut := _ && (PendingTcpWriteBytes _ =? 0)).
  set (s2 := if shut then _ else s1).
  assert (receives (recv s2) = receives (recv s)) as Hr by (unfold s2; by destruct shut).
  destruct (shut && _); [done|]. destruct (negb _ && NormalFinReady s2); [done|].
  destruct (negb _); [done|]. apply converge_local. intros s' Hs'. apply H. by rewrite <- Hr.
Qed.

Lemma pop_local settle settle' p s n :
  (forall s', (receives (recv s') <= n)%nat -> settle s' = settle' s') ->
  FrontReceive (recv s) = Some p -> (receives (recv s) <= S n)%nat ->
  Pop_body (check_with settle) p s = Pop_body (check_with settle') p s.
Proof.
  intros H Hf Hn. unfold Pop_body. pose proof (pop_shorter p (recv s) Hf) as Hp.
  destruct (pop p (recv s)) as [fin r]. cbn [snd] in Hp. destruct fin; [|done].
  apply check_with_local. intros s' Hs'. apply H. cbn in Hs'. lia.
Qed.

(** Any fuel that covers the receives gives the same result. *)
Lemma settle_fuel n m s :
  (receives (recv s) <= n)%nat -> (receives (recv s) <= m)%nat -> settle_loop n s = settle_loop m s.
Proof.
  revert m s. induction n as [|n IH]; intros m s Hn Hm.
  - assert (receives (recv s) = 0)%nat as H0 by lia. destruct m as [|m]; [done|].
    cbn [settle_loop]. unfold settle_front. rewrite no_receives by done. by destruct s.
  - destruct m as [|m].
    { assert (receives (recv s) = 0)%nat as H0 by lia.
      cbn [settle_loop]. unfold settle_front. rewrite no_receives by done. by destruct s. }
    destruct (settle_turn n s) as [[-> H0]|(p & s' & -> & H1 & -> & Hf & Hr)];
      destruct (settle_turn m s) as [[-> H0']|(p' & s'' & -> & H1' & -> & _ & _)]; try congruence.
    assert (p' = p) as -> by congruence.
    rewrite (pop_local _ (settle_loop m) _ _ (receives (recv s) - 1));
      [|intros s' Hs'; apply IH; lia|done|lia].
    apply IH.
    all: pose proof (pop_shrinks (check_with (settle_loop m)) p _
                       (check_with_shrinks _ (settle_loop_shrinks m)) Hf); lia.
Qed.

(** The recursion of the source: the check calls the processing of facts, which calls the check,
    and settling pops receives, which calls the check again. *)
Lemma terminal_recursion s :
  TermInv s ->
  TqUvCheckTerminalConvergence s =
    Check_body TqUvSettleQuicReceivesAtTerminal TqUvProcessTerminalFactsLocal s /\
  TqUvProcessTerminalFactsLocal s =
    Process_body TqUvSettleQuicReceivesAtTerminal TqUvCheckTerminalConvergence s /\
  (TerminalStarted (term s) = true ->
   TqUvSettleQuicReceivesAtTerminal s =
     let '(front, r) := settle_front (QuicShutdownObserved (term s)) (recv s) in
     match front with
     | None => set_recv r s
     | Some p => TqUvSettleQuicReceivesAtTerminal (PopReceive p (set_recv r s))
     end).
Proof.
  intros Hi. split_and!; [|done|].
  - unfold TqUvCheckTerminalConvergence, Check_body. destruct (ask s) as [a s1] eqn:E.
    assert (TermInv s1) as Hi1 by (unfold ask in E; injection E as _ <-; by eapply term_inv_ext).
    cbn zeta. set (shut := _ && (PendingTcpWriteBytes _ =? 0)). set (s2 := if shut then _ else s1).
    assert (TermInv s2) as Hi2 by (unfold s2; destruct shut; [by eapply term_inv_ext|done]).
    assert (forall t s', TermInv s' -> process_triggered (TqUvRequestTerminal t s') =
              TqUvProcessTerminalFactsLocal (TqUvRequestTerminal t s')) as Hp.
    { intros t s' Hs'. unfold process_triggered, TqUvProcessTerminalFactsLocal, Process_body.
      rewrite (proj2 (Z.eqb_neq _ _)) by apply mask_nonzero. apply begin_ext.
      - intros. by apply check_started_ext.
      - apply settle_calm.
      - by apply mask_inv, request_inv. }
    destruct (shut && _); [apply Hp; by eapply term_inv_ext|].
    destruct (negb _ && NormalFinReady s2); [by apply Hp|]. done.
  - intros Hs. unfold TqUvSettleQuicReceivesAtTerminal at 1.
    rewrite (settle_fuel _ (S (receives (recv s)))) by lia.
    destruct (settle_turn (receives (recv s)) s) as [[-> H0]|(p & s' & -> & H0 & -> & Hf & Hr)].
    { destruct (settle_front _ _) as [front r]. cbn in H0. by subst front. }
    destruct (settle_front _ _) as [front r]. cbn in H0, Hf, Hr. subst front. cbn [snd].
    rewrite (pop_local _ TqUvSettleQuicReceivesAtTerminal _ _ (receives (recv s)));
      [|intros s' Hs'; by apply settle_fuel|done|cbn; lia].
    pose proof (pop_shrinks (check_with TqUvSettleQuicReceivesAtTerminal) p (set_recv r s)) as Hp.
    assert (Pop_body (check_with TqUvSettleQuicReceivesAtTerminal) p (set_recv r s) =
            PopReceive p (set_recv r s)) as Heq.
    { unfold PopReceive, Pop_body. destruct (pop p _) as [[] r']; [|done].
      by apply check_started_ext. }
    rewrite Heq in *. apply settle_fuel; [|done]. apply Nat.lt_le_incl. cbn in Hp. rewrite <- Hr.
    apply Hp; [|done]. apply check_with_shrinks. intros s'. apply settle_loop_shrinks.
Qed.
