(* ===== verification/UvWrite.v ===== *)
(** The handlers of the libuv relay's QUIC to TCP direction
    (src/src/tunnel/libuv_relay_quic_to_tcp.cpp): receives come from MsQuic, are queued on the
    loop, decompressed if the stream is compressed, written to the socket and given back.

    [TqUvProcessQuicToTcp] is a machine with two points, the top of its outer loop and the top of
    its decompression loop.  Whenever a completion must be retried the code posts itself on the
    loop's own thread, which runs it at once, and then returns: the machine goes back to the
    outer loop with a fresh budget.  The machine is run with fuel; [processing_terminates] of
    UvStream.v shows that the fuel chosen is never used up. *)

From stdpp Require Import base gmap list numbers decidable.
From Stdlib Require Import ZArith Lia.
From S2P Require Import Prelude RelayBuffer UvSend UvReceive UvTerminal.

(** ** Bounded iteration *)

(** At most [n] steps, stopping when one gives a result. *)
Fixpoint until {A B} (step : A -> A + B) (n : positive) (x : A) : A + B :=
  match n with
  | xH => step x
  | xO n => match until step n x with inl y => until step n y | inr z => inr z end
  | xI n =>
      match step x with
      | inl y => match until step n y with inl y => until step n y | inr z => inr z end
      | inr z => inr z
      end
  end.

(** ** Writing *)

Definition UINT32_MAX : Z := 4294967295.

(** The number of an event's buffers and the length of each are [uint32_t]. *)
Definition event_ok (slices : list (list Z)) : bool :=
  (Z.of_nat (length slices) <=? UINT32_MAX) &&
  forallb (fun slice => Z.of_nat (length slice) <=? UINT32_MAX) slices.

(** The bytes of a receive that are still to be written, one buffer per slice. *)
Definition unsent_slices (x : Rx.t) : list (list Z) :=
  match drop (Rx.SliceIndex x) (Rx.Slices x) with
  | [] => []
  | slice :: rest =>
      (if (length slice <=? Rx.SliceOffset x)%nat then [] else [drop (Rx.SliceOffset x) slice]) ++
      filter (fun slice => length slice <> 0)%nat rest
  end.

(** A write that was never submitted dies with its buffers; the pressure it carried stays. *)
Definition abandon (w : Tx.t) (r : Recv) : Recv :=
  on_log (fun l => set_lost (lost l + Tx.PressureBytes w) l) (free_outputs (Tx.OutputOwners w) r).

Section Handlers.
  Context (cfg : ReceiveConfig).

(** What happens to the receive of a write that failed, or completed. *)
Definition give_back (complete : nat -> Z -> Recv -> bool * Recv) (w : Tx.t) (r : Recv) : Recv :=
  if negb (Tx.ReceiveCompleteBytes w =? 0)
  then
    let '(ok, r) := complete (Tx.ReceiveOwner w) (Tx.ReceiveCompleteBytes w) r in
    if ok then release_completed (Tx.ReceiveCompleteBytes w) r
    else on_rx (Rx.set_CompletionPendingBytes (Tx.ReceiveCompleteBytes w)) (Tx.ReceiveOwner w) r
  else r.

(** The bytes a write takes straight from its receive. *)
Definition log_taken (w : Tx.t) (r : Recv) : Recv :=
  if negb (Tx.ReceiveCompleteBytes w =? 0)
  then on_log (fun l => set_taken (taken l ++ concat (Tx.Buffers w))
                          (set_output (output l ++ concat (Tx.Buffers w)) l)) r
  else r.

(** [submitWrite]; a failed [emplace] throws, and the processing catches it. *)
Definition submitWrite (w : Tx.t) (s : State) : State :=
  if (length (Tx.Buffers w) =? 0)%nat || (UINT32_MAX <? Z.of_nat (length (Tx.Buffers w)))
  then on_recv (abandon w) s
  else
    let w := Tx.set_Ownership Submitted w in
    let '(inserted, r) := ask_ok (recv s) in
    let s := set_recv r s in
    if negb inserted
    then TqUvRequestTerminal AllocationFailureTrigger (on_recv (abandon w) s)
    else
      let bytes := Tx.TotalBytes w in
      if UINT64_MAX - PendingTcpWriteBytes (ledger (recv s)) <? bytes
      then TqUvRequestTerminal PressureFailure (on_recv (abandon w) s)
      else
        let s := on_recv (on_ledger (fun l =>
                   set_PendingTcpWriteBytes (PendingTcpWriteBytes l + bytes) l)) s in
        let s := on_recv (log_taken w) s in
        let '(accepted, r) := ask_ok (recv s) in
        let s := set_recv r s in
        if accepted
        then
          let s := on_recv (on_flow (fun f => set_TcpWrites (TcpWrites f ++ [w]) f)) s in
          let s := on_recv (on_log (fun l => set_written (written l ++ concat (Tx.Buffers w)) l)) s in
          on_recv (on_rx (Rx.set_TcpWriteSubmitted true) (Tx.ReceiveOwner w)) s
        else
          let s := on_recv (on_ledger (fun l =>
                     set_PendingTcpWriteBytes (PendingTcpWriteBytes l - bytes) l)) s in
          let s := on_recv (ReleasePressure (Tx.PressureBytes w)) s in
          let s := on_recv (give_back CompleteReceive w) s in
          let s := TqUvRequestTerminal TcpError s in
          let s := on_recv (UpdateBackpressure cfg) s in
          on_recv (free_outputs (Tx.OutputOwners w)) s.

(** The operation the processing has made, for the receive at [p]. *)
Definition new_write (p : nat) (buffers owners : list (list Z)) (total complete pressure : Z)
    (s : State) : Tx.t * State :=
  let n := NextRequest (flow (recv s)) in
  ({| Tx.Request := n; Tx.ReceiveOwner := p; Tx.OutputOwners := owners; Tx.Buffers := buffers;
      Tx.TotalBytes := total; Tx.ReceiveCompleteBytes := complete; Tx.PressureBytes := pressure;
      Tx.Ownership := Created |},
   on_recv (on_flow (set_NextRequest (S n))) s).

(** The output kept with a receive becomes a write. *)
Definition write_deferred (p : nat) (s : State) : State :=
  let owners := Rx.DeferredOutputOwners (rx p (recv s)) in
  let bytes := Rx.DeferredOutputBytes (rx p (recv s)) in
  let s := on_recv (on_rx (fun x => Rx.set_DeferredOutputBytes 0
                                      (Rx.set_DeferredOutputOwners [] x)) p) s in
  let '(w, s) := new_write p owners owners bytes 0 bytes s in
  submitWrite w s.

(** The unsent bytes of a receive, as they are. *)
Definition write_plain (p : nat) (s : State) : State :=
  let buffers := unsent_slices (rx p (recv s)) in
  let total := sum (fun b => Z.of_nat (length b)) buffers in
  let '(w, s) := new_write p buffers [] total (RemainingBytes (rx p (recv s))) 0 s in
  submitWrite w s.

(** ** Processing *)

Record Budget := { decompressionCalls : Z; decompressionInputBytes : Z }.
Definition fresh_budget : Budget := {| decompressionCalls := 0; decompressionInputBytes := 0 |}.

Definition callBudget : Z := Z.max (QuicToTcpCallBudget cfg) 1.
Definition byteBudget : Z :=
  if QuicToTcpByteBudgetPerTick cfg =? 0 then Z.max (PrecommitMaxPendingBytes cfg) 1
  else QuicToTcpByteBudgetPerTick cfg.

Definition budgetExhausted (b : Budget) : bool :=
  (callBudget <=? decompressionCalls b) || (byteBudget <=? decompressionInputBytes b).

Inductive Point := Outer | Inflate (p : nat).

Definition Machine : Type := Point * Budget * State.

Definition count (f : Counters -> Counters) (s : State) : State := on_recv (on_counters f) s.

Definition recordDecompressionFailure (s : State) : State :=
  count (fun c => set_QuicReceiveDecompressFailures_ (u64 (QuicReceiveDecompressFailures_ c + 1))
                    (set_ZstdDecompressFailures_ (u64 (ZstdDecompressFailures_ c + 1)) c)) s.

Definition decompression_failed (s : State) : Machine + State :=
  inr (TqUvRequestTerminal DecompressionFailure (recordDecompressionFailure s)).

(** A receive is finished with when it is settled and, in a compressed stream, drained. *)
Definition finished (x : Rx.t) : bool :=
  Rx.Settled x && (negb (Decompressing cfg) || Rx.DecompressionDrained x).

Definition TqUvMaxImmediateCompletionRetries : Z := 4.

(** [ScheduleCompletionRetry]. *)
Definition ScheduleCompletionRetry (p : nat) (s : State) : Machine + State :=
  let s := on_recv (on_rx (fun x => Rx.set_CompletionRetryCount
                                      (u32 (Rx.CompletionRetryCount x + 1)) x) p) s in
  if TqUvMaxImmediateCompletionRetries <=? Rx.CompletionRetryCount (rx p (recv s))
  then inr (TqUvRequestTerminal ReceiveCompletionFailure s)
  else
    let '(posted, r) := ask_ok (recv s) in
    let s := set_recv r s in
    if negb posted then inr (TqUvRequestTerminal QueueFailure s)
    else if QuicToTcpContinuationPending (flow (recv s)) then inr s
    else inl (Outer, fresh_budget, s).

(** [ScheduleProcessingContinuation]. *)
Definition ScheduleProcessingContinuation (s : State) : State :=
  if QuicToTcpContinuationPending (flow (recv s)) then s
  else
    let '(posted, r) := ask_ok (recv s) in
    let s := set_recv r s in
    if posted then on_recv (on_flow (set_QuicToTcpContinuationPending true)) s
    else TqUvProcessTerminalFactsLocal (TqUvRequestTerminal QueueFailure s).

(** Receives of a relay that has ended are given back unread. *)
Definition discard_front (p : nat) (b : Budget) (s : State) : Machine + State :=
  if Rx.TcpWriteSubmitted (rx p (recv s)) then inr s
  else
    let bytes := if negb (Rx.CompletionPendingBytes (rx p (recv s)) =? 0)
                 then Rx.CompletionPendingBytes (rx p (recv s))
                 else RemainingBytes (rx p (recv s)) in
    let s := on_recv (on_rx (Rx.set_CompletionPendingBytes bytes) p) s in
    let '(ok, r) := CompleteReceiveForRelay (QuicShutdownObserved (term s)) p bytes (recv s) in
    let s := set_recv r s in
    if ok
    then
      let s := on_recv (on_rx (Rx.set_CompletionPendingBytes 0) p) s in
      let s := on_recv (release_completed bytes) s in
      let s := on_recv (drop_deferred p) s in
      let s := if Rx.Settled (rx p (recv s)) then PopReceive p s else s in
      inl (Outer, b, on_recv (UpdateBackpressure cfg) s)
    else ScheduleCompletionRetry p s.

Definition enter_inflate (p : nat) (b : Budget) (s : State) : Machine + State :=
  if negb (HasDecompressor cfg) then decompression_failed s else inl (Inflate p, b, s).

(** What is left of an earlier completion, then what was waiting for it. *)
Definition after_completion (p : nat) (b : Budget) (s : State) : Machine + State :=
  let s := if finished (rx p (recv s)) then PopReceive p s else s in
  let s := on_recv (UpdateBackpressure cfg) s in
  if (Rx.DeferredOutputBytes (rx p (recv s)) =? 0) &&
     (negb (Decompressing cfg) || Rx.DecompressionDrained (rx p (recv s)))
  then inr s
  else if negb (Rx.DeferredOutputBytes (rx p (recv s)) =? 0) then inr (write_deferred p s)
  else enter_inflate p b s.

(** The rest of the outer loop's body, for a stream that is or is not compressed. *)
Definition start_writing (p : nat) (b : Budget) (s : State) : Machine + State :=
  if negb (Decompressing cfg) then inr (write_plain p s) else enter_inflate p b s.

Definition resume_front (p : nat) (b : Budget) (s : State) : Machine + State :=
  let '(made, r) := ask_ok (recv s) in
  let s := set_recv r s in
  if negb made then inr (TqUvRequestTerminal AllocationFailureTrigger s)
  else
    let bytes := Rx.CompletionPendingBytes (rx p (recv s)) in
    if negb (bytes =? 0)
    then
      let '(ok, r) := CompleteReceive p bytes (recv s) in
      let s := set_recv r s in
      if negb ok then ScheduleCompletionRetry p s
      else
        let s := on_recv (on_rx (fun x => Rx.set_CompletionPendingBytes 0
                                            (Rx.set_CompletionRetryCount 0 x)) p) s in
        let s := on_recv (release_completed bytes) s in
        after_completion p b s
    else start_writing p b s.

Definition outer_step (b : Budget) (s : State) : Machine + State :=
  match FrontReceive (recv s) with
  | None => inr s
  | Some p =>
      let s := on_recv (UpdateBackpressure cfg) s in
      if finished (rx p (recv s)) then inl (Outer, b, PopReceive p s)
      else if TerminalStarted (term s) || QuicShutdownObserved (term s) ||
              negb (bool_decide (Activation (term s) = Active))
      then discard_front p b s
      else if Rx.TcpWriteSubmitted (rx p (recv s)) then inr s
      else resume_front p b s
  end.

(** *** Decompression *)

(** The input of the next call, and whether there is any. *)
Definition has_input (x : Rx.t) : bool := (Rx.SliceIndex x <? length (Rx.Slices x))%nat.

Definition next_input (b : Budget) (x : Rx.t) : list Z :=
  match Rx.Slices x !! Rx.SliceIndex x with
  | None => []
  | Some slice =>
      take (Nat.min (length slice - Rx.SliceOffset x)
              (Z.to_nat (byteBudget - decompressionInputBytes b))) (drop (Rx.SliceOffset x) slice)
  end.

Definition count_inflation (result : Inflation) (s : State) : State :=
  count (fun c =>
    let c := set_ZstdDecompressInputBytes_
               (u64 (ZstdDecompressInputBytes_ c + Z.of_nat (InputConsumed result))) c in
    let c := set_ZstdDecompressOutputBytes_
               (u64 (ZstdDecompressOutputBytes_ c + Z.of_nat (length (Output result)))) c in
    let c := if NeedsMoreInput result
             then set_ZstdDecompressNeedInput_ (u64 (ZstdDecompressNeedInput_ c + 1)) c else c in
    if NeedsMoreOutput result
    then set_ZstdDecompressNeedOutput_ (u64 (ZstdDecompressNeedOutput_ c + 1)) c else c) s.

Definition spend (consumed : nat) (b : Budget) : Budget :=
  {| decompressionCalls := decompressionCalls b + 1;
     decompressionInputBytes :=
       if UINT64_MAX - decompressionInputBytes b <? Z.of_nat consumed then UINT64_MAX
       else decompressionInputBytes b + Z.of_nat consumed |}.

(** The output moves into a buffer of the relay's, kept with the receive; [inl] is the trigger of
    a failure. *)
Definition keep_output (p : nat) (out : list Z) (s : State) : State + State :=
  let bytes := Z.of_nat (length out) in
  if bytes =? 0 then inr s
  else
    let '(ok, r) := AllocateOutput cfg bytes (recv s) in
    let s := set_recv r s in
    if negb ok then inl (TqUvRequestTerminal AllocationFailureTrigger s)
    else
      let s := count (fun c => set_DecompressedTcpBytes_ (u64 (DecompressedTcpBytes_ c + bytes)) c) s in
      if UINT64_MAX - Rx.DeferredOutputBytes (rx p (recv s)) <? bytes
      then inl (TqUvRequestTerminal PressureFailure (on_recv (free_outputs [out]) s))
      else
        let '(reserved, r) := ReservePressure cfg bytes (recv s) in
        let s := set_recv r s in
        if negb reserved
        then inl (TqUvRequestTerminal PressureFailure (on_recv (free_outputs [out]) s))
        else
          let s := on_recv (on_rx (fun x =>
            Rx.set_DeferredOutputOwners (Rx.DeferredOutputOwners x ++ [out])
              (Rx.set_DeferredOutputBytes (Rx.DeferredOutputBytes x + bytes) x)) p) s in
          inr (on_recv (UpdateBackpressure cfg) s).

(** The input is given back as far as it was consumed. *)
Definition log_inflation (consumed out : list Z) (l : Log) : Log :=
  set_taken (taken l ++ consumed)
    (set_output (output l ++ out) (set_inflated (inflated l ++ [(consumed, out)]) l)).

Definition consume_input (p : nat) (input : list Z) (result : Inflation) (s : State) :
    (Machine + State) + State :=
  let s := on_recv (on_rx (AdvanceInput (InputConsumed result)) p) s in
  let s := on_recv (on_log (log_inflation (take (InputConsumed result) input) (Output result))) s in
  let bytes := Z.of_nat (InputConsumed result) in
  if bytes =? 0 then inr s
  else
    let s := on_recv (on_rx (Rx.set_CompletionPendingBytes bytes) p) s in
    let '(ok, r) := CompleteReceive p bytes (recv s) in
    let s := set_recv r s in
    if negb ok then inl (ScheduleCompletionRetry p s)
    else
      let s := on_recv (on_rx (fun x => Rx.set_CompletionPendingBytes 0
                                          (Rx.set_CompletionRetryCount 0 x)) p) s in
      inr (on_recv (release_completed bytes) s).

(** After the decompression loop. *)
Definition after_inflate (p : nat) (b : Budget) (s : State) : Machine + State :=
  if Rx.DecompressionDrained (rx p (recv s))
  then if negb (bool_decide (FrontReceive (recv s) = None)) && budgetExhausted b
       then inr (ScheduleProcessingContinuation s)
       else inl (Outer, b, s)
  else decompression_failed s.

(** The end of one turn of the loop. *)
Definition inflate_end (p : nat) (b : Budget) (s : State) : Machine + State :=
  let s := if Rx.Settled (rx p (recv s)) && Rx.DecompressionDrained (rx p (recv s))
           then PopReceive p s else s in
  let s := on_recv (UpdateBackpressure cfg) s in
  if Rx.DeferredOutputBytes (rx p (recv s)) =? 0
  then if Rx.DecompressionDrained (rx p (recv s)) then after_inflate p b s
       else if budgetExhausted b then inr (ScheduleProcessingContinuation s)
       else inl (Inflate p, b, s)
  else inr (write_deferred p s).

Definition inflate_call (p : nat) (b : Budget) (s : State) : Machine + State :=
  let hasInput := has_input (rx p (recv s)) in
  let input := next_input b (rx p (recv s)) in
  let '(made, r) := ask_ok (recv s) in
  let s := set_recv r s in
  if negb made then inr (TqUvRequestTerminal AllocationFailureTrigger s)
  else
    let '(result, r) := ask_inflation (recv s) in
    let s := set_recv r s in
    let s := count (fun c => set_ZstdDecompressCalls_ (u64 (ZstdDecompressCalls_ c + 1)) c) s in
    if negb (decompressed result) || (length input <? InputConsumed result)%nat ||
       (Z.max (Z.of_nat (length input)) 65536 <? Z.of_nat (length (Output result)))
    then decompression_failed s
    else
      let s := count_inflation result s in
      let b := spend (InputConsumed result) b in
      match keep_output p (Output result) s with
      | inl s => inr s
      | inr s =>
          match consume_input p input result s with
          | inl next => next
          | inr s =>
              let idle := (InputConsumed result =? 0)%nat && (length (Output result) =? 0)%nat in
              if idle && (hasInput || negb (NeedsMoreInput result)) then decompression_failed s
              else
                let s := if idle then on_recv (on_rx (Rx.set_DecompressionDrained true) p) s
                         else s in
                inflate_end p b s
          end
      end.

Definition inflate_step (p : nat) (b : Budget) (s : State) : Machine + State :=
  let hasInput := has_input (rx p (recv s)) in
  if negb hasInput && Rx.DecompressionDrained (rx p (recv s))
  then after_inflate p b (if Rx.Settled (rx p (recv s)) then PopReceive p s else s)
  else if (callBudget <=? decompressionCalls b) ||
          (hasInput && (byteBudget <=? decompressionInputBytes b))
  then inr (ScheduleProcessingContinuation s)
  else inflate_call p b s.

(** *** The machine *)

Definition process_step (m : Machine) : Machine + State :=
  match m with
  | (Outer, b, s) => outer_step b s
  | (Inflate p, b, s) => inflate_step p b s
  end.

(** Each step completes bytes, pops a receive, uses up a retry or a call, or enters the
    decompression loop. *)
Definition work (r : Recv) : Z := PendingQuicReceiveBytes (ledger r) + Z.of_nat (receives r).

Definition retries_left (r : Recv) : Z :=
  match FrontReceive r with
  | None => 0
  | Some p =>
      if TqUvMaxImmediateCompletionRetries <=? Rx.CompletionRetryCount (rx p r)
      then TqUvMaxImmediateCompletionRetries + 1
      else TqUvMaxImmediateCompletionRetries - Rx.CompletionRetryCount (rx p r)
  end.

Definition fuel (m : Machine) : Z :=
  let '(at_, b, s) := m in
  ((work (recv s) * (TqUvMaxImmediateCompletionRetries + 2) + retries_left (recv s)) *
     (callBudget + 1) + (callBudget - decompressionCalls b)) * 2 +
  match at_ with Outer => 1 | Inflate _ => 0 end.

Definition processing (s : State) : Machine + State :=
  until process_step (Z.to_pos (fuel (Outer, fresh_budget, s) + 1)) (Outer, fresh_budget, s).

Definition TqUvProcessQuicToTcp (s : State) : State :=
  if QuicToTcpContinuationPending (flow (recv s)) then s
  else match processing s with inl (_, _, s) => s | inr s => s end.

(** ** Events *)

(** [TqUvOnTcpWriteComplete]. *)
Definition find_write (n : nat) (l : list Tx.t) : option Tx.t :=
  List.find (fun w => (Tx.Request w =? n)%nat) l.
Definition erase_write (n : nat) (l : list Tx.t) : list Tx.t :=
  filter (fun w => Tx.Request w <> n) l.

(** The write is taken off the list, its counters and its receive are given back; what is left of
    the routine is the processing. *)
Definition write_ended (n : nat) (ok : bool) (w : Tx.t) (s : State) : State :=
  let p := Tx.ReceiveOwner w in
  let s := on_recv (on_flow (fun f => set_TcpWrites (erase_write n (TcpWrites f)) f)) s in
  let s := on_recv (on_ledger (fun l => set_PendingTcpWriteBytes
                     (less (PendingTcpWriteBytes l) (Tx.TotalBytes w)) l)) s in
  let s := on_recv (ReleasePressure (Tx.PressureBytes w)) s in
  let s := on_recv (on_rx (Rx.set_TcpWriteSubmitted false) p) s in
  let s := on_recv (give_back (CompleteReceiveForRelay (QuicShutdownObserved (term s))) w) s in
  let s := if finished (rx p (recv s)) then PopReceive p s else s in
  let s := if ok
           then TqUvCheckTerminalConvergence
                  (count (fun c => set_TcpWriteBytes_
                                     (u64 (TcpWriteBytes_ c + Tx.TotalBytes w)) c) s)
           else TqUvRequestTerminal TcpError s in
  on_recv (UpdateBackpressure cfg) s.

Definition TqUvOnTcpWriteComplete (n : nat) (ok : bool) (s : State) : State :=
  match find_write n (TcpWrites (flow (recv s))) with
  | None => s
  | Some w =>
      if negb (bool_decide (Tx.Ownership w = Submitted))
      then on_recv (free_outputs (Tx.OutputOwners w))
             (on_recv (on_flow (fun f => set_TcpWrites (erase_write n (TcpWrites f)) f)) s)
      else
        let s := write_ended n ok w s in
        let s := if ok then TqUvProcessQuicToTcp s else s in
        on_recv (free_outputs (Tx.OutputOwners w)) s
  end.

(** [QueueReceiveOnLoop], for the first receive the worker's queue holds. *)
Definition QueueReceiveOnLoop (s : State) : State :=
  match Posted (queue (recv s)) with
  | [] => s
  | p :: rest =>
      let s := on_recv (on_queue (set_Posted rest)) s in
      TqUvProcessQuicToTcp (on_recv (enqueue p) s)
  end.

(** The continuation [ScheduleProcessingContinuation] posted. *)
Definition continue_processing (s : State) : State :=
  if QuicToTcpContinuationPending (flow (recv s))
  then TqUvProcessQuicToTcp (on_recv (on_flow (set_QuicToTcpContinuationPending false)) s)
  else s.

(** [TqUvAcceptQuicReceive]: an event without bytes ends the stream; MsQuic delivers a stream's
    events one at a time. *)
Definition accept_fin (s : State) : State :=
  if bool_decide (Activation (term s) = Active)
  then on_recv (on_flow (set_QuicFinObserved true)) s else s.

Definition accept_receive (slices : list (list Z)) (fin : bool) (s : State) : State :=
  match Admitting (queue (recv s)) with
  | Some _ => s
  | None => on_recv (fun r => snd (admit_receive cfg (bool_decide (Activation (term s) = Active))
                                     slices fin r)) s
  end.

(** ** Before the activation *)

(** The [RECEIVE] events of [OnStreamEvent] while the relay is prepared; [None] when the
    activation fails. *)
Definition precommit_receive (slices : list (list Z)) (fin : bool) (r : Recv) : option Recv :=
  let total := fold_left (fun n slice => u64 (n + Z.of_nat (length slice))) slices 0 in
  if sum (fun slice => Z.of_nat (length slice)) slices =? 0
  then Some (if fin then on_flow (set_QuicFinObserved true) r else r)
  else
    let '(made, r) := ask_ok r in
    let pending := PendingQuicReceiveBytes (ledger r) in
    let limit := PrecommitMaxPendingBytes cfg in
    if negb made || (limit - Z.min pending limit <? total) then None
    else
      let '(added, r) := AddQuicToTcp total r in
      if negb added then None
      else
        let p := NextReceive (queue r) in
        let r := on_queue (fun q =>
          set_Store (<[p := new_receive slices total fin]> (Store q))
            (set_NextReceive (S p) (set_PrecommitReceives (PrecommitReceives q ++ [p]) q))) r in
        let r := on_ledger (fun l => set_PendingQuicReceiveBytes (u64 (pending + total)) l) r in
        Some (on_log (fun l => set_admitted (admitted l ++ concat slices) l) r).

(** The activation takes over what waited for it. *)
Definition activate (r : Recv) : Recv :=
  on_ledger (fun l => set_QuicToTcpPressureBytes (PendingQuicReceiveBytes l)
                        (set_AdmittedQuicReceiveBytes (PendingQuicReceiveBytes l) l)) r.

End Handlers.

(** ** What the handlers may call *)

(** The handlers of this direction reach the rest of the relay only through requests and the
    terminal protocol. *)
Inductive Calls : State -> State -> Prop :=
| calls_own s s' : data s' = data s -> term s' = term s -> Calls s s'
| calls_request t s : Calls s (TqUvRequestTerminal t s)
| calls_check s : Calls s (TqUvCheckTerminalConvergence s)
| calls_facts s : Calls s (TqUvProcessTerminalFactsLocal s)
| calls_trans s1 s2 s3 : Calls s1 s2 -> Calls s2 s3 -> Calls s1 s3.

#[global] Instance calls_preorder : PreOrder Calls.
Proof. split; [intros s; by apply calls_own|exact calls_trans]. Qed.

(** Where a machine has got to. *)
Definition reached (m : Machine + State) : State :=
  match m with inl (_, _, s) => s | inr s => s end.

Lemma calls_recv f s : Calls s (on_recv f s).
Proof. by apply calls_own. Qed.

Lemma calls_pop p s : Calls s (PopReceive p s).
Proof.
  unfold PopReceive, Pop_body. destruct (pop p (recv s)) as [[] r]; [|by apply calls_own].
  etrans; [by apply (calls_own s (set_recv r s))|apply calls_check].
Qed.

Create HintDb calls.
#[export] Hint Resolve calls_recv calls_pop calls_request calls_check calls_facts : calls.

(** Follows the branches of a handler, closing the calls at its leaves. *)
Ltac calls_leaf :=
  cbn [reached];
  first [ reflexivity
        | apply calls_request | apply calls_check | apply calls_facts | apply calls_recv
        | apply calls_pop | by apply calls_own
        | match goal with
          | |- Calls _ (TqUvRequestTerminal ?t ?x) => etrans; [|exact (calls_request t x)]
          | |- Calls _ (TqUvCheckTerminalConvergence ?x) => etrans; [|exact (calls_check x)]
          | |- Calls _ (TqUvProcessTerminalFactsLocal ?x) => etrans; [|exact (calls_facts x)]
          | |- Calls _ (PopReceive ?p ?x) => etrans; [|exact (calls_pop p x)]
          | |- Calls _ (on_recv ?f ?x) => etrans; [|exact (calls_recv f x)]
          | |- Calls _ (set_recv ?r ?x) => etrans; [|by apply (calls_own x (set_recv r x))]
          | |- Calls _ (if ?b then _ else _) => destruct b
          end ].

Section Handlers.
  Context (cfg : ReceiveConfig).

Lemma calls_submit w s : Calls s (submitWrite cfg w s).
Proof.
  unfold submitWrite. destruct (_ || _); [apply calls_recv|]. cbn zeta. unfold ask_ok.
  destruct (negb _); [repeat calls_leaf|]. destruct (_ <? _); [repeat calls_leaf|].
  destruct (default true _); repeat calls_leaf.
Qed.

Lemma calls_write_deferred p s : Calls s (write_deferred cfg p s).
Proof.
  unfold write_deferred, new_write. etrans; [|apply calls_submit]. repeat calls_leaf.
Qed.

Lemma calls_write_plain p s : Calls s (write_plain cfg p s).
Proof. unfold write_plain, new_write. etrans; [|apply calls_submit]. repeat calls_leaf. Qed.

Lemma calls_retry p s : Calls s (reached (ScheduleCompletionRetry p s)).
Proof.
  unfold ScheduleCompletionRetry. destruct (_ <=? _); [repeat calls_leaf|]. cbn zeta. unfold ask_ok.
  destruct (negb _); [repeat calls_leaf|]. destruct (QuicToTcpContinuationPending _); repeat calls_leaf.
Qed.

Lemma calls_continuation s : Calls s (ScheduleProcessingContinuation s).
Proof.
  unfold ScheduleProcessingContinuation. destruct (QuicToTcpContinuationPending _); [done|].
  cbn zeta. unfold ask_ok. destruct (default true _); repeat calls_leaf.
Qed.

Lemma calls_discard p b s : Calls s (reached (discard_front cfg p b s)).
Proof.
  unfold discard_front. destruct (Rx.TcpWriteSubmitted _); [done|]. cbn zeta.
  set (bytes := if negb _ then _ else _).
  destruct (CompleteReceiveForRelay _ _ _ _) as [ok r]. destruct ok.
  - cbn [reached]. repeat calls_leaf.
  - etrans; [|apply calls_retry]. repeat calls_leaf.
Qed.

Lemma calls_failed s : Calls s (reached (decompression_failed s)).
Proof. unfold decompression_failed, recordDecompressionFailure, count. repeat calls_leaf. Qed.

Lemma calls_enter p b s : Calls s (reached (enter_inflate cfg p b s)).
Proof. unfold enter_inflate. destruct (negb _); [apply calls_failed|done]. Qed.

Lemma calls_resume p b s : Calls s (reached (resume_front cfg p b s)).
Proof.
  unfold resume_front, after_completion, start_writing. unfold ask_ok. cbn zeta beta iota.
  set (s1 := set_recv _ s). assert (Calls s s1) as H1 by (by apply calls_own). clearbody s1.
  destruct (negb _); [etrans; [exact H1|]; repeat calls_leaf|].
  destruct (negb _).
  - destruct (CompleteReceive _ _ _) as [ok r]. set (s2 := set_recv r s1).
    assert (Calls s s2) as H2 by (etrans; [exact H1|]; by apply calls_own). clearbody s2.
    destruct (negb ok); [etrans; [exact H2|apply calls_retry]|].
    set (s3 := on_recv (release_completed _) _).
    assert (Calls s s3) as H3 by (etrans; [exact H2|]; repeat calls_leaf). clearbody s3.
    set (s4 := on_recv (UpdateBackpressure cfg) _).
    assert (Calls s s4) as H4 by (etrans; [exact H3|]; unfold s4; repeat calls_leaf). clearbody s4.
    destruct (_ && _); [exact H4|].
    destruct (negb _); etrans; try exact H4; [apply calls_write_deferred|apply calls_enter].
  - destruct (negb _); etrans; try exact H1; [apply calls_write_plain|apply calls_enter].
Qed.

Lemma calls_outer b s : Calls s (reached (outer_step cfg b s)).
Proof.
  unfold outer_step. destruct (FrontReceive _) as [p|]; [|done]. cbn zeta.
  set (s1 := on_recv _ s). assert (Calls s s1) as H1 by apply calls_recv. clearbody s1.
  destruct (finished _ _); [etrans; [exact H1|]; repeat calls_leaf|].
  destruct (_ || _); [etrans; [exact H1|apply calls_discard]|].
  destruct (Rx.TcpWriteSubmitted _); [exact H1|]. etrans; [exact H1|apply calls_resume].
Qed.

Lemma calls_keep p out s :
  Calls s (match keep_output cfg p out s with inl s => s | inr s => s end).
Proof.
  unfold keep_output. destruct (_ =? 0); [done|]. destruct (AllocateOutput _ _ _) as [ok r].
  destruct (negb ok); [repeat calls_leaf|]. cbn zeta. unfold count.
  destruct (_ <? _); [repeat calls_leaf|]. destruct (ReservePressure _ _ _) as [reserved r'].
  destruct (negb reserved); repeat calls_leaf.
Qed.

Lemma calls_consume p input result s :
  Calls s (match consume_input p input result s with inl m => reached m | inr s => s end).
Proof.
  unfold consume_input. destruct (_ =? 0); [repeat calls_leaf|]. cbn zeta.
  destruct (CompleteReceive _ _ _) as [ok r]. destruct (negb ok); [|repeat calls_leaf].
  etrans; [|apply calls_retry]. repeat calls_leaf.
Qed.

Lemma calls_after_inflate p b s : Calls s (reached (after_inflate cfg p b s)).
Proof.
  unfold after_inflate. destruct (Rx.DecompressionDrained _); [|apply calls_failed].
  destruct (_ && _); [apply calls_continuation|done].
Qed.

Lemma calls_end p b s : Calls s (reached (inflate_end cfg p b s)).
Proof.
  unfold inflate_end. cbn zeta. set (s1 := on_recv (UpdateBackpressure cfg) _).
  assert (Calls s s1) as H1 by (unfold s1; repeat calls_leaf). clearbody s1.
  destruct (_ =? 0); [|etrans; [exact H1|apply calls_write_deferred]].
  destruct (Rx.DecompressionDrained _); [etrans; [exact H1|apply calls_after_inflate]|].
  destruct (budgetExhausted _ _); [etrans; [exact H1|apply calls_continuation]|exact H1].
Qed.

Lemma calls_inflate p b s : Calls s (reached (inflate_step cfg p b s)).
Proof.
  unfold inflate_step, inflate_call. cbn zeta.
  destruct (negb _ && _).
  { etrans; [|apply calls_after_inflate]. repeat calls_leaf. }
  destruct (_ || _); [apply calls_continuation|]. unfold ask_ok, ask_inflation, count_inflation, count.
  cbn zeta beta iota. destruct (negb (default true _)); [repeat calls_leaf|].
  destruct (_ || _ || _); [etrans; [|apply calls_failed]; repeat calls_leaf|].
  match goal with |- context [keep_output cfg p ?o ?x] =>
    pose proof (calls_keep p o x) as Hk; assert (Calls s x) as H0 by (repeat calls_leaf);
    destruct (keep_output cfg p o x) as [s1|s1] end.
  { etrans; [exact H0|exact Hk]. }
  assert (Calls s s1) as H1 by (etrans; [exact H0|exact Hk]). clear H0 Hk.
  match goal with |- context [consume_input p ?i ?r s1] =>
    pose proof (calls_consume p i r s1) as Hk; destruct (consume_input p i r s1) as [m|s2] end.
  { etrans; [exact H1|exact Hk]. }
  assert (Calls s s2) as H2 by (etrans; [exact H1|exact Hk]). clear H1 Hk.
  destruct (_ && (_ || _)); [etrans; [exact H2|apply calls_failed]|].
  etrans; [exact H2|]. etrans; [|apply calls_end]. repeat calls_leaf.
Qed.

Lemma calls_step m : Calls (m.2) (reached (process_step cfg m)).
Proof. destruct m as [[[|p] b] s]; [apply calls_outer|apply calls_inflate]. Qed.

Lemma calls_until n m : Calls (m.2) (reached (until (process_step cfg) n m)).
Proof.
  revert m. induction n as [n IH|n IH|]; intros m; cbn [until].
  - pose proof (calls_step m) as H. destruct (process_step cfg m) as [m1|s1]; [|exact H].
    assert (forall m, Calls (m.2) (reached (until (process_step cfg) n m))) as IH' by exact IH.
    pose proof (IH m1) as H1. destruct m1 as [[a1 b1] s1].
    destruct (until (process_step cfg) n _) as [m2|s2]; (etrans; [exact H|]); [|exact H1].
    etrans; [exact H1|]. destruct m2 as [[a2 b2] s2]. apply (IH (a2, b2, s2)).
  - pose proof (IH m) as H. destruct (until (process_step cfg) n m) as [[[a1 b1] s1]|s1]; [|exact H].
    etrans; [exact H|]. apply (IH (a1, b1, s1)).
  - apply calls_step.
Qed.

Lemma calls_process s : Calls s (TqUvProcessQuicToTcp cfg s).
Proof.
  unfold TqUvProcessQuicToTcp. destruct (QuicToTcpContinuationPending _); [done|].
  apply (calls_until _ (Outer, fresh_budget, s)).
Qed.

Lemma calls_write_complete n ok s : Calls s (TqUvOnTcpWriteComplete cfg n ok s).
Proof.
  unfold TqUvOnTcpWriteComplete. destruct (find_write _ _) as [w|]; [|done].
  destruct (negb _); [repeat calls_leaf|]. unfold write_ended, count. cbn zeta.
  destruct ok; repeat calls_leaf; (etrans; [|apply calls_process]); repeat calls_leaf.
Qed.

Lemma calls_queue_receive s : Calls s (QueueReceiveOnLoop cfg s).
Proof.
  unfold QueueReceiveOnLoop. destruct (Posted _) as [|p rest]; [done|].
  etrans; [|apply calls_process]. repeat calls_leaf.
Qed.

Lemma calls_continue s : Calls s (continue_processing cfg s).
Proof.
  unfold continue_processing. destruct (QuicToTcpContinuationPending _); [|done].
  etrans; [|apply calls_process]. repeat calls_leaf.
Qed.

End Handlers.
