(* ===== verification/UvRelay.v ===== *)
(** The handlers of the libuv relay's sending half and the system both halves form
    (src/src/tunnel/libuv_relay_tcp_to_quic.cpp, libuv_relay_worker.cpp).

    The system starts with an active relay whose reading has begun.  libuv calls the allocation
    callback and then the read callback, and calls them only between [uv_read_start] and
    [uv_read_stop]; MsQuic reports the completion of sends it took and delivers receives.  The
    rest of the worker's wake-up is split into its parts, in any order.  This file shows what
    holds of the sending half and of the terminal; UvFlow.v does so for the receiving half. *)

From stdpp Require Import base gmap list numbers decidable.
From Stdlib Require Import ZArith Lia.
From S2P Require Import Prelude RelayBuffer UvSend UvReceive UvTerminal UvWrite.

(** What libuv read. *)
Inductive ReadResult := ReadBytes (bytes : list Z) | ReadEof | ReadEnobufs | ReadError.

(** The answers a read gets: memory for the view, for the chunks of compressed output, for the
    operation; the submission's; whether [uv_read_stop] succeeds. *)
Record ReadAnswers := {
  view_ok : bool; chunk_oks : list bool; new_ok : bool; submit : SubmitAnswers; stop_ok : bool }.

Section Handlers.
  Context {K : ITqCompressor} (cfg : Config) (rcfg : ReceiveConfig).

(** [CallReadStop] where reading runs, with what follows on success. *)
Definition pause_reading (stop : bool) (s : State) : State :=
  if TcpReadStarted (data s) && negb stop then terminate TcpError s
  else on_data (fun d => set_TcpReadPausedByQuicBacklog true (set_TcpReadStarted false d)) s.

(** The read found no buffer. *)
Definition read_enobufs (e : ReadAnswers) (s : State) : State :=
  let failure := TcpReadAcquireFailure (data s) in
  let s := on_data (set_TcpReadAcquireFailure NoFailure) s in
  if bool_decide (failure = PendingBytesLimit) then pause_reading (stop_ok e) s
  else terminate AllocationFailureTrigger s.

(** After [BuildViews] failed: the counter, the terminal, and the views made so far. *)
Definition build_failed (compressionFailed : bool) (views : list TqBufferView) (s : State) : State :=
  let s := if compressionFailed
           then on_data (fun d => set_TcpToQuicCompressFailures_
                                    (u64 (TcpToQuicCompressFailures_ d + 1)) d) s
           else s in
  on_data (free_views views) (terminate AllocationFailureTrigger s).

(** [received > 0]. *)
Definition read_bytes (e : ReadAnswers) (owner : option Z) (bytes : list Z) (s : State) : State :=
  match owner with
  | None => terminate TcpError s
  | Some capacity =>
      if capacity <? size bytes
      then on_data (free_buffer capacity) (terminate TcpError s)
      else
        let s := on_data (fun d => set_TcpReadBytes_ (u64 (TcpReadBytes_ d + size bytes))
                                     (set_tcp_input (tcp_input d ++ bytes) d)) s in
        let '(built, views, compressedBytes, compressionFailed, d) :=
          BuildViews cfg (view_ok e) (chunk_oks e) owner bytes false (data s) in
        let s := set_data (set_CompressedTcpBytes_
                             (u64 (CompressedTcpBytes_ d + compressedBytes)) d) s in
        if negb built then build_failed compressionFailed views s
        else if bool_decide (views = []) then s
        else
          let '(result, d) := Submit cfg (TerminalStarted (term s)) (new_ok e) (submit e) views false
                                (data s) in
          let s := set_data d s in
          match result with
          | Fatal => terminate QuicAbort s
          | _ =>
              let mustPause :=
                match result with ResourceBlocked => true | _ => false end ||
                (negb (MaxBufferedQuicSendBytes cfg =? 0) &&
                 (MaxBufferedQuicSendBytes cfg <=? PendingQuicSendBytes (data s))) in
              if mustPause && TcpReadStarted (data s) then pause_reading (stop_ok e) s else s
          end
  end.

(** [received == UV_EOF]. *)
Definition read_eof (e : ReadAnswers) (owner : option Z) (s : State) : State :=
  let s := on_data (set_TcpReadClosed true) s in
  let s := if TcpReadStarted (data s) then on_data (set_TcpReadStarted false) s else s in
  let '(built, views, compressedBytes, compressionFailed, d) :=
    BuildViews cfg (view_ok e) (chunk_oks e) None [] true (data s) in
  let s := set_data (set_CompressedTcpBytes_ (u64 (CompressedTcpBytes_ d + compressedBytes)) d) s in
  let s :=
    if negb built then build_failed compressionFailed views s
    else
      let '(result, d) := Submit cfg (TerminalStarted (term s)) (new_ok e) (submit e) views true
                            (data s) in
      let s := set_data d s in
      match result with
      | Fatal => terminate QuicAbort s
      | ResourceBlocked => on_data (set_TcpReadPausedByQuicBacklog true) s
      | SubmittedResult => s
      end in
  on_data (fun d => match owner with Some b => free_buffer b d | None => d end) s.

(** [TqUvHandleTcpRead]; the handle found for the buffer is destroyed on return unless a view took
    it over. *)
Definition TqUvHandleTcpRead (e : ReadAnswers) (received : ReadResult) (base : option nat)
    (s : State) : State :=
  let '(owner, d) := take_buffer base (data s) in
  let s := set_data d s in
  let free := on_data (fun d => match owner with Some b => free_buffer b d | None => d end) in
  match received with
  | ReadEnobufs => free (read_enobufs e s)
  | ReadBytes [] => free s
  | ReadBytes bytes => read_bytes e owner bytes s
  | ReadError => free (terminate TcpError (on_data (set_TcpReadClosed true) s))
  | ReadEof => read_eof e owner s
  end.

(** The loop of [TqUvRetryPendingQuicSends]; every round but the last takes an operation off the
    queue, so the queue's length bounds the rounds.  [es] are the answers of the rounds. *)
Fixpoint retry_loop (fuel : nat) (es : list SubmitAnswers) (s : State) : State :=
  match fuel with
  | O => s
  | S fuel =>
      if TerminalStarted (term s) then s
      else
        match PendingQuicSendRetries (data s) with
        | [] => s
        | operation :: rest =>
            let e := default {| reserve_ok := true; emplace_ok := true;
                                status := QUIC_STATUS_SUCCESS; synchronous := None;
                                push_ok := true |} (head es) in
            let '(result, d) :=
              TrySubmitOperation e operation true (set_PendingQuicSendRetries rest (data s)) in
            let s := set_data d s in
            match result with
            | ResourceBlocked => s
            | Fatal => terminate QuicAbort s
            | SubmittedResult => retry_loop fuel (tail es) s
            end
        end
  end.

Definition TqUvRetryPendingQuicSends (es : list SubmitAnswers) (s : State) : State :=
  retry_loop (length (PendingQuicSendRetries (data s))) es s.

(** The end of [TqUvHandleSendComplete]: reading resumes when the backlog is small. *)
Definition resume_reading (start_ok : bool) (s : State) : State :=
  let d := data s in
  if negb (TerminalStarted (term s)) && TcpReadPausedByQuicBacklog d && negb (TcpReadClosed d) &&
     (PendingQuicSendBytes d <=? ResumeBufferedQuicSendBytes cfg) &&
     (PendingBufferBytes d <=? ResumeBufferedQuicSendBytes cfg)
  then if start_ok
       then on_data (fun d => set_TcpReadPausedByQuicBacklog false (set_TcpReadStarted true d)) s
       else terminate TcpError s
  else s.

(** [TqUvHandleSendComplete]. *)
Definition TqUvHandleSendComplete (es : list SubmitAnswers) (start_ok : bool) (a : nat)
    (cancelled : bool) (s : State) : State :=
  match find_send a (QuicSends (data s)) with
  | None => s
  | Some operation =>
      let current := bool_decide (OperationIdentity operation = RelayIdentity cfg) in
      let s := on_data (fun d => drop_operation operation
                                   (set_QuicSends (erase_send a (QuicSends d)) d)) s in
      let s := on_data (ReleasePendingSend (TotalBytes operation)) s in
      if negb current then TqUvCheckTerminalConvergence s
      else if cancelled then terminate QuicAbort s
      else
        let s := if Fin operation
                 then TqUvCheckTerminalConvergence (on_data (set_QuicFinCompleted true) s)
                 else s in
        let s := TqUvRetryPendingQuicSends es s in
        let s := resume_reading start_ok s in
        TqUvCheckTerminalConvergence s
  end.

(** ** The system *)

Inductive Action :=
| TcpReadable (ok : bool) (suggested : N) (e : ReadAnswers) (received : ReadResult)
| SendComplete (a : nat) (cancelled : bool)
| DispatchCompletion (a : nat) (es : list SubmitAnswers) (start_ok : bool)
| RetryScan (es : list SubmitAnswers)
| TerminalScan
| StopScan
| RequestTerminal (t : TqUvTerminalTrigger)
| TcpShutdownComplete (ok : bool)
| TcpClosed
| QuicShutdownComplete
| QuicReceive (slices : list (list Z)) (fin : bool)
| PostReceive
| QuicFinReceived
| DispatchReceive
| ContinueReceive
| TcpWriteComplete (request : nat) (ok : bool)
| OtherReceives (bytes : Z)
| OtherRelay (bytes : Z).

(** libuv's read: the allocation callback, then the read callback with the buffer it gave, or
    with [UV_ENOBUFS] when it gave none. *)
Definition tcp_readable (ok : bool) (suggested : Z) (e : ReadAnswers) (received : ReadResult)
    (s : State) : State :=
  let '(buffer, d) := TqUvOnTcpAlloc cfg ok suggested (data s) in
  let s := set_data d s in
  match buffer with
  | None => TqUvHandleTcpRead e ReadEnobufs None s
  | Some (a, _) => TqUvHandleTcpRead e received (Some a) s
  end.

(** The relay's part of [RetryPendingQuicSends] and of the terminal scan of [HandleWake]. *)
Definition retry_scan (es : list SubmitAnswers) (s : State) : State :=
  if Registered (term s) && negb (bool_decide (length (PendingQuicSendRetries (data s)) = 0)%nat)
  then TqUvRetryPendingQuicSends es s else s.

Definition terminal_scan (s : State) : State :=
  if Registered (term s) &&
     (TerminalStarted (term s) || negb (TerminalTriggerMask (term s) =? 0) ||
      QuicFinObserved (flow (recv s)) || QuicShutdownObserved (term s))
  then TqUvProcessTerminalFactsLocal s else s.

(** [SHUTDOWN_COMPLETE] of [OnStreamEvent], for the current route. *)
Definition quic_shutdown_complete (s : State) : State :=
  let s := on_term (set_QuicShutdownObserved true) s in
  if negb (bool_decide (Activation (term s) = Terminal)) then TqUvRequestTerminal QuicAbort s else s.

(** The other relays of the worker change their share of its receive ledger. *)
Definition other_receives (bytes : Z) (r : Recv) : Recv :=
  if (0 <=? bytes) && (AccountedQuicToTcpBytes (ledger r) + bytes <=? UINT64_MAX)
  then on_log (set_OtherQuicToTcp bytes)
         (on_ledger (fun l => set_QuicToTcpPendingBytes_ (AccountedQuicToTcpBytes l + bytes) l) r)
  else r.

Definition perform (act : Action) (s : State) : State :=
  match act with
  | TcpReadable ok suggested e received =>
      if TcpReadStarted (data s) then tcp_readable ok (Z.of_N suggested) e received s else s
  | SendComplete a cancelled => on_data (QueueSendComplete a cancelled) s
  | DispatchCompletion a es start_ok =>
      if bool_decide (a ∈ Completions (data s))
      then
        let cancelled := match find_send a (QuicSends (data s)) with
                         | Some o => CompletionCancelled o
                         | None => false
                         end in
        TqUvHandleSendComplete es start_ok a cancelled
          (on_data (fun d => set_Completions (filter (.≠ a) (Completions d)) d) s)
      else s
  | RetryScan es => retry_scan es s
  | TerminalScan => terminal_scan s
  | StopScan => if Registered (term s) then terminate RuntimeStop s else s
  | RequestTerminal t => TqUvRequestTerminal t s
  | TcpShutdownComplete ok => if TcpShutdownPending (flow (recv s)) then TqUvOnTcpShutdownComplete ok s else s
  | TcpClosed => if TcpClosePending (term s) then TqUvOnTcpClosed s else s
  | QuicShutdownComplete => quic_shutdown_complete s
  | QuicReceive slices fin =>
      if event_ok slices then accept_receive rcfg slices fin s else s
  | PostReceive => on_recv (fun r => snd (post r)) s
  | QuicFinReceived => accept_fin s
  | DispatchReceive => QueueReceiveOnLoop rcfg s
  | ContinueReceive => continue_processing rcfg s
  | TcpWriteComplete n ok => TqUvOnTcpWriteComplete rcfg n ok s
  | OtherReceives bytes => on_recv (other_receives bytes) s
  | OtherRelay bytes =>
      if (0 <=? bytes) && (AccountedTcpToQuicBytes (data s) + bytes <=? UINT64_MAX)
      then on_data (fun d => set_OtherRelays bytes
                               (set_TcpToQuicPendingBytes_ (AccountedTcpToQuicBytes d + bytes) d)) s
      else s
  end.

(** What the environment tells during one action: the terminal protocol's answers, those of
    [oracle], the decompressor's. *)
Record Told := { terminal : list TermAnswer; api : list bool; inflates : list Inflation }.

Definition nothing : Told := {| terminal := []; api := []; inflates := [] |}.

Definition tell (t : Told) (s : State) : State :=
  set_answers (terminal t)
    (on_recv (set_world {| oracle := api t; inflations := inflates t |}) s).

(** The receiving half of a relay being prepared, on a worker whose other relays account for
    [bytes] of receives. *)
Definition prepared (bytes : Z) (t : Told) : Recv :=
  {| queue := {| PrecommitReceives := []; FallbackReceiveHead := None; FallbackReceiveTail := None;
                 FallbackNext := ∅; ActiveReceiveFallbackMode := false; Store := ∅;
                 NextReceive := 0; Admitting := None; Posted := [] |};
     ledger := {| PendingQuicReceiveBytes := 0; AdmittedQuicReceiveBytes := 0;
                  QuicToTcpPressureBytes := 0; PendingTcpWriteBytes := 0;
                  AccountedQuicToTcpBytes := 0; QuicToTcpPendingBytes_ := bytes;
                  OutputPendingBufferBytes := 0; OutputAllocateCount := 0 |};
     flow := {| TcpWrites := []; NextRequest := 0; QuicToTcpContinuationPending := false;
                QuicReceivePausedByTcpBacklog := false; QuicFinObserved := false;
                TcpWriteClosed := false; TcpShutdownPending := false |};
     counters := {| ZstdDecompressCalls_ := 0; ZstdDecompressInputBytes_ := 0;
                    ZstdDecompressOutputBytes_ := 0; ZstdDecompressNeedInput_ := 0;
                    ZstdDecompressNeedOutput_ := 0; ZstdDecompressFailures_ := 0;
                    QuicReceiveDecompressFailures_ := 0; DecompressedTcpBytes_ := 0;
                    TcpWriteBytes_ := 0 |};
     log := {| admitted := []; taken := []; output := []; written := []; inflated := [];
               completed := 0; retired := 0; refused := false; disabled := false;
               OtherQuicToTcp := bytes; lost := 0 |};
     world := {| oracle := api t; inflations := inflates t |} |}.

(** The events that come before the activation; [None] when it fails. *)
Fixpoint precommit (events : list (list (list Z) * bool)) (r : Recv) : option Recv :=
  match events with
  | [] => Some r
  | (slices, fin) :: events =>
      if event_ok slices
      then match precommit_receive rcfg slices fin r with
           | Some r => precommit events r
           | None => None
           end
      else None
  end.

(** A relay just activated, with what was prepared, on a worker whose other relays account for
    [bytes] of sends; the activation processes what has come already. *)
Definition start (bytes : Z) (r : Recv) : State :=
  TqUvProcessQuicToTcp rcfg
  {| data := {| TcpReadStarted := true; TcpReadClosed := false; TcpReadPausedByQuicBacklog := false;
                TcpReadAcquireFailure := NoFailure; TcpReadBuffers := []; PendingTcpReadBytes := 0;
                CompressorCalls := []; QuicSends := []; PendingQuicSendRetries := [];
                PendingQuicSendBytes := 0; AccountedTcpToQuicBytes := 0; QuicFinSubmitted := false;
                QuicFinCompleted := false; PendingBufferBytes := 0; AllocateCount := 0;
                TcpToQuicPendingBytes_ := bytes; Completions := []; NextAddress := 0;
                TcpReadBytes_ := 0; CompressedTcpBytes_ := 0; TcpToQuicCompressFailures_ := 0;
                OtherRelays := bytes; tcp_input := []; produced := []; accepted := [] |};
     term := {| TerminalTriggerMask := 0; Activation := Active; TerminalStarted := false;
                TerminalAborted := false; TerminalHandoffStarted := false;
                TerminalHandoffSubmitted := false; TerminalHandoffRetryScheduled := false;
                TerminalHandoffRetryPending := false; TerminalHandoffEscalated := false;
                TerminalAbortUpgradePending := false; TerminalAbortUpgradeApplied := false;
                TerminalHandoffComplete := false; LocalOwnershipDrained := false;
                TerminalReleased := false; QuicShutdownObserved := false; TerminalBeginCount := 0;
                TerminalReleaseCount := 0; TcpHandleInitialized := true; TcpClosePending := false;
                TcpCloseCompleted := false; StopSignalled := false; Registered := true;
                DataPlaneStopped := false; PublishedHandoffComplete := false;
                OwnershipTransferredOrDrained := false; AbortUpgradePending := false;
                AbortUpgradeApplied := false |};
     recv := activate r;
     answers := [] |}.

(** The actions, each with what is told during it. *)
Definition run (acts : list (Action * Told)) (s : State) : State :=
  fold_left (fun s '(act, t) => perform act (tell t s)) acts s.

End Handlers.

(** ** The invariant *)

Section Invariant.
  Context {K : ITqCompressor} {cfg : Config} (rcfg : ReceiveConfig) (Hcfg : Config_ok cfg).

(** Something is on its way whose completion, or retry, will come back to the loop. *)
Definition outstanding (d : Data) : Prop := QuicSends d <> [] \/ PendingQuicSendRetries d <> [].

(** While the terminal has not started: no unit is lost or made up, and with a resume threshold of
    zero they go out in order. *)
Record Routes (d : Data) : Prop := {
  l_perm : produced d ≡ₚ accepted d ++ (payload <$> PendingQuicSendRetries d);
  l_order : ResumeBufferedQuicSendBytes cfg = 0 ->
            produced d = accepted d ++ (payload <$> PendingQuicSendRetries d) /\
            (length (PendingQuicSendRetries d) <= 1)%nat }.

(** And the units encode what was read. *)
Definition Core (d : Data) : Prop :=
  Routes d /\ encodes (cfg := cfg) d (concat (fst <$> produced d)).

Record Flags (d : Data) : Prop := {
  l_closed : TcpReadClosed d = true -> TcpReadStarted d = false;
  l_back : 0 <= ResumeBufferedQuicSendBytes cfg < MaxBufferedQuicSendBytes cfg ->
           TcpReadStarted d = true -> PendingQuicSendBytes d < MaxBufferedQuicSendBytes cfg;
  l_quiet : ResumeBufferedQuicSendBytes cfg = 0 -> PendingQuicSendRetries d <> [] ->
            TcpReadStarted d = false }.

(** Reading that stopped before the end of the input is waiting for something outstanding. *)
Definition Awake (d : Data) : Prop :=
  TcpReadChunkSize cfg <= MaxPendingBufferBytes cfg -> 0 <= ResumeBufferedQuicSendBytes cfg ->
  TcpReadClosed d = false ->
  TcpReadStarted d = true \/ TcpReadPausedByQuicBacklog d = true /\ outstanding d.

Definition Live (d : Data) : Prop := Core d /\ Flags d /\ Awake d.

(** [h] is what the running handler holds. *)
Record Base (h : Z) (s : State) : Prop := {
  sys_good : Good cfg h (data s);
  sys_staged : TcpReadBuffers (data s) = [];
  sys_term : TermInv s }.

Definition Sys (s : State) : Prop :=
  Base 0 s /\ (TerminalStarted (term s) = false -> Live (data s)).

(** ** Framing *)

Lemma term_inv_data s d :
  TermInv s -> (TerminalStarted (term s) = true -> TcpReadStarted d = false) ->
  (TerminalAborted (term s) = true -> PendingQuicSendRetries d = []) ->
  (TerminalReleased (term s) = true ->
   QuicSends d = [] /\ PendingQuicSendRetries d = [] /\ PendingQuicSendBytes d = 0 /\
   AccountedTcpToQuicBytes d = 0) -> TermInv (set_data d s).
Proof.
  intros [Hb Ha Hab Hr Hg Hc Hy] H1 H2 H3. constructor; cbn; try done.
  - intros H. specialize (H1 H). specialize (Ha H). tauto.
  - intros H. specialize (H3 H). specialize (Hr H). tauto.
Qed.

Lemma term_inv_data_early s d :
  TermInv s -> TerminalStarted (term s) = false -> TermInv (set_data d s).
Proof.
  intros Hi Hs. destruct (t_before _ _ Hi Hs) as (_ & _ & _ & _ & _ & Ha & Hr & _).
  apply term_inv_data; [done|..]; congruence.
Qed.

Lemma good_stop h d : Good cfg h d -> Good cfg h (stop_reading d).
Proof. intros H. unfold stop_reading. destruct (TcpReadStarted d); [by eapply good_ext|done]. Qed.

Lemma good_dropped h d : Good cfg h d -> Good cfg h (dropped d).
Proof.
  intros H. apply (good_ext h (clear_read_buffers (DiscardUnsubmittedSends d))); try done.
  by apply good_clear, good_discard.
Qed.

Lemma base_effect h s s' : Base h s -> Effect s s' -> Base h s'.
Proof.
  intros [Hg Hst _] [Hi Hd _ _]. split; [| |done].
  - destruct Hd as [[-> _]|[_ [->|[-> _]]]]; [done|by apply good_stop|by apply good_dropped, good_stop].
  - destruct Hd as [[-> _]|[_ [->|[-> _]]]]; [done| |apply dropped_fields].
    unfold stop_reading. by destruct (TcpReadStarted (data s)).
Qed.

(** A routine of the terminal protocol applied to a good state. *)
Lemma sys_effect s s' : Sys s -> Effect s s' -> Sys s'.
Proof.
  intros [Hb Hl] He. split; [by eapply base_effect|]. intros Hs.
  destruct (e_data _ _ He) as [[-> Hst]|[Hst _]]; [|congruence]. apply Hl. congruence.
Qed.

Lemma base_terminate h t s :
  Base h s -> Base h (terminate t s) /\ TerminalStarted (term (terminate t s)) = true.
Proof.
  intros Hb. destruct (terminate_effect t s (sys_term _ _ Hb)) as [He Hs].
  split; [by eapply base_effect|done].
Qed.

Lemma sys_terminate t s : Base 0 s -> Sys (terminate t s).
Proof.
  intros Hb. destruct (base_terminate 0 t s Hb) as [H1 H2]. split; [done|congruence].
Qed.

Lemma term_inv_budget s d : budget_only (data s) d -> TermInv s -> TermInv (set_data d s).
Proof.
  intros (c & p & ->) Hi. apply term_inv_data; [done|..]; cbn.
  - intros H. by apply (t_after _ _ Hi).
  - apply (t_abort _ _ Hi).
  - intros H. apply (t_released _ _ Hi) in H. tauto.
Qed.

Lemma base_free h b s : Base (h + b) s -> 0 <= h -> 0 <= b -> Base h (on_data (free_buffer b) s).
Proof.
  intros [Hg Hst Hi] Hh Hb. split.
  - by apply (good_free_buffer Hcfg).
  - cbn. destruct (free_budget_only b (data s)) as (c & p & ->). done.
  - apply term_inv_budget; [apply free_budget_only|done].
Qed.

Lemma views_budget_only views d : budget_only d (free_views views d).
Proof. apply (fold_budget_only Reserved views d). Qed.

Lemma base_free_views h views s :
  Base (h + sum Reserved views) s -> 0 <= h -> Forall view_good views ->
  Base h (on_data (free_views views) s).
Proof.
  intros [Hg Hst Hi] Hh Hv. split.
  - by apply (good_free_views Hcfg).
  - cbn. destruct (views_budget_only views (data s)) as (c & p & ->). done.
  - apply term_inv_budget; [apply views_budget_only|done].
Qed.

(** ** Pausing *)

Lemma base_pause stop s :
  Base 0 s -> TerminalStarted (term s) = false -> Core (data s) -> outstanding (data s) ->
  Sys (pause_reading stop s).
Proof.
  intros Hb Hs Hc Ho. unfold pause_reading.
  destruct (_ && _); [by apply sys_terminate|]. destruct Hb as [Hg Hst Hi]. split; [split|].
  - by eapply good_ext.
  - done.
  - by apply term_inv_data_early.
  - intros _. cbn. split_and!; [|by constructor|]; [|intros _ _ _; by right].
    destruct Hc as [[] ?]. by split.
Qed.

Lemma sys_enobufs h e s :
  Base h s -> TerminalStarted (term s) = false -> Live (data s) -> TcpReadStarted (data s) = true ->
  (TcpReadAcquireFailure (data s) = PendingBytesLimit ->
   h = 0 /\ MaxPendingBufferBytes cfg < PendingBufferBytes (data s) + TcpReadChunkSize cfg) ->
  Base h (read_enobufs e s) /\
  (TerminalStarted (term (read_enobufs e s)) = false -> Live (data (read_enobufs e s))).
Proof.
  intros Hb Hs Hl Hr Hf. unfold read_enobufs.
  set (s1 := on_data (set_TcpReadAcquireFailure NoFailure) s).
  assert (Base h s1) as Hb1.
  { destruct Hb as [Hg Hst Hi]. split; [by eapply good_ext|done|by apply term_inv_data_early]. }
  assert (Core (data s1)) as Hc by (by destruct Hl as (([] & ?) & _)).
  assert (forall t, Base h (terminate t s1) /\
            (TerminalStarted (term (terminate t s1)) = false -> Live (data (terminate t s1)))) as Ht.
  { intros t. destruct (base_terminate h t s1 Hb1) as [? ?]. split; [done|congruence]. }
  case_bool_decide as Hfl; [|apply Ht]. destruct (Hf Hfl) as [-> Hlim].
  unfold pause_reading. destruct (_ && _); [apply Ht|].
  destruct Hb1 as [Hg Hst Hi]. split; [split|].
  - by eapply good_ext.
  - done.
  - by apply term_inv_data_early.
  - intros _. cbn. split_and!; [by destruct Hc as [[] ?]|by constructor|].
    intros Hchunk _ _. right. split; [done|]. unfold outstanding. cbn.
    destruct (QuicSends (data s)) eqn:Es; [|by left].
    destruct (PendingQuicSendRetries (data s)) eqn:Er; [|by right]. exfalso.
    destruct Hg as (Hbk & _). pose proof (b_budget _ _ _ _ Hbk) as Hbu. cbn in Hbu, Hst.
    rewrite Es, Er, Hst, !sum_nil in Hbu. lia.
Qed.

(** ** One unit enters the stream *)

Lemma core_routed u r d d' :
  Routes d -> encodes (cfg := cfg) d' (concat (fst <$> produced d) ++ fst u) ->
  produced d' = produced d ++ [u] -> routed u r d d' -> r <> Fatal ->
  (ResumeBufferedQuicSendBytes cfg = 0 -> PendingQuicSendRetries d = []) -> Core d'.
Proof.
  intros [Hp Ho] He Hpr Hr Hnf Hq.
  split; [|rewrite Hpr, fmap_app, concat_app; cbn; by rewrite app_nil_r].
  destruct r; [| |done]; cbn in Hr.
  - destruct Hr as (Ha & _ & Hre). constructor; rewrite Hpr, ?Ha, ?Hre.
    + rewrite Hp. rewrite <- !app_assoc. apply Permutation_app_head. apply Permutation_app_comm.
    + intros Hz. destruct (Ho Hz) as [-> Hl]. rewrite (Hq Hz). cbn.
      split; [by rewrite !app_nil_r|lia].
  - destruct Hr as (Ha & o & <- & Hre). constructor; rewrite Hpr, ?Ha, ?Hre.
    + rewrite Hp, fmap_app, <- app_assoc. done.
    + intros Hz. destruct (Ho Hz) as [-> Hl]. rewrite (Hq Hz). cbn.
      split; [by rewrite !app_nil_r|lia].
Qed.

Lemma routes_fields d d' :
  Routes d -> produced d' = produced d -> accepted d' = accepted d ->
  PendingQuicSendRetries d' = PendingQuicSendRetries d -> Routes d'.
Proof. intros [] H1 H2 H3. constructor; by rewrite H1, H2, H3. Qed.

Lemma live_fields d d' :
  Live d -> encodes (cfg := cfg) d' (concat (fst <$> produced d')) ->
  produced d' = produced d -> accepted d' = accepted d ->
  PendingQuicSendRetries d' = PendingQuicSendRetries d -> QuicSends d' = QuicSends d ->
  TcpReadStarted d' = TcpReadStarted d -> TcpReadClosed d' = TcpReadClosed d ->
  TcpReadPausedByQuicBacklog d' = TcpReadPausedByQuicBacklog d ->
  PendingQuicSendBytes d' = PendingQuicSendBytes d -> Live d'.
Proof.
  intros ((Hr & _) & [] & Ha) He H1 H2 H3 H4 H5 H6 H7 H8. split_and!; [split| |].
  - by eapply routes_fields.
  - done.
  - constructor; by rewrite ?H3, ?H5, ?H6, ?H8.
  - unfold Awake, outstanding in *. by rewrite H3, H4, H5, H6, H7.
Qed.

(** Only the budget changes: the handler gives a buffer back. *)
Lemma live_budget d d' : budget_only d d' -> Live d -> Live d'.
Proof. intros (c & p & ->) H. by eapply live_fields; [exact H|apply H|..]. Qed.


(** ** Reading *)

Lemma sys_build_failed h failed views s :
  Base (h + sum Reserved views) s -> 0 <= h -> Forall view_good views ->
  TerminalStarted (term s) = false ->
  Base h (build_failed failed views s) /\
  TerminalStarted (term (build_failed failed views s)) = true.
Proof.
  intros Hb Hh Hv Hs. unfold build_failed. set (s1 := if failed then _ else s).
  assert (Base (h + sum Reserved views) s1) as Hb1.
  { unfold s1. destruct failed; [|done]. destruct Hb as [Hg Hst Hi].
    split; [by eapply good_ext|done|by apply term_inv_data_early]. }
  destruct (base_terminate _ AllocationFailureTrigger s1 Hb1) as [H1 H2].
  split; [|done]. by apply base_free_views.
Qed.

Lemma flags_same d d' :
  same_reading d d' -> Flags d ->
  (TcpReadStarted d = true -> 0 <= ResumeBufferedQuicSendBytes cfg < MaxBufferedQuicSendBytes cfg ->
   PendingQuicSendBytes d' < MaxBufferedQuicSendBytes cfg) ->
  (ResumeBufferedQuicSendBytes cfg = 0 -> PendingQuicSendRetries d' <> [] ->
   TcpReadStarted d = false) -> Flags d'.
Proof.
  intros (H1 & H2 & _) [Hc _ _] Hb Hq. constructor; rewrite ?H1, ?H2; auto.
Qed.

(** While reading goes on the end has not been produced. *)
Lemma unfinished h s :
  Base h s -> Live (data s) -> TcpReadStarted (data s) = true ->
  TcpReadClosed (data s) = false /\ fins (produced (data s)) = 0%nat.
Proof.
  intros [(_ & _ & [_ _ _ Hone _ _]) _ _] (_ & [L1 _ _] & _) Hr.
  destruct (TcpReadClosed (data s)); [by rewrite L1 in Hr|]. split; [done|lia].
Qed.

Lemma sys_read_bytes e capacity bytes s :
  Base capacity s -> TerminalStarted (term s) = false -> Live (data s) ->
  TcpReadStarted (data s) = true -> 0 < capacity -> bytes <> [] ->
  Sys (read_bytes cfg e (Some capacity) bytes s).
Proof.
  intros Hb Hs Hl Hr Hcap Hne. destruct (unfinished _ _ Hb Hl Hr) as [_ Hf0]. unfold read_bytes.
  destruct (capacity <? size bytes) eqn:Esz; to_prop.
  { destruct (base_terminate _ TcpError s Hb) as [H1 H2].
    split; [by apply base_free; [| |lia]|cbn; congruence]. }
  set (s1 := on_data _ s). destruct Hb as [Hg Hst Hi].
  assert (Good cfg (0 + default 0 (Some capacity)) (data s1)) as Hg1 by (by eapply good_ext).
  destruct (BuildViews _ _ _ _ _ _ _) as [[[[built views] out] failed] d] eqn:Ebv.
  eapply (BuildViews_good Hcfg 0) in Ebv as (H1 & H2 & H3 & H4 & H5); try done; [|cbn; lia].
  pose proof (building_fields _ _ H3) as (F1 & F2 & F3 & F4 & F5 & F6 & F7 & F8 & F9 & F10).
  cbn in F1, F2, F3, F4, F5, F6, F7, F8, F9, F10.
  set (s2 := set_data (set_CompressedTcpBytes_ _ d) s1).
  assert (Good cfg (0 + sum Reserved views) (data s2)) as Hg2 by (by eapply good_ext).
  assert (TermInv s2) as Hi2 by (apply term_inv_data_early; [by apply term_inv_data_early|done]).
  assert (TcpReadBuffers (data s2) = []) as Hst2 by (cbn; by rewrite F4).
  destruct built; cbn [negb].
  2: { destruct (sys_build_failed 0 failed views s2) as [K1 K2]; [by constructor|done..|].
       split; [done|congruence]. }
  assert (encodes (cfg := cfg) (data s2)
            (concat (fst <$> produced (data s)) ++ concat (Bytes <$> views))) as He.
  { specialize (H4 eq_refl (tcp_input (data s)) (concat (fst <$> produced (data s)))).
    assert (encodes (cfg := cfg) (data s) (concat (fst <$> produced (data s)))) as Hc by apply Hl.
    specialize (H4 Hc). unfold encodes in *. cbn in *. by rewrite F5. }
  case_bool_decide as Hv.
  { subst views. rewrite sum_nil in Hg2. cbn in He. rewrite app_nil_r in He. split; [by constructor|].
    intros _. eapply live_fields; [exact Hl|..]; cbn; try done. by rewrite F9. }
  destruct (Submit _ _ _ _ _ _ _) as [r d'] eqn:Es.
  eapply (Submit_good Hcfg 0) in Es as (K1 & K2 & K3); [|done..| |done].
  2: { cbn. by rewrite F9. }
  set (s3 := set_data d' s2). pose proof K2 as (R1 & R2 & R3 & R4 & R5 & R6).
  assert (Base 0 s3) as Hb3.
  { split; [done|cbn; by rewrite R6|by apply term_inv_data_early]. }
  assert (r <> Fatal -> Core d' /\ outstanding d' /\ TcpReadStarted d' = true /\
          TcpReadClosed d' = TcpReadClosed (data s) /\
          (r = SubmittedResult -> PendingQuicSendRetries d' = PendingQuicSendRetries (data s)))
    as Hok.
  { intros Hnf. destruct (K3 Hnf) as (_ & P1 & P2).
    assert (ResumeBufferedQuicSendBytes cfg = 0 -> PendingQuicSendRetries (data s2) = []) as Hq.
    { intros Hz. cbn. rewrite F7. destruct (PendingQuicSendRetries (data s)) eqn:E; [done|].
      destruct Hl as (_ & [_ _ Hqu] & _). rewrite Hqu in Hr; [done|done|by rewrite E]. }
    split_and!.
    - eapply core_routed; [| |exact P1|exact P2|exact Hnf|exact Hq].
      + eapply routes_fields; [apply Hl|by cbn..].
      + cbn [fst]. unfold encodes in *. rewrite R4, R5. cbn in *. by rewrite F9.
    - unfold outstanding. destruct r; [left; apply P2| |done].
      right. destruct P2 as (_ & o & _ & ->). by intros [_ ?]%app_nil.
    - rewrite R1. cbn. by rewrite F1.
    - rewrite R2. cbn. by rewrite F2.
    - intros ->. destruct P2 as (_ & _ & ->). cbn. by rewrite F7. }
  destruct r; [| |by apply sys_terminate].
  all: destruct Hok as (Hcore & Hout & Hrs & Hcl & Hre); [done|].
  2: { cbn [orb]. change (data s3) with d'. rewrite Hrs. by apply base_pause. }
  cbn [orb]. change (data s3) with d'. rewrite Hrs, andb_true_r.
  destruct (negb _ && _) eqn:Em; [by apply base_pause|].
  split; [done|]. intros _. cbn [data s3 set_data]. split_and!; [done| |by intros _ _ _; left].
  destruct Hl as (_ & [L1 L2 L3] & _). constructor.
  - rewrite Hcl. intros Hx. by rewrite (L1 Hx) in Hr.
  - intros Hz _. apply andb_false_iff in Em as [Em|Em]; to_prop; lia.
  - rewrite Hre by done. intros Hz Hx. by rewrite (L3 Hz Hx) in Hr.
Qed.

Lemma base_owner (owner : option Z) s :
  Base (default 0 owner) s -> 0 <= default 0 owner ->
  Base 0 (on_data (fun d => match owner with Some b => free_buffer b d | None => d end) s).
Proof.
  intros Hb Ho. destruct owner; cbn in *; [by apply base_free|]. by destruct s, Hb.
Qed.

Lemma owner_budget_only (owner : option Z) d :
  budget_only d (match owner with Some b => free_buffer b d | None => d end).
Proof. destruct owner; [apply free_budget_only|apply budget_only_refl]. Qed.

Lemma sys_owner (owner : option Z) s :
  Base (default 0 owner) s -> 0 <= default 0 owner ->
  (TerminalStarted (term s) = false -> Live (data s)) ->
  Sys (on_data (fun d => match owner with Some b => free_buffer b d | None => d end) s).
Proof.
  intros Hb Ho Hl. split; [by apply base_owner|]. intros Hs. cbn.
  eapply live_budget; [apply owner_budget_only|]. by apply Hl.
Qed.

Lemma sys_read_eof e owner s :
  Base (default 0 owner) s -> 0 <= default 0 owner -> TerminalStarted (term s) = false ->
  Live (data s) -> TcpReadStarted (data s) = true -> Sys (read_eof cfg e owner s).
Proof.
  intros Hb Ho Hs Hl Hr. destruct (unfinished _ _ Hb Hl Hr) as [Hopen Hf0].
  destruct Hb as [Hg Hst Hi]. unfold read_eof. cbn zeta.
  change (TcpReadStarted (data (on_data (set_TcpReadClosed true) s)))
    with (TcpReadStarted (data s)). rewrite Hr.
  set (s1 := on_data (set_TcpReadStarted false) _). set (h := default 0 owner) in *.
  assert (Good cfg (h + default 0 None) (data s1)) as Hg1.
  { cbn [default from_option]. rewrite Z.add_0_r. eapply good_ext; [exact Hg|done..]. }
  destruct (BuildViews _ _ _ _ _ _ _) as [[[[built views] out] failed] d] eqn:Ebv.
  eapply (BuildViews_good Hcfg h) in Ebv as (H1 & H2 & H3 & H4 & _); try done.
  pose proof (building_fields _ _ H3) as (F1 & F2 & F3 & F4 & F5 & F6 & F7 & F8 & F9 & F10).
  cbn in F1, F2, F3, F4, F5, F6, F7, F8, F9, F10.
  set (s2 := set_data (set_CompressedTcpBytes_ _ d) s1).
  assert (Good cfg (h + sum Reserved views) (data s2)) as Hg2 by (by eapply good_ext).
  assert (TermInv s2) as Hi2 by (by repeat (apply term_inv_data_early; [|done])).
  assert (TcpReadBuffers (data s2) = []) as Hst2 by (cbn; by rewrite F4).
  assert (Base (h + sum Reserved views) s2) as Hb2 by (by constructor).
  destruct built; cbn [negb].
  2: { destruct (sys_build_failed h failed views s2) as [K1 K2]; [done..|].
       apply sys_owner; [done|done|congruence]. }
  destruct (Submit _ _ _ _ _ _ _) as [r d'] eqn:Es.
  eapply (Submit_good Hcfg h) in Es as (K1 & K2 & K3); [|done..| |].
  2: { cbn. by rewrite F9. }
  2: { intros _. cbn. by rewrite F2. }
  set (s3 := set_data d' s2). pose proof K2 as (R1 & R2 & R3 & R4 & R5 & R6).
  assert (Base h s3) as Hb3.
  { split; [done|cbn; by rewrite R6|by apply term_inv_data_early]. }
  assert (r <> Fatal -> forall d'', (d'' = d' \/ d'' = set_TcpReadPausedByQuicBacklog true d') ->
          Live d'') as Hlive.
  { intros Hnf d'' Hd''. destruct (K3 Hnf) as (_ & P1 & P2).
    assert (Core d') as Hc.
    { eapply core_routed; [| |exact P1|exact P2|exact Hnf|].
      - eapply routes_fields; [apply Hl|by cbn..].
      - specialize (H4 eq_refl (tcp_input (data s)) (concat (fst <$> produced (data s)))).
        assert (encodes (cfg := cfg) (data s) (concat (fst <$> produced (data s)))) as Hc by apply Hl.
        specialize (H4 Hc). cbn [fst]. unfold encodes in *. rewrite R4, R5. cbn in *.
        rewrite F9, F5. by rewrite app_nil_r in H4.
      - intros Hz. cbn. rewrite F7. destruct (PendingQuicSendRetries (data s)) eqn:E; [done|].
        destruct Hl as (_ & [_ _ Hqu] & _). rewrite Hqu in Hr; [done|done|by rewrite E]. }
    assert (TcpReadStarted d'' = false /\ TcpReadClosed d'' = true /\ Core d'') as (Q1 & Q2 & Q3).
    { cbn in R1, R2. destruct Hd'' as [->| ->]; cbn; rewrite R1, R2, F1, F2; split_and!; try done.
      destruct Hc as [[] ?]. by split. }
    split_and!; [done| |].
    - constructor; by rewrite Q1.
    - intros _ _. by rewrite Q2. }
  destruct r.
  - apply sys_owner; [done|done|]. intros _. apply Hlive; [done|by left].
  - apply sys_owner; [|done|].
    + split; [by eapply good_ext|cbn; by rewrite R6|].
      by repeat (apply term_inv_data_early; [|done]).
    + intros _. apply Hlive; [done|by right].
  - destruct (base_terminate _ QuicAbort s3 Hb3) as [T1 T2]. apply sys_owner; [done|done|congruence].
Qed.

(** libuv's read, as a whole. *)
Lemma sys_readable ok suggested e received s :
  Sys s -> TcpReadStarted (data s) = true -> 0 <= suggested ->
  Sys (tcp_readable cfg ok suggested e received s).
Proof.
  intros [[Hg Hst Hi] Hl] Hr Hsg.
  assert (TerminalStarted (term s) = false) as Hs.
  { destruct (TerminalStarted (term s)) eqn:E; [|done].
    destruct (t_after _ _ Hi E) as [Hx _]. by rewrite Hx in Hr. }
  specialize (Hl Hs). unfold tcp_readable.
  destruct (TqUvOnTcpAlloc _ _ _ _) as [buffer d] eqn:Ea.
  eapply (on_alloc_good Hcfg) in Ea as (Hbuf & Hsr & A1 & A2 & A3 & A4 & A5); [|done..].
  pose proof Hsr as (R1 & R2 & R3 & R4 & R5 & R6). cbn in R1, R2, R3, R4, R5, R6.
  assert (forall d', d' = d \/ d' = set_TcpReadBuffers [] d -> Live d') as Hlive.
  { intros d' Hd'. eapply live_fields; [exact Hl|..]; destruct Hd' as [->| ->]; cbn; try done.
    all: rewrite A3; destruct Hl as ((_ & Hc) & _); unfold encodes in *; cbn; by rewrite R4, R5. }
  destruct buffer as [[a b]|].
  - destruct Hbuf as (B1 & B2 & B4 & B3). unfold TqUvHandleTcpRead.
    change (data (set_data d s)) with d. rewrite (take_buffer_staged a b d B1).
    set (s1 := set_data _ (set_data d s)).
    assert (Base b s1) as Hb1 by (split; [done|done|by repeat (apply term_inv_data_early; [|done])]).
    assert (Live (data s1)) as Hl1 by (apply Hlive; by right).
    assert (TcpReadStarted (data s1) = true) as Hr1 by (cbn; by rewrite R1).
    destruct received as [bytes| | |].
    + destruct bytes as [|x bytes]; [by apply (sys_owner (Some b)); [|cbn; lia|]|].
      by apply sys_read_bytes.
    + by apply (sys_read_eof e (Some b)); [|cbn; lia|..].
    + destruct (sys_enobufs b e s1) as [E1 E2]; try done; [cbn; by rewrite B4|].
      by apply (sys_owner (Some b)); [|cbn; lia|].
    + set (s2 := on_data (set_TcpReadClosed true) s1).
      assert (Base b s2) as Hb2.
      { destruct Hb1 as [? ? ?]. split; [by eapply good_ext|done|by apply term_inv_data_early]. }
      destruct (base_terminate b TcpError s2 Hb2) as [T1 T2].
      apply (sys_owner (Some b)); [done|cbn; lia|]. congruence.
  - destruct Hbuf as (B1 & B2 & B3). unfold TqUvHandleTcpRead. cbn [take_buffer].
    set (s1 := set_data _ (set_data d s)).
    assert (Base 0 s1) as Hb1 by (split; [done|done|by repeat (apply term_inv_data_early; [|done])]).
    assert (Live (data s1)) as Hl1 by (apply Hlive; by left).
    destruct (sys_enobufs 0 e s1) as [E1 E2]; try done.
    { cbn. by rewrite R1. }
    { intros Hx. split; [done|]. by apply B3. }
    by apply (sys_owner None).
Qed.

(** ** Retrying *)

Lemma pop_retry d o rest :
  Good cfg 0 d -> PendingQuicSendRetries d = o :: rest ->
  let d1 := set_PendingQuicSendRetries rest d in
  Books cfg (TotalBytes o) (0 + reserved o) d1 /\ Ids d1 /\ Sent [payload o] d1 /\ op_good cfg o /\
  CompletionQueued o = false /\
  Address o ∉ Address <$> (QuicSends d1 ++ PendingQuicSendRetries d1) /\
  (Address o < NextAddress d1)%nat.
Proof.
  intros (Hb & [Hn Hbe Hq Hd Hre] & Hs) Hr d1.
  rewrite Hr in Hn, Hbe, Hre. rewrite fmap_app, fmap_cons in Hn. rewrite <- Permutation_middle in Hn.
  apply list.NoDup_cons in Hn as [Hfresh Hn]. rewrite <- fmap_app in Hfresh, Hn.
  rewrite Forall_app in Hbe. destruct Hbe as [Hbe1 Hbe2]. apply list.Forall_cons in Hbe2 as [Hbo Hbe2].
  apply list.Forall_cons in Hre as [Hqo Hre].
  pose proof (b_retries _ _ _ _ Hb) as Hgs. rewrite Hr in Hgs. apply list.Forall_cons in Hgs as [Hgo Hgs].
  pose proof (op_good_bounds _ _ Hgo). split_and!; try done.
  - destruct Hb as [B1 B2 B3 B4 B5 B6 B7 B8 B9 B10 B11 B12]. rewrite Hr, sum_cons in B1, B6.
    constructor; cbn; try done; lia.
  - constructor; cbn; try done. by apply Forall_app.
  - destruct Hs as [? ? Hc ? ? ?]. constructor; cbn; try done.
    rewrite Hr, fmap_cons, fins_cons in Hc. rewrite fins_one. change (fins []) with 0%nat in Hc. lia.
Qed.

(** Between a completion and the resumption that may follow it. *)
Definition Mid (s : State) : Prop :=
  Base 0 s /\ (TerminalStarted (term s) = false -> Core (data s) /\ Flags (data s)).

Lemma mid_effect s s' : Mid s -> Effect s s' -> Mid s'.
Proof.
  intros [Hb Hl] He. split; [by eapply base_effect|]. intros Hs.
  destruct (e_data _ _ He) as [[-> Hst]|[Hst _]]; [|congruence]. apply Hl. congruence.
Qed.

(** One round that the queue's head survives. *)
Lemma retry_routes d o rest r d' :
  Routes d -> PendingQuicSendRetries d = o :: rest -> r <> Fatal ->
  produced d' = produced d -> routed (payload o) r (set_PendingQuicSendRetries rest d) d' -> Routes d'.
Proof.
  intros [Hp Ho] Hr Hnf Hpr Hro. rewrite Hr, fmap_cons in Hp, Ho. destruct r; [| |done]; cbn in Hro.
  - destruct Hro as (Ha & _ & Hre). constructor; rewrite Hpr, Ha, Hre, <- app_assoc; [done|].
    intros Hz. destruct (Ho Hz) as [-> Hl]. split; [done|]. cbn in Hl. lia.
  - destruct Hro as (Ha & o' & Hpo & Hre). constructor; rewrite Hpr, Ha, Hre, fmap_app; cbn; rewrite Hpo.
    + rewrite Hp. apply Permutation_app_head, Permutation_cons_append.
    + intros Hz. destruct (Ho Hz) as [-> Hl]. destruct rest; [done|cbn in Hl; lia].
Qed.

Lemma retry_loop_mid fuel es s :
  Mid s ->
  Mid (retry_loop fuel es s) /\
  (TerminalStarted (term (retry_loop fuel es s)) = false ->
   TerminalStarted (term s) = false /\ same_reading (data s) (data (retry_loop fuel es s)) /\
   (outstanding (data s) -> outstanding (data (retry_loop fuel es s)))).
Proof.
  revert es s. induction fuel as [|fuel IH]; intros es s Hm; cbn [retry_loop]; [done|].
  destruct (TerminalStarted (term s)) eqn:Hs; [by split; [|congruence]|].
  destruct (PendingQuicSendRetries (data s)) as [|o rest] eqn:Hr; [by split|].
  destruct Hm as [[Hg Hst Hi] Hl]. destruct (Hl Hs) as [[Hrt Hc] Hf]. clear Hl.
  set (e := default _ _).
  destruct (pop_retry (data s) o rest Hg Hr) as (P1 & P2 & P3 & P4 & P5 & P6 & P7).
  destruct (TrySubmitOperation _ _ _ _) as [r d'] eqn:Et.
  eapply (try_submit_good Hcfg 0 e true) in Et as (T1 & T2 & T3 & T4 & T5); [|done..].
  assert (same_reading (data s) d') as Hsr by (by etrans; [|exact T2]).
  set (s1 := set_data d' s).
  assert (Base 0 s1) as Hb1.
  { split; [done| |by apply term_inv_data_early]. destruct Hsr as (_ & _ & _ & _ & _ & Hx).
    cbn. by rewrite Hx. }
  assert (r <> Fatal -> Mid s1 /\ outstanding d') as Hok.
  { intros Hnf. split; [split; [done|]|].
    - intros _. specialize (T5 Hnf). cbn in T5. destruct Hsr as (R1 & R2 & R3 & R4 & R5 & _).
      split; [split|].
      + by eapply retry_routes.
      + cbn. rewrite T3. cbn. unfold encodes in *. by rewrite R4, R5.
      + destruct Hf as [F1 F2 F3]. constructor; cbn; rewrite ?R1, ?R2, ?T5, ?Z.add_0_r; [done|done|].
        intros Hz _. apply (F3 Hz). by rewrite Hr.
    - unfold outstanding. destruct r; [left; apply T4| |done].
      right. destruct T4 as (_ & o' & _ & ->). by intros [_ ?]%app_nil. }
  destruct r.
  - destruct Hok as [Hm1 Ho1]; [done|]. destruct (IH (tail es) s1 Hm1) as [I1 I2]. split; [done|].
    intros Hx. destruct (I2 Hx) as (_ & I3 & I4). split_and!; [done|by etrans|]. intros _. by apply I4.
  - destruct Hok as [Hm1 Ho1]; [done|]. by split_and!.
  - destruct (base_terminate 0 QuicAbort s1 Hb1) as [B1 B2]. split; [|congruence].
    split; [done|congruence].
Qed.

Lemma retry_mid es s :
  Mid s ->
  Mid (TqUvRetryPendingQuicSends es s) /\
  (TerminalStarted (term (TqUvRetryPendingQuicSends es s)) = false ->
   TerminalStarted (term s) = false /\
   same_reading (data s) (data (TqUvRetryPendingQuicSends es s)) /\
   (outstanding (data s) -> outstanding (data (TqUvRetryPendingQuicSends es s)))).
Proof. apply retry_loop_mid. Qed.

Lemma sys_mid s : Sys s -> Mid s.
Proof. intros [Hb Hl]. split; [done|]. intros Hs. by destruct (Hl Hs) as (? & ? & _). Qed.

Lemma awake_same d d' :
  same_reading d d' -> (outstanding d -> outstanding d') -> Awake d -> Awake d'.
Proof.
  intros (R1 & R2 & R3 & _) Ho Ha. unfold Awake in *. rewrite R1, R2, R3. intros H1 H2 H3.
  destruct (Ha H1 H2 H3) as [?|[? ?]]; [by left|right; auto].
Qed.

Lemma sys_retry es s : Sys s -> Sys (TqUvRetryPendingQuicSends es s).
Proof.
  intros Hsys. destruct (retry_mid es s (sys_mid s Hsys)) as [[Hb Hl] Hx]. split; [done|].
  intros Hs. destruct (Hx Hs) as (Hs0 & Hr & Ho). destruct (Hl Hs) as [? ?]. split_and!; [done..|].
  destruct Hsys as [_ Hlive]. destruct (Hlive Hs0) as (_ & _ & Ha). by eapply awake_same.
Qed.

(** ** Completing *)

(** Nothing outstanding means nothing pending, so that reading resumes. *)
Lemma idle_books d :
  Good cfg 0 d -> TcpReadBuffers d = [] -> ~ outstanding d ->
  PendingQuicSendBytes d = 0 /\ PendingBufferBytes d = 0.
Proof.
  intros (Hb & _) Hst Ho. unfold outstanding in Ho.
  pose proof (b_pending _ _ _ _ Hb) as H1. pose proof (b_budget _ _ _ _ Hb) as H2.
  assert (QuicSends d = [] /\ PendingQuicSendRetries d = []) as [Hs Hr].
  { destruct (QuicSends d); [|by destruct Ho; left]. destruct (PendingQuicSendRetries d); [done|].
    destruct Ho. by right. }
  rewrite Hs, Hr, !sum_nil in H1. rewrite Hs, Hr, Hst, !sum_nil in H2. lia.
Qed.

Lemma outstanding_dec d : outstanding d \/ ~ outstanding d.
Proof.
  unfold outstanding. destruct (QuicSends d); [|left; by left].
  destruct (PendingQuicSendRetries d); [right; by intros []|left; by right].
Qed.

Lemma sys_resume start_ok s :
  Mid s ->
  (TerminalStarted (term s) = false -> TcpReadChunkSize cfg <= MaxPendingBufferBytes cfg ->
   0 <= ResumeBufferedQuicSendBytes cfg -> TcpReadClosed (data s) = false ->
   TcpReadStarted (data s) = true \/ TcpReadPausedByQuicBacklog (data s) = true) ->
  Sys (resume_reading cfg start_ok s).
Proof.
  intros [Hb Hl] Ha. unfold resume_reading. destruct (_ && _) eqn:E.
  - apply andb_true_iff in E as [E E5]. apply andb_true_iff in E as [E E4].
    apply andb_true_iff in E as [E E3]. apply andb_true_iff in E as [E1 E2]. to_prop.
    destruct start_ok; [|by apply sys_terminate]. destruct Hb as [Hg Hst Hi]. split; [split|].
    + by eapply good_ext.
    + done.
    + by apply term_inv_data_early.
    + intros _. destruct (Hl E1) as [[[] Hc] [F1 F2 F3]]. cbn. split_and!.
      * by split.
      * constructor; cbn.
        -- by rewrite E3.
        -- intros Hz _. lia.
        -- intros Hz Hr. exfalso. destruct Hg as (Hbk & _ & Hsn).
           pose proof (books_bounds _ _ _ Hbk) as Hbb. pose proof (b_retries _ _ _ _ Hbk) as Hre.
           pose proof (b_pending _ _ _ _ Hbk) as Hpe. destruct Hsn as [_ _ Hcount Honce _ _].
           destruct (PendingQuicSendRetries (data s)) as [|o l] eqn:El; [done|].
           rewrite sum_cons in *. apply list.Forall_cons in Hre as [Hgo Hgl].
           assert (Fin o = false) as Hfo.
           { rewrite fmap_cons, fins_cons in Hcount. cbn [snd payload] in Hcount.
             rewrite E3 in Honce. destruct (Fin o); [lia|done]. }
           pose proof (op_good_pos _ _ Hgo Hfo). pose proof (ops_bounds _ _ Hgl). lia.
      * intros _ _ _. by left.
  - split; [done|]. intros Hs. destruct (Hl Hs) as [Hc Hf]. split_and!; [done..|].
    intros H1 H2 H3. destruct (Ha Hs H1 H2 H3) as [?|Hp]; [by left|right]. split; [done|].
    destruct (outstanding_dec (data s)) as [?|Ho]; [done|]. exfalso.
    destruct Hb as [Hg Hst _]. destruct (idle_books _ Hg Hst Ho) as [Z1 Z2].
    rewrite Hs, Hp, H3, Z1, Z2 in E. cbn in E.
    rewrite (proj2 (Z.leb_le _ _)) in E by done. done.
Qed.

Lemma sent_completed d :
  Good cfg 0 d -> (exists o, payload o ∈ accepted d /\ Fin o = true) ->
  Good cfg 0 (set_QuicFinCompleted true d).
Proof.
  intros (Hb & Hi & Hs) (o & Hin & Hf). split_and!; [by destruct Hb|by destruct Hi|].
  destruct Hs. constructor; try done. intros _. cbn.
  apply list_elem_of_split in Hin as (l & k & ->). rewrite fins_app, fins_cons. cbn. rewrite Hf. lia.
Qed.

Lemma sys_complete es start_ok a s :
  Sys s -> Sys (perform cfg rcfg (DispatchCompletion a es start_ok) s).
Proof.
  intros Hsys. cbn [perform]. case_bool_decide as Ha; [|done].
  destruct Hsys as [[Hg Hst Hi] Hl].
  destruct (complete_good Hcfg 0 a (data s) Hg Ha) as (o & Hf & Hq & Hgo & Hpa & Hg2 & Hd2).
  unfold TqUvHandleSendComplete. cbn [data on_data set_data QuicSends set_Completions].
  rewrite Hf. rewrite (og_identity _ _ Hgo), bool_decide_eq_true_2 by done. cbn [negb].
  set (s2 := on_data (ReleasePendingSend _) _).
  assert (data s2 = ReleasePendingSend (TotalBytes o)
            (drop_operation o (set_QuicSends (erase_send a (QuicSends (data s)))
               (set_Completions (filter (.≠ a) (Completions (data s))) (data s))))) as Hds by done.
  assert (data s2 = set_QuicSends (erase_send a (QuicSends (data s)))
            (UvSend.ledger (- TotalBytes o) (buffers (- reserved o)
               (set_Completions (filter (.≠ a) (Completions (data s))) (data s))))) as Hd
    by (by rewrite Hds).
  change (Good cfg 0 (data s2)) in Hg2. assert (term s2 = term s) as Ht by done. clearbody s2. clear Hds Hd2.
  assert (TerminalReleased (term s) = false) as Hrel.
  { destruct (TerminalReleased (term s)) eqn:E; [|done].
    destruct (t_released _ _ Hi E) as (_ & _ & Hx & _). by rewrite Hx in Hf. }
  assert (TermInv s2) as Hi2.
  { eapply term_inv_ext; [apply (term_inv_data s (data s2))|..]; try done.
    - rewrite Hd. cbn. intros Hx. by apply (t_after _ _ Hi).
    - rewrite Hd. cbn. apply (t_abort _ _ Hi).
    - congruence. }
  assert (Base 0 s2) as Hb2 by (split; [done|by rewrite Hd|done]).
  pose proof (op_good_bounds _ _ Hgo) as Hbo.
  assert (Mid s2) as Hm2.
  { split; [done|]. rewrite Ht. intros Hs. destruct (Hl Hs) as ([[] Hc] & [F1 F2 F3] & _).
    rewrite Hd. split; [by split|]. constructor; cbn; try done. intros H1 H2. specialize (F2 H1 H2). lia. }
  assert (TerminalStarted (term s2) = false -> TcpReadChunkSize cfg <= MaxPendingBufferBytes cfg ->
          0 <= ResumeBufferedQuicSendBytes cfg -> TcpReadClosed (data s2) = false ->
          TcpReadStarted (data s2) = true \/ TcpReadPausedByQuicBacklog (data s2) = true) as Ha2.
  { rewrite Ht, Hd. cbn. intros Hs H1 H2 H3. destruct (Hl Hs) as (_ & _ & Haw).
    destruct (Haw H1 H2 H3) as [?|[? _]]; [by left|by right]. }
  assert (payload o ∈ accepted (data s2)) as Hpa2 by (by rewrite Hd).
  clear Hl Hi Hg Hst Hf Ha Hrel Hd. clear dependent s.
  destruct (CompletionCancelled o); [by apply sys_terminate|].
  set (s3 := if Fin o then _ else s2).
  assert (Mid s3 /\ (TerminalStarted (term s3) = false ->
            TerminalStarted (term s2) = false /\ same_reading (data s2) (data s3))) as [Hm3 Hx3].
  { unfold s3. destruct (Fin o) eqn:Ef; [|done].
    set (s4 := on_data (set_QuicFinCompleted true) s2).
    assert (Mid s4) as Hm4.
    { destruct Hb2 as [Hg ? ?]. split; [split|].
      - apply sent_completed; [done|by exists o].
      - done.
      - eapply term_inv_ext; [apply (term_inv_data s2 (data s4))|..]; try done.
        + intros Hx. by apply (t_after _ _ Hi2).
        + apply (t_abort _ _ Hi2).
        + intros Hx. apply (t_released _ _ Hi2) in Hx. tauto.
      - intros Hs. destruct Hm2 as [_ Hl]. destruct (Hl Hs) as [[[] ?] []]. by split_and!. }
    assert (TermInv s4) as Hi4 by apply Hm4.
    pose proof (convergence_effect s4 Hi4) as He. split; [by eapply mid_effect|].
    intros Hx. destruct (e_data _ _ He) as [[-> Hy]|[Hy _]]; [|congruence].
    split; [|unfold same_reading; by split_and!].
    change (TerminalStarted (term s4) = false). congruence. }
  clearbody s3. destruct (retry_mid es s3 Hm3) as [Hm4 Hx4].
  assert (Sys (resume_reading cfg start_ok (TqUvRetryPendingQuicSends es s3))) as Hsys.
  { apply sys_resume; [done|]. intros Hs H1 H2. destruct (Hx4 Hs) as (Hs3 & R4 & _).
    destruct (Hx3 Hs3) as [Hs2 R3].
    destruct (transitivity R3 R4) as (R5 & R6 & R7 & _). rewrite R5, R6, R7. by apply Ha2. }
  eapply sys_effect; [exact Hsys|]. apply convergence_effect, Hsys.
Qed.

(** ** Every action *)

(** The answers and the receiving half are not in it. *)
Lemma sys_ext s s' : Sys s -> data s' = data s -> term s' = term s -> Sys s'.
Proof.
  intros [[? ? ?] ?] Hd Ht. split; [split; [by rewrite Hd|by rewrite Hd|by eapply term_inv_ext]|].
  by rewrite Hd, Ht.
Qed.

Lemma sys_same_core r s : Sys s -> same_core (term s) r -> Sys (set_term r s).
Proof.
  intros [[? ? ?] Hl] Hc. split; [split; [done|done|by apply inv_core]|].
  cbn. destruct Hc as (-> & _). done.
Qed.

Lemma sys_request t s : Sys s -> Sys (TqUvRequestTerminal t s).
Proof. intros H. apply sys_same_core; [done|]. by destruct s as [? []]. Qed.

(** The receiving half's handlers. *)
Lemma sys_calls s s' : Calls s s' -> Sys s -> Sys s'.
Proof.
  induction 1 as [s s' Hd Ht|t s|s|s|s1 s2 s3 _ IH1 _ IH2]; intros Hs.
  - by eapply sys_ext.
  - by apply sys_request.
  - eapply sys_effect; [exact Hs|]. apply convergence_effect, Hs.
  - eapply sys_effect; [exact Hs|]. apply facts_effect, Hs.
  - auto.
Qed.

Lemma sys_closed s : Sys s -> TcpClosePending (term s) = true -> Sys (TqUvOnTcpClosed s).
Proof.
  intros [[Hg Hst Hi] Hl] Hp. unfold TqUvOnTcpClosed.
  set (s1 := on_term _ s).
  assert (TerminalStarted (term s) = true) as Hs.
  { destruct (TerminalStarted (term s)) eqn:E; [done|].
    destruct (t_before _ _ Hi E) as [Hx _]. congruence. }
  assert (Sys s1) as Hs1.
  { split; [|cbn; congruence]. split; [done|done|]. destruct Hi as [Hb Ha Hab Hr Hreg Hc Hy].
    constructor; cbn; try done; [congruence|]. intros H. specialize (Hr H). tauto. }
  change (TerminalStarted (term s1)) with (TerminalStarted (term s)). rewrite Hs. cbn [negb].
  eapply sys_effect; [exact Hs1|]. apply convergence_effect, Hs1.
Qed.

Lemma sys_other_relay bytes s :
  Sys s -> 0 <= bytes -> AccountedTcpToQuicBytes (data s) + bytes <= UINT64_MAX ->
  Sys (on_data (fun d => set_OtherRelays bytes
                (set_TcpToQuicPendingBytes_ (AccountedTcpToQuicBytes d + bytes) d)) s).
Proof.
  intros [[Hg Hst Hi] Hl] H0 Hm. split; [split|].
  - destruct Hg as ([] & [] & []). split_and!; constructor; cbn; done.
  - done.
  - eapply term_inv_ext; [apply (term_inv_data s)|..]; try done; cbn.
    + intros Hx. by apply (t_after _ _ Hi).
    + apply (t_abort _ _ Hi).
    + intros Hx. apply (t_released _ _ Hi) in Hx. tauto.
  - intros Hs. eapply live_fields; [by apply Hl|..]; try done. by apply Hl.
Qed.

Lemma sys_queue a c s : Sys s -> Sys (on_data (QueueSendComplete a c) s).
Proof.
  intros [[Hg Hst Hi] Hl].
  assert (exists l q, QueueSendComplete a c (data s) = set_Completions q (set_QuicSends l (data s)) /\
            (l = [] <-> QuicSends (data s) = [])) as (l & q & Hd & Hn).
  { unfold QueueSendComplete. destruct (find_send _ _) as [o|]; [destruct (CompletionQueued o)|].
    2: { eexists _, _. split; [done|]. split; [by intros ?%fmap_nil_inv|by intros ->]. }
    all: exists (QuicSends (data s)), (Completions (data s)); by destruct (data s). }
  split; [split|].
  - by apply good_queue.
  - cbn. rewrite Hd. done.
  - eapply term_inv_ext; [apply (term_inv_data s (QueueSendComplete a c (data s)))|..]; try done; rewrite Hd; cbn.
    + intros Hx. by apply (t_after _ _ Hi).
    + apply (t_abort _ _ Hi).
    + intros Hx. apply (t_released _ _ Hi) in Hx. tauto.
  - intros Hs. cbn. rewrite Hd. destruct (Hl Hs) as ([[] Hc] & [] & Ha). split_and!; [by split|by constructor|].
    unfold Awake, outstanding in *. cbn. rewrite Hn. exact Ha.
Qed.

(** Every action keeps the invariant. *)
Lemma sys_perform act s : Sys s -> Sys (perform cfg rcfg act s).
Proof.
  intros Hs. assert (TermInv s) as Hi by apply Hs. destruct act; cbn [perform].
  - destruct (TcpReadStarted (data s)) eqn:E; [|done]. apply sys_readable; [done|done|lia].
  - by apply sys_queue.
  - by apply (sys_complete es start_ok a s).
  - unfold retry_scan. destruct (_ && _); [|done]. by apply sys_retry.
  - unfold terminal_scan. destruct (_ && _); [|done]. eapply sys_effect; [done|]. by apply facts_effect.
  - destruct (Registered (term s)); [|done]. eapply sys_effect; [done|]. by apply terminate_effect.
  - by apply sys_request.
  - destruct (TcpShutdownPending _); [|done]. unfold TqUvOnTcpShutdownComplete.
    set (s1 := on_recv _ s). assert (Sys s1) as Hs1 by (by eapply sys_ext). destruct ok.
    + set (s2 := on_recv _ s1). assert (Sys s2) as Hs2 by (by eapply sys_ext).
      eapply sys_effect; [exact Hs2|]. apply convergence_effect, Hs2.
    + eapply sys_effect; [exact Hs1|]. apply terminate_effect, Hs1.
  - destruct (TcpClosePending (term s)) eqn:E; [|done]. by apply sys_closed.
  - unfold quic_shutdown_complete. set (s1 := on_term _ s).
    assert (Sys s1) as Hs1 by (apply sys_same_core; [done|by destruct s as [? []]]).
    destruct (negb _); [by apply sys_request|done].
  - destruct (event_ok _); [|done]. unfold accept_receive. destruct (Admitting _); by eapply sys_ext.
  - by eapply sys_ext.
  - unfold accept_fin. case_bool_decide; by eapply sys_ext.
  - by eapply sys_calls; [apply calls_queue_receive|].
  - by eapply sys_calls; [apply calls_continue|].
  - by eapply sys_calls; [apply calls_write_complete|].
  - by eapply sys_ext.
  - destruct (_ && _) eqn:E; [|done]. to_prop. by apply sys_other_relay.
Qed.

Lemma sys_start bytes r :
  0 <= bytes <= UINT64_MAX -> Sys (start rcfg bytes r).
Proof.
  intros Hb. pose proof (c_max _ Hcfg). unfold start.
  eapply sys_calls; [apply calls_process|]. split; [split|].
  - split_and!; constructor; cbn; rewrite ?sum_nil; try done; try lia; try constructor.
    + by intros ?%elem_of_nil.
    + by intros (? & ?%elem_of_nil & _).
  - done.
  - by constructor.
  - intros _. cbn. split_and!; [split| |].
    + constructor; cbn; [done|]. split; [done|lia].
    + unfold encodes. destruct (Compressing cfg); [|done]. split; [constructor|done].
    + constructor; cbn; [done|lia|done].
    + intros _ _ _. by left.
Qed.

Lemma sys_run acts s : Sys s -> Sys (run cfg rcfg acts s).
Proof.
  revert s. induction acts as [|[act l] acts IH]; intros s Hs; [done|]. cbn.
  apply IH, sys_perform. by eapply sys_ext.
Qed.

(** ** Retries after a graceful terminal *)

(** Progress of a relay whose terminal has started: an abort may come, else the queue stays. *)
Definition kept (s s' : State) : Prop :=
  TerminalStarted (term s') = true /\
  (TerminalAborted (term s) = true -> TerminalAborted (term s') = true) /\
  (TerminalAborted (term s') = true \/
   PendingQuicSendRetries (data s') = PendingQuicSendRetries (data s)).

Lemma kept_trans s1 s2 s3 : kept s1 s2 -> kept s2 s3 -> kept s1 s3.
Proof.
  intros (_ & A1 & B1) (C & A2 & B2). split_and!; [done|auto|].
  destruct B2 as [?|B2]; [by left|]. destruct B1 as [?|B1]; [left; auto|right; congruence].
Qed.

Lemma kept_same s s' :
  TerminalStarted (term s) = true -> TerminalStarted (term s') = TerminalStarted (term s) ->
  TerminalAborted (term s') = TerminalAborted (term s) ->
  PendingQuicSendRetries (data s') = PendingQuicSendRetries (data s) -> kept s s'.
Proof. intros H1 H2 H3 H4. split_and!; [congruence|congruence|by right]. Qed.

Lemma kept_effect s s' :
  TerminalStarted (term s) = true -> TermInv s -> Effect s s' -> kept s s'.
Proof.
  intros Hs Hi [_ Hd _ Hm]. split_and!; [|done|].
  - destruct Hd as [[_ ->]|[? _]]; done.
  - assert (stop_reading (data s) = data s) as Hstop.
    { unfold stop_reading. destruct (t_after _ _ Hi Hs) as [-> _]. done. }
    destruct Hd as [[-> _]|[_ [->|[_ ?]]]]; [by right|right; by rewrite Hstop|by left].
Qed.

Lemma kept_calls s s' :
  Calls s s' -> TermInv s -> TerminalStarted (term s) = true -> kept s s' /\ TermInv s'.
Proof.
  induction 1 as [s s' Hd Ht|t s|s|s|s1 s2 s3 _ IH1 _ IH2]; intros Hi Hs.
  - split; [apply kept_same; congruence|by eapply term_inv_ext].
  - split; [by apply kept_same|by apply request_inv].
  - pose proof (convergence_effect s Hi) as He. split; [by apply kept_effect|apply He].
  - destruct (facts_effect s Hi) as [He _]. split; [by apply kept_effect|apply He].
  - destruct (IH1 Hi Hs) as [K1 Hi1]. destruct (IH2 Hi1) as [K2 Hi2]; [apply K1|].
    split; [by eapply kept_trans|done].
Qed.

Lemma retry_started es s :
  TerminalStarted (term s) = true -> TqUvRetryPendingQuicSends es s = s.
Proof.
  intros Hs. unfold TqUvRetryPendingQuicSends.
  destruct (length (PendingQuicSendRetries (data s))); [done|]. cbn. by rewrite Hs.
Qed.

Lemma resume_started ok s : TerminalStarted (term s) = true -> resume_reading cfg ok s = s.
Proof. intros Hs. unfold resume_reading. by rewrite Hs. Qed.

Lemma kept_complete es start_ok a s :
  Sys s -> TerminalStarted (term s) = true ->
  kept s (perform cfg rcfg (DispatchCompletion a es start_ok) s).
Proof.
  intros [[Hg Hst Hi] _] Hs. cbn [perform]. case_bool_decide as Ha; [|by apply kept_same].
  destruct (complete_good Hcfg 0 a (data s) Hg Ha) as (o & Hf & Hq & Hgo & Hpa & Hg2 & Hd2).
  unfold TqUvHandleSendComplete. cbn [data on_data set_data QuicSends set_Completions].
  rewrite Hf. rewrite (og_identity _ _ Hgo), bool_decide_eq_true_2 by done. cbn [negb].
  set (s2 := on_data (ReleasePendingSend _) _).
  assert (data s2 = set_QuicSends (erase_send a (QuicSends (data s)))
            (UvSend.ledger (- TotalBytes o) (buffers (- reserved o)
               (set_Completions (filter (.≠ a) (Completions (data s))) (data s))))) as Hd
    by exact Hd2.
  assert (term s2 = term s) as Ht by done.
  assert (TerminalReleased (term s) = false) as Hrel.
  { destruct (TerminalReleased (term s)) eqn:E; [|done].
    destruct (t_released _ _ Hi E) as (_ & _ & Hx & _). by rewrite Hx in Hf. }
  assert (TermInv s2) as Hi2.
  { eapply term_inv_ext; [apply (term_inv_data s (data s2))|..]; try done; rewrite Hd; cbn.
    - intros Hx. by apply (t_after _ _ Hi).
    - apply (t_abort _ _ Hi).
    - congruence. }
  assert (kept s s2) as Hk2 by (apply kept_same; [done..|by rewrite Hd]).
  assert (TerminalStarted (term s2) = true) as Hs2 by (by rewrite Ht).
  clearbody s2. eapply kept_trans; [exact Hk2|]. clear dependent s.
  destruct (CompletionCancelled o); [by apply kept_effect; [..|apply terminate_effect]|].
  set (s3 := if Fin o then _ else s2).
  assert (kept s2 s3 /\ TermInv s3) as [Hk3 Hi3].
  { unfold s3. destruct (Fin o); [|split; [by apply kept_same|done]].
    set (s4 := on_data (set_QuicFinCompleted true) s2).
    assert (TermInv s4) as Hi4.
    { eapply term_inv_ext; [apply (term_inv_data s2 (data s4))|..]; try done.
      - intros Hx. by apply (t_after _ _ Hi2).
      - apply (t_abort _ _ Hi2).
      - intros Hx. apply (t_released _ _ Hi2) in Hx. tauto. }
    pose proof (convergence_effect s4 Hi4) as He. split; [|apply He].
    eapply kept_trans; [apply (kept_same s2 s4); done|]. by apply kept_effect. }
  clearbody s3. assert (TerminalStarted (term s3) = true) as Hs3 by apply Hk3.
  eapply kept_trans; [exact Hk3|]. rewrite retry_started, resume_started by done.
  apply kept_effect; [done|done|]. by apply convergence_effect.
Qed.

Lemma kept_perform act s :
  Sys s -> TerminalStarted (term s) = true -> kept s (perform cfg rcfg act s).
Proof.
  intros Hsys Hs. assert (TermInv s) as Hi by apply Hsys. destruct act; cbn [perform].
  - destruct (t_after _ _ Hi Hs) as [-> _]. by apply kept_same.
  - apply kept_same; try done. cbn. unfold QueueSendComplete. by repeat case_match.
  - by apply (kept_complete es start_ok a s).
  - unfold retry_scan. destruct (_ && _); [rewrite retry_started by done|]; by apply kept_same.
  - unfold terminal_scan. destruct (_ && _); [|by apply kept_same].
    apply kept_effect; [done|done|]. by apply facts_effect.
  - destruct (Registered (term s)); [|by apply kept_same].
    apply kept_effect; [done|done|]. by apply terminate_effect.
  - by apply kept_same.
  - destruct (TcpShutdownPending _); [|by apply kept_same].
    unfold TqUvOnTcpShutdownComplete. set (s1 := on_recv _ s).
    assert (TermInv s1) as Hi1 by (by eapply term_inv_ext). destruct ok.
    + set (s2 := on_recv _ s1). eapply kept_trans; [by apply (kept_same s s2)|].
      apply kept_effect; [done|by eapply term_inv_ext|].
      by apply convergence_effect; eapply term_inv_ext.
    + eapply kept_trans; [by apply (kept_same s s1)|].
      apply kept_effect; [done|done|]. by apply terminate_effect.
  - destruct (TcpClosePending (term s)) eqn:E; [|by apply kept_same].
    unfold TqUvOnTcpClosed. set (s1 := on_term _ s).
    change (TerminalStarted (term s1)) with (TerminalStarted (term s)). rewrite Hs. cbn [negb].
    assert (TermInv s1) as Hi1.
    { destruct Hi as [Hb Ha Hab Hr Hreg Hc Hy].
      constructor; cbn; try done; [congruence|]. intros H. specialize (Hr H). tauto. }
    eapply kept_trans; [by apply (kept_same s s1)|].
    apply kept_effect; [done|done|]. by apply convergence_effect.
  - unfold quic_shutdown_complete. destruct (negb _); by apply kept_same.
  - destruct (event_ok _); [|by apply kept_same].
    unfold accept_receive. destruct (Admitting _); by apply kept_same.
  - by apply kept_same.
  - unfold accept_fin. case_bool_decide; by apply kept_same.
  - by apply kept_calls; [apply calls_queue_receive|..].
  - by apply kept_calls; [apply calls_continue|..].
  - by apply kept_calls; [apply calls_write_complete|..].
  - by apply kept_same.
  - destruct (_ && _); by apply kept_same.
Qed.

Lemma kept_run acts s :
  Sys s -> TerminalStarted (term s) = true -> kept s (run cfg rcfg acts s).
Proof.
  revert s. induction acts as [|[act l] acts IH]; intros s Hsys Hs; [by apply kept_same|].
  cbn. set (s1 := tell l s). assert (Sys s1) as Hs1 by (by eapply sys_ext).
  pose proof (kept_perform act s1 Hs1 Hs) as Hk.
  eapply kept_trans; [eapply kept_trans; [by apply (kept_same s s1)|exact Hk]|].
  apply IH; [by apply sys_perform|apply Hk].
Qed.

(** ** The end of the stream *)

Lemma fins_last l u k : fins (removelast (l ++ u :: k)) = 0%nat -> snd u = true -> k = [].
Proof.
  intros H Hu. destruct k as [|x k] using rev_ind; [done|].
  rewrite app_comm_cons, app_assoc, removelast_last, fins_app, fins_cons, Hu in H. lia.
Qed.

End Invariant.

(** ** Properties *)

Section Properties.
  Context {K : ITqCompressor} (cfg : Config) (rcfg : ReceiveConfig) (Hcfg : Config_ok cfg).
  Context (bytes : Z) (Hbytes : 0 <= bytes <= UINT64_MAX) (early : Recv)
    (acts : list (Action * Told)).

Local Notation after := (run cfg rcfg acts (start rcfg bytes early)).

Lemma sys_reachable : Sys (cfg := cfg) after.
Proof. by apply sys_run, sys_start. Qed.

(** C1. What is read from TCP is what MsQuic is given.  The stream ends at most once, and the unit
    that ends it is the last the relay produces.  While the terminal has not started no unit is
    lost, made up or duplicated, and the units' bytes are the bytes read (or the compressor's output
    on them).  When the resume threshold is zero the sends are in the order of the reads, so that the
    end, once sent, is the last unit sent and nothing is queued behind it; with a threshold above
    zero a queued retry may be overtaken, by the end too ([Demo.end_overtakes_retries]). *)
Theorem stream_is_carried_whole :
  let d := data after in
  (fins (accepted d) <= 1)%nat /\
  (QuicFinCompleted d = true -> fins (accepted d) = 1%nat) /\
  (forall l u k, produced d = l ++ u :: k -> snd u = true -> k = []) /\
  (TerminalStarted (term after) = false ->
   produced d ≡ₚ accepted d ++ (payload <$> PendingQuicSendRetries d) /\
   (if Compressing cfg
    then Compressed (CompressorCalls d) (concat (fst <$> produced d)) /\
         inputs (CompressorCalls d) = tcp_input d
    else concat (fst <$> produced d) = tcp_input d) /\
   (ResumeBufferedQuicSendBytes cfg = 0 ->
    produced d = accepted d ++ (payload <$> PendingQuicSendRetries d) /\
    (forall l u k, accepted d = l ++ u :: k -> snd u = true ->
       k = [] /\ PendingQuicSendRetries d = []))).
Proof.
  destruct sys_reachable as [[(_ & _ & [_ _ Hcount Honce Hlast Hcomp]) _ _] Hl]. cbn zeta.
  assert (fins (accepted (data after)) <= 1)%nat as Hle
    by (destruct (TcpReadClosed (data after)); lia).
  split_and!; [done|intros H; specialize (Hcomp H); lia| |].
  - intros l u k Hp. apply (fins_last l). by rewrite <- Hp.
  - intros Hs. destruct (Hl Hs) as ((Hr & Hc) & _). split_and!; [apply Hr|exact Hc|].
    intros Hz. destruct (l_order _ Hr Hz) as [Ho _]. split; [done|]. intros l u k Ha Hu.
    assert (k ++ (payload <$> PendingQuicSendRetries (data after)) = []) as [-> Hnil]%app_eq_nil.
    { apply (fins_last l u); [|done]. rewrite Ho, Ha, <- app_assoc in Hlast. exact Hlast. }
    by apply fmap_nil_inv in Hnil.
Qed.

(** C7. The books of a relay balance after any history: the pending bytes are those of the sends in
    flight and of the queued retries, the relay's and the worker's ledgers agree with them without
    wrapping, the buffer counter is exactly the bytes reserved by those operations and stays within
    its limit, and every completion in the worker's queue belongs to one operation that is still
    in the map, so that no completion touches a freed operation. *)
Theorem relay_books_balance :
  let d := data after in
  PendingQuicSendBytes d =
    sum TotalBytes (QuicSends d) + sum TotalBytes (PendingQuicSendRetries d) /\
  AccountedTcpToQuicBytes d = PendingQuicSendBytes d /\
  TcpToQuicPendingBytes_ d = AccountedTcpToQuicBytes d + OtherRelays d /\
  TcpToQuicPendingBytes_ d <= UINT64_MAX /\
  PendingBufferBytes d = sum reserved (QuicSends d) + sum reserved (PendingQuicSendRetries d) /\
  0 <= PendingQuicSendBytes d <= PendingBufferBytes d /\
  PendingBufferBytes d <= MaxPendingBufferBytes cfg /\ NoDup (Completions d) /\
  (forall a, a ∈ Completions d ->
     exists o, find_send a (QuicSends d) = Some o /\ CompletionQueued o = true) /\
  Forall (fun o => Address o ∉ Completions d) (PendingQuicSendRetries d).
Proof.
  destruct sys_reachable as [[Hg Hst _] _]. cbn zeta. pose proof Hg as (Hb & Hi & _).
  pose proof (books_bounds _ _ _ Hb) as Hbb. destruct Hb as [B1 B2 B3 B4 B5 B6 B7 _ _ _ _ _].
  rewrite Hst, sum_nil in *. split_and!; try done; try lia; [apply Hi| |].
  - intros a Ha. destruct (complete_good Hcfg 0 a _ Hg Ha) as (o & ? & ? & _). by exists o.
  - apply list.Forall_forall. intros o Ho (o' & Hin & Heq & _)%(i_done _ Hi).
    pose proof (i_nodup _ Hi) as Hn. rewrite fmap_app in Hn.
    apply list.NoDup_app in Hn as (_ & Hn & _). apply (Hn (Address o')).
    + by apply list_elem_of_fmap_2.
    + rewrite Heq. by apply list_elem_of_fmap_2.
Qed.

(** The course of the terminal, as far as the sending half sees it. *)
Lemma terminal_course :
  let d := data after in
  let r := term after in
  TerminalBeginCount r = (if TerminalStarted r then 1 else 0) /\
  TerminalReleaseCount r = (if TerminalReleased r then 1 else 0) /\
  (TerminalStarted r = true -> TcpReadStarted d = false) /\
  (TerminalAborted r = true -> PendingQuicSendRetries d = []) /\
  (TerminalReleased r = true ->
   TcpCloseCompleted r = true /\ TerminalHandoffComplete r = true /\ Registered r = false /\
   QuicSends d = [] /\ PendingQuicSendRetries d = [] /\ Completions d = [] /\
   PendingQuicSendBytes d = 0 /\ AccountedTcpToQuicBytes d = 0 /\ PendingBufferBytes d = 0) /\
  (TqTerminalReleaseReady r = true -> TerminalReleased r = true).
Proof.
  destruct sys_reachable as [[Hg Hst [Hb Ha Hab Hr Hreg Hc Hy]] _]. cbn zeta. split_and!; try done.
  - destruct (TerminalStarted (term after)) eqn:E; [by apply Ha|by apply Hb].
  - intros H. by apply Ha.
  - intros H. destruct (Hr H) as (R1 & R2 & R3 & R4 & R5 & R6).
    destruct (idle_books _ Hg Hst) as [_ Hbu]; [unfold outstanding; rewrite R3, R4; by intros []|].
    rewrite H in Hreg. split_and!; try done.
    destruct (Completions (data after)) as [|a l] eqn:El; [done|]. exfalso.
    destruct Hg as (_ & [_ _ _ Hd _] & _).
    destruct (proj1 (Hd a)) as (o & Ho & _); [rewrite El; by left|]. rewrite R3 in Ho.
    by apply elem_of_nil in Ho.
Qed.

(** C14. Backpressure stops reading and never strands it.  Until the terminal starts and before the
    end of the input, with a read chunk that fits the buffer limit: reading runs, or it was paused
    and something is outstanding whose completion or retry comes back to the loop; so with nothing
    outstanding reading runs.  If the resume threshold is below the backlog's limit, the backlog is
    below its limit while reading runs. *)
Theorem paused_reading_is_woken
    (Hchunk : TcpReadChunkSize cfg <= MaxPendingBufferBytes cfg)
    (Hresume : 0 <= ResumeBufferedQuicSendBytes cfg) :
  let d := data after in
  TerminalStarted (term after) = false -> TcpReadClosed d = false ->
  (TcpReadStarted d = true /\
   (ResumeBufferedQuicSendBytes cfg < MaxBufferedQuicSendBytes cfg ->
    PendingQuicSendBytes d < MaxBufferedQuicSendBytes cfg)) \/
  (TcpReadStarted d = false /\ TcpReadPausedByQuicBacklog d = true /\
   (QuicSends d <> [] \/ PendingQuicSendRetries d <> [])).
Proof.
  destruct sys_reachable as [_ Hl]. cbn zeta. intros Hs Hc.
  destruct (Hl Hs) as (_ & [_ Hb _] & Ha). destruct (TcpReadStarted (data after)) eqn:E.
  - left. split; [done|]. intros Hlt. apply Hb; [lia|done].
  - right. destruct (Ha Hchunk Hresume Hc) as [?|[? ?]]; [congruence|]. by split_and!.
Qed.

(** C25. A retry that is queued when the terminal starts gracefully, as a stop request starts it, is
    neither sent nor dropped: until some later trigger turns the terminal into an abort the queue
    keeps it, and the relay is not released whatever else happens. *)
Theorem graceful_terminal_strands_retries
    (Hstarted : TerminalStarted (term after) = true)
    (Hqueued : PendingQuicSendRetries (data after) <> []) (more : list (Action * Told)) :
  let s := run cfg rcfg more after in
  TerminalAborted (term s) = true \/
  (PendingQuicSendRetries (data s) = PendingQuicSendRetries (data after) /\
   TerminalReleased (term s) = false).
Proof.
  cbn zeta. pose proof (kept_run rcfg Hcfg more _ sys_reachable Hstarted) as (_ & _ & [?|Hk]); [by left|].
  right. split; [done|].
  assert (Sys (cfg := cfg) (run cfg rcfg more after)) as [[_ _ Hi] _] by (apply sys_run, sys_reachable; done).
  destruct (TerminalReleased _) eqn:E; [|done].
  destruct (t_released _ _ Hi E) as (_ & _ & _ & Hx & _). congruence.
Qed.

End Properties.

(** ** Small relays *)

Module Demo.

(** A compressor that stores. *)
Definition stored : ITqCompressor :=
  {| Compress := fun _ data _ => Some data; Flush := fun _ => Some [] |}.
#[local] Existing Instance stored.

(** Chunks of four bytes, a budget of sixteen, a backlog of eight. *)
Definition relay (resume : Z) : Config :=
  {| RelayIdentity := {| RelayId := 1; RouteGeneration := 2; ControlGeneration := 3 |};
     Compressing := false; TcpReadChunkSize := 4; MaxPendingBufferBytes := 16;
     MaxBufferedQuicSendBytes := 8; ResumeBufferedQuicSendBytes := resume |}.

(** The receiving half: nothing compressed. *)
Definition receiving : ReceiveConfig :=
  {| Decompressing := false; HasDecompressor := false; PrecommitMaxPendingBytes := 64;
     QuicToTcpCallBudget := 4; QuicToTcpByteBudgetPerTick := 64 |}.

Lemma relay_ok resume : Config_ok (relay resume).
Proof. constructor; cbn; unfold UINT64_MAX; lia. Qed.

Definition sent : SubmitAnswers :=
  {| reserve_ok := true; emplace_ok := true; status := QUIC_STATUS_SUCCESS; synchronous := None;
     push_ok := true |}.
Definition refused : SubmitAnswers :=
  {| reserve_ok := true; emplace_ok := true; status := QUIC_STATUS_OUT_OF_MEMORY;
     synchronous := None; push_ok := true |}.

Definition read (e : SubmitAnswers) (r : ReadResult) : Action * Told :=
  (TcpReadable true 0
     {| view_ok := true; chunk_oks := []; new_ok := true; submit := e; stop_ok := true |} r, nothing).
Definition plain (act : Action) : Action * Told := (act, nothing).

(** Two reads, the second refused; its retry goes out when the first completes; then the end. *)
Definition history : list (Action * Told) :=
  [read sent (ReadBytes [1; 2]); read refused (ReadBytes [3]); plain (SendComplete 1 false);
   plain (DispatchCompletion 1 [sent] true); plain (SendComplete 3 false);
   plain (DispatchCompletion 3 [] true); read sent ReadEof; plain (SendComplete 5 false);
   plain (DispatchCompletion 5 [] true)].

(** One send in flight, one refused and queued. *)
Definition backlog : list (Action * Told) :=
  [read sent (ReadBytes [1; 2]); read refused (ReadBytes [3]); plain (SendComplete 1 false)].

(** The relay stops while a retry is queued; then everything else that must end ends. *)
Definition stopping : list (Action * Told) :=
  [read refused (ReadBytes [3]); plain StopScan].
Definition ended : list (Action * Told) :=
  [plain QuicShutdownComplete; plain TcpClosed; plain (RetryScan [sent]); plain TerminalScan;
   plain StopScan].

(** An abort instead of the stop. *)
Definition aborted : list (Action * Told) :=
  [read refused (ReadBytes [3]); plain (RequestTerminal QuicAbort); plain TerminalScan;
   plain QuicShutdownComplete; plain TcpClosed].

Example history_is_sent :
  let s := run (relay 0) receiving history (start receiving 0 (prepared 0 nothing)) in
  accepted (data s) = [([1; 2], false); ([3], false); ([], true)] /\
  QuicFinCompleted (data s) = true /\ PendingQuicSendBytes (data s) = 0 /\
  TerminalStarted (term s) = false.
Proof. vm_compute. done. Qed.

Example abort_is_released :
  TerminalReleased (term (run (relay 0) receiving aborted (start receiving 0 (prepared 0 nothing)))) = true.
Proof. vm_compute. done. Qed.

Lemma stream_is_carried_whole_witness :
  let d := data (run (relay 0) receiving history (start receiving 0 (prepared 0 nothing))) in
  TerminalStarted (term (run (relay 0) receiving history (start receiving 0 (prepared 0 nothing)))) = false /\
  tcp_input d = [1; 2; 3] /\ concat (fst <$> produced d) = tcp_input d /\
  produced d = accepted d ++ (payload <$> PendingQuicSendRetries d).
Proof.
  destruct (stream_is_carried_whole (relay 0) receiving (relay_ok 0) 0
    ltac:(unfold UINT64_MAX; lia) (prepared 0 nothing) history)
    as (_ & _ & _ & H).
  destruct H as (_ & H1 & H2); [vm_compute; reflexivity|].
  split; [vm_compute; reflexivity|]. split; [vm_compute; reflexivity|].
  split; [exact H1|]. apply H2. reflexivity.
Defined.

Lemma relay_books_balance_witness :
  let d := data (run (relay 0) receiving backlog (start receiving 7 (prepared 0 nothing))) in
  Completions d = [1%nat] /\ PendingQuicSendBytes d = 3 /\
  PendingQuicSendBytes d =
    sum TotalBytes (QuicSends d) + sum TotalBytes (PendingQuicSendRetries d).
Proof.
  split; [vm_compute; reflexivity|]. split; [vm_compute; reflexivity|].
  exact (proj1 (relay_books_balance (relay 0) receiving (relay_ok 0) 7
    ltac:(unfold UINT64_MAX; lia) (prepared 0 nothing) backlog)).
Defined.

Lemma paused_reading_is_woken_witness :
  let d := data (run (relay 0) receiving backlog (start receiving 7 (prepared 0 nothing))) in
  (TcpReadStarted d = true /\
   (ResumeBufferedQuicSendBytes (relay 0) < MaxBufferedQuicSendBytes (relay 0) ->
    PendingQuicSendBytes d < MaxBufferedQuicSendBytes (relay 0))) \/
  (TcpReadStarted d = false /\ TcpReadPausedByQuicBacklog d = true /\
   (QuicSends d <> [] \/ PendingQuicSendRetries d <> [])).
Proof.
  exact (paused_reading_is_woken (relay 0) receiving (relay_ok 0) 7 ltac:(unfold UINT64_MAX; lia)
           (prepared 0 nothing) backlog
           ltac:(cbn; lia) ltac:(cbn; lia) ltac:(vm_compute; reflexivity)
           ltac:(vm_compute; reflexivity)).
Defined.

Lemma graceful_terminal_strands_retries_witness :
  let s := run (relay 0) receiving ended (run (relay 0) receiving stopping (start receiving 7 (prepared 0 nothing))) in
  TerminalAborted (term s) = false /\ TcpCloseCompleted (term s) = true /\
  TerminalHandoffComplete (term s) = true /\ TerminalReleased (term s) = false.
Proof.
  split; [vm_compute; reflexivity|]. split; [vm_compute; reflexivity|].
  split; [vm_compute; reflexivity|].
  destruct (graceful_terminal_strands_retries (relay 0) receiving (relay_ok 0) 7
              ltac:(unfold UINT64_MAX; lia) (prepared 0 nothing) stopping) with (more := ended) as [H|[_ H]].
  - vm_compute. reflexivity.
  - vm_compute. discriminate.
  - vm_compute in H. discriminate H.
  - exact H.
Defined.

(** With a resume threshold above zero the order is not kept: the completion of the first send
    resumes reading although the retry of the second is refused again and still queued, and the
    third unit is sent before it. *)
Definition overtaking : list (Action * Told) :=
  [read sent (ReadBytes [1]); read refused (ReadBytes [2]); plain (SendComplete 1 false);
   plain (DispatchCompletion 1 [refused] true); read sent (ReadBytes [3]); plain (RetryScan [sent])].

Example resumed_reading_overtakes_retries :
  let s := run (relay 4) receiving overtaking (start receiving 0 (prepared 0 nothing)) in
  TerminalStarted (term s) = false /\ tcp_input (data s) = [1; 2; 3] /\
  concat (fst <$> accepted (data s)) = [1; 3; 2] /\ PendingQuicSendRetries (data s) = [].
Proof. vm_compute. done. Qed.

(** Nor is the end of the stream: it is sent, and then the retry that was queued before it. *)
Definition ending_early : list (Action * Told) :=
  [read sent (ReadBytes [1]); read refused (ReadBytes [2]); plain (SendComplete 1 false);
   plain (DispatchCompletion 1 [refused] true); read sent ReadEof; plain (RetryScan [sent])].

Example end_overtakes_retries :
  let s := run (relay 4) receiving ending_early (start receiving 0 (prepared 0 nothing)) in
  TerminalStarted (term s) = false /\ tcp_input (data s) = [1; 2] /\
  accepted (data s) = [([1], false); ([], true); ([2], false)].
Proof. vm_compute. done. Qed.

End Demo.
