(* ===== verification/UvHeld.v ===== *)
(** The books of the libuv relay's receiving half.

    [Held] is true of every reachable state, whatever MsQuic, libuv, the decompressor and memory
    answer: the queue is a queue, only its front has been touched, at most one write is in flight
    and it is the front's, and every counter is the sum of what it counts.  This file has the
    predicate, what it says of the queue's chain, and that giving bytes back, popping, settling
    and the whole terminal protocol keep it; UvFlow.v goes on with the handlers. *)

From stdpp Require Import base gmap list numbers decidable.
From Stdlib Require Import ZArith Lia.
From S2P Require Import Prelude RelayBuffer UvSend UvReceive UvTerminal UvWrite.

(** ** The chain *)

(** [head] leads through [next] along [l]. *)
Fixpoint linked (next : gmap nat nat) (head : option nat) (l : list nat) : Prop :=
  match l with
  | [] => head = None
  | p :: l => head = Some p /\ linked next (next !! p) l
  end.

Record Chain (q : Queue) (l : list nat) : Prop := {
  ch_linked : linked (FallbackNext q) (FallbackReceiveHead q) l;
  ch_tail : FallbackReceiveTail q = list.last l;
  ch_size : base.size (FallbackNext q) = pred (length l);
  ch_dom : forall p, is_Some (FallbackNext q !! p) -> p ∈ l }.

Lemma linked_delete next head p l :
  p ∉ l -> linked next head l -> linked (delete p next) head l.
Proof.
  revert head. induction l as [|x l IH]; intros head Hp Hl; [done|]. cbn in *.
  apply not_elem_of_cons in Hp as [Hx Hp]. destruct Hl as [-> Hl]. split; [done|].
  rewrite lookup_delete_ne by done. by apply IH.
Qed.

(** The last link of a chain is open. *)
Lemma linked_last next head l t :
  linked next head l -> NoDup l -> list.last l = Some t -> next !! t = None.
Proof.
  revert head. induction l as [|x l IH]; intros head Hl Hn Ht; [done|]. destruct Hl as [-> Hl].
  apply list.NoDup_cons in Hn as [_ Hn]. destruct l as [|y l].
  - injection Ht as <-. exact Hl.
  - by eapply IH.
Qed.

Lemma linked_append next head l t p :
  linked next head l -> NoDup l -> list.last l = Some t -> next !! p = None -> p ∉ l ->
  linked (<[t := p]> next) head (l ++ [p]).
Proof.
  revert head. induction l as [|x l IH]; intros head Hl Hn Ht Hp Hpl; [done|].
  destruct Hl as [-> Hl]. apply list.NoDup_cons in Hn as [Hx Hn].
  apply not_elem_of_cons in Hpl as [Hpx Hpl]. cbn. split; [done|]. destruct l as [|y l].
  - injection Ht as <-. rewrite lookup_insert_eq. cbn. split; [done|]. by rewrite lookup_insert_ne.
  - assert (t ∈ y :: l) as Htl by (by apply last_Some_elem_of).
    rewrite lookup_insert_ne by (intros ->; done). by apply IH.
Qed.

Lemma chain_append q l p :
  Chain q l -> NoDup (l ++ [p]) -> Chain (AppendFallbackReceive p q) (l ++ [p]).
Proof.
  intros [Hl Ht Hs Hd] Hn. apply list.NoDup_app in Hn as (Hn & Hp & _).
  assert (p ∉ l) as Hpl by (intros H; apply (Hp p H); by left).
  assert (FallbackNext q !! p = None) as Hnp.
  { destruct (FallbackNext q !! p) eqn:E; [|done]. exfalso. apply Hpl, Hd. by rewrite E. }
  assert (delete p (FallbackNext q) = FallbackNext q) as Hdel by (by apply delete_id).
  unfold AppendFallbackReceive. cbn. rewrite Hdel, Ht. destruct (list.last l) as [t|] eqn:El.
  - constructor; cbn.
    + by apply linked_append.
    + by rewrite last_snoc.
    + rewrite map_size_insert_None by (by eapply linked_last). rewrite Hs, length_app. cbn.
      destruct l; [done|]. cbn. lia.
    + intros x [y Hx]. apply elem_of_app. destruct (decide (x = t)) as [->|Hne].
      * left. by apply last_Some_elem_of.
      * rewrite lookup_insert_ne in Hx by done. left. by apply Hd.
  - apply last_None in El as ->. cbn in *. constructor; cbn; try done.
    intros x Hx. apply Hd in Hx. by apply elem_of_nil in Hx.
Qed.

Lemma chain_unlink q l p :
  Chain q (p :: l) -> NoDup (p :: l) -> Chain (unlink_fallback p q) l.
Proof.
  intros [[Hh Hl] Ht Hs Hd] [Hp Hn]%list.NoDup_cons. unfold unlink_fallback. cbn.
  assert (forall x, is_Some (delete p (FallbackNext q) !! x) -> x ∈ l) as Hdom.
  { intros x Hx. destruct (decide (x = p)) as [->|Hne]; [by rewrite lookup_delete_eq in Hx; destruct Hx|].
    rewrite lookup_delete_ne in Hx by done. apply Hd, elem_of_cons in Hx as [->|?]; done. }
  destruct l as [|y l].
  - cbn in Hl, Hs. rewrite Hl, bool_decide_eq_true_2 by done. constructor; cbn; try done.
    rewrite delete_id by done. done.
  - destruct Hl as [Hy Hl]. rewrite Hy, bool_decide_eq_false_2 by done. constructor; cbn.
    + by apply (linked_delete _ (Some y) p (y :: l)).
    + done.
    + rewrite map_size_delete_Some by (rewrite Hy; done). rewrite Hs. done.
    + done.
Qed.

(** ** Receives *)

Definition bytes_in (l : list (list Z)) : Z := sum (fun b => Z.of_nat (length b)) l.

(** A receive of the queue. *)
Record RxOk (x : Rx.t) : Prop := {
  rx_total : Rx.TotalBytes x = bytes_in (Rx.Slices x);
  rx_width : 0 < Rx.TotalBytes x <= UINT64_MAX;
  rx_completed : 0 <= Rx.CompletedBytes x <= Rx.TotalBytes x;
  rx_settled : Rx.Settled x = (Rx.CompletedBytes x =? Rx.TotalBytes x);
  rx_pending : 0 <= Rx.CompletionPendingBytes x <= Rx.TotalBytes x - Rx.CompletedBytes x;
  rx_deferred : Rx.DeferredOutputBytes x = bytes_in (Rx.DeferredOutputOwners x);
  rx_drained : Rx.DecompressionDrained x = false;
  rx_retries : is_u32 (Rx.CompletionRetryCount x);
  rx_writing : Rx.TcpWriteSubmitted x = true -> Rx.CompletionPendingBytes x = 0;
  rx_count : Z.of_nat (length (Rx.Slices x)) <= UINT32_MAX }.

(** A receive nothing has been done with. *)
Record Fresh (x : Rx.t) : Prop := {
  fresh_new : x = new_receive (Rx.Slices x) (Rx.TotalBytes x) (Rx.Fin x);
  fresh_total : Rx.TotalBytes x = bytes_in (Rx.Slices x);
  fresh_width : 0 < Rx.TotalBytes x <= UINT64_MAX;
  fresh_count : Z.of_nat (length (Rx.Slices x)) <= UINT32_MAX }.

Lemma fresh_ok x : Fresh x -> RxOk x.
Proof.
  intros [H1 H2 H3 H4]. constructor; try done; rewrite H1; cbn -[Z.eqb]; try done; try lia.
Qed.

Lemma remaining_ok x : RxOk x -> RemainingBytes x = Rx.TotalBytes x - Rx.CompletedBytes x.
Proof. intros []. unfold RemainingBytes. destruct (_ <=? _) eqn:E; to_prop; lia. Qed.

Lemma fresh_remaining x : Fresh x -> RemainingBytes x = Rx.TotalBytes x.
Proof. intros H. rewrite remaining_ok by (by apply fresh_ok). destruct H as [-> _ _ _]. cbn. lia. Qed.

Lemma bytes_in_nonneg l : 0 <= bytes_in l.
Proof. apply sum_nonneg, list.Forall_forall. intros. lia. Qed.

(** On their way to the loop. *)
Definition waiting (r : Recv) : list nat := Posted (queue r) ++ option_list (Admitting (queue r)).

(** The queue is [q]. *)
Record Shape (q : list nat) (r : Recv) : Prop := {
  sh_chain : exists k, Chain (queue r) k /\ q = PrecommitReceives (queue r) ++ k /\
             (ActiveReceiveFallbackMode (queue r) = false -> k = []);
  sh_nodup : NoDup (q ++ waiting r);
  sh_bound : Forall (fun p => p < NextReceive (queue r))%nat (q ++ waiting r) }.

(** The write in flight, of the receive at [p]. *)
Record WriteOk (cfg : ReceiveConfig) (next : nat) (p : nat) (x : Rx.t) (w : Tx.t) : Prop := {
  w_owner : Tx.ReceiveOwner w = p;
  w_submitted : Tx.Ownership w = Submitted;
  w_total : Tx.TotalBytes w = bytes_in (Tx.Buffers w);
  w_outputs : Tx.PressureBytes w = bytes_in (Tx.OutputOwners w);
  w_complete : Tx.ReceiveCompleteBytes w = if Decompressing cfg then 0 else RemainingBytes x;
  w_request : (Tx.Request w < next)%nat }.

Definition Writes (cfg : ReceiveConfig) (q : list nat) (r : Recv) : Prop :=
  match q with
  | [] => TcpWrites (flow r) = []
  | p :: _ =>
      if Rx.TcpWriteSubmitted (rx p r)
      then exists w, TcpWrites (flow r) = [w] /\ WriteOk cfg (NextRequest (flow r)) p (rx p r) w
      else TcpWrites (flow r) = []
  end.

Definition owed (r : Recv) (l : list nat) : Z := sum (fun p => RemainingBytes (rx p r)) l.
Definition deferred (r : Recv) (l : list nat) : Z := sum (fun p => Rx.DeferredOutputBytes (rx p r)) l.

(** Every counter is what it counts; [h] bytes of output are in the hands of a handler. *)
Record Books (cfg : ReceiveConfig) (h : Z) (q : list nat) (r : Recv) : Prop := {
  k_pending : PendingQuicReceiveBytes (ledger r) = owed r q;
  k_admitted : AdmittedQuicReceiveBytes (ledger r) = owed r q + owed r (waiting r);
  k_accounted : AccountedQuicToTcpBytes (ledger r) = AdmittedQuicReceiveBytes (ledger r);
  k_worker : QuicToTcpPendingBytes_ (ledger r) =
             AccountedQuicToTcpBytes (ledger r) + OtherQuicToTcp (log r);
  k_pressure : QuicToTcpPressureBytes (ledger r) =
               AdmittedQuicReceiveBytes (ledger r) + deferred r q +
               sum Tx.PressureBytes (TcpWrites (flow r)) + lost (log r);
  k_writes : PendingTcpWriteBytes (ledger r) = sum Tx.TotalBytes (TcpWrites (flow r));
  k_outputs : OutputPendingBufferBytes (ledger r) =
              deferred r q + sum Tx.PressureBytes (TcpWrites (flow r)) + h;
  k_limit : QuicToTcpPressureBytes (ledger r) <= PrecommitMaxPendingBytes cfg;
  k_width : QuicToTcpPendingBytes_ (ledger r) <= UINT64_MAX;
  k_outputs_limit : OutputPendingBufferBytes (ledger r) <= PrecommitMaxPendingBytes cfg;
  k_lost : 0 <= lost (log r);
  k_other : 0 <= OtherQuicToTcp (log r);
  k_held : 0 <= h }.

(** Without compression a receive keeps no output, and is not done with while it is written. *)
Definition PlainOk (cfg : ReceiveConfig) (x : Rx.t) : Prop :=
  Decompressing cfg = false ->
  Rx.DeferredOutputBytes x = 0 /\ (Rx.TcpWriteSubmitted x = true -> RemainingBytes x <> 0).

Record Held (cfg : ReceiveConfig) (h : Z) (q : list nat) (r : Recv) : Prop := {
  h_shape : Shape q r;
  h_cells : Forall (fun p => RxOk (rx p r)) q;
  h_fresh : Forall (fun p => Fresh (rx p r)) (tail q ++ waiting r);
  h_writes : Writes cfg q r;
  h_plain : match q with [] => True | p :: _ => PlainOk cfg (rx p r) end;
  h_books : Books cfg h q r }.

(** What registration guarantees. *)
Record ReceiveConfig_ok (cfg : ReceiveConfig) : Prop := {
  rc_max : 0 <= PrecommitMaxPendingBytes cfg <= UINT64_MAX;
  rc_room : PrecommitMaxPendingBytes cfg + Z.max (PrecommitMaxPendingBytes cfg) 65536 <= UINT64_MAX;
  rc_calls : is_u32 (QuicToTcpCallBudget cfg);
  rc_bytes : 0 <= QuicToTcpByteBudgetPerTick cfg <= UINT64_MAX }.
Existing Class ReceiveConfig_ok.

(** ** Framing *)

(** Only what the facts do not mention has changed. *)
Definition same_books (r r' : Recv) : Prop :=
  same_links r r' /\ Store (queue r') = Store (queue r) /\ ledger r' = ledger r /\
  TcpWrites (flow r') = TcpWrites (flow r) /\ NextRequest (flow r') = NextRequest (flow r) /\
  lost (log r') = lost (log r) /\ OtherQuicToTcp (log r') = OtherQuicToTcp (log r).

#[global] Instance same_books_preorder : PreOrder same_books.
Proof.
  split; [intros r; by split_and!|]. intros r1 r2 r3 (A1 & A2 & A3 & A4 & A5 & A6 & A7)
    (B1 & B2 & B3 & B4 & B5 & B6 & B7). split_and!; [by etrans|congruence..].
Qed.

Lemma same_books_waiting r r' : same_links r r' -> waiting r' = waiting r.
Proof. intros (_ & _ & _ & _ & _ & _ & H1 & H2). unfold waiting. by rewrite H1, H2. Qed.

Lemma same_books_rx r r' p : same_books r r' -> rx p r' = rx p r.
Proof. intros (_ & H & _). unfold rx. by rewrite H. Qed.

Lemma shape_links q r r' : Shape q r -> same_links r r' -> Shape q r'.
Proof.
  intros [(k & Hk & Hq & Hm) Hn Hb] Hl. pose proof (same_books_waiting _ _ Hl) as Hw.
  destruct Hl as (H1 & H2 & H3 & H4 & H5 & H6 & _).
  constructor; rewrite ?Hw, ?H6; try done. exists k. rewrite H1, H5. split_and!; try done.
  destruct Hk. constructor; rewrite ?H2, ?H3, ?H4; done.
Qed.

Lemma held_ext cfg h q r r' : Held cfg h q r -> same_books r r' -> Held cfg h q r'.
Proof.
  intros [Hs Hc Hf Hw Hpl Hb] H. assert (forall p, rx p r' = rx p r) as Hrx by (intros; by apply same_books_rx).
  destruct H as (Hl & _ & H2 & H3 & H4 & H5 & H6). pose proof (same_books_waiting _ _ Hl) as Hwt.
  constructor.
  - by eapply shape_links.
  - eapply Forall_impl; [|exact Hc]. intros p Hp. by rewrite Hrx.
  - rewrite Hwt. eapply Forall_impl; [|exact Hf]. intros p Hp. by rewrite Hrx.
  - unfold Writes in *. destruct q; [by rewrite H3|]. rewrite Hrx, H3, H4. done.
  - destruct q; [done|]. by rewrite Hrx.
  - assert (forall l, owed r' l = owed r l /\ deferred r' l = deferred r l) as Ho.
    { intros l. unfold owed, deferred. induction l as [|p l IH]; [done|].
      rewrite !sum_cons, Hrx. destruct IH. split; congruence. }
    destruct Hb. constructor; rewrite ?H2, ?H3, ?H5, ?H6, ?Hwt, ?(proj1 (Ho _)), ?(proj2 (Ho _)); done.
Qed.

Lemma books_ask r : same_books r (snd (ask_ok r)).
Proof. by split_and!. Qed.

Lemma books_inflation r : same_books r (snd (ask_inflation r)).
Proof. by split_and!. Qed.

Lemma books_counters f r : same_books r (on_counters f r).
Proof. by split_and!. Qed.

Lemma books_acquire r : same_books r (snd (TryAcquireReceiveApi r)).
Proof. unfold TryAcquireReceiveApi, ask_ok. destruct (default _ _); by split_and!. Qed.

Lemma books_backpressure cfg r : same_books r (UpdateBackpressure cfg r).
Proof.
  unfold UpdateBackpressure, SetReceiveEnabled, ask_ok.
  repeat match goal with |- context [if ?b then _ else _] => destruct b end; by split_and!.
Qed.

(** ** The front *)

Lemma shape_front q r p q' : Shape q r -> q = p :: q' -> FrontReceive r = Some p.
Proof.
  intros [(k & [Hk _ _ _] & Hq & _) _ _] ->. unfold FrontReceive.
  destruct (PrecommitReceives (queue r)) as [|x l]; [|by injection Hq as -> _].
  cbn in Hq. subst k. by destruct Hk.
Qed.

Lemma shape_empty r : Shape [] r -> FrontReceive r = None.
Proof.
  intros [(k & [Hk _ _ _] & Hq & _) _ _]. unfold FrontReceive.
  destruct (PrecommitReceives (queue r)) as [|x l]; [|done]. cbn in Hq. by subst k.
Qed.

Lemma front_cases q r :
  Shape q r -> match FrontReceive r with None => q = [] | Some p => exists q', q = p :: q' end.
Proof.
  intros H. destruct q as [|p q']; [by rewrite shape_empty|]. rewrite (shape_front _ _ p q' H) by done.
  by exists q'.
Qed.

Lemma receives_shape q r : Shape q r -> receives r = length q.
Proof.
  intros [(k & [Hk _ Hs _] & -> & _) _ _]. unfold receives. rewrite length_app. f_equal.
  destruct k as [|x k]; cbn in Hk; [by rewrite Hk|]. destruct Hk as [-> _]. rewrite Hs. done.
Qed.

Lemma rx_on_rx f p r : rx p (on_rx f p r) = f (rx p r).
Proof. unfold rx, on_rx. cbn. by rewrite lookup_total_insert_eq. Qed.

Lemma rx_on_rx_ne f p p' r : p <> p' -> rx p' (on_rx f p r) = rx p' r.
Proof. intros H. unfold rx, on_rx. cbn. by rewrite lookup_total_insert_ne. Qed.

Lemma on_rx_compose f g p r : on_rx f p (on_rx g p r) = on_rx (fun x => f (g x)) p r.
Proof.
  unfold on_rx, on_queue, set_Store. cbn. by rewrite lookup_total_insert_eq, insert_insert_eq.
Qed.

Lemma sums_on_rx f p l r :
  p ∉ l -> owed (on_rx f p r) l = owed r l /\ deferred (on_rx f p r) l = deferred r l.
Proof.
  unfold owed, deferred. induction l as [|x l IH]; intros Hp; [done|].
  apply not_elem_of_cons in Hp as [Hx Hp]. rewrite !sum_cons, rx_on_rx_ne by done.
  destruct (IH Hp) as [-> ->]. done.
Qed.

Lemma fresh_sums r l :
  Forall (fun p => Fresh (rx p r)) l -> 0 <= owed r l /\ deferred r l = 0.
Proof.
  unfold owed, deferred. induction 1 as [|p l Hp _ [IH1 IH2]]; [done|]. rewrite !sum_cons.
  rewrite (fresh_remaining _ Hp). destruct Hp as [H _ ? _].
  split; [lia|]. rewrite H. cbn. lia.
Qed.

Lemma nodup_front p q r : Shape (p :: q) r -> p ∉ q ++ waiting r.
Proof. intros [_ H _]. rewrite <- app_comm_cons in H. by apply list.NoDup_cons in H as [? _]. Qed.

(** ** Touching the front *)

Lemma store_touch p x r r' :
  Store (queue r') = <[p := x]> (Store (queue r)) ->
  rx p r' = x /\ forall p', p <> p' -> rx p' r' = rx p' r.
Proof.
  intros H. unfold rx. rewrite H. split; [by rewrite lookup_total_insert_eq|].
  intros. by rewrite lookup_total_insert_ne.
Qed.

(** What a change of the front's record, of the ledger, of the writes and of the losses must add
    up to. *)
Section Touch.
  Context (cfg : ReceiveConfig) (h h' : Z) (p : nat) (q : list nat) (r r' : Recv) (x : Rx.t).
  Context (Hlinks : same_links r r').
  Context (touch_rx : rx p r' = x /\ forall p', p <> p' -> rx p' r' = rx p' r).

Lemma touch_sums l : p ∉ l -> owed r' l = owed r l /\ deferred r' l = deferred r l.
Proof.
  unfold owed, deferred. induction l as [|y l IH]; intros Hp; [done|].
  apply not_elem_of_cons in Hp as [Hy Hp]. rewrite !sum_cons.
  rewrite (proj2 touch_rx) by done. destruct (IH Hp) as [-> ->]. done.
Qed.

Definition shift (f : Ledger -> Z) : Z := f (ledger r') - f (ledger r).

Lemma touch_held :
  Held cfg h (p :: q) r -> RxOk x -> PlainOk cfg x ->
  (if Rx.TcpWriteSubmitted x
   then exists w, TcpWrites (flow r') = [w] /\ WriteOk cfg (NextRequest (flow r')) p x w
   else TcpWrites (flow r') = []) ->
  let d := RemainingBytes x - RemainingBytes (rx p r) in
  let e := Rx.DeferredOutputBytes x - Rx.DeferredOutputBytes (rx p r) in
  let w := sum Tx.PressureBytes (TcpWrites (flow r')) - sum Tx.PressureBytes (TcpWrites (flow r)) in
  shift PendingQuicReceiveBytes = d -> shift AdmittedQuicReceiveBytes = d ->
  shift AccountedQuicToTcpBytes = d -> shift QuicToTcpPendingBytes_ = d ->
  shift QuicToTcpPressureBytes = d + e + w + (lost (log r') - lost (log r)) ->
  PendingTcpWriteBytes (ledger r') = sum Tx.TotalBytes (TcpWrites (flow r')) ->
  shift OutputPendingBufferBytes = e + w + (h' - h) ->
  OtherQuicToTcp (log r') = OtherQuicToTcp (log r) -> 0 <= lost (log r') -> 0 <= h' -> d <= 0 ->
  QuicToTcpPressureBytes (ledger r') <= PrecommitMaxPendingBytes cfg ->
  OutputPendingBufferBytes (ledger r') <= PrecommitMaxPendingBytes cfg ->
  Held cfg h' (p :: q) r'.
Proof.
  intros [Hs Hc Hf Hw _ Hb] Hok Hpl Hwr. cbn zeta. intros D1 D2 D3 D4 D5 D6 D7 D8 D9 D10 D11 D12 D13.
  pose proof (nodup_front _ _ _ Hs) as Hp. pose proof (same_books_waiting _ _ Hlinks) as Hwt.
  destruct touch_rx as [Hx Hne].
  assert (forall l, p ∉ l -> Forall (fun p => Fresh (rx p r)) l -> Forall (fun p => Fresh (rx p r')) l)
    as Hfr.
  { intros l Hl HF. rewrite list.Forall_forall in HF. apply list.Forall_forall. intros y Hy. rewrite Hne; [by apply HF|].
    intros ->. done. }
  assert (forall l, p ∉ l -> Forall (fun p => RxOk (rx p r)) l -> Forall (fun p => RxOk (rx p r')) l)
    as Hcl.
  { intros l Hl HF. rewrite list.Forall_forall in HF. apply list.Forall_forall. intros y Hy. rewrite Hne; [by apply HF|].
    intros ->. done. }
  assert ((p ∉ q) /\ (p ∉ waiting r)) as [Hpq Hpw] by (rewrite not_elem_of_app in Hp; exact Hp).
  constructor.
  - by eapply shape_links.
  - apply list.Forall_cons in Hc as [_ Hc]. constructor; [by rewrite Hx|]. by apply Hcl.
  - rewrite Hwt. cbn [list.tail] in *. by apply Hfr.
  - unfold Writes. rewrite Hx. exact Hwr.
  - by rewrite Hx.
  - unfold shift in *. destruct Hb as [K1 K2 K3 K4 K5 K6 K7 K8 K9 K10 K11 K12 K13].
    destruct (touch_sums q Hpq) as [S1 S2]. destruct (touch_sums (waiting r) Hpw) as [S3 S4].
    unfold owed, deferred in *. rewrite !sum_cons in *. rewrite <- Hwt in S3.
    constructor; unfold owed, deferred; rewrite ?sum_cons, ?Hx, ?Hwt, ?S1, ?S2; try lia.
    all: rewrite ?Hwt in S3; lia.
Qed.

End Touch.

(** ** Bounds *)

Lemma held_cells cfg h p q r : Held cfg h (p :: q) r -> RxOk (rx p r).
Proof. intros [_ Hc _ _ _ _]. by apply list.Forall_cons in Hc as [? _]. Qed.

Lemma writes_nonneg cfg q r :
  Writes cfg q r -> 0 <= sum Tx.PressureBytes (TcpWrites (flow r)) /\
                    0 <= sum Tx.TotalBytes (TcpWrites (flow r)).
Proof.
  unfold Writes. assert (forall w, TcpWrites (flow r) = [w] -> Tx.PressureBytes w = bytes_in (Tx.OutputOwners w) ->
    Tx.TotalBytes w = bytes_in (Tx.Buffers w) ->
    0 <= sum Tx.PressureBytes (TcpWrites (flow r)) /\ 0 <= sum Tx.TotalBytes (TcpWrites (flow r))) as H.
  { intros w -> H1 H2. rewrite !sum_one, H1, H2. split; apply bytes_in_nonneg. }
  destruct q as [|p q]; [intros ->; done|].
  destruct (Rx.TcpWriteSubmitted _); [|intros ->; done].
  intros (w & Hw & []). by eapply H.
Qed.

Lemma remaining_nonneg x : 0 <= RemainingBytes x.
Proof. unfold RemainingBytes. destruct (_ <=? _) eqn:E; to_prop; lia. Qed.

(** The counters of a queue with a front. *)
Lemma held_bounds cfg h p q r :
  Held cfg h (p :: q) r ->
  let l := ledger r in
  0 <= RemainingBytes (rx p r) <= PendingQuicReceiveBytes l /\
  PendingQuicReceiveBytes l <= AdmittedQuicReceiveBytes l /\
  AccountedQuicToTcpBytes l = AdmittedQuicReceiveBytes l /\
  AccountedQuicToTcpBytes l <= QuicToTcpPendingBytes_ l <= UINT64_MAX /\
  0 <= Rx.DeferredOutputBytes (rx p r) /\
  AdmittedQuicReceiveBytes l + Rx.DeferredOutputBytes (rx p r) +
    sum Tx.PressureBytes (TcpWrites (flow r)) + lost (log r) = QuicToTcpPressureBytes l /\
  Rx.DeferredOutputBytes (rx p r) + sum Tx.PressureBytes (TcpWrites (flow r)) + h =
    OutputPendingBufferBytes l.
Proof.
  intros H. pose proof (held_cells _ _ _ _ _ H) as Hx. destruct H as [Hs Hc Hf Hw _ Hb]. cbn zeta.
  cbn [list.tail] in Hf. apply Forall_app in Hf as [Hf1 Hf2].
  destruct (fresh_sums r q Hf1) as [F1 F2]. destruct (fresh_sums r (waiting r) Hf2) as [F3 F4].
  pose proof (remaining_nonneg (rx p r)). pose proof (bytes_in_nonneg (Rx.DeferredOutputOwners (rx p r))).
  destruct Hx. destruct Hb as [K1 K2 K3 K4 K5 K6 K7 K8 K9 K10 K11 K12 K13].
  unfold owed, deferred in *. rewrite sum_cons in K1, K2, K5, K7. lia.
Qed.

(** ** Giving bytes back *)

(** Neither the books nor the streams have changed. *)
Definition streams (l : Log) : list Z * list Z * list Z * list Z * list (list Z * list Z) :=
  (admitted l, taken l, output l, written l, inflated l).

Record Quiet (r r' : Recv) : Prop := {
  q_queue : queue r' = queue r;
  q_ledger : ledger r' = ledger r;
  q_flow : flow r' = flow r;
  q_streams : streams (log r') = streams (log r);
  q_lost : lost (log r') = lost (log r);
  q_other : OtherQuicToTcp (log r') = OtherQuicToTcp (log r);
  q_refused : refused (log r) = true -> refused (log r') = true;
  q_disabled : disabled (log r') = disabled (log r) }.

#[global] Instance quiet_preorder : PreOrder Quiet.
Proof. split; [by intros r|]. intros r1 r2 r3 [] []. constructor; try congruence. auto. Qed.

Lemma quiet_books r r' : Quiet r r' -> same_books r r'.
Proof. intros [Hq Hl Hf _ H1 H2 _]. split_and!; try congruence. unfold same_links. by rewrite Hq. Qed.

Lemma quiet_rx r r' p : Quiet r r' -> rx p r' = rx p r.
Proof. intros H. by apply same_books_rx, quiet_books. Qed.

Lemma quiet_ask r : Quiet r (snd (ask_ok r)).
Proof. by constructor. Qed.

Lemma quiet_acquire r :
  Quiet r (snd (TryAcquireReceiveApi r)) /\
  (fst (TryAcquireReceiveApi r) = false -> refused (log (snd (TryAcquireReceiveApi r))) = true).
Proof. unfold TryAcquireReceiveApi, ask_ok. destruct (default _ _); cbn; by repeat split. Qed.

(** A completion of at most the remaining bytes is refused, or done. *)
Definition Completion (p : nat) (bytes : Z) (r : Recv) (result : bool * Recv) : Prop :=
  exists r1, Quiet r r1 /\
    (result = (false, r1) /\ refused (log r1) = true \/
     result = (true, on_rx (complete bytes) p r1)).

Lemma complete_spec p bytes r :
  RxOk (rx p r) -> 0 < bytes <= RemainingBytes (rx p r) ->
  Completion p bytes r (CompleteReceive p bytes r).
Proof.
  intros Hx Hb. unfold CompleteReceive.
  assert (Rx.Settled (rx p r) = false) as Hs.
  { rewrite (rx_settled _ Hx). apply Z.eqb_neq. rewrite (remaining_ok _ Hx) in Hb. lia. }
  rewrite (proj2 (Z.eqb_neq _ _)), Hs by lia. cbn [orb].
  destruct (quiet_acquire r) as [Hq Hr]. destruct (TryAcquireReceiveApi r) as [lease r1].
  cbn [fst snd] in *. destruct lease; cbn [negb]; [|exists r1; split; [done|]; left; auto].
  rewrite (quiet_rx _ _ p Hq), Z.min_l, (proj2 (Z.eqb_neq _ _)), Z.eqb_refl by lia.
  eexists (on_log _ r1). split; [|by right]. etrans; [exact Hq|]. by constructor.
Qed.

Lemma complete_for_spec shut p bytes r :
  RxOk (rx p r) -> 0 < bytes <= RemainingBytes (rx p r) ->
  Completion p bytes r (CompleteReceiveForRelay shut p bytes r).
Proof.
  intros Hx Hb. unfold CompleteReceiveForRelay. destruct shut; cbn [negb]; [|by apply complete_spec].
  assert (Rx.Settled (rx p r) = false) as Hs.
  { rewrite (rx_settled _ Hx). apply Z.eqb_neq. rewrite (remaining_ok _ Hx) in Hb. lia. }
  rewrite (proj2 (Z.eqb_neq _ _)), Hs, (proj2 (Z.ltb_ge _ _)) by lia. cbn [orb].
  eexists (on_log _ r). split; [|by right]. by constructor.
Qed.

(** What a completion makes of the receive. *)
Lemma complete_fields bytes x :
  RxOk x -> 0 < bytes <= RemainingBytes x ->
  complete bytes x =
    Rx.set_Settled (Rx.CompletedBytes x + bytes =? Rx.TotalBytes x)
      (Rx.set_CompletedBytes (Rx.CompletedBytes x + bytes) x).
Proof.
  intros Hx Hb. rewrite (remaining_ok _ Hx) in Hb. unfold complete.
  assert (u64 (Rx.CompletedBytes x + bytes) = Rx.CompletedBytes x + bytes) as ->.
  { apply u64_small. destruct Hx. unfold is_u64, UINT64_MAX in *. lia. }
  cbn -[Z.eqb]. destruct (_ =? _) eqn:E; [done|].
  assert (Rx.Settled x = false) as Hs.
  { rewrite (rx_settled _ Hx). apply Z.eqb_neq. lia. }
  destruct x. cbn in *. by subst.
Qed.

Lemma release_ledger bytes r :
  let l := ledger r in
  0 <= bytes <= PendingQuicReceiveBytes l -> PendingQuicReceiveBytes l <= AdmittedQuicReceiveBytes l ->
  AccountedQuicToTcpBytes l = AdmittedQuicReceiveBytes l ->
  AccountedQuicToTcpBytes l <= QuicToTcpPendingBytes_ l <= UINT64_MAX ->
  bytes <= QuicToTcpPressureBytes l ->
  release_completed bytes r =
  set_ledger {| PendingQuicReceiveBytes := PendingQuicReceiveBytes l - bytes;
                AdmittedQuicReceiveBytes := AdmittedQuicReceiveBytes l - bytes;
                QuicToTcpPressureBytes := QuicToTcpPressureBytes l - bytes;
                PendingTcpWriteBytes := PendingTcpWriteBytes l;
                AccountedQuicToTcpBytes := AccountedQuicToTcpBytes l - bytes;
                QuicToTcpPendingBytes_ := QuicToTcpPendingBytes_ l - bytes;
                OutputPendingBufferBytes := OutputPendingBufferBytes l;
                OutputAllocateCount := OutputAllocateCount l |} r.
Proof.
  destruct r as [qu [a b c d e f g i] fl co lo wo]. intros l. unfold l. clear l.
  cbn [ledger PendingQuicReceiveBytes AdmittedQuicReceiveBytes QuicToTcpPressureBytes
    AccountedQuicToTcpBytes QuicToTcpPendingBytes_]. intros H1 H2 H3 H4 H5.
  unfold release_completed, ReleaseAdmitted, ReleasePendingReceive, ReleasePressure,
    CompleteQuicToTcp, less, on_ledger, set_ledger. cbn -[Z.leb Z.eqb Z.ltb Z.sub Z.add u64].
  rewrite !(proj2 (Z.leb_le _ _)) by lia. replace (b - (b - bytes)) with bytes by lia.
  destruct (bytes =? 0) eqn:E; to_prop; cbn -[Z.leb Z.eqb Z.ltb Z.sub Z.add u64];
    [|rewrite (proj2 (Z.ltb_ge _ _)) by lia; cbn -[Z.leb Z.eqb Z.ltb Z.sub Z.add u64];
      rewrite u64_small by (unfold is_u64, UINT64_MAX in *; lia)];
    rewrite (proj2 (Z.leb_le _ _)) by lia; [|done].
  subst. by rewrite !Z.sub_0_r.
Qed.

(** Giving back [bytes] of the front. *)
Lemma held_part cfg h p q r r1 x bytes :
  Held cfg h (p :: q) r -> Quiet r r1 -> RxOk x -> 0 <= bytes ->
  RemainingBytes x = RemainingBytes (rx p r) - bytes ->
  Rx.DeferredOutputBytes x = Rx.DeferredOutputBytes (rx p r) ->
  Rx.TcpWriteSubmitted (rx p r) = false -> Rx.TcpWriteSubmitted x = false ->
  Held cfg h (p :: q) (release_completed bytes (on_rx (fun _ => x) p r1)).
Proof.
  intros H Hq Hx Hb Hr Hd Hw Hw'. pose proof (held_bounds _ _ _ _ _ H) as Hbd. cbn zeta in Hbd.
  pose proof (h_writes _ _ _ _ H) as HW. pose proof (writes_nonneg _ _ _ HW) as Hwn.
  cbn in HW. rewrite Hw in HW.
  pose proof (remaining_nonneg x) as Hn. pose proof (k_lost _ _ _ _ (h_books _ _ _ _ H)) as Hlo.
  pose proof (k_limit _ _ _ _ (h_books _ _ _ _ H)) as Hli.
  pose proof (k_outputs_limit _ _ _ _ (h_books _ _ _ _ H)) as Hol.
  pose proof (k_writes _ _ _ _ (h_books _ _ _ _ H)) as Hpw.
  pose proof (k_held _ _ _ _ (h_books _ _ _ _ H)) as Hh.
  assert (PlainOk cfg x) as Hpl.
  { intros E. destruct (h_plain _ _ _ _ H E). split; congruence. }
  destruct Hq as [Q1 Q2 Q3 _ Q5 Q6 _].
  rewrite release_ledger; cbn; rewrite ?Q2; try lia.
  apply (touch_held cfg h h p q r _ x); [|apply store_touch|..]; cbn; rewrite ?Q1, ?Q2, ?Q3, ?Q5, ?Q6; try done;
    unfold shift; cbn; rewrite ?Q2, ?Hw'; try lia; try done.
  unfold same_links. cbn. by rewrite Q1.
Qed.

(** A change of the front's record that no counter sees. *)
Lemma held_touch cfg h p q r x :
  Held cfg h (p :: q) r -> RxOk x -> RemainingBytes x = RemainingBytes (rx p r) ->
  Rx.DeferredOutputBytes x = Rx.DeferredOutputBytes (rx p r) ->
  Rx.TcpWriteSubmitted x = Rx.TcpWriteSubmitted (rx p r) ->
  Held cfg h (p :: q) (on_rx (fun _ => x) p r).
Proof.
  intros H Hx Hr Hd Hw. destruct (h_books _ _ _ _ H) as [K1 K2 K3 K4 K5 K6 K7 K8 K9 K10 K11 K12 K13].
  pose proof (h_writes _ _ _ _ H) as HW. cbn in HW.
  assert (PlainOk cfg x) as Hpl.
  { intros E. destruct (h_plain _ _ _ _ H E). rewrite Hr, Hd, Hw. done. }
  apply (touch_held cfg h h p q r _ x); try done; [by apply store_touch|..]; unfold shift; cbn; rewrite ?Hr, ?Hd, ?Hw; try lia.
  destruct (Rx.TcpWriteSubmitted (rx p r)); [|done].
  destruct HW as (w & ? & []). exists w. split; [done|]. constructor; try done. by rewrite Hr.
Qed.

(** ** Popping *)

(** Nothing of the receive is left. *)
Definition done_with (x : Rx.t) : Prop :=
  RemainingBytes x = 0 /\ Rx.DeferredOutputBytes x = 0 /\ Rx.TcpWriteSubmitted x = false.

Lemma pop_queue p q r :
  Shape (p :: q) r ->
  Shape q (snd (pop p r)) /\ fst (pop p r) = Rx.Fin (rx p r) /\
  waiting (snd (pop p r)) = waiting r /\ Store (queue (snd (pop p r))) = Store (queue r) /\
  ledger (snd (pop p r)) = ledger r /\ log (snd (pop p r)) = log r /\
  (flow (snd (pop p r)) = if Rx.Fin (rx p r) then set_QuicFinObserved true (flow r) else flow r).
Proof.
  intros [(k & Hk & Hq & Hm) Hn Hb].
  assert (forall r', queue r' = (match PrecommitReceives (queue r) with
                                 | _ :: rest => set_PrecommitReceives rest (queue r)
                                 | [] => unlink_fallback p (queue r)
                                 end) -> Shape q r' /\ waiting r' = waiting r /\
            Store (queue r') = Store (queue r)) as H.
  { intros r' Hr'. assert (waiting r' = waiting r) as Hw.
    { unfold waiting. rewrite Hr'. destruct (PrecommitReceives (queue r)); [|done].
      unfold unlink_fallback. by destruct (bool_decide _). }
    assert (Store (queue r') = Store (queue r) /\ NextReceive (queue r') = NextReceive (queue r) /\
            ActiveReceiveFallbackMode (queue r') = ActiveReceiveFallbackMode (queue r)) as (H1 & H2 & H3).
    { rewrite Hr'. destruct (PrecommitReceives (queue r)); [|done].
      unfold unlink_fallback. by destruct (bool_decide _). }
    split_and!; [|done|done].
    rewrite <- app_comm_cons in Hn, Hb. apply list.NoDup_cons in Hn as [Hp Hn].
    apply list.Forall_cons in Hb as [_ Hb].
    constructor; rewrite ?Hw, ?H2; [|done|done]. rewrite H3, Hr'.
    destruct (PrecommitReceives (queue r)) as [|f rest] eqn:EP.
    - cbn in Hq. subst k. exists q. split_and!.
      2: { unfold unlink_fallback. destruct (bool_decide _); cbn; by rewrite EP. }
      + apply chain_unlink; [done|]. constructor; [|by apply list.NoDup_app in Hn as (? & _)].
        rewrite not_elem_of_app in Hp. by destruct Hp.
      + intros Hx. by specialize (Hm Hx).
    - injection Hq as -> ->. exists k. split_and!; [|done|done]. destruct Hk. by constructor. }
  unfold pop. destruct (PrecommitReceives (queue r)) as [|f rest] eqn:E.
  - cbn in Hq. subst k. destruct Hk as [[Hh _] _ _ _]. rewrite Hh, bool_decide_eq_true_2 by done.
    assert (Rx.Fin (rx p (on_queue (unlink_fallback p) r)) = Rx.Fin (rx p r)) as Hf.
    { unfold rx, on_queue, unlink_fallback. cbn. by destruct (bool_decide _). }
    cbn [fst snd]. rewrite Hf. destruct (Rx.Fin (rx p r)); cbn [fst snd];
      match goal with |- Shape _ ?x /\ _ => destruct (H x) as (? & ? & ?); [done|by split_and!] end.
  - injection Hq as -> ->. rewrite Nat.eqb_refl. cbn [fst snd].
    change (Rx.Fin (rx f (on_queue (set_PrecommitReceives rest) r))) with (Rx.Fin (rx f r)).
    destruct (Rx.Fin (rx f r)); cbn [fst snd];
      match goal with |- Shape _ ?x /\ _ => destruct (H x) as (? & ? & ?); [done|by split_and!] end.
Qed.

Lemma held_pop cfg h p q r :
  Held cfg h (p :: q) r -> done_with (rx p r) -> Held cfg h q (snd (pop p r)).
Proof.
  intros [Hs Hc Hf Hw _ Hb] (D1 & D2 & D3).
  destruct (pop_queue p q r Hs) as (H1 & _ & H2 & H3 & H4 & H5 & H6).
  assert (forall y, rx y (snd (pop p r)) = rx y r) as Hrx by (intros; unfold rx; by rewrite H3).
  cbn [list.tail] in Hf. apply list.Forall_cons in Hc as [_ Hc].
  cbn in Hw. rewrite D3 in Hw. set (r' := snd (pop p r)) in *. clearbody r'.
  assert (TcpWrites (flow r') = [] /\ TcpWrites (flow r) = []) as [Hw1 Hw2].
  { split; [|done]. rewrite H6. by destruct (Rx.Fin _). }
  constructor.
  - done.
  - eapply Forall_impl; [|exact Hc]. intros y Hy. by rewrite Hrx.
  - rewrite H2. apply Forall_app in Hf as [Hf1 Hf2]. apply Forall_app. split.
    + destruct q; [done|]. apply list.Forall_cons in Hf1 as [_ Hf1].
      eapply Forall_impl; [|exact Hf1]. intros y Hy. by rewrite Hrx.
    + eapply Forall_impl; [|exact Hf2]. intros y Hy. by rewrite Hrx.
  - unfold Writes. destruct q as [|y q]; [done|]. rewrite Hrx.
    apply Forall_app in Hf as [Hf1 _]. apply list.Forall_cons in Hf1 as [[-> _ _ _] _]. done.
  - destruct q as [|y q]; [done|]. rewrite Hrx.
    apply Forall_app in Hf as [Hf1 _]. apply list.Forall_cons in Hf1 as [[-> _ _ _] _]. done.
  - assert (forall l, owed r' l = owed r l /\ deferred r' l = deferred r l) as Ho.
    { intros l. unfold owed, deferred. induction l as [|y l IH]; [done|].
      rewrite !sum_cons, Hrx. destruct IH. split; congruence. }
    destruct Hb as [K1 K2 K3 K4 K5 K6 K7 K8 K9 K10 K11 K12 K13].
    unfold owed, deferred in K1, K2, K5, K7. rewrite sum_cons in K1, K2, K5, K7.
    rewrite D1 in K1, K2. rewrite D2 in K5, K7. rewrite Hw2 in K5, K6, K7.
    fold (owed r q) in K1, K2. fold (owed r (waiting r)) in K2. fold (deferred r q) in K5, K7.
    constructor; rewrite ?H4, ?H5, ?H2, ?(proj1 (Ho _)), ?(proj2 (Ho _)), ?Hw1; try lia.
Qed.

(** ** Dropping output *)

Lemma free_fold owners n :
  bytes_in owners <= n <= UINT64_MAX ->
  fold_left (fun n owner => u64 (n - Z.of_nat (length owner))) owners n = n - bytes_in owners.
Proof.
  revert n. induction owners as [|o owners IH]; intros n H; cbn [fold_left].
  - unfold bytes_in, sum. cbn. lia.
  - unfold bytes_in in *. rewrite sum_cons in *. pose proof (bytes_in_nonneg owners) as Hn.
    unfold bytes_in in Hn. rewrite u64_small by (unfold is_u64, UINT64_MAX in *; lia).
    rewrite IH by lia. lia.
Qed.

Lemma held_drop_deferred cfg h p q r :
  ReceiveConfig_ok cfg -> Held cfg h (p :: q) r -> Rx.TcpWriteSubmitted (rx p r) = false ->
  Held cfg h (p :: q) (drop_deferred p r) /\
  rx p (drop_deferred p r) = Rx.set_DeferredOutputBytes 0
    (Rx.set_DeferredOutputOwners
       (if Rx.DeferredOutputBytes (rx p r) =? 0 then Rx.DeferredOutputOwners (rx p r) else [])
       (rx p r)) /\
  queue (drop_deferred p r) = set_Store (Store (queue (drop_deferred p r))) (queue r) /\
  flow (drop_deferred p r) = flow r /\ log (drop_deferred p r) = log r /\
  PendingQuicReceiveBytes (ledger (drop_deferred p r)) = PendingQuicReceiveBytes (ledger r).
Proof.
  intros Hcfg H Hw. unfold drop_deferred. destruct (_ =? 0) eqn:E; to_prop; cbn [negb].
  { split_and!; try done; [|by destruct (queue r)]. rewrite <- E. by destruct (rx p r). }
  pose proof (held_bounds _ _ _ _ _ H) as Hb. cbn zeta in Hb. pose proof (held_cells _ _ _ _ _ H) as Hx.
  pose proof (h_writes _ _ _ _ H) as HW. pose proof (writes_nonneg _ _ _ HW) as Hwn.
  cbn in HW. rewrite Hw in HW.
  destruct (h_books _ _ _ _ H) as [K1 K2 K3 K4 K5 K6 K7 K8 K9 K10 K11 K12 K13].
  split_and!; try (by cbn); [|by rewrite rx_on_rx].
  assert (less (QuicToTcpPressureBytes (ledger r)) (Rx.DeferredOutputBytes (rx p r)) =
          QuicToTcpPressureBytes (ledger r) - Rx.DeferredOutputBytes (rx p r)) as Hl.
  { unfold less. rewrite (proj2 (Z.leb_le _ _)); [done|]. lia. }
  pose proof (rc_max _ Hcfg) as Hmax.
  assert (fold_left (fun n owner => u64 (n - Z.of_nat (length owner)))
            (Rx.DeferredOutputOwners (rx p r)) (OutputPendingBufferBytes (ledger r)) =
          OutputPendingBufferBytes (ledger r) - Rx.DeferredOutputBytes (rx p r)) as Hfo.
  { rewrite (rx_deferred _ Hx). apply free_fold. rewrite <- (rx_deferred _ Hx). lia. }
  set (x := Rx.set_DeferredOutputBytes 0 (Rx.set_DeferredOutputOwners [] (rx p r))).
  assert (RemainingBytes x = RemainingBytes (rx p r)) as Hrem by done.
  assert (Rx.DeferredOutputBytes x = 0) as Hd0 by done.
  assert (RxOk x) as Hxo by (destruct Hx; by constructor).
  assert (Rx.TcpWriteSubmitted x = false) as Hwx by done.
  assert (PlainOk cfg x) as Hpl by (intros _; rewrite Hwx; done).
  apply (touch_held cfg h h p q r _ x); try done; [by apply store_touch|..]; unfold shift; cbn -[x];
    rewrite ?Hl, ?Hfo, ?Hrem, ?Hd0, ?Hwx; try lia; try done.
  all: change (rx p (ReleasePressure _ r)) with (rx p r); rewrite Hfo; lia.
Qed.

(** ** Settling *)

Lemma done_fields x : RxOk x -> RemainingBytes x = 0 -> Rx.Settled x = true.
Proof. intros Hx H. rewrite (remaining_ok _ Hx) in H. rewrite (rx_settled _ Hx). apply Z.eqb_eq. lia. Qed.

(** A receive whose record says so little is as good as completed. *)
Lemma rx_ok_pending x c :
  RxOk x -> Rx.TcpWriteSubmitted x = false -> 0 <= c <= RemainingBytes x ->
  RxOk (Rx.set_CompletionPendingBytes c x).
Proof.
  intros Hx Hw Hc. rewrite (remaining_ok _ Hx) in Hc. destruct Hx. constructor; cbn; try done.
  by rewrite Hw.
Qed.

Lemma rx_ok_complete x bytes c n :
  RxOk x -> 0 < bytes <= RemainingBytes x -> c = 0 -> is_u32 n ->
  let y := Rx.set_CompletionPendingBytes c
             (Rx.set_CompletionRetryCount n (complete bytes x)) in
  RxOk y /\ RemainingBytes y = RemainingBytes x - bytes /\
  Rx.DeferredOutputBytes y = Rx.DeferredOutputBytes x /\
  Rx.TcpWriteSubmitted y = Rx.TcpWriteSubmitted x.
Proof.
  intros Hx Hb Hc Hn. rewrite (complete_fields _ _ Hx Hb). rewrite (remaining_ok _ Hx) in *. cbn zeta.
  assert (RxOk (Rx.set_CompletionPendingBytes c (Rx.set_CompletionRetryCount n
            (Rx.set_Settled (Rx.CompletedBytes x + bytes =? Rx.TotalBytes x)
               (Rx.set_CompletedBytes (Rx.CompletedBytes x + bytes) x))))) as Hy.
  { destruct Hx. constructor; cbn -[Z.eqb]; try done; lia. }
  split_and!; [done| |done|done]. rewrite (remaining_ok _ Hy). cbn. lia.
Qed.

Lemma retry_eta n x : Rx.CompletionRetryCount x = n -> Rx.set_CompletionRetryCount n x = x.
Proof. intros <-. by destruct x. Qed.

Lemma complete_retry bytes x : Rx.CompletionRetryCount (complete bytes x) = Rx.CompletionRetryCount x.
Proof. unfold complete. by destruct (_ =? _). Qed.

Lemma settle_front_held cfg h shut q r :
  ReceiveConfig_ok cfg -> Held cfg h q r ->
  Held cfg h q (snd (settle_front shut r)) /\
  (forall p, fst (settle_front shut r) = Some p ->
   exists q', q = p :: q' /\ done_with (rx p (snd (settle_front shut r)))) /\
  PendingQuicReceiveBytes (ledger (snd (settle_front shut r))) <= PendingQuicReceiveBytes (ledger r) /\
  streams (log (snd (settle_front shut r))) = streams (log r) /\
  (forall y, y ∉ q -> rx y (snd (settle_front shut r)) = rx y r).
Proof.
  intros Hcfg H. unfold settle_front. pose proof (front_cases q r (h_shape _ _ _ _ H)) as Hf.
  destruct (FrontReceive r) as [p|]; [|by split_and!]. destruct Hf as [q' ->].
  destruct (Rx.TcpWriteSubmitted (rx p r)) eqn:Ew; [by split_and!|].
  pose proof (held_cells _ _ _ _ _ H) as Hx. set (bytes := RemainingBytes (rx p r)).
  assert (exists ok r1, (if negb (bytes =? 0) then CompleteReceiveForRelay shut p bytes r else (true, r))
            = (ok, r1) /\
    (ok = false /\ Quiet r r1 \/
     ok = true /\ exists r0 y, on_rx (Rx.set_CompletionPendingBytes 0) p r1 = on_rx (fun _ => y) p r0 /\
       Quiet r r0 /\ RxOk y /\ RemainingBytes y = 0 /\
       Rx.DeferredOutputBytes y = Rx.DeferredOutputBytes (rx p r) /\
       Rx.TcpWriteSubmitted y = false)) as (ok & r1 & -> & Hres).
  { destruct (bytes =? 0) eqn:Eb; to_prop; cbn [negb].
    - exists true, r. split; [done|]. right. split; [done|].
      exists r, (Rx.set_CompletionPendingBytes 0 (rx p r)). split_and!; try done.
      apply rx_ok_pending; [done|done|]. fold bytes. lia.
    - pose proof (remaining_nonneg (rx p r)) as Hn. fold bytes in Hn.
      destruct (complete_for_spec shut p bytes r Hx) as (r1 & Hq & [[-> _]| -> ]); [lia|..].
      + exists false, r1. split; [done|]. by left.
      + exists true, (on_rx (complete bytes) p r1). split; [done|]. right. split; [done|].
        destruct (rx_ok_complete (rx p r) bytes 0 (Rx.CompletionRetryCount (rx p r)) Hx)
          as (Y1 & Y2 & Y3 & Y4); [lia|lia|apply Hx|].
        rewrite retry_eta in Y1, Y2, Y3, Y4 by apply complete_retry.
        exists r1, (Rx.set_CompletionPendingBytes 0 (complete bytes (rx p r1))).
        split; [by rewrite on_rx_compose|]. rewrite (quiet_rx _ _ p Hq). split_and!; try done; [lia|congruence]. }
  destruct Hres as [[-> Hq]|[-> (r0 & y & Heq & Hq & Y1 & Y2 & Y3 & Y4)]]; cbn [negb fst snd].
  { split_and!; [|done|by rewrite <- (q_ledger _ _ Hq)|exact (q_streams _ _ Hq)|].
    2: { intros y Hy%not_elem_of_cons. rewrite rx_on_rx_ne by (intros ->; tauto).
         apply (quiet_rx _ _ _ Hq). }
    eapply held_ext in H; [|by apply quiet_books].
    apply (held_touch cfg h p q' r1 (Rx.set_CompletionPendingBytes bytes (rx p r1))); try done.
    apply rx_ok_pending; rewrite (quiet_rx _ _ p Hq); [done|done|]. fold bytes.
    pose proof (remaining_nonneg (rx p r)). unfold bytes. lia. }
  rewrite Heq. set (r2 := release_completed bytes _).
  assert (Held cfg h (p :: q') r2) as H2.
  { apply (held_part cfg h p q' r r0 y bytes); try done; [apply remaining_nonneg|unfold bytes; lia]. }
  assert (rx p r2 = y /\ PendingQuicReceiveBytes (ledger r2) <= PendingQuicReceiveBytes (ledger r) /\
          streams (log r2) = streams (log r) /\ (forall y', y' <> p -> rx y' r2 = rx y' r))
    as (Hy & Hp & Hst & Hne).
  { pose proof (held_bounds _ _ _ _ _ H) as Hb. cbn zeta in Hb. fold bytes in Hb.
    pose proof (writes_nonneg _ _ _ (h_writes _ _ _ _ H)) as Hwn.
    pose proof (k_lost _ _ _ _ (h_books _ _ _ _ H)).
    unfold r2. rewrite release_ledger; cbn; rewrite ?(q_ledger _ _ Hq); try lia.
    split_and!; [|lia|exact (q_streams _ _ Hq)|].
    - unfold rx. cbn. by rewrite lookup_total_insert_eq.
    - intros y' Hy'. change (rx y' (on_rx (fun _ => y) p r0) = rx y' r).
      rewrite rx_on_rx_ne by done. apply (quiet_rx _ _ _ Hq). }
  clearbody r2. destruct (held_drop_deferred cfg h p q' r2 Hcfg H2) as (H3 & Hx3 & _ & _ & Hl3 & Hp3);
    [by rewrite Hy|].
  assert (forall y', y' <> p -> rx y' (drop_deferred p r2) = rx y' r2) as Hne3.
  { intros y' Hy'. unfold drop_deferred. destruct (negb _); [|done]. by rewrite rx_on_rx_ne. }
  set (r3 := drop_deferred p r2) in *. clearbody r3. rewrite Hy in Hx3.
  assert (RxOk (rx p r3)) as Hok3 by (by eapply held_cells).
  assert (RemainingBytes (rx p r3) = 0 /\ Rx.TcpWriteSubmitted (rx p r3) = false /\
          Rx.DeferredOutputBytes (rx p r3) = 0) as (R1 & R2 & R3) by (by rewrite Hx3).
  assert (Rx.set_Settled true (rx p r3) = rx p r3) as Hs3.
  { pose proof (done_fields _ Hok3 R1) as Hs. destruct (rx p r3). cbn in *. by subst. }
  split_and!.
  - apply (held_touch cfg h p q' r3 (Rx.set_Settled true (rx p r3))); rewrite ?Hs3; done.
  - intros p' [= <-]. exists q'. split; [done|]. rewrite rx_on_rx, Hs3. by split_and!.
  - cbn. lia.
  - cbn. by rewrite Hl3.
  - intros y' Hy'%not_elem_of_cons. cbn. rewrite rx_on_rx_ne by (intros ->; tauto).
    rewrite Hne3, Hne by tauto. done.
Qed.

(** ** The terminal protocol *)

Section Terminal.
  Context (cfg : ReceiveConfig) (Hcfg : ReceiveConfig_ok cfg).

(** The facts stay, and the queue only gets shorter. *)
Definition Keep (s s' : State) : Prop :=
  forall h q, Held cfg h q (recv s) ->
  exists q', Held cfg h q' (recv s') /\ suffix q' q /\
    PendingQuicReceiveBytes (ledger (recv s')) <= PendingQuicReceiveBytes (ledger (recv s)) /\
    streams (log (recv s')) = streams (log (recv s)) /\
    (forall y, y ∉ q -> rx y (recv s') = rx y (recv s)).

Definition keeps (f : State -> State) : Prop := forall s, Keep s (f s).

#[global] Instance keep_preorder : PreOrder Keep.
Proof.
  split; [intros s h q H; exists q; by split_and!|]. intros s1 s2 s3 H1 H2 h q H.
  destruct (H1 h q H) as (q1 & Hq1 & S1 & P1 & L1 & F1).
  destruct (H2 h q1 Hq1) as (q2 & Hq2 & S2 & P2 & L2 & F2).
  exists q2. split_and!; [done|by etrans|lia|congruence|].
  intros y Hy. rewrite F2, F1; [done|done|]. destruct S1 as [k ->].
  rewrite not_elem_of_app in Hy. by destruct Hy.
Qed.

Lemma keep_books s s' :
  same_books (recv s) (recv s') -> streams (log (recv s')) = streams (log (recv s)) -> Keep s s'.
Proof.
  intros Hb Hs h q H. exists q. split_and!; [by eapply held_ext|done| |done|].
  - destruct Hb as (_ & _ & -> & _). done.
  - intros y _. by apply same_books_rx.
Qed.

Lemma keep_same s s' : recv s' = recv s -> Keep s s'.
Proof. intros H. apply keep_books; by rewrite H. Qed.

Lemma keep_release : keeps converge_release.
Proof.
  intros s. unfold converge_release. set (s1 := on_term (set_LocalOwnershipDrained _) s).
  set (s2 := if QuicShutdownObserved (term s1) then _ else s1).
  assert (recv s2 = recv s /\
          LocalOwnershipDrained (term s2) = LocalOwnershipDrainedImpl (data s) (recv s)) as [Hr Hl].
  { unfold s2. by destruct (QuicShutdownObserved (term s1)). }
  clearbody s2. destruct (negb _ && _ && _ && _) eqn:E; [|by apply keep_same].
  cbn in E. apply andb_true_iff in E as [_ E]. rewrite Hl in E.
  assert (AccountedQuicToTcpBytes (ledger (recv s)) = 0) as H0.
  { unfold LocalOwnershipDrainedImpl in E.
    repeat match goal with H : _ && _ = true |- _ => apply andb_true_iff in H as [? ?] end.
    by to_prop. }
  apply keep_same. unfold EraseRelay, on_recv. destruct (Registered _); cbn; [|done].
  unfold CompleteQuicToTcp. rewrite Hr, H0. done.
Qed.

Lemma keep_converge settle a : keeps settle -> keeps (converge settle a).
Proof.
  intros Hs s. unfold converge. set (s1 := on_term _ s).
  assert (recv (snd (if TcpHandleInitialized (term s1) && negb (TcpClosePending (term s1)) &&
             negb (TcpCloseCompleted (term s1)) then CloseRelay (close_ok a) s1 else (true, s1)))
          = recv s) as H by (destruct (_ && _ && _); [by rewrite close_recv|done]).
  destruct (if _ && _ && _ then _ else _) as [closed s2]. cbn [snd] in H.
  assert (Keep s s2) as H2 by (by apply keep_same). destruct (negb closed); [done|].
  etrans; [exact H2|]. etrans; [|apply keep_release].
  destruct (TerminalAborted (term s2)); [apply Hs|done].
Qed.

Lemma keep_begin settle check t : keeps settle -> keeps check -> keeps (Begin_body settle check t).
Proof.
  intros Hs Hc s. unfold Begin_body, ask. cbn zeta beta iota.
  set (a := default default_answer _). set (trigger := SelectTerminalTrigger _).
  set (s1 := on_term (set_TerminalTriggerMask 0) _). assert (Keep s s1) as H1 by (by apply keep_same).
  clearbody s1 a trigger. assert (forall s, Keep s (abort_drops settle s)) as Hd.
  { intros s'. unfold abort_drops. etrans; [|apply Hs]. by apply keep_same. }
  destruct (TerminalStarted (term s1)).
  - destruct (_ && _); [|done]. etrans; [|apply Hc]. etrans; [exact H1|]. etrans; [|apply Hd].
    repeat match goal with |- context [if ?b then _ else _] => destruct b end; by apply keep_same.
  - etrans; [|apply Hc]. etrans; [exact H1|].
    match goal with |- Keep _ (snd (CloseRelay ?ok ?x)) =>
      etrans; [|by apply (keep_same x), close_recv] end.
    match goal with |- context [if IsAbort trigger then abort_drops settle ?x else _] =>
      set (s2 := x); assert (Keep s1 s2) as H2 by (apply keep_same; unfold s2; by destruct (TcpReadStarted _)) end.
    etrans; [exact H2|]. set (s3 := if IsAbort trigger then _ else _).
    assert (Keep s2 s3) as H3 by (unfold s3; destruct (IsAbort trigger); [apply Hd|done]).
    etrans; [exact H3|]. apply keep_same. by destruct (negb _).
Qed.

Lemma keep_process settle check : keeps settle -> keeps check -> keeps (Process_body settle check).
Proof.
  intros Hs Hc s. unfold Process_body. destruct (_ =? 0); (etrans; [|by (apply Hc || apply keep_begin)]);
    by apply keep_same.
Qed.

Lemma keep_check settle process : keeps settle -> keeps process -> keeps (Check_body settle process).
Proof.
  intros Hs Hp s. unfold Check_body, ask. cbn zeta beta iota.
  set (s1 := set_answers _ s). set (shut := _ && (PendingTcpWriteBytes _ =? 0)).
  set (s2 := if shut then _ else s1).
  assert (Keep s s2) as H2 by (unfold s2; destruct shut; [apply keep_books; [by split_and!|done]|by apply keep_same]).
  clearbody s2. destruct (shut && _).
  { etrans; [exact H2|]. etrans; [|apply Hp]. apply keep_books; [by split_and!|done]. }
  destruct (negb _ && NormalFinReady s2).
  { etrans; [exact H2|]. etrans; [|apply Hp]. by apply keep_same. }
  destruct (negb _); [done|]. etrans; [exact H2|]. by apply keep_converge.
Qed.

Lemma keep_id : keeps id.
Proof. intros s. done. Qed.

(** Popping a receive that is done with. *)
Lemma keep_pop_front check p s h q :
  keeps check -> Held cfg h (p :: q) (recv s) -> done_with (rx p (recv s)) ->
  exists q', Held cfg h q' (recv (Pop_body check p s)) /\ suffix q' q /\
    PendingQuicReceiveBytes (ledger (recv (Pop_body check p s))) <=
    PendingQuicReceiveBytes (ledger (recv s)) /\
    streams (log (recv (Pop_body check p s))) = streams (log (recv s)) /\
    (forall y, y ∉ q -> rx y (recv (Pop_body check p s)) = rx y (recv s)).
Proof.
  intros Hc H Hd. unfold Pop_body. pose proof (held_pop cfg h p q (recv s) H Hd) as H'.
  destruct (pop_queue p q (recv s) (h_shape _ _ _ _ H)) as (_ & _ & _ & Hsto & Hl & Hg & _).
  destruct (pop p (recv s)) as [fin r]. cbn [snd] in *. destruct fin.
  - destruct (Hc (set_recv r s) h q H') as (q' & ? & ? & ? & ? & Hf). exists q'. cbn in *.
    rewrite Hl, Hg in *. split_and!; try done. intros y Hy. rewrite Hf by done.
    unfold rx. by rewrite Hsto.
  - exists q. cbn. rewrite Hl, Hg. split_and!; try done. intros y _. unfold rx. cbn. by rewrite Hsto.
Qed.

Lemma keep_settle_loop n : keeps (settle_loop n).
Proof.
  induction n as [|n IH]; intros s; [done|]. intros h q H.
  destruct (settle_front_held cfg h (QuicShutdownObserved (term s)) q (recv s) Hcfg H)
    as (H1 & H2 & H3 & H4 & H5).
  destruct (settle_turn n s) as [[-> _]|(p & s' & -> & Hf & -> & _ & _)].
  - exists q. cbn. by split_and!.
  - destruct (H2 p Hf) as (q' & -> & Hd).
    destruct (keep_pop_front (check_with (settle_loop n)) p
      (set_recv (snd (settle_front (QuicShutdownObserved (term s)) (recv s))) s) h q')
      as (q1 & G1 & G2 & G3 & G3' & G3''); [apply keep_check; [done|apply keep_id]|done|done|].
    destruct (IH _ h q1 G1) as (q2 & G4 & G5 & G6 & G7 & G8). exists q2. cbn in G3, G3', G3''.
    split_and!; [done| |lia|congruence|].
    + etrans; [exact G5|]. by apply suffix_cons_r.
    + intros y Hy. pose proof Hy as [_ Hy']%not_elem_of_cons. rewrite G8, G3'', H5; try done.
      destruct G2 as [k ->]. rewrite not_elem_of_app in Hy'. by destruct Hy'.
Qed.

Lemma keep_settle : keeps TqUvSettleQuicReceivesAtTerminal.
Proof. intros s. apply keep_settle_loop. Qed.

Lemma keep_convergence : keeps TqUvCheckTerminalConvergence.
Proof.
  apply keep_check; [apply keep_settle|]. apply keep_process; [apply keep_settle|].
  apply keep_check; [apply keep_settle|apply keep_id].
Qed.

Lemma keep_facts : keeps TqUvProcessTerminalFactsLocal.
Proof. apply keep_process; [apply keep_settle|apply keep_convergence]. Qed.

Lemma keep_pop p s h q :
  Held cfg h (p :: q) (recv s) -> done_with (rx p (recv s)) ->
  exists q', Held cfg h q' (recv (PopReceive p s)) /\ suffix q' q /\
    PendingQuicReceiveBytes (ledger (recv (PopReceive p s))) <=
    PendingQuicReceiveBytes (ledger (recv s)) /\
    streams (log (recv (PopReceive p s))) = streams (log (recv s)) /\
    (forall y, y ∉ q -> rx y (recv (PopReceive p s)) = rx y (recv s)).
Proof. apply keep_pop_front, keep_convergence. Qed.

End Terminal.

(** ** What the release leaves *)

(** A relay that has been released has nothing queued, admitted or accounted as pressure. *)
Definition Spent (s : State) : Prop :=
  TerminalReleased (term s) = true ->
  FrontReceive (recv s) = None /\ AdmittedQuicReceiveBytes (ledger (recv s)) = 0 /\
  QuicToTcpPressureBytes (ledger (recv s)) = 0.

Definition spends (f : State -> State) : Prop := forall s, Spent s -> Spent (f s).

Lemma spent_same s s' :
  FrontReceive (recv s') = FrontReceive (recv s) -> ledger (recv s') = ledger (recv s) ->
  TerminalReleased (term s') = TerminalReleased (term s) -> Spent s -> Spent s'.
Proof. unfold Spent. by intros -> -> ->. Qed.

Lemma drained_receives d r :
  LocalOwnershipDrainedImpl d r = true ->
  TcpWrites (flow r) = [] /\ FrontReceive r = None /\ PendingTcpWriteBytes (ledger r) = 0 /\
  PendingQuicReceiveBytes (ledger r) = 0 /\ AccountedQuicToTcpBytes (ledger r) = 0 /\
  AdmittedQuicReceiveBytes (ledger r) = 0 /\ QuicToTcpPressureBytes (ledger r) = 0.
Proof.
  unfold LocalOwnershipDrainedImpl, FrontReceive. intros H.
  repeat match goal with H : _ && _ = true |- _ => apply andb_true_iff in H as [? ?] end.
  repeat match goal with
         | H : bool_decide (length _ = _) = true |- _ =>
             apply bool_decide_eq_true, length_zero_iff_nil in H
         | H : bool_decide (_ = _) = true |- _ => apply bool_decide_eq_true in H
         end.
  to_prop. by match goal with H : PrecommitReceives _ = [] |- _ => rewrite H end.
Qed.

(** The release happens on a drained relay, and leaves its receiving half as it is. *)
Lemma spends_release : spends converge_release.
Proof.
  intros s. unfold converge_release. set (s1 := on_term (set_LocalOwnershipDrained _) s).
  set (s2 := if QuicShutdownObserved (term s1) then _ else s1).
  assert (recv s2 = recv s /\ TerminalReleased (term s2) = TerminalReleased (term s) /\
          LocalOwnershipDrained (term s2) = LocalOwnershipDrainedImpl (data s) (recv s))
    as (Hr & Hre & Hl) by (unfold s2; by destruct (QuicShutdownObserved (term s1))).
  clearbody s2. destruct (negb _ && _ && _ && _) eqn:E; intros Hs; [|by apply (spent_same s); cbn; rewrite ?Hr].
  cbn in E. apply andb_true_iff in E as [_ E]. rewrite Hl in E.
  pose proof (drained_receives _ _ E) as (_ & H1 & _ & _ & H2 & H3 & H4).
  unfold EraseRelay, on_recv. destruct (Registered _); intros _; cbn; [|by rewrite Hr].
  unfold CompleteQuicToTcp. rewrite Hr, H2. cbn. by rewrite ?Hr.
Qed.

Lemma released_close ok s :
  TerminalReleased (term (snd (CloseRelay ok s))) = TerminalReleased (term s).
Proof.
  unfold CloseRelay. repeat match goal with |- context [if ?b then _ else _] => destruct b end; done.
Qed.

Lemma spends_close ok : spends (fun s => snd (CloseRelay ok s)).
Proof. intros s. apply spent_same; by rewrite ?close_recv, ?released_close. Qed.

Lemma spends_converge settle a : spends settle -> spends (converge settle a).
Proof.
  intros Hset s Hs. unfold converge. set (s1 := on_term _ s).
  assert (Spent s1) as H1.
  { apply (spent_same s); try done. cbn. by destruct (same_core_handoff a (term s)) as (_ & _ & _ & -> & _). }
  assert (Spent (snd (if TcpHandleInitialized (term s1) && negb (TcpClosePending (term s1)) &&
            negb (TcpCloseCompleted (term s1)) then CloseRelay (close_ok a) s1 else (true, s1)))) as H2
    by (destruct (_ && _ && _); [by apply (spends_close (close_ok a))|done]).
  clearbody s1. destruct (if _ && _ && _ then _ else _) as [closed s2]. cbn [snd] in H2.
  destruct (negb closed); [done|]. apply spends_release. destruct (TerminalAborted _); [by apply Hset|done].
Qed.

Lemma spends_begin settle check t : spends settle -> spends check -> spends (Begin_body settle check t).
Proof.
  intros Hset Hc s Hs. unfold Begin_body, ask. cbn zeta beta iota.
  set (s1 := on_term (set_TerminalTriggerMask 0) _). set (trigger := SelectTerminalTrigger _).
  assert (Spent s1) as H1 by (by apply (spent_same s)). clearbody s1 trigger.
  assert (spends (abort_drops settle)) as Hd.
  { intros x Hx. unfold abort_drops. apply Hset. by apply (spent_same x). }
  destruct (TerminalStarted (term s1)).
  - destruct (_ && _); [|done]. apply Hc, Hd. apply (spent_same s1);
      repeat match goal with |- context [if ?b then _ else _] => destruct b end; done.
  - apply Hc, (spends_close (close_ok _)).
    match goal with |- context [if IsAbort trigger then abort_drops settle ?x else _] =>
      set (s2 := x); assert (Spent s2) as H2 by (apply (spent_same s1); unfold s2; by destruct (TcpReadStarted _)) end.
    clearbody s2. set (s3 := if IsAbort trigger then _ else _).
    assert (Spent s3) as H3 by (unfold s3; destruct (IsAbort trigger); [by apply Hd|done]).
    clearbody s3. destruct (negb _); [|by apply (spent_same s3)].
    apply (spent_same s3); try done. cbn.
    match goal with |- context [RecordHandoffResult ?a ?b] =>
      by destruct (same_core_record a b) as (_ & _ & _ & -> & _) end.
Qed.

Lemma spends_process settle check : spends settle -> spends check -> spends (Process_body settle check).
Proof.
  intros Hset Hc s Hs. unfold Process_body.
  destruct (_ =? 0); [apply Hc|apply spends_begin; try done]; by apply (spent_same s).
Qed.

Lemma spends_check settle process : spends settle -> spends process -> spends (Check_body settle process).
Proof.
  intros Hset Hp s Hs. unfold Check_body, ask. cbn zeta beta iota.
  set (s1 := set_answers _ s). set (shut := _ && (PendingTcpWriteBytes _ =? 0)).
  set (s2 := if shut then _ else s1).
  assert (Spent s2) as H2 by (apply (spent_same s); unfold s2; by destruct shut).
  clearbody s2. destruct (shut && _); [apply Hp; by apply (spent_same s2)|].
  destruct (negb _ && NormalFinReady s2); [apply Hp; by apply (spent_same s2)|].
  destruct (negb _); [done|]. by apply spends_converge.
Qed.

(** A receive that is popped was at the front, so the relay has not been released. *)
Lemma spends_pop check p s :
  spends check -> TerminalReleased (term s) = false -> Spent (Pop_body check p s).
Proof.
  intros Hc Hr. unfold Pop_body. destruct (pop p (recv s)) as [[] r]; [apply Hc|];
    intros H; cbn in H; congruence.
Qed.

Lemma spends_settle_loop n : spends (settle_loop n).
Proof.
  induction n as [|n IH]; intros s Hs; [done|]. cbn [settle_loop].
  destruct (TerminalReleased (term s)) eqn:E.
  - unfold settle_front. destruct (Hs E) as [-> _]. by apply (spent_same s).
  - destruct (settle_front _ _) as [[p|] r]; [|intros H; cbn in H; congruence].
    apply IH, spends_pop; [|done]. apply spends_check; [done|by intros x].
Qed.

Lemma spends_convergence : spends TqUvCheckTerminalConvergence.
Proof.
  assert (spends TqUvSettleQuicReceivesAtTerminal) as H by (intros s; apply spends_settle_loop).
  apply spends_check; [done|]. apply spends_process; [done|]. apply spends_check; [done|by intros s].
Qed.

Lemma spends_facts : spends TqUvProcessTerminalFactsLocal.
Proof.
  apply spends_process; [intros s; apply spends_settle_loop|apply spends_convergence].
Qed.
