(* ===== verification/UvFlow.v ===== *)
(** The libuv relay's receiving half: the stream it carries.

    Over [Held] of UvHeld.v there are two more layers.  [Steady] is true until the relay ends: the
    front's cursor is where the completed bytes are, so that a finished decompression settles the
    receive.  [Flowing] is true until something asks for the relay's end: what was admitted is
    what was handed on and what still waits, in order, and what was produced is what was written
    and what is kept.  Every handler keeps the three, the processing machine stops, and it stops
    only when something will start it again. *)

From stdpp Require Import base gmap list numbers decidable.
From Stdlib Require Import ZArith Lia.
From S2P Require Import Prelude RelayBuffer UvSend UvReceive UvTerminal UvWrite UvRelay UvHeld.

(** ** The cursor *)

(** The bytes before the cursor, and those from it on. *)
Definition position (x : Rx.t) : nat :=
  (length (concat (take (Rx.SliceIndex x) (Rx.Slices x))) + Rx.SliceOffset x)%nat.
Definition unread (x : Rx.t) : list Z := drop (position x) (concat (Rx.Slices x)).

(** The cursor is inside its slice. *)
Definition Cursor (x : Rx.t) : Prop :=
  match Rx.Slices x !! Rx.SliceIndex x with
  | Some slice => (Rx.SliceOffset x <= length slice)%nat
  | None => Rx.SliceIndex x = length (Rx.Slices x) /\ Rx.SliceOffset x = 0%nat
  end.

Lemma bytes_in_concat l : bytes_in l = Z.of_nat (length (concat l)).
Proof.
  unfold bytes_in. induction l as [|b l IH]; [done|]. rewrite sum_cons, IH. cbn.
  rewrite length_app. lia.
Qed.

Lemma advance_spec slices index offset bytes :
  match slices with [] => offset = 0%nat | s :: _ => (offset <= length s)%nat end ->
  (offset + bytes <= length (concat slices))%nat ->
  let '(index', offset') := advance slices index offset bytes in
  exists k, index' = (index + k)%nat /\
    (length (concat (take k slices)) + offset' = offset + bytes)%nat /\
    match slices !! k with
    | Some s => (offset' <= length s)%nat
    | None => k = length slices /\ offset' = 0%nat
    end.
Proof.
  revert index offset bytes. induction slices as [|s slices IH]; intros index offset bytes H1 H2.
  { cbn in *. exists 0%nat. subst. cbn. split_and!; lia. }
  cbn [advance]. destruct (bytes =? 0)%nat eqn:Eb; [apply Nat.eqb_eq in Eb|apply Nat.eqb_neq in Eb].
  { exists 0%nat. cbn. split_and!; lia. }
  cbn in H2. rewrite length_app in H2.
  destruct (_ =? length s)%nat eqn:E; [apply Nat.eqb_eq in E|apply Nat.eqb_neq in E].
  - specialize (IH (S index) 0%nat (bytes - Nat.min bytes (length s - offset))%nat).
    destruct (advance slices _ _ _) as [index' offset'].
    destruct IH as (k & K1 & K2 & K3); [destruct slices; lia|lia|].
    exists (S k). cbn. rewrite length_app. split_and!; [lia|lia|].
    destruct (slices !! k); [done|]. destruct K3. split; [lia|done].
  - exists 0%nat. cbn. split_and!; lia.
Qed.

Lemma drop_position x :
  Cursor x -> unread x = drop (Rx.SliceOffset x) (concat (drop (Rx.SliceIndex x) (Rx.Slices x))).
Proof.
  intros _. unfold unread, position.
  rewrite <- (take_drop (Rx.SliceIndex x) (Rx.Slices x)) at 2. rewrite concat_app.
  rewrite <- drop_drop. f_equal. by rewrite drop_app_length.
Qed.

Lemma advance_input n x :
  Cursor x -> (n <= length (unread x))%nat ->
  let y := AdvanceInput n x in
  y = Rx.set_SliceIndex (Rx.SliceIndex y) (Rx.set_SliceOffset (Rx.SliceOffset y) x) /\
  Cursor y /\ position y = (position x + n)%nat.
Proof.
  intros Hc Hn. pose proof (drop_position x Hc) as Hu. unfold AdvanceInput.
  pose proof (advance_spec (drop (Rx.SliceIndex x) (Rx.Slices x)) (Rx.SliceIndex x)
                (Rx.SliceOffset x) n) as Ha.
  assert (match drop (Rx.SliceIndex x) (Rx.Slices x) with
          | [] => Rx.SliceOffset x = 0%nat | s :: _ => (Rx.SliceOffset x <= length s)%nat end) as H1.
  { unfold Cursor in Hc. rewrite <- (Nat.add_0_r (Rx.SliceIndex x)), <- lookup_drop in Hc.
    destruct (drop (Rx.SliceIndex x) (Rx.Slices x)); cbn in Hc; [|done]. by destruct Hc. }
  specialize (Ha H1).
  assert (Rx.SliceOffset x + n <= length (concat (drop (Rx.SliceIndex x) (Rx.Slices x))) \/
          n = 0)%nat as [H2|H2].
  { rewrite Hu, length_drop in Hn. lia. }
  - specialize (Ha H2). destruct (advance _ _ _ _) as [index' offset'].
    destruct Ha as (k & -> & K2 & K3). cbn zeta. split_and!; [done| |].
    + unfold Cursor. cbn. rewrite lookup_drop in K3.
      destruct (Rx.Slices x !! (Rx.SliceIndex x + k)%nat); [done|]. destruct K3 as [-> ?].
      split; [|done]. rewrite length_drop. unfold Cursor in Hc.
      destruct (Rx.Slices x !! Rx.SliceIndex x) eqn:E; [apply lookup_lt_Some in E; lia|].
      destruct Hc. lia.
    + unfold position. cbn. rewrite <- take_take_drop, concat_app, length_app. lia.
  - subst n. assert (advance (drop (Rx.SliceIndex x) (Rx.Slices x)) (Rx.SliceIndex x)
                       (Rx.SliceOffset x) 0 = (Rx.SliceIndex x, Rx.SliceOffset x)) as ->
      by (destruct (drop (Rx.SliceIndex x) (Rx.Slices x)); reflexivity).
    cbn zeta. split_and!; [by destruct x|done|]. unfold position. cbn. lia.
Qed.

(** ** Layers *)

(** The contents of receives nothing has been done with. *)
Definition contents (r : Recv) (l : list nat) : list Z :=
  concat ((fun p => concat (Rx.Slices (rx p r))) <$> l).

Section Layers.
  Context (cfg : ReceiveConfig).

(** The bytes of the front that were not handed on. *)
Definition front_unread (x : Rx.t) : list Z :=
  if Decompressing cfg then unread x
  else if Rx.TcpWriteSubmitted x || negb (Rx.CompletionPendingBytes x =? 0) || Rx.Settled x
  then [] else concat (Rx.Slices x).

(** [refused] says whether an API was ever refused: without that no completion waits. *)
Record Steady (refused : bool) (x : Rx.t) : Prop := {
  s_inflate : Decompressing cfg = true ->
    Cursor x /\
    Z.of_nat (position x) = Rx.CompletedBytes x + Rx.CompletionPendingBytes x;
  s_plain : Decompressing cfg = false ->
    Rx.SliceIndex x = 0%nat /\ Rx.SliceOffset x = 0%nat /\ Rx.DeferredOutputBytes x = 0 /\
    (Rx.CompletedBytes x = 0 \/ Rx.Settled x = true) /\
    (Rx.CompletionPendingBytes x = 0 \/ Rx.CompletionPendingBytes x = RemainingBytes x);
  s_owners : (length (Rx.DeferredOutputOwners x) <= 1)%nat;
  s_output : Forall (fun b => b <> []) (Rx.DeferredOutputOwners x);
  s_refused : Rx.CompletionPendingBytes x <> 0 -> refused = true }.

(** The output kept with the front. *)
Definition pent (q : list nat) (r : Recv) : list Z :=
  match q with [] => [] | p :: _ => concat (Rx.DeferredOutputOwners (rx p r)) end.

(** What of the queue was not handed on. *)
Definition queued (q : list nat) (r : Recv) : list Z :=
  match q with [] => [] | p :: q => front_unread (rx p r) ++ contents r q end.

(** The flag is what MsQuic was told, and without a limit it is told nothing; no write was
    abandoned. *)
Definition Flag (r : Recv) : Prop :=
  QuicReceivePausedByTcpBacklog (flow r) = disabled (log r) /\
  (PrecommitMaxPendingBytes cfg = 0 -> disabled (log r) = false) /\
  lost (log r) = 0.

Record Flowing (q : list nat) (r : Recv) : Prop := {
  f_admitted : admitted (log r) =
    taken (log r) ++ queued q r ++ contents r (Posted (queue r));
  f_output : output (log r) = written (log r) ++ pent q r;
  f_flag : Flag r }.

(** What the records say whatever happens. *)
Record Logs (r : Recv) : Prop := {
  g_plain : Decompressing cfg = false -> taken (log r) = output (log r);
  g_inflate : Decompressing cfg = true ->
    taken (log r) = concat (fst <$> inflated (log r)) /\
    output (log r) = concat (snd <$> inflated (log r));
  g_written : written (log r) `sublist_of` output (log r) }.

(** The three layers of a relay that has or has not ended, and is or is not about to. *)
Record Rel (ended doomed : bool) (h : Z) (q : list nat) (r : Recv) : Prop := {
  r_held : Held cfg h q r;
  r_steady : ended = false ->
    match q with [] => True | p :: _ => Steady (refused (log r)) (rx p r) end /\
    written (log r) ++ pent q r `sublist_of` output (log r);
  r_flowing : doomed = false -> Flowing q r;
  r_logs : Logs r }.

(** Receiving is disabled for a reason, unless an API was refused. *)
Definition Pace (r : Recv) : Prop :=
  refused (log r) = false -> disabled (log r) = true ->
  PrecommitMaxPendingBytes cfg / 2 < QuicToTcpPressureBytes (ledger r).

(** Output is kept only behind a completion that waits. *)
Definition Waits (x : Rx.t) : Prop :=
  Rx.DeferredOutputBytes x <> 0 ->
  Rx.TcpWriteSubmitted x = false /\ Rx.CompletionPendingBytes x <> 0.

Definition ended (s : State) : bool := TerminalStarted (term s) || QuicShutdownObserved (term s).
Definition doomed (s : State) : bool := ended s || negb (TerminalTriggerMask (term s) =? 0).

(** Nothing queued, nothing on its way, no pressure left over. *)
Definition Emptied (q : list nat) (r : Recv) : Prop :=
  q = [] /\ waiting r = [] /\ lost (log r) = 0.

Record Sound (h : Z) (q : list nat) (s : State) : Prop := {
  so_active : TerminalStarted (term s) = false -> Activation (term s) = Active;
  so_released : TerminalReleased (term s) = true -> Emptied q (recv s);
  so_rel : Rel (ended s) (doomed s) h q (recv s) }.

(** Between two steps of the processing, and between handlers. *)
Record Rested (q : list nat) (s : State) : Prop := {
  re_waits : ended s = false -> match q with [] => True | p :: _ => Waits (rx p (recv s)) end;
  re_pace : doomed s = false -> Pace (recv s) }.

(** Something will process the queue again, unless an API was refused. *)
Definition Driven (q : list nat) (s : State) : Prop :=
  doomed s = true \/ refused (log (recv s)) = true \/ q = [] \/
  TcpWrites (flow (recv s)) <> [] \/ QuicToTcpContinuationPending (flow (recv s)) = true.

Lemma fresh_steady c x : Fresh x -> Steady c x.
Proof.
  intros [-> _ _ _]. constructor; cbn; [| |lia|constructor|done].
  - intros _. split; [|done]. unfold Cursor. cbn. destruct (Rx.Slices x); cbn; [done|lia].
  - intros _. split_and!; try done; by left.
Qed.

Lemma fresh_unread x : Fresh x -> front_unread x = concat (Rx.Slices x).
Proof. intros [-> _ _ _]. unfold front_unread, unread, position. cbn. by destruct (Decompressing cfg). Qed.

Lemma rel_weaken e d e' d' h q r :
  Rel e d h q r -> (e' = false -> e = false) -> (d' = false -> d = false) -> Rel e' d' h q r.
Proof. intros [] He Hd. constructor; auto. Qed.

(** The queue without its front: the next receive is as it came. *)
Lemma fresh_front r q :
  Forall (fun p => Fresh (rx p r)) q -> queued q r = contents r q /\ pent q r = [] /\
  match q with [] => True | p :: _ => Steady (refused (log r)) (rx p r) end.
Proof.
  destruct q as [|p q]; [done|]. intros [Hp _]%list.Forall_cons. cbn. rewrite (fresh_unread _ Hp).
  split_and!; [done| |by apply fresh_steady]. destruct Hp as [-> _ _ _]. done.
Qed.

End Layers.

(** ** The terminal protocol *)

(** A terminal that has started stays so. *)
Definition stays (f : State -> State) : Prop :=
  forall s, TerminalStarted (term s) = true -> TerminalStarted (term (f s)) = true.

Lemma stays_release : stays converge_release.
Proof. intros s Hs. by destruct (release_core s) as (-> & _). Qed.

Lemma stays_close ok : stays (fun s => snd (CloseRelay ok s)).
Proof.
  intros s Hs. unfold CloseRelay.
  repeat match goal with |- context [if ?b then _ else _] => destruct b end; done.
Qed.

Lemma stays_converge settle a : stays settle -> stays (converge settle a).
Proof.
  intros Hset s Hs. unfold converge. set (s1 := on_term _ s).
  assert (TerminalStarted (term s1) = true) as H1.
  { cbn. destruct (same_core_handoff a (term s)) as (-> & _). exact Hs. }
  assert (TerminalStarted (term (snd (if TcpHandleInitialized (term s1) &&
            negb (TcpClosePending (term s1)) && negb (TcpCloseCompleted (term s1))
            then CloseRelay (close_ok a) s1 else (true, s1)))) = true) as H2.
  { destruct (_ && _ && _); [by apply (stays_close (close_ok a))|done]. }
  clearbody s1. destruct (if _ && _ && _ then _ else _) as [closed s2]. cbn [snd] in H2.
  destruct (negb closed); [done|]. apply stays_release. destruct (TerminalAborted _); [by apply Hset|done].
Qed.

Lemma stays_check settle p : stays settle -> stays (Check_body settle p).
Proof.
  intros Hset s Hs. unfold Check_body, ask. cbn zeta beta iota.
  change (TerminalStarted (term (set_answers (list.tail (answers s)) s))) with (TerminalStarted (term s)).
  rewrite Hs. cbn [negb andb]. by apply stays_converge.
Qed.

Lemma stays_pop check p : stays check -> stays (Pop_body check p).
Proof.
  intros Hc s Hs. unfold Pop_body. destruct (pop p (recv s)) as [[] r]; [by apply Hc|done].
Qed.

Lemma stays_settle : stays TqUvSettleQuicReceivesAtTerminal.
Proof.
  intros s. unfold TqUvSettleQuicReceivesAtTerminal. generalize (receives (recv s)). intros n.
  revert s. induction n as [|n IH]; intros s Hs; [done|]. cbn [settle_loop].
  destruct (settle_front _ _) as [[p|] r]; [|done]. apply IH, stays_pop; [|done].
  by apply stays_check.
Qed.

Lemma begin_starts settle check t s :
  stays settle -> stays check -> TerminalStarted (term (Begin_body settle check t s)) = true.
Proof.
  intros Hset Hc. unfold Begin_body, ask. cbn zeta beta iota.
  set (s1 := on_term (set_TerminalTriggerMask 0) _). set (trigger := SelectTerminalTrigger _).
  clearbody s1 trigger. destruct (TerminalStarted (term s1)) eqn:E.
  - destruct (_ && _); [|done]. apply Hc. unfold abort_drops. apply Hset. cbn.
    repeat match goal with |- context [if ?b then _ else _] => destruct b end; cbn;
      rewrite ?E; done.
  - apply Hc, stays_close.
    match goal with |- context [if IsAbort trigger then ?x else ?y] =>
      set (s2 := if IsAbort trigger then x else y);
      assert (TerminalStarted (term s2) = true) as H2 end.
    { unfold s2, abort_drops. destruct (IsAbort trigger); [apply Hset|]; by destruct (TcpReadStarted _). }
    clearbody s2. destruct (negb _); [|done]. cbn [on_term set_term term set_StopSignalled].
    cbn. match goal with |- context [RecordHandoffResult ?a ?b] =>
      destruct (same_core_record a b) as (H & _); rewrite H end. exact H2.
Qed.

Lemma process_starts settle check s :
  stays settle -> stays check -> TerminalTriggerMask (term s) <> 0 ->
  TerminalStarted (term (Process_body settle check s)) = true.
Proof. intros. unfold Process_body. rewrite (proj2 (Z.eqb_neq _ _)) by done. by apply begin_starts. Qed.

(** All but the write side's shutdown, the answers and the API's refusals is the same. *)
Record same_live (r r' : Recv) : Prop := {
  l_queue : queue r' = queue r;
  l_ledger : ledger r' = ledger r;
  l_log : log r' = log r;
  l_flow : exists b, flow r' = set_TcpShutdownPending b (flow r) }.

#[global] Instance same_live_preorder : PreOrder same_live.
Proof.
  split.
  - intros r. constructor; try done. exists (TcpShutdownPending (flow r)). by destruct (flow r).
  - intros r1 r2 r3 [] []. constructor; try congruence.
    destruct l_flow0 as [b1 H1], l_flow1 as [b2 H2]. exists b2. by rewrite H2, H1.
Qed.

(** The check starts the terminal or does next to nothing. *)
Lemma check_live s :
  TerminalStarted (term (TqUvCheckTerminalConvergence s)) = true \/
  term (TqUvCheckTerminalConvergence s) = term s /\
  same_live (recv s) (recv (TqUvCheckTerminalConvergence s)).
Proof.
  destruct (TerminalStarted (term s)) eqn:Es.
  { left. by apply stays_check; [apply stays_settle|]. }
  unfold TqUvCheckTerminalConvergence, Check_body, ask. cbn zeta beta iota.
  set (s1 := set_answers _ s). set (shut := _ && (PendingTcpWriteBytes _ =? 0)).
  set (s2 := if shut then _ else s1).
  assert (term s2 = term s /\ same_live (recv s) (recv s2)) as [Ht Hl].
  { unfold s2. destruct shut; [|done]. split; [done|]. constructor; try done. by exists true. }
  assert (forall t x, TerminalStarted (term (process_triggered (TqUvRequestTerminal t x))) = true) as Hp.
  { intros t x. apply process_starts; [apply stays_settle|apply stays_check, stays_settle|].
    apply mask_nonzero. }
  destruct (shut && _); [left; apply Hp|].
  change (TerminalStarted (term s1)) with (TerminalStarted (term s)). rewrite Es. cbn [negb andb].
  destruct (NormalFinReady s2); [left; apply Hp|]. by right.
Qed.

Lemma facts_live s :
  TerminalStarted (term (TqUvProcessTerminalFactsLocal s)) = true \/
  TerminalTriggerMask (term s) = 0 /\ term (TqUvProcessTerminalFactsLocal s) = term s /\
  same_live (recv s) (recv (TqUvProcessTerminalFactsLocal s)).
Proof.
  destruct (decide (TerminalTriggerMask (term s) = 0)) as [H0|H0].
  - unfold TqUvProcessTerminalFactsLocal, Process_body. rewrite H0. cbn [Z.eqb].
    destruct (check_live (on_term (set_TerminalTriggerMask 0) s)) as [H|[H1 H2]]; [by left|right].
    split_and!; [done| |done]. rewrite H1. cbn. rewrite <- H0. by destruct (term s).
  - left. apply process_starts; [apply stays_settle| |done]. apply stays_check, stays_settle.
Qed.

(** ** Keeping the layers *)

Section Keeping.
  Context {cfg : ReceiveConfig} {Hcfg : ReceiveConfig_ok cfg}.

Local Abbreviation Rel := (Rel cfg).
Local Abbreviation Sound := (Sound cfg).

Lemma contents_ext r r' l : (forall y, y ∈ l -> rx y r' = rx y r) -> contents r' l = contents r l.
Proof.
  intros H. unfold contents. f_equal. apply list_fmap_ext. intros i y Hy.
  rewrite H; [done|]. by eapply list_elem_of_lookup_2.
Qed.

(** Nothing the layers mention has changed. *)
Lemma rel_same e d h q r r' :
  Rel e d h q r -> same_books r r' -> streams (log r') = streams (log r) ->
  (refused (log r) = true -> refused (log r') = true) ->
  (Flag cfg r -> Flag cfg r') ->
  Rel e d h q r'.
Proof.
  intros [Hh Hs Hf Hl] Hb Hst Hr Hp. unfold streams in Hst. injection Hst as S1 S2 S3 S4 S5.
  pose proof (fun y => same_books_rx r r' y Hb) as Hrx.
  assert (forall l, contents r' l = contents r l) as Hc by (intros; by apply contents_ext).
  assert (queued cfg q r' = queued cfg q r /\ pent q r' = pent q r) as [Hq Hpe].
  { destruct q as [|p q]; [done|]. cbn. rewrite Hrx, Hc. done. }
  constructor.
  - by eapply held_ext.
  - intros He. destruct (Hs He) as [H1 H2]. rewrite Hpe, S3, S4. split; [|done].
    destruct q as [|p q]; [done|]. rewrite Hrx. destruct H1 as [A1 A2 A3 A4 A5].
    constructor; auto.
  - intros Hd. destruct (Hf Hd) as [H1 H2 H3]. destruct Hb as ((_ & _ & _ & _ & _ & _ & _ & Hpo) & _).
    constructor; rewrite ?Hq, ?Hpe, ?S1, ?S2, ?S3, ?S4, ?Hpo, ?Hc; auto.
  - destruct Hl as [G1 G2 G3]. constructor; rewrite ?S2, ?S3, ?S4, ?S5; done.
Qed.

Lemma rel_quiet e d h q r r' : Rel e d h q r -> Quiet r r' -> Rel e d h q r'.
Proof.
  intros H Hq. apply (rel_same e d h q r); [done|by apply quiet_books|..]; destruct Hq; try done.
  unfold Flag. by rewrite q_flow, q_disabled, q_lost.
Qed.

Lemma rel_live e d h q r r' : Rel e d h q r -> same_live r r' -> Rel e d h q r'.
Proof.
  intros H [H1 H2 H3 [b H4]]. apply (rel_same e d h q r); [done|..]; rewrite ?H3, ?H4; try done.
  - split_and!; rewrite ?H1, ?H2, ?H3, ?H4; try done. unfold same_links. by rewrite H1.
  - unfold Flag. by rewrite H3, H4.
Qed.

(** The layers hold again when the front was worked on. *)
Lemma rel_front e d e' d' h h' p q r r' t o w l :
  Rel e d h (p :: q) r -> Held cfg h' (p :: q) r' ->
  Posted (queue r') = Posted (queue r) -> (forall y, y <> p -> rx y r' = rx y r) ->
  streams (log r') = (admitted (log r), taken (log r) ++ t, output (log r) ++ o,
                      written (log r) ++ w, inflated (log r) ++ l) ->
  (Decompressing cfg = false -> t = o) ->
  (Decompressing cfg = true -> t = concat (fst <$> l) /\ o = concat (snd <$> l)) ->
  (e' = true -> w = []) ->
  (e' = false -> e = false /\ Steady cfg (refused (log r')) (rx p r') /\
     w ++ pent [p] r' `sublist_of` pent [p] r ++ o) ->
  (d' = false -> d = false /\ front_unread cfg (rx p r) = t ++ front_unread cfg (rx p r') /\
     pent [p] r ++ o = w ++ pent [p] r' /\ (Flag cfg r -> Flag cfg r')) ->
  Rel e' d' h' (p :: q) r'.
Proof.
  intros [Hh Hs Hf Hl] Hh' Hpo Hrx Hst Hpl Hin Hew He Hd.
  unfold streams in Hst. injection Hst as S1 S2 S3 S4 S5.
  assert (e' = false -> written (log r') ++ pent (p :: q) r' `sublist_of` output (log r')) as Hsub.
  { intros E. destruct (He E) as (E' & _ & H). destruct (Hs E') as [_ H2]. rewrite S3, S4.
    change (pent (p :: q) r') with (pent [p] r'). change (pent (p :: q) r) with (pent [p] r) in H2.
    rewrite <- app_assoc. etrans; [by apply sublist_app|]. rewrite app_assoc.
    by apply sublist_app. }
  constructor.
  - done.
  - intros E. destruct (He E) as (_ & H & _). split; [done|by apply Hsub].
  - intros E. destruct (Hd E) as (E' & H1 & H2 & H3). destruct (Hf E') as [F1 F2 F3].
    pose proof (nodup_front _ _ _ (h_shape _ _ _ _ Hh)) as Hn.
    apply not_elem_of_app in Hn as [Hn1 Hn2]. unfold waiting in Hn2.
    apply not_elem_of_app in Hn2 as [Hn2 _].
    constructor; [| |by apply H3].
    + rewrite S1, S2, Hpo, F1. cbn [queued] in *. rewrite H1, !(contents_ext r r'), <- !app_assoc; try done.
      all: intros y Hy; apply Hrx; by intros ->.
    + rewrite S3, S4, F2. change (pent (p :: q) r') with (pent [p] r').
      change (pent (p :: q) r) with (pent [p] r). by rewrite <- !app_assoc, H2.
  - destruct Hl as [G1 G2 G3]. constructor; rewrite ?S2, ?S3, ?S4, ?S5.
    + intros E. by rewrite G1, Hpl.
    + intros E. destruct (G2 E) as [-> ->]. destruct (Hin E) as [-> ->].
      by rewrite !fmap_app, !concat_app.
    + destruct e'; [rewrite Hew, app_nil_r by done; by apply sublist_inserts_r|].
      rewrite <- S3, <- S4. etrans; [|by apply Hsub]. by apply sublist_inserts_r.
Qed.

(** ** Backpressure *)

Lemma backpressure_streams r :
  streams (log (UpdateBackpressure cfg r)) = streams (log r) /\
  (refused (log r) = true -> refused (log (UpdateBackpressure cfg r)) = true) /\
  world (UpdateBackpressure cfg r) = world (UpdateBackpressure cfg r) /\
  QuicToTcpContinuationPending (flow (UpdateBackpressure cfg r)) =
  QuicToTcpContinuationPending (flow r).
Proof.
  unfold UpdateBackpressure, SetReceiveEnabled, ask_ok.
  repeat match goal with |- context [if ?b then _ else _] => destruct b end; done.
Qed.

(** Afterwards receiving is disabled only for a reason. *)
Lemma backpressure_paces r :
  Flag cfg r -> Flag cfg (UpdateBackpressure cfg r) /\ Pace cfg (UpdateBackpressure cfg r).
Proof.
  intros (Hf & H0 & Hlost). unfold UpdateBackpressure, SetReceiveEnabled, ask_ok, Pace, Flag.
  destruct (_ =? 0) eqn:E0; to_prop; [split; [done|]; intros _; rewrite H0; done|].
  destruct (QuicReceivePausedByTcpBacklog (flow r)) eqn:Eq; cbn -[Z.leb Z.div].
  - destruct (_ <=? _) eqn:El; to_prop; cbn -[Z.div]; [|split; [by rewrite Eq|intros; lia]].
    destruct (default true _); cbn; [done|]. by rewrite Eq.
  - destruct (_ <=? _) eqn:El; to_prop; cbn -[Z.div]; [|by rewrite Eq, <- Hf].
    destruct (default true _); cbn -[Z.div]; [|by rewrite Eq]. split; [done|]. intros _ _.
    apply Z.div_lt_upper_bound; [done|]. pose proof (rc_max _ Hcfg). lia.
Qed.

Lemma rel_backpressure e d h q r : Rel e d h q r -> Rel e d h q (UpdateBackpressure cfg r).
Proof.
  intros H. destruct (backpressure_streams r) as (H1 & H2 & _).
  apply (rel_same e d h q r); try done; [apply books_backpressure|]. apply backpressure_paces.
Qed.

(** ** Lifting *)

Lemma sound_recv h h' q q' s r :
  Sound h q s -> (Emptied q (recv s) -> Emptied q' r) ->
  (Rel (ended s) (doomed s) h q (recv s) -> Rel (ended s) (doomed s) h' q' r) ->
  Sound h' q' (set_recv r s).
Proof. intros [Ha He Hr] H1 H2. constructor; [done|intros E; apply H1, He, E|]. by apply H2. Qed.

(** With a receive at the front the relay has not been released. *)
Lemma not_emptied p q r q' r' : Emptied (p :: q) r -> Emptied q' r'.
Proof. by intros [? _]. Qed.

Lemma emptied_ext q r r' :
  waiting r' = waiting r -> lost (log r') = lost (log r) -> Emptied q r -> Emptied q r'.
Proof. unfold Emptied. by intros -> ->. Qed.

Lemma emptied_books_same q r r' : same_books r r' -> Emptied q r -> Emptied q r'.
Proof.
  intros (Hl & _ & _ & _ & _ & Ho & _). apply emptied_ext; [by apply same_books_waiting|done].
Qed.

(** Emptied is what the release has seen. *)
Lemma emptied_books h q r :
  Held cfg h q r ->
  Emptied q r <-> FrontReceive r = None /\ AdmittedQuicReceiveBytes (ledger r) = 0 /\
                  QuicToTcpPressureBytes (ledger r) = 0.
Proof.
  intros [Hs _ Hf Hw _ [_ K2 _ _ K5 _ _ _ _ _ _ _ _]]. split.
  - intros (-> & Hwt & Hl). cbn in Hw. rewrite Hw, Hl, K2, Hwt in K5. rewrite K2, K5, Hwt.
    split; [by apply shape_empty|done].
  - intros (Hfr & Ha & Hp). pose proof (front_cases q _ Hs) as Hq. rewrite Hfr in Hq. subst q.
    cbn in Hw. rewrite Hw, Hp, Ha in K5. rewrite Ha in K2. unfold deferred, owed in *.
    rewrite ?sum_nil in K5, K2. split_and!; [done| |].
    2: { change (sum Tx.PressureBytes []) with 0 in K5. lia. }
    destruct (waiting r) as [|p l]; [done|]. cbn in Hf. apply list.Forall_cons in Hf as [Hx _].
    rewrite sum_cons, (fresh_remaining _ Hx) in K2. pose proof (fresh_width _ Hx).
    assert (0 <= sum (fun p => RemainingBytes (rx p r)) l); [|lia].
    apply sum_nonneg, list.Forall_forall. intros. apply remaining_nonneg.
Qed.

Lemma sound_spent h q s : Sound h q s -> Spent s.
Proof.
  intros [_ He Hr] E. apply (emptied_books h q); [apply Hr|by apply He].
Qed.

Lemma doomed_ended s : ended s = true -> doomed s = true.
Proof. unfold doomed. by intros ->. Qed.

Lemma request_doomed t s : doomed (TqUvRequestTerminal t s) = true.
Proof.
  unfold doomed. apply orb_true_iff. right. rewrite negb_true_iff. apply Z.eqb_neq, mask_nonzero.
Qed.

Lemma sound_request h q t s : Sound h q s -> Sound h q (TqUvRequestTerminal t s).
Proof. intros [Ha He Hr]. constructor; [done|done|]. rewrite request_doomed. by eapply rel_weaken. Qed.

(** What the terminal protocol does to the receiving half. *)
Record Onward (h : Z) (q : list nat) (s s' : State) (q' : list nat) : Prop := {
  o_sound : Sound h q' s';
  o_suffix : suffix q' q;
  o_pending : PendingQuicReceiveBytes (ledger (recv s')) <= PendingQuicReceiveBytes (ledger (recv s));
  o_frame : forall y, y ∉ q -> rx y (recv s') = rx y (recv s);
  o_live : ended s' = true \/
           q' = q /\ term s' = term s /\ same_live (recv s) (recv s') }.

Lemma onward_keep h q s s' :
  Sound h q s -> Keep cfg s s' -> Spent s' ->
  TerminalStarted (term s') = true \/ term s' = term s /\ same_live (recv s) (recv s') ->
  exists q', Onward h q s s' q'.
Proof.
  intros [Ha Hre Hr] Hk Hsp [Hs|[Ht Hl]].
  - destruct (Hk h q (r_held _ _ _ _ _ _ Hr)) as (q' & K1 & K2 & K3 & K4 & K5). exists q'.
    assert (ended s' = true) as He by (unfold ended; by rewrite Hs).
    constructor; try done; [|by left].
    constructor; [by rewrite Hs|intros E; apply (emptied_books h q'); auto|].
    rewrite He, doomed_ended by done.
    constructor; try done. destruct (r_logs _ _ _ _ _ _ Hr) as [G1 G2 G3].
    unfold streams in K4. injection K4 as _ T1 T2 T3 T4. constructor; rewrite ?T1, ?T2, ?T3, ?T4; done.
  - exists q. assert (ended s' = ended s /\ doomed s' = doomed s) as [He Hd].
    { unfold doomed, ended. by rewrite Ht. }
    constructor; try done; [|by destruct Hl as [_ -> _ _]|..].
    + constructor; [by rewrite Ht| |rewrite He, Hd; by eapply rel_live].
      rewrite Ht. intros E. apply (emptied_ext q (recv s)); [..|by apply Hre];
        destruct Hl as [L1 _ L3 _]; unfold waiting; by rewrite ?L1, ?L3.
    + intros y _. unfold rx. by destruct Hl as [-> _ _ _].
    + right. by split_and!.
Qed.

Lemma onward_check h q s : Sound h q s -> exists q', Onward h q s (TqUvCheckTerminalConvergence s) q'.
Proof. intros H. apply onward_keep; [done|by apply keep_convergence| |apply check_live].
  by eapply spends_convergence, sound_spent. Qed.

Lemma onward_facts h q s : Sound h q s -> exists q', Onward h q s (TqUvProcessTerminalFactsLocal s) q'.
Proof.
  intros H. apply onward_keep; [done|by apply keep_facts|by eapply spends_facts, sound_spent|].
  destruct (facts_live s) as [?|(_ & ? & ?)]; auto.
Qed.

Lemma pop_posted p r : Posted (queue (snd (pop p r))) = Posted (queue r).
Proof.
  unfold pop, unlink_fallback. destruct (PrecommitReceives (queue r));
    repeat (match goal with |- context [if ?b then _ else _] => destruct b end; cbn); done.
Qed.

(** A receive that is done with, and whose output and bytes have been handed on. *)
Lemma sound_popped h p q s :
  Sound h (p :: q) s -> done_with (rx p (recv s)) ->
  (doomed s = false -> front_unread cfg (rx p (recv s)) = []) ->
  (ended s = false -> Rx.DeferredOutputOwners (rx p (recv s)) = []) ->
  Sound h q (set_recv (snd (pop p (recv s))) s) /\
  FrontReceive (recv s) = Some p /\
  fst (pop p (recv s)) = Rx.Fin (rx p (recv s)) /\
  Store (queue (snd (pop p (recv s)))) = Store (queue (recv s)) /\
  ledger (snd (pop p (recv s))) = ledger (recv s) /\ log (snd (pop p (recv s))) = log (recv s).
Proof.
  intros [Ha Hre Hr] Hd Hu Ho. destruct Hr as [Hh Hs Hf Hl].
  destruct (pop_queue p q _ (h_shape _ _ _ _ Hh)) as (_ & P1 & P2 & P3 & P4 & P5 & P6).
  pose proof (held_pop _ _ _ _ _ Hh Hd) as Hh'.
  pose proof (h_fresh _ _ _ _ Hh) as Hfr. cbn [list.tail] in Hfr. apply Forall_app in Hfr as [Hfr _].
  split_and!; try done; [|by eapply shape_front; [apply Hh|]].
  assert (forall y, rx y (snd (pop p (recv s))) = rx y (recv s)) as Hrx by (intros; unfold rx; by rewrite P3).
  assert (forall l, contents (snd (pop p (recv s))) l = contents (recv s) l) as Hc
    by (intros; by apply contents_ext).
  assert (queued cfg q (snd (pop p (recv s))) = queued cfg q (recv s) /\
          pent q (snd (pop p (recv s))) = pent q (recv s)) as [Hq Hpe].
  { destruct q as [|y q]; [done|]. cbn. rewrite Hrx, Hc. done. }
  destruct (fresh_front cfg (recv s) q Hfr) as (F1 & F2 & F3).
  assert (Posted (queue (snd (pop p (recv s)))) = Posted (queue (recv s))) as Hpo.
  { apply pop_posted. }
  constructor; [done|intros E; by eapply not_emptied, Hre|]. constructor.
  - done.
  - intros He. destruct (Hs He) as [_ H2]. cbn [pent] in H2. rewrite (Ho He), app_nil_r in H2.
    cbn -[pent]. rewrite Hpe, P5, F2, app_nil_r. split; [|done]. destruct q; [done|]. by rewrite Hrx.
  - intros E. destruct (Hf E) as [F4 F5 F6]. cbn [queued pent] in F4, F5. rewrite (Hu E) in F4.
    assert (ended s = false) as He.
    { destruct (ended s) eqn:Ee; [|done]. apply doomed_ended in Ee. change (doomed s = false) in E.
      congruence. }
    rewrite (Ho He) in F5. cbn -[pent queued].
    constructor; rewrite ?P5, ?Hq, ?Hpe, ?Hpo, ?Hc, ?F1, ?F2; try done.
    unfold Flag. rewrite P5, P6. by destruct (Rx.Fin _).
  - cbn. destruct Hl. constructor; by rewrite P5.
Qed.

(** The check that may follow a pop. *)
Lemma sound_checked h q s (fin : bool) :
  Sound h q s -> Forall (fun y => Fresh (rx y (recv s))) q ->
  let s' := if fin then TqUvCheckTerminalConvergence s else s in
  exists q', Sound h q' s' /\ suffix q' q /\
    PendingQuicReceiveBytes (ledger (recv s')) <= PendingQuicReceiveBytes (ledger (recv s)) /\
    (forall y, y ∉ q -> rx y (recv s') = rx y (recv s)) /\
    (ended s' = true \/
     q' = q /\ term s' = term s /\ Forall (fun y => Fresh (rx y (recv s'))) q' /\
     ledger (recv s') = ledger (recv s) /\ log (recv s') = log (recv s)).
Proof.
  intros H Hf. destruct fin; cbn zeta; [|exists q; split_and!; try done; right; by split_and!].
  destruct (onward_check h q s H) as [q' [O1 O2 O3 O4 O5]]. exists q'. split_and!; try done.
  destruct O5 as [?|(-> & Ht & [L1 L2 L3 L4])]; [by left|right]. split_and!; try done.
  eapply Forall_impl; [|exact Hf]. intros y Hy. unfold rx in *. by rewrite L1.
Qed.

(** What [PopReceive] leaves. *)
Definition Popped (h : Z) (p : nat) (q : list nat) (x : Rx.t) (s s' : State) : Prop :=
  exists q', Sound h q' s' /\ suffix q' q /\
    PendingQuicReceiveBytes (ledger (recv s')) <= PendingQuicReceiveBytes (ledger (recv s)) /\
    rx p (recv s') = x /\
    (ended s' = true \/
     q' = q /\ term s' = term s /\ Forall (fun y => Fresh (rx y (recv s'))) q' /\
     ledger (recv s') = ledger (recv s) /\ log (recv s') = log (recv s)).

Lemma sound_pop h p q s :
  Sound h (p :: q) s -> done_with (rx p (recv s)) ->
  (doomed s = false -> front_unread cfg (rx p (recv s)) = []) ->
  (ended s = false -> Rx.DeferredOutputOwners (rx p (recv s)) = []) ->
  Popped h p q (rx p (recv s)) s (PopReceive p s).
Proof.
  intros H Hd Hu Ho. destruct (sound_popped h p q s H Hd Hu Ho) as (H1 & _ & _ & H3 & H4 & H5).
  pose proof (r_held _ _ _ _ _ _ (so_rel _ _ _ _ H)) as Hh.
  pose proof (nodup_front _ _ _ (h_shape _ _ _ _ Hh)) as Hn. apply not_elem_of_app in Hn as [Hn _].
  pose proof (h_fresh _ _ _ _ Hh) as Hf. cbn [list.tail] in Hf. apply Forall_app in Hf as [Hf _].
  unfold PopReceive, Pop_body. destruct (pop p (recv s)) as [fin r]. cbn [snd] in *.
  assert (forall y, rx y r = rx y (recv s)) as Hrx by (intros; unfold rx; by rewrite H3).
  destruct (sound_checked h q (set_recv r s) fin H1) as (q' & S1 & S2 & S3 & S4 & S5).
  { eapply Forall_impl; [|exact Hf]. intros y Hy. cbn. by rewrite Hrx. }
  cbn [recv set_recv] in S3, S4, S5. rewrite H4 in S3, S5. rewrite H5 in S5.
  exists q'. split_and!; try done. rewrite S4 by done. apply Hrx.
Qed.

Lemma sums_ext r r' l :
  (forall y, y ∈ l -> rx y r' = rx y r) -> owed r' l = owed r l /\ deferred r' l = deferred r l.
Proof.
  unfold owed, deferred. induction l as [|y l IH]; intros H; [done|].
  rewrite !sum_cons, H by (by left). destruct IH as [-> ->]; [|done].
  intros z Hz. apply H. by right.
Qed.

(** A part of the front given back, and the counters with it. *)
Lemma release_is_ledger bytes r : exists l, release_completed bytes r = set_ledger l r.
Proof.
  unfold release_completed, ReleaseAdmitted, CompleteQuicToTcp.
  repeat match goal with |- context [if ?b then _ else _] => destruct b end; by eexists.
Qed.

Lemma completed_part h p q r r1 bytes y :
  Held cfg h (p :: q) r -> Quiet r r1 -> RxOk y -> 0 <= bytes ->
  RemainingBytes y = RemainingBytes (rx p r) - bytes ->
  Rx.DeferredOutputBytes y = Rx.DeferredOutputBytes (rx p r) ->
  Rx.TcpWriteSubmitted (rx p r) = false -> Rx.TcpWriteSubmitted y = false ->
  let r' := release_completed bytes (on_rx (fun _ => y) p r1) in
  Held cfg h (p :: q) r' /\ rx p r' = y /\ (forall z, z <> p -> rx z r' = rx z r) /\
  Posted (queue r') = Posted (queue r) /\ flow r' = flow r /\ log r' = log r1 /\
  PendingQuicReceiveBytes (ledger r') = PendingQuicReceiveBytes (ledger r) - bytes.
Proof.
  intros H Hq Hy Hb Hr Hd Hw Hw'. cbn zeta.
  pose proof (held_part cfg h p q r r1 y bytes H Hq Hy Hb Hr Hd Hw Hw') as H'.
  assert (rx p (release_completed bytes (on_rx (fun _ => y) p r1)) = y) as Hx.
  { destruct (release_is_ledger bytes (on_rx (fun _ => y) p r1)) as [l ->].
    change (rx p (on_rx (fun _ => y) p r1) = y). by rewrite rx_on_rx. }
  assert (forall z, z <> p -> rx z (release_completed bytes (on_rx (fun _ => y) p r1)) = rx z r) as Hne.
  { intros z Hz. destruct (release_is_ledger bytes (on_rx (fun _ => y) p r1)) as [l ->].
    change (rx z (on_rx (fun _ => y) p r1) = rx z r). rewrite rx_on_rx_ne by done. by apply quiet_rx. }
  split_and!; [done|done|done|..].
  1-3: destruct (release_is_ledger bytes (on_rx (fun _ => y) p r1)) as [l ->]; cbn;
       by rewrite ?(q_queue _ _ Hq), ?(q_flow _ _ Hq).
  pose proof (k_pending _ _ _ _ (h_books _ _ _ _ H)) as K.
  pose proof (k_pending _ _ _ _ (h_books _ _ _ _ H')) as K'. unfold owed in *.
  rewrite sum_cons in K, K'. rewrite Hx, Hr in K'.
  pose proof (nodup_front _ _ _ (h_shape _ _ _ _ H)) as Hn. apply not_elem_of_app in Hn as [Hn _].
  destruct (sums_ext r (release_completed bytes (on_rx (fun _ => y) p r1)) q) as [Hs _].
  { intros z Hz. apply Hne. by intros ->. }
  unfold owed in Hs. lia.
Qed.

End Keeping.

#[global] Arguments Onward cfg h q s s' q' : clear implicits.
#[global] Arguments Popped cfg h p q x s s' : clear implicits.
