(* ===== verification/UvMachine.v ===== *)
(** The processing of the libuv relay's receives ([TqUvProcessQuicToTcp]) stops.

    Each step of the machine keeps the layers of UvFlow.v and gets lighter: it completes bytes,
    pops a receive, uses up a retry or a call, or enters the decompression loop.  When it stops,
    something is left that will process the queue again: a write in flight, a continuation, the
    relay's end; or the queue is empty; or an API was refused. *)

From stdpp Require Import base gmap list numbers decidable.
From Stdlib Require Import ZArith Lia.
From S2P Require Import Prelude RelayBuffer UvSend UvReceive UvTerminal UvWrite UvRelay UvHeld UvFlow.

Section Machine.
  Context {cfg : ReceiveConfig} {Hcfg : ReceiveConfig_ok cfg}.

Local Abbreviation Rel := (Rel cfg).
Local Abbreviation Sound := (Sound cfg).
Local Abbreviation Popped := (Popped cfg).

(** ** Progress *)

Lemma retries_bounds q r : Shape q r -> Forall (fun p => RxOk (rx p r)) q -> 0 <= retries_left r <= 5.
Proof.
  intros Hs Hc. unfold retries_left. pose proof (front_cases q r Hs) as Hf.
  destruct (FrontReceive r) as [p|]; [|lia]. destruct Hf as [q' ->].
  apply list.Forall_cons in Hc as [[] _]. unfold is_u32, TqUvMaxImmediateCompletionRetries in *.
  destruct (_ <=? _) eqn:E; to_prop; lia.
Qed.

(** What the machine has left to do, calls apart. *)
Definition weight (r : Recv) : Z :=
  work r * (TqUvMaxImmediateCompletionRetries + 2) + retries_left r.

Lemma weight_bounds h q r :
  Held cfg h q r -> work r = PendingQuicReceiveBytes (ledger r) + Z.of_nat (length q) /\
  0 <= work r /\ work r * 6 <= weight r <= work r * 6 + 5.
Proof.
  intros H. pose proof (retries_bounds q r (h_shape _ _ _ _ H) (h_cells _ _ _ _ H)) as Hr.
  unfold weight, work, TqUvMaxImmediateCompletionRetries in *.
  rewrite (receives_shape q r (h_shape _ _ _ _ H)).
  assert (0 <= PendingQuicReceiveBytes (ledger r)) as Hp; [|lia].
  rewrite (k_pending _ _ _ _ (h_books _ _ _ _ H)). apply sum_nonneg, list.Forall_forall.
  intros. apply remaining_nonneg.
Qed.

(** Fewer receives or fewer bytes weigh less. *)
Lemma weight_less h h' q q' r r' :
  Held cfg h q r -> Held cfg h' q' r' ->
  PendingQuicReceiveBytes (ledger r') + Z.of_nat (length q') <
  PendingQuicReceiveBytes (ledger r) + Z.of_nat (length q) -> weight r' < weight r.
Proof.
  intros H H' Hl. destruct (weight_bounds _ _ _ H) as (W1 & W2 & W3).
  destruct (weight_bounds _ _ _ H') as (W1' & W2' & W3'). lia.
Qed.

Lemma callBudget_pos : 0 < callBudget cfg.
Proof. unfold callBudget. lia. Qed.

Definition in_budget (b : Budget) : Prop := 0 <= decompressionCalls b <= callBudget cfg.

Lemma fuel_weight at_ at' b b' s s' :
  in_budget b -> in_budget b' -> weight (recv s') < weight (recv s) ->
  fuel cfg (at', b', s') < fuel cfg (at_, b, s).
Proof.
  unfold in_budget, fuel. fold (weight (recv s)) (weight (recv s')). pose proof callBudget_pos.
  intros. assert (weight (recv s') * (callBudget cfg + 1) + (callBudget cfg + 1) <=
                  weight (recv s) * (callBudget cfg + 1)) by nia.
  destruct at_, at'; lia.
Qed.

Lemma fuel_nonneg h q at_ b s : Held cfg h q (recv s) -> in_budget b -> 0 <= fuel cfg (at_, b, s).
Proof.
  intros H Hb. destruct (weight_bounds _ _ _ H) as (_ & W1 & W2). unfold in_budget in Hb.
  unfold fuel. fold (weight (recv s)). pose proof callBudget_pos.
  assert (0 <= weight (recv s) * (callBudget cfg + 1)) by nia. destruct at_; lia.
Qed.

(** ** The machine *)

Definition Ready (h : Z) (q : list nat) (m : Machine) : Prop :=
  let '(at_, b, s) := m in
  Sound h q s /\ Rested cfg q s /\ in_budget b /\
  match at_ with
  | Outer => True
  | Inflate p =>
      let x := rx p (recv s) in
      (exists q', q = p :: q') /\ ended s = false /\ Decompressing cfg = true /\
      Rx.TcpWriteSubmitted x = false /\ Rx.CompletionPendingBytes x = 0 /\ Rx.DeferredOutputBytes x = 0
  end.

Definition Stopped (h : Z) (q : list nat) (s : State) : Prop :=
  Sound h q s /\ Rested cfg q s /\ Driven q s.

(** A step goes on with less fuel than [n], or stops with something left to drive the queue. *)
Definition Goes (h n : Z) (out : Machine + State) : Prop :=
  match out with
  | inl m => exists q, Ready h q m /\ fuel cfg m < n
  | inr s => exists q, Stopped h q s
  end.

(** A relay whose end is near is not asked for much. *)
Lemma stopped_doomed h q s :
  Sound h q s -> doomed s = true ->
  (ended s = false -> match q with [] => True | p :: _ => Waits (rx p (recv s)) end) ->
  Stopped h q s.
Proof.
  intros H Hd Hw. split_and!; [done|constructor; [done|by rewrite Hd]|by left].
Qed.

Lemma goes_request h n q t s :
  Sound h q s -> (ended s = false -> match q with [] => True | p :: _ => Waits (rx p (recv s)) end) ->
  Goes h n (inr (TqUvRequestTerminal t s)).
Proof.
  intros H Hw. exists q. apply stopped_doomed; [by apply sound_request|apply request_doomed|done].
Qed.

Lemma sound_quiet h q s r : Sound h q s -> Quiet (recv s) r -> Sound h q (set_recv r s).
Proof. intros H Hq. apply (sound_recv h h q q s r H); [by apply emptied_books_same, quiet_books|].
  intros Hr. by eapply rel_quiet. Qed.

Lemma rested_quiet q s r :
  Rested cfg q s -> Quiet (recv s) r -> Rested cfg q (set_recv r s).
Proof.
  intros [H1 H2] Hq. constructor.
  - intros He. specialize (H1 He). destruct q as [|p q]; [done|]. cbn. by rewrite (quiet_rx _ _ p Hq).
  - intros Hd Hr Hdis. specialize (H2 Hd). cbn in *. rewrite (q_ledger _ _ Hq).
    rewrite (q_disabled _ _ Hq) in Hdis. apply H2; [|done].
    destruct (refused (log (recv s))) eqn:E; [|done]. by rewrite (q_refused _ _ Hq) in Hr.
Qed.

Lemma rel_retry e d h p q r n :
  Rel e d h (p :: q) r -> is_u32 n ->
  Rel e d h (p :: q) (on_rx (fun x => Rx.set_CompletionRetryCount n x) p r).
Proof.
  intros H Hn. pose proof (r_held _ _ _ _ _ _ H) as Hh. pose proof (held_cells _ _ _ _ _ Hh) as Hx.
  assert (rx p (on_rx (fun x => Rx.set_CompletionRetryCount n x) p r) =
          Rx.set_CompletionRetryCount n (rx p r)) as Hy by apply rx_on_rx.
  apply (rel_front e d e d h h p q r _ [] [] [] []); rewrite ?Hy, ?app_nil_r; try done.
  - apply (held_touch cfg h p q r (Rx.set_CompletionRetryCount n (rx p r))); try done.
    destruct Hx. by constructor.
  - intros y Hne. by apply rx_on_rx_ne.
  - intros He. destruct (r_steady _ _ _ _ _ _ H He) as [[] _]. split_and!; [done|by constructor|].
    cbn [pent]. by rewrite Hy.
  - intros Hd. split_and!; try done. cbn [pent]. by rewrite Hy.
Qed.

Lemma goes_retry h p q at_ b s :
  Sound h (p :: q) s -> Rested cfg (p :: q) s -> refused (log (recv s)) = true -> in_budget b ->
  Goes h (fuel cfg (at_, b, s)) (ScheduleCompletionRetry p s).
Proof.
  intros H Hre Href Hb. unfold ScheduleCompletionRetry. cbn zeta.
  pose proof (r_held _ _ _ _ _ _ (so_rel _ _ _ _ H)) as Hh. pose proof (held_cells _ _ _ _ _ Hh) as Hx.
  set (c := Rx.CompletionRetryCount (rx p (recv s))).
  set (s1 := on_recv _ s).
  assert (is_u32 (u32 (c + 1))) as Hc by apply u32_range.
  assert (Sound h (p :: q) s1) as H1.
  { apply (sound_recv h h (p :: q) (p :: q) s _ H); [apply not_emptied|]. intros Hr. by apply (rel_retry _ _ _ _ _ _ (u32 (c + 1))). }
  assert (rx p (recv s1) = Rx.set_CompletionRetryCount (u32 (c + 1)) (rx p (recv s))) as Hx1.
  { unfold s1, on_recv. cbn [recv set_recv]. by rewrite rx_on_rx. }
  assert (Rested cfg (p :: q) s1) as Hre1.
  { destruct Hre as [R1 R2]. constructor; [|done]. intros He. rewrite Hx1. by apply R1. }
  assert (FrontReceive (recv s1) = Some p) as Hf1.
  { eapply shape_front; [apply (r_held _ _ _ _ _ _ (so_rel _ _ _ _ H1))|done]. }
  rewrite Hx1. cbn [Rx.CompletionRetryCount Rx.set_CompletionRetryCount].
  destruct (_ <=? _) eqn:E; to_prop; [apply (goes_request h _ (p :: q)); [done|apply Hre1]|].
  pose proof (quiet_ask (recv s1)) as Hq. destruct (ask_ok (recv s1)) as [posted r] eqn:Ea.
  cbn [snd] in Hq. pose proof (sound_quiet _ _ _ _ H1 Hq) as H2.
  pose proof (rested_quiet _ _ _ Hre1 Hq) as Hre2.
  destruct (negb posted); [apply (goes_request h _ (p :: q)); [done|apply Hre2]|].
  destruct (QuicToTcpContinuationPending _) eqn:Ec.
  { exists (p :: q). split_and!; try done. unfold Driven. tauto. }
  exists (p :: q). split; [split_and!; try done|].
  { unfold in_budget, fresh_budget. cbn. pose proof callBudget_pos. lia. }
  apply fuel_weight; [done|unfold in_budget, fresh_budget; cbn; pose proof callBudget_pos; lia|].
  assert (retries_left r < retries_left (recv s)) as Hlt.
  { unfold retries_left. rewrite (same_links_front (recv s1) r), Hf1 by apply (quiet_books _ _ Hq).
    rewrite (shape_front (p :: q) (recv s) p q) by (apply Hh || done).
    rewrite (quiet_rx _ _ p Hq), Hx1. cbn [Rx.CompletionRetryCount Rx.set_CompletionRetryCount]. fold c.
    destruct Hx as [_ _ _ _ _ _ _ Hu _]. fold c in Hu.
    unfold is_u32, u32, TqUvMaxImmediateCompletionRetries in *.
    destruct (4 <=? c) eqn:E4; to_prop; [rewrite (proj2 (Z.leb_gt _ _)) by lia; lia|].
    rewrite Z.mod_small in * by lia. rewrite (proj2 (Z.leb_gt _ _)) by lia. lia. }
  assert (work r = work (recv s)) as Hw; [|cbn [recv set_recv]; unfold weight; lia].
  unfold work. rewrite (q_ledger _ _ Hq).
  rewrite (same_links_receives (recv s1) r) by apply (quiet_books _ _ Hq). done.
Qed.

Lemma goes_less h n n' out : Goes h n out -> n <= n' -> Goes h n' out.
Proof. unfold Goes. destruct out as [m|s]; [|done]. intros (q & H1 & H2) H. exists q. split; [done|lia]. Qed.

Lemma weight_same r r' :
  same_links r r' -> ledger r' = ledger r ->
  (forall p, Rx.CompletionRetryCount (rx p r') = Rx.CompletionRetryCount (rx p r)) ->
  weight r' = weight r.
Proof.
  intros Hl Hg Hc. unfold weight, work, retries_left.
  rewrite (same_links_receives r r'), (same_links_front r r'), Hg by done.
  destruct (FrontReceive r); [|done]. by rewrite Hc.
Qed.

Lemma fuel_same at_ b s s' :
  weight (recv s') = weight (recv s) -> fuel cfg (at_, b, s') = fuel cfg (at_, b, s).
Proof. intros H. unfold fuel. fold (weight (recv s)) (weight (recv s')). by rewrite H. Qed.

Lemma weight_books r r' : same_books r r' -> weight r' = weight r.
Proof.
  intros Hb. apply weight_same; [apply Hb| |].
  - by destruct Hb as (_ & _ & -> & _).
  - intros p. by rewrite (same_books_rx r r' p Hb).
Qed.

Lemma sound_backpressure h q s : Sound h q s -> Sound h q (on_recv (UpdateBackpressure cfg) s).
Proof.
  intros H. apply (sound_recv h h q q s _ H); [by apply emptied_books_same, books_backpressure|].
  apply rel_backpressure.
Qed.

(** The backpressure is what makes a state one between two steps. *)
Lemma rested_backpressure h q s :
  Sound h q s -> (ended s = false -> match q with [] => True | p :: _ => Waits (rx p (recv s)) end) ->
  Rested cfg q (on_recv (UpdateBackpressure cfg) s).
Proof.
  intros H Hw. constructor.
  - intros He. specialize (Hw He). destruct q as [|p q]; [done|]. cbn.
    by rewrite (same_books_rx _ _ p (books_backpressure cfg (recv s))).
  - intros Hd. apply backpressure_paces. by apply (r_flowing _ _ _ _ _ _ (so_rel _ _ _ _ H)).
Qed.

Lemma rested_ended q s : ended s = true -> Rested cfg q s.
Proof. intros He. constructor; [by rewrite He|]. by rewrite doomed_ended. Qed.

Lemma sound_ended h h' q q' s r :
  ended s = true -> Sound h q s -> (Emptied q (recv s) -> Emptied q' r) -> Held cfg h' q' r ->
  streams (log r) = streams (log (recv s)) -> Sound h' q' (set_recv r s).
Proof.
  intros He H Hemp Hh Hs. apply (sound_recv h h' q q' s r H); [done|]. intros [_ _ _ [G1 G2 G3]].
  unfold streams in Hs. injection Hs as _ S1 S2 S3 S4.
  constructor; [done|by rewrite He|by rewrite doomed_ended|].
  constructor; rewrite ?S1, ?S2, ?S3, ?S4; done.
Qed.

Lemma sound_held h q s : Sound h q s -> Held cfg h q (recv s).
Proof. intros H. apply (so_rel _ _ _ _ H). Qed.

Lemma settled_done x : RxOk x -> Rx.Settled x = true -> RemainingBytes x = 0.
Proof.
  intros Hx Hs. rewrite (remaining_ok _ Hx). rewrite (rx_settled _ Hx) in Hs. to_prop. lia.
Qed.

(** The end of a turn that gives the front of an ended relay back. *)
Lemma goes_discarded h p q b s r1 bytes y :
  ended s = true -> Sound h (p :: q) s -> in_budget b -> Quiet (recv s) r1 ->
  Rx.TcpWriteSubmitted (rx p (recv s)) = false -> RxOk y -> Rx.TcpWriteSubmitted y = false ->
  RemainingBytes y = RemainingBytes (rx p (recv s)) - bytes -> 0 <= bytes ->
  Rx.DeferredOutputBytes y = Rx.DeferredOutputBytes (rx p (recv s)) ->
  (bytes = 0 -> Rx.Settled y = true) ->
  let s1 := set_recv (drop_deferred p (release_completed bytes (on_rx (fun _ => y) p r1))) s in
  let s2 := if Rx.Settled (rx p (recv s1)) then PopReceive p s1 else s1 in
  Goes h (fuel cfg (Outer, b, s)) (inl (Outer, b, on_recv (UpdateBackpressure cfg) s2)).
Proof.
  intros He H Hb Hq Hw Hy Hwy Hr Hby Hdy H0. cbn zeta. pose proof (sound_held _ _ _ H) as Hh.
  destruct (completed_part (cfg:=cfg) h p q (recv s) r1 bytes y) as (C1 & C2 & _ & _ & _ & C3 & C4); try done.
  set (r2 := release_completed bytes _) in *. clearbody r2.
  destruct (held_drop_deferred cfg h p q r2 Hcfg C1) as (D1 & D2 & _ & _ & D3 & D4); [by rewrite C2|].
  set (r3 := drop_deferred p r2) in *. clearbody r3. set (s3 := set_recv r3 s).
  assert (Sound h (p :: q) s3) as H3.
  { apply (sound_ended h h (p :: q) (p :: q)); try done; [apply not_emptied|]. rewrite D3, C3. apply (q_streams _ _ Hq). }
  assert (ended s3 = true) as He3 by done.
  assert (forall q' s', Sound h q' s' -> ended s' = true -> PendingQuicReceiveBytes (ledger (recv s')) +
            Z.of_nat (length q') < PendingQuicReceiveBytes (ledger (recv s)) + Z.of_nat (length (p :: q)) ->
            Goes h (fuel cfg (Outer, b, s)) (inl (Outer, b, on_recv (UpdateBackpressure cfg) s'))) as Hgo.
  { intros q' s' Hs' He' Hlt. exists q'. split.
    - split_and!; try done; [by apply sound_backpressure|]. by apply rested_ended.
    - apply fuel_weight; try done. cbn [recv on_recv set_recv].
      rewrite (weight_books _ _ (books_backpressure cfg (recv s'))).
      eapply weight_less; [exact Hh|by apply sound_held|done]. }
  destruct (Rx.Settled (rx p (recv s3))) eqn:Es.
  - destruct (sound_pop h p q s3 H3) as (q' & P1 & P2 & P3 & _ & P5).
    + split_and!; [apply settled_done; [by eapply held_cells|done]|..]; cbn; by rewrite D2, ?C2.
    + by rewrite doomed_ended.
    + by rewrite He3.
    + apply (Hgo q'); [done| |].
      * destruct P5 as [?|(_ & Ht & _)]; [done|]. unfold ended. by rewrite Ht.
      * apply suffix_length in P2. cbn in *. lia.
  - apply (Hgo (p :: q)); [done|done|]. cbn. rewrite D4, C4.
    assert (bytes <> 0); [|cbn; lia]. intros E. specialize (H0 E).
    cbn in Es. rewrite D2, C2 in Es. cbn in Es. congruence.
Qed.

Lemma complete_none shut p r : CompleteReceiveForRelay shut p 0 r = (true, r).
Proof. unfold CompleteReceiveForRelay, CompleteReceive. by destruct shut. Qed.

(** The front's record, as it is after a completion. *)
Lemma rx_ok_done x bytes :
  RxOk x -> 0 < bytes <= RemainingBytes x ->
  let y := Rx.set_CompletionPendingBytes 0 (complete bytes x) in
  RxOk y /\ RemainingBytes y = RemainingBytes x - bytes /\
  Rx.DeferredOutputBytes y = Rx.DeferredOutputBytes x /\
  Rx.TcpWriteSubmitted y = Rx.TcpWriteSubmitted x.
Proof.
  intros Hx Hb. pose proof (rx_ok_complete x bytes 0 (Rx.CompletionRetryCount x) Hx Hb) as H.
  rewrite retry_eta in H by apply complete_retry. apply H; [lia|]. apply Hx.
Qed.

Lemma goes_discard h p q b s :
  ended s = true -> Sound h (p :: q) s -> in_budget b ->
  Goes h (fuel cfg (Outer, b, s)) (discard_front cfg p b s).
Proof.
  intros He H Hb. unfold discard_front. pose proof (sound_held _ _ _ H) as Hh.
  pose proof (held_cells _ _ _ _ _ Hh) as Hx. destruct (Rx.TcpWriteSubmitted (rx p (recv s))) eqn:Ew.
  { exists (p :: q). apply stopped_doomed; [done|by apply doomed_ended|by rewrite He]. }
  cbn zeta. set (bytes := if negb _ then _ else _).
  assert (0 <= bytes <= RemainingBytes (rx p (recv s))) as Hby.
  { pose proof (rx_pending _ Hx). pose proof (remaining_nonneg (rx p (recv s))).
    unfold bytes. clear bytes. rewrite (remaining_ok _ Hx) in *. destruct (negb _); lia. }
  assert (bytes = 0 -> RemainingBytes (rx p (recv s)) = 0) as H0.
  { unfold bytes. destruct (Rx.CompletionPendingBytes _ =? 0) eqn:E; cbn [negb]; to_prop; lia. }
  clearbody bytes. set (s1 := on_recv _ s). set (x1 := Rx.set_CompletionPendingBytes bytes (rx p (recv s))).
  assert (rx p (recv s1) = x1) as Hx1 by (unfold s1; cbn [recv on_recv set_recv]; by rewrite rx_on_rx).
  assert (Held cfg h (p :: q) (recv s1)) as Hh1.
  { apply (held_touch cfg h p q (recv s) x1); try done. by apply rx_ok_pending. }
  assert (RxOk x1) as Hok1 by (rewrite <- Hx1; by eapply held_cells).
  assert (Sound h (p :: q) s1) as H1 by (by apply (sound_ended h h (p :: q) (p :: q)); [..|apply not_emptied| |]).
  assert (ended s1 = true) as He1 by done.
  assert (fuel cfg (Outer, b, s1) = fuel cfg (Outer, b, s)) as Hfu.
  { apply fuel_same, weight_same; [done|done|]. intros y. unfold s1. cbn [recv on_recv set_recv].
    destruct (decide (p = y)) as [<-|Hne]; [by rewrite rx_on_rx|by rewrite rx_on_rx_ne]. }
  rewrite <- Hfu. change (QuicShutdownObserved (term s1)) with (QuicShutdownObserved (term s)).
  destruct (decide (bytes = 0)) as [-> |Hne].
  - rewrite complete_none.
    apply (goes_discarded h p q b s1 (recv s1) 0 (Rx.set_CompletionPendingBytes 0 (rx p (recv s1))));
      rewrite ?Hx1; try done; try (cbn; lia).
    + change (RemainingBytes (rx p (recv s)) = RemainingBytes (rx p (recv s)) - 0). lia.
    + intros _. change (Rx.Settled x1 = true). by apply done_fields, H0.
  - destruct (complete_for_spec (QuicShutdownObserved (term s)) p bytes (recv s1))
      as (r1 & Hq & [[-> Hr]| -> ]); [by rewrite Hx1|rewrite Hx1; change (0 < bytes <= RemainingBytes (rx p (recv s))); lia|..].
    + pose proof (sound_quiet _ _ _ _ H1 Hq) as H2.
      eapply goes_less; [apply (goes_retry h p q Outer b); try done; by apply rested_ended|].
      rewrite (fuel_same Outer b s1); [lia|]. apply weight_books, quiet_books, Hq.
    + destruct (rx_ok_done x1 bytes) as (Y1 & Y2 & Y3 & Y4); [done|change (0 < bytes <= RemainingBytes (rx p (recv s))); lia|].
      pose proof (goes_discarded h p q b s1 r1 bytes (Rx.set_CompletionPendingBytes 0 (complete bytes x1))) as Hg.
      rewrite Hx1 in Hg. specialize (Hg He1 H1 Hb Hq Ew Y1). cbn zeta in Hg.
      rewrite Y2, Y3, Y4 in Hg. specialize (Hg Ew eq_refl ltac:(lia) eq_refl (fun E => match Hne E with end)).
      assert (on_rx (Rx.set_CompletionPendingBytes 0) p (on_rx (complete bytes) p r1) =
              on_rx (fun _ => Rx.set_CompletionPendingBytes 0 (complete bytes x1)) p r1) as Heq.
      { rewrite on_rx_compose. rewrite <- Hx1, <- (quiet_rx _ _ p Hq). done. }
      rewrite <- Heq in Hg. exact Hg.
Qed.

(** ** Writes *)

(** A receive whose kept output has been taken out. *)
Definition clear (x : Rx.t) : Rx.t := Rx.set_DeferredOutputBytes 0 (Rx.set_DeferredOutputOwners [] x).

Lemma clear_ok x : RxOk x -> RxOk (clear x).
Proof. intros []. by constructor. Qed.

Lemma clear_steady c x : Steady cfg c x -> Steady cfg c (clear x).
Proof.
  intros []. constructor; cbn; try done; try lia.
  intros E. by destruct (s_plain E) as (? & ? & _ & ?).
Qed.

(** Kept output is never empty. *)
Lemma no_outputs c x : RxOk x -> Steady cfg c x -> Rx.DeferredOutputBytes x = 0 -> Rx.DeferredOutputOwners x = [].
Proof.
  intros Hx Hs H0. rewrite (rx_deferred _ Hx) in H0. pose proof (s_output _ _ _ Hs) as Hf.
  destruct (Rx.DeferredOutputOwners x) as [|o l]; [done|]. apply list.Forall_cons in Hf as [Ho _].
  unfold bytes_in in H0. rewrite sum_cons in H0. pose proof (bytes_in_nonneg l) as Hn. unfold bytes_in in Hn.
  destruct o; [done|]. cbn in H0. lia.
Qed.

Lemma clear_id c x : RxOk x -> Steady cfg c x -> Rx.DeferredOutputBytes x = 0 -> clear x = x.
Proof. intros Hx Hs H0. pose proof (no_outputs c x Hx Hs H0). destruct x. cbn in *. by subst. Qed.

(** Output in hand is freed. *)
Lemma held_free h q r owners :
  Held cfg (h + bytes_in owners) q r -> 0 <= h -> Held cfg h q (free_outputs owners r).
Proof.
  intros [Hs Hc Hf Hw Hpl Hb] Hh. destruct Hb as [K1 K2 K3 K4 K5 K6 K7 K8 K9 K10 K11 K12 K13].
  pose proof (bytes_in_nonneg owners) as Hn. pose proof (writes_nonneg _ _ _ Hw) as [Hwn _].
  assert (0 <= deferred r q) as Hd.
  { apply sum_nonneg, list.Forall_forall. intros p Hp. rewrite list.Forall_forall in Hc.
    rewrite (rx_deferred _ (Hc p Hp)). apply bytes_in_nonneg. }
  pose proof (rc_max _ Hcfg).
  assert (fold_left (fun n owner => u64 (n - Z.of_nat (length owner))) owners
            (OutputPendingBufferBytes (ledger r)) =
          OutputPendingBufferBytes (ledger r) - bytes_in owners) as Hfr by (apply free_fold; lia).
  constructor; try done; [by eapply shape_links|]. unfold free_outputs.
  constructor; cbn; try done; rewrite ?Hfr; try lia; try done.
  change (deferred _ q) with (deferred r q). lia.
Qed.

Lemma rel_free e d h q r owners :
  Rel e d (h + bytes_in owners) q r -> 0 <= h -> Rel e d h q (free_outputs owners r).
Proof.
  intros [Hh Hs Hf Hl] Hn. constructor; [by apply held_free|exact Hs| |].
  - intros E. destruct (Hf E). by constructor.
  - destruct Hl. by constructor.
Qed.

Lemma sound_free h q s owners :
  Sound (h + bytes_in owners) q s -> 0 <= h -> Sound h q (on_recv (free_outputs owners) s).
Proof. intros H Hn. apply (sound_recv _ _ _ _ s _ H); [done|]. intros Hr. by apply rel_free. Qed.

(** What becomes of the receive of a write. *)
Section GiveBack.
  Context (complete_it : nat -> Z -> Recv -> bool * Recv) (h : Z) (p : nat) (q : list nat) (r : Recv) (w : Tx.t).
  Context (H : Held cfg h (p :: q) r) (Hw : Rx.TcpWriteSubmitted (rx p r) = false).
  Context (H0 : Rx.CompletionPendingBytes (rx p r) = 0) (Howner : Tx.ReceiveOwner w = p).
  Context (Hb : 0 <= Tx.ReceiveCompleteBytes w <= RemainingBytes (rx p r)).
  Context (Hc : forall bytes, RxOk (rx p r) -> 0 < bytes <= RemainingBytes (rx p r) ->
                Completion p bytes r (complete_it p bytes r)).

Lemma give_back_spec :
  let r' := give_back complete_it w r in
  let n := Tx.ReceiveCompleteBytes w in
  Held cfg h (p :: q) r' /\ (forall z, z <> p -> rx z r' = rx z r) /\
  Posted (queue r') = Posted (queue r) /\ flow r' = flow r /\
  streams (log r') = streams (log r) /\ disabled (log r') = disabled (log r) /\
  lost (log r') = lost (log r) /\ (refused (log r) = true -> refused (log r') = true) /\
  (n = 0 /\ r' = r \/
   n <> 0 /\ (refused (log r') = true /\ rx p r' = Rx.set_CompletionPendingBytes n (rx p r) \/
              rx p r' = complete n (rx p r))).
Proof.
  unfold give_back. pose proof (held_cells _ _ _ _ _ H) as Hx. cbn zeta.
  destruct (Tx.ReceiveCompleteBytes w =? 0) eqn:E; to_prop; cbn [negb]; [split_and!; try done; auto|].
  rewrite Howner. set (n := Tx.ReceiveCompleteBytes w) in *. clearbody n.
  destruct (Hc n Hx) as (r1 & Hq & [[-> Hr]| -> ]); [lia|..].
  - assert (rx p (on_rx (Rx.set_CompletionPendingBytes n) p r1) =
            Rx.set_CompletionPendingBytes n (rx p r)) as Hy by (by rewrite rx_on_rx, (quiet_rx _ _ p Hq)).
    split_and!; try (by destruct Hq).
    + apply (held_touch cfg h p q r1 (Rx.set_CompletionPendingBytes n (rx p r1)));
        rewrite ?(quiet_rx _ _ p Hq); try done; [|by apply rx_ok_pending].
      eapply held_ext; [exact H|by apply quiet_books].
    + intros z Hz. rewrite rx_on_rx_ne by done. by apply quiet_rx.
    + cbn. by rewrite (q_queue _ _ Hq).
    + right. split; [done|]. by left.
  - assert (complete n (rx p r) = Rx.set_CompletionPendingBytes 0 (complete n (rx p r))) as He.
    { assert (Rx.CompletionPendingBytes (complete n (rx p r)) = 0) as E0 by (unfold complete; by destruct (_ =? _)).
      destruct (complete n (rx p r)). cbn in *. by subst. }
    destruct (rx_ok_done (rx p r) n Hx) as (Y1 & Y2 & Y3 & Y4); [lia|]. rewrite <- He in *.
    destruct (completed_part (cfg:=cfg) h p q r r1 n (complete n (rx p r))) as (C1 & C2 & C3 & C4 & C5 & C6 & _);
      try done; [lia|congruence|].
    assert (on_rx (complete n) p r1 = on_rx (fun _ => complete n (rx p r)) p r1) as ->
      by (by rewrite <- (quiet_rx _ _ p Hq)).
    rewrite C5, C6. split_and!; try done; try (by destruct Hq). right. split; [done|by right].
Qed.

End GiveBack.

(** The record of a receive that was given back after its write. *)
Lemma steady_given_back c c' x x' n :
  Steady cfg c x -> RxOk x -> Rx.CompletionPendingBytes x = 0 -> (c = true -> c' = true) ->
  n = (if Decompressing cfg then 0 else RemainingBytes x) ->
  (n = 0 /\ x' = x \/
   n <> 0 /\ (c' = true /\ x' = Rx.set_CompletionPendingBytes n x \/ x' = complete n x)) ->
  Steady cfg c' x' /\ Rx.DeferredOutputOwners x' = Rx.DeferredOutputOwners x /\
  Rx.DeferredOutputBytes x' = Rx.DeferredOutputBytes x /\
  Rx.TcpWriteSubmitted x' = Rx.TcpWriteSubmitted x /\
  (Decompressing cfg = true -> x' = x) /\
  (Decompressing cfg = false -> negb (Rx.CompletionPendingBytes x' =? 0) || Rx.Settled x' = true).
Proof.
  intros Hs Hx H0 Hc Hn Hcase. destruct Hs as [S1 S2 S3 S4 S5].
  pose proof (remaining_nonneg x) as Hrn. destruct Hcase as [[-> ->]|[Hne Hcase]].
  - split_and!; try done; try (by constructor; auto). intros Ed. rewrite Ed in Hn.
    rewrite (done_fields x Hx (eq_sym Hn)). apply orb_true_r.
  - destruct (Decompressing cfg) eqn:Ed; [done|]. subst n. destruct (S2 eq_refl) as (T1 & T2 & T3 & T4 & T5).
    destruct Hcase as [[-> ->]| ->].
    + split_and!; try done;
        [|intros _; cbn -[RemainingBytes Z.eqb]; by rewrite (proj2 (Z.eqb_neq _ _))].
      constructor; try done; cbn -[RemainingBytes]; rewrite Ed; [done|].
      intros _. split_and!; try done. by right.
    + assert ((Rx.CompletedBytes x + RemainingBytes x =? Rx.TotalBytes x) = true) as Hall.
      { apply Z.eqb_eq. rewrite (remaining_ok _ Hx). lia. }
      rewrite complete_fields, Hall by (done || lia). split_and!; try done; [|intros _; apply orb_true_r].
      constructor; try done; cbn -[RemainingBytes]; rewrite ?Ed; [done|].
      intros _. split_and!; try done; first [by left|by right].
Qed.

(** The front's output has been taken for a write. *)
Record Taken (p : nat) (r r1 : Recv) : Prop := {
  tk_links : same_links r r1;
  tk_rx : rx p r1 = clear (rx p r) /\ forall z, p <> z -> rx z r1 = rx z r;
  tk_ledger : ledger r1 = ledger r;
  tk_log : log r1 = log r;
  tk_writes : TcpWrites (flow r1) = TcpWrites (flow r);
  tk_next : NextRequest (flow r1) = S (NextRequest (flow r));
  tk_flag : QuicReceivePausedByTcpBacklog (flow r1) = QuicReceivePausedByTcpBacklog (flow r) }.

Record WriteFor (p : nat) (r : Recv) (w : Tx.t) : Prop := {
  wf_owner : Tx.ReceiveOwner w = p;
  wf_total : Tx.TotalBytes w = bytes_in (Tx.Buffers w);
  wf_pressure : Tx.PressureBytes w = Rx.DeferredOutputBytes (rx p r);
  wf_outputs : Tx.OutputOwners w = Rx.DeferredOutputOwners (rx p r);
  wf_complete : Tx.ReceiveCompleteBytes w = if Decompressing cfg then 0 else RemainingBytes (rx p r);
  wf_request : Tx.Request w = NextRequest (flow r);
  wf_some : Tx.Buffers w <> [];
  wf_count : Z.of_nat (length (Tx.Buffers w)) <= UINT32_MAX;
  wf_plain : Decompressing cfg = false -> concat (Tx.Buffers w) = concat (Rx.Slices (rx p r));
  wf_inflate : Decompressing cfg = true -> Tx.Buffers w = Rx.DeferredOutputOwners (rx p r) }.

Section Submit.
  Context (h : Z) (p : nat) (q : list nat) (s : State) (r1 : Recv) (w : Tx.t).
  Context (H : Sound h (p :: q) s) (He : ended s = false).
  Local Abbreviation x := (rx p (recv s)).
  Context (Hs : Rx.TcpWriteSubmitted x = false) (H0 : Rx.CompletionPendingBytes x = 0).
  Context (Hopen : Decompressing cfg = false -> Rx.Settled x = false).
  Context (Ht : Taken p (recv s) r1) (Hw : WriteFor p (recv s) w).
  Context (Hp : doomed s = false -> Pace cfg (recv s)).

Lemma submit_facts :
  Held cfg h (p :: q) (recv s) /\ RxOk x /\ Steady cfg (refused (log (recv s))) x /\
  TcpWrites (flow (recv s)) = [] /\ TcpWrites (flow r1) = [] /\
  PendingTcpWriteBytes (ledger (recv s)) = 0 /\ 0 <= Rx.DeferredOutputBytes x /\
  Rx.DeferredOutputBytes x = bytes_in (Tx.OutputOwners w) /\
  Rx.DeferredOutputBytes x <= QuicToTcpPressureBytes (ledger (recv s)) /\
  Rx.DeferredOutputBytes x + h = OutputPendingBufferBytes (ledger (recv s)).
Proof.
  pose proof (sound_held _ _ _ H) as Hh. pose proof (held_cells _ _ _ _ _ Hh) as Hx.
  destruct (r_steady _ _ _ _ _ _ (so_rel _ _ _ _ H) He) as [Hst _].
  pose proof (h_writes _ _ _ _ Hh) as HW. cbn in HW. rewrite Hs in HW.
  pose proof (held_bounds _ _ _ _ _ Hh) as Hb. cbn zeta in Hb. rewrite HW in Hb.
  pose proof (k_writes _ _ _ _ (h_books _ _ _ _ Hh)) as Hpw. rewrite HW in Hpw.
  pose proof (k_lost _ _ _ _ (h_books _ _ _ _ Hh)).
  change (sum Tx.PressureBytes []) with 0 in Hb. change (sum Tx.TotalBytes []) with 0 in Hpw.
  split_and!; try done; try lia; [by rewrite (tk_writes _ _ _ Ht)|].
  rewrite (wf_outputs _ _ _ Hw). by destruct Hx.
Qed.

(** A write that was never recorded. *)
Lemma goes_abandoned n t r2 w' :
  Quiet r1 r2 -> Tx.OutputOwners w' = Tx.OutputOwners w -> Tx.PressureBytes w' = Tx.PressureBytes w ->
  Goes h n (inr (TqUvRequestTerminal t (on_recv (abandon w') (set_recv r2 s)))).
Proof.
  intros Hq Ho Hpr. destruct submit_facts as (Hh & Hx & Hst & W1 & W2 & W3 & B1 & B2 & B3 & B4).
  destruct Ht as [L1 [L2 L3] L4 L5 L6 L7 L8].
  exists (p :: q). apply stopped_doomed; [|apply request_doomed|].
  2: { intros _. cbn. change (rx p (abandon w' r2)) with (rx p r2).
       rewrite (quiet_rx _ _ p Hq), L2. done. }
  destruct H as [Ha Hre Hr]. constructor; [done|intros E; by eapply not_emptied, Hre|].
  rewrite request_doomed.
  change (ended (TqUvRequestTerminal t _)) with (ended s). rewrite He in *.
  set (r3 := recv (TqUvRequestTerminal t (on_recv (abandon w') (set_recv r2 s)))).
  assert (rx p r3 = clear x) as Hx3.
  { unfold r3. change (rx p r2 = clear x). by rewrite (quiet_rx _ _ p Hq). }
  assert (forall z, p <> z -> rx z r3 = rx z (recv s)) as Hne.
  { intros z Hz. change (rx z r2 = rx z (recv s)). rewrite (quiet_rx _ _ z Hq). by apply L3. }
  pose proof (rc_max _ Hcfg) as Hmax. destruct (h_books _ _ _ _ Hh).
  assert (ledger r3 = set_OutputPendingBufferBytes
            (OutputPendingBufferBytes (ledger (recv s)) - Rx.DeferredOutputBytes x) (ledger (recv s))) as Hl3.
  { unfold r3. cbn. rewrite Ho, (q_ledger _ _ Hq), L4, B2, free_fold by lia. done. }
  assert (TcpWrites (flow r3) = [] /\ lost (log r3) = lost (log (recv s)) + Rx.DeferredOutputBytes x /\
          OtherQuicToTcp (log r3) = OtherQuicToTcp (log (recv s)) /\ same_links (recv s) r3 /\
          streams (log r3) = streams (log (recv s))) as (F1 & F2 & F3 & F4 & F5).
  { unfold r3. cbn. rewrite (q_flow _ _ Hq), (q_lost _ _ Hq), (q_other _ _ Hq), Hpr, L5, (wf_pressure _ _ _ Hw).
    split_and!; try done. - etrans; [exact L1|]. by apply (quiet_books _ _ Hq).
    - rewrite <- L5. apply (q_streams _ _ Hq). }
  assert (refused (log (recv s)) = true -> refused (log r3) = true) as F6.
  { rewrite <- L5. apply (q_refused _ _ Hq). }
  clearbody r3.
  apply (rel_front false (doomed s) false true h h p q (recv s) r3 [] [] [] []);
    rewrite ?app_nil_r; try done.
  - apply (touch_held cfg h h p q (recv s) r3 (clear x)); try done;
      unfold shift; rewrite ?Hl3, ?F1, ?F2, ?F3, ?W1; cbn -[RemainingBytes]; rewrite ?Hs; try done;
      try lia; [by apply clear_ok|by intros _; cbn; rewrite Hs|..]; change (RemainingBytes (clear x)) with (RemainingBytes x); lia.
  - apply F4.
  - intros z Hz. apply Hne. congruence.
  - intros _. split_and!; [done| |cbn; rewrite Hx3; apply sublist_nil_l].
    rewrite Hx3. apply clear_steady. destruct Hst. constructor; auto.
Qed.

(** A write libuv took. *)
Lemma goes_written n r2 :
  Quiet r1 r2 ->
  let r3 := log_taken w (on_ledger (fun l => set_PendingTcpWriteBytes (Tx.TotalBytes w) l) r2) in
  let r4 := on_flow (set_TcpWrites [Tx.set_Ownership Submitted w]) (snd (ask_ok r3)) in
  let r5 := on_log (fun l => set_written (written l ++ concat (Tx.Buffers w)) l) r4 in
  Goes h n (inr (set_recv (on_rx (Rx.set_TcpWriteSubmitted true) p r5) s)).
Proof.
  intros Hq. cbn zeta. destruct submit_facts as (Hh & Hx & Hst & W1 & W2 & W3 & B1 & B2 & B3 & B4).
  destruct Ht as [L1 [L2 L3] L4 L5 L6 L7 L8]. set (r6 := on_rx _ p _).
  set (y := Rx.set_TcpWriteSubmitted true (clear x)).
  assert (rx p r6 = y) as Hx6.
  { unfold r6. rewrite rx_on_rx. unfold y. rewrite <- L2, <- (quiet_rx _ _ p Hq).
    unfold log_taken. by destruct (negb _). }
  assert (forall z, z <> p -> rx z r6 = rx z (recv s)) as Hne.
  { intros z Hz. unfold r6. rewrite rx_on_rx_ne, <- L3, <- (quiet_rx _ _ z Hq) by done.
    unfold log_taken. by destruct (negb _). }
  assert (ledger r6 = set_PendingTcpWriteBytes (Tx.TotalBytes w) (ledger (recv s)) /\
          flow r6 = set_TcpWrites [Tx.set_Ownership Submitted w] (flow r1) /\
          lost (log r6) = lost (log (recv s)) /\ same_links (recv s) r6 /\
          OtherQuicToTcp (log r6) = OtherQuicToTcp (log (recv s)) /\
          disabled (log r6) = disabled (log (recv s)) /\
          (refused (log (recv s)) = true -> refused (log r6) = true)) as (F1 & F2 & F3 & F4 & F5 & F6 & F7).
  { rewrite <- L4, <- L5, <- (q_ledger _ _ Hq), <- (q_flow _ _ Hq), <- (q_lost _ _ Hq),
      <- (q_other _ _ Hq), <- (q_disabled _ _ Hq). unfold r6, log_taken.
    assert (same_links (recv s) r2) as Hl2 by (etrans; [exact L1|]; by apply (quiet_books _ _ Hq)).
    pose proof (q_refused _ _ Hq). destruct (negb _); split_and!; done. }
  set (t := if Decompressing cfg then [] else concat (Tx.Buffers w)).
  assert (streams (log r6) = (admitted (log (recv s)), taken (log (recv s)) ++ t,
            output (log (recv s)) ++ t, written (log (recv s)) ++ concat (Tx.Buffers w),
            inflated (log (recv s)) ++ [])) as F8.
  { pose proof (q_streams _ _ Hq) as Q. rewrite L5 in Q. unfold streams in Q. injection Q as <- <- <- <- <-.
    unfold r6, log_taken, t. rewrite (wf_complete _ _ _ Hw). destruct (Decompressing cfg) eqn:Ed.
    - cbn. by rewrite !app_nil_r.
    - rewrite (proj2 (Z.eqb_neq _ _)); [cbn; by rewrite app_nil_r|].
      intros E%done_fields; [|done]. rewrite Hopen in E by done. done. }
  clearbody r6. exists (p :: q). split_and!.
  - apply (sound_recv h h (p :: q) (p :: q) s r6 H); [apply not_emptied|]. intros Hr. rewrite He in *.
    apply (rel_front false (doomed s) false (doomed s) h h p q (recv s) r6 t t (concat (Tx.Buffers w)) []);
      try done.
    + destruct (h_books _ _ _ _ Hh).
      assert (RemainingBytes y = RemainingBytes x) as Hry by done.
      assert (Rx.DeferredOutputBytes y = 0 /\ sum Tx.PressureBytes [] = 0) as [Hdy Hz] by done.
      apply (touch_held cfg h h p q (recv s) r6 y); try done; unfold shift;
        rewrite ?F1, ?F2, ?F3, ?F5, ?W1, ?Hry, ?Hdy, ?Hz; cbn -[RemainingBytes]; rewrite ?sum_one; cbn;
        rewrite ?(wf_pressure _ _ _ Hw); try done; try lia.
      * split; [done|]. intros z Hzp. by apply Hne.
      * destruct Hx. by constructor.
      * intros Ed. split; [done|]. intros _ E0.
        change (RemainingBytes x = 0) in E0. apply done_fields in E0; [|exact Hx]. by rewrite Hopen in E0.
      * eexists. split; [done|]. destruct Hw. constructor; try done; cbn; [by rewrite wf_pressure0, B2, wf_outputs0|].
        rewrite L7. lia.
    + apply F4.
    + intros Ed. unfold t. rewrite Ed. done.
    + intros _. rewrite Hx6. split_and!; [done| |].
      * destruct Hst as [S1 S2 S3 S4 S5]. constructor; cbn; try done; try lia.
        intros Ed. by destruct (S2 Ed) as (? & ? & _ & ?).
      * cbn. rewrite Hx6. cbn. rewrite app_nil_r. unfold t. destruct (Decompressing cfg) eqn:Ed.
        -- rewrite (wf_inflate _ _ _ Hw Ed), app_nil_r. done.
        -- by apply sublist_inserts_l.
    + intros Hd. split_and!; [done| | |unfold Flag; by rewrite F2, F3, F6, <- L8].
      * rewrite Hx6. unfold front_unread, t. destruct (Decompressing cfg) eqn:Ed; [done|].
        cbn. rewrite Hs, H0, Hopen by done. cbn. by rewrite app_nil_r, (wf_plain _ _ _ Hw).
      * cbn. rewrite Hx6. cbn. rewrite app_nil_r. unfold t. destruct (Decompressing cfg) eqn:Ed.
        -- by rewrite (wf_inflate _ _ _ Hw Ed), app_nil_r.
        -- destruct (s_plain _ _ _ Hst Ed) as (_ & _ & D0 & _). by rewrite (no_outputs _ _ Hx Hst D0).
  - constructor; [intros _; cbn; rewrite Hx6; done|]. intros Hd Hre Hdi.
    change (QuicToTcpPressureBytes (ledger (recv (set_recv r6 s)))) with (QuicToTcpPressureBytes (ledger r6)).
    cbn in Hre, Hdi. rewrite F6 in Hdi. rewrite F1. apply (Hp Hd); [|done].
    destruct (refused (log (recv s))); [|done]. by rewrite F7 in Hre.
  - right; right; right; left. cbn. rewrite F2. done.
Qed.

(** A write libuv refused. *)
Lemma goes_refused n r2 :
  Quiet r1 r2 ->
  let r3 := log_taken w r2 in
  let r4 := give_back CompleteReceive w (ReleasePressure (Tx.PressureBytes w) (snd (ask_ok r3))) in
  let s1 := on_recv (UpdateBackpressure cfg) (TqUvRequestTerminal TcpError (set_recv r4 s)) in
  Goes h n (inr (on_recv (free_outputs (Tx.OutputOwners w)) s1)).
Proof.
  intros Hq. cbn zeta. destruct submit_facts as (Hh & Hx & Hst & W1 & W2 & W3 & B1 & B2 & B3 & B4).
  destruct Ht as [L1 [L2 L3] L4 L5 L6 L7 L8]. set (r4 := ReleasePressure _ _).
  assert (rx p r4 = clear x /\ forall z, z <> p -> rx z r4 = rx z (recv s)) as [Hx4 Hne].
  { split; [|intros z Hz]; [rewrite <- L2|rewrite <- L3 by done]; rewrite <- (quiet_rx _ _ _ Hq);
      unfold r4, log_taken; by destruct (negb _). }
  pose proof (k_pressure _ _ _ _ (h_books _ _ _ _ Hh)) as Kp. pose proof (k_lost _ _ _ _ (h_books _ _ _ _ Hh)).
  assert (ledger r4 = set_QuicToTcpPressureBytes
            (QuicToTcpPressureBytes (ledger (recv s)) - Rx.DeferredOutputBytes x) (ledger (recv s))) as F1.
  { rewrite <- L4, <- (q_ledger _ _ Hq). unfold r4, log_taken, ReleasePressure, less.
    rewrite (wf_pressure _ _ _ Hw). destruct (negb _); cbn; rewrite (q_ledger _ _ Hq), L4;
      by rewrite (proj2 (Z.leb_le _ _)). }
  assert (flow r4 = flow r1 /\ lost (log r4) = lost (log (recv s)) /\ same_links (recv s) r4 /\
          OtherQuicToTcp (log r4) = OtherQuicToTcp (log (recv s)) /\
          (refused (log (recv s)) = true -> refused (log r4) = true)) as (F2 & F3 & F4 & F5 & F7).
  { rewrite <- L5, <- (q_flow _ _ Hq), <- (q_lost _ _ Hq), <- (q_other _ _ Hq). unfold r4, log_taken.
    assert (same_links (recv s) r2) as Hl2 by (etrans; [exact L1|]; by apply (quiet_books _ _ Hq)).
    pose proof (q_refused _ _ Hq). destruct (negb _); split_and!; done. }
  set (t := if Decompressing cfg then [] else concat (Tx.Buffers w)).
  assert (streams (log r4) = (admitted (log (recv s)), taken (log (recv s)) ++ t,
            output (log (recv s)) ++ t, written (log (recv s)) ++ [], inflated (log (recv s)) ++ [])) as F8.
  { pose proof (q_streams _ _ Hq) as Q. rewrite L5 in Q. unfold streams in Q. injection Q as <- <- <- <- <-.
    unfold r4, log_taken, t. rewrite (wf_complete _ _ _ Hw). destruct (Decompressing cfg) eqn:Ed.
    - cbn. by rewrite !app_nil_r.
    - rewrite (proj2 (Z.eqb_neq _ _)); [cbn; by rewrite !app_nil_r|].
      intros E%done_fields; [|done]. rewrite Hopen in E by done. done. }
  clearbody r4. pose proof (k_held _ _ _ _ (h_books _ _ _ _ Hh)) as Hhn.
  assert (Held cfg (h + Rx.DeferredOutputBytes x) (p :: q) r4) as Hh4.
  { destruct (h_books _ _ _ _ Hh). assert (RemainingBytes (clear x) = RemainingBytes x) as Hry by done.
    assert (Rx.DeferredOutputBytes (clear x) = 0 /\ sum Tx.PressureBytes [] = 0) as [Hdy Hz] by done.
    apply (touch_held cfg h _ p q (recv s) r4 (clear x)); try done; unfold shift;
      rewrite ?F1, ?F2, ?F3, ?F5, ?W1, ?W2, ?Hry, ?Hdy, ?Hz; cbn -[RemainingBytes]; rewrite ?Hs; try done; try lia.
    - split; [done|]. intros z Hz'. by apply Hne.
    - by apply clear_ok.
    - by intros _; cbn; rewrite Hs. }
  destruct (give_back_spec CompleteReceive (h + Rx.DeferredOutputBytes x) p q r4 w)
    as (G1 & G2 & G3 & G4 & G5 & G6 & Glo & G7 & G8); rewrite ?Hx4; try done.
  { apply (wf_owner _ _ _ Hw). }
  { rewrite (wf_complete _ _ _ Hw). pose proof (remaining_nonneg x).
    change (RemainingBytes (clear x)) with (RemainingBytes x). destruct (Decompressing cfg); lia. }
  { rewrite <- Hx4. intros bytes ? ?. by apply complete_spec. }
  set (r5 := give_back CompleteReceive w r4) in *.
  assert (Steady cfg (refused (log r5)) (rx p r5) /\
          Rx.DeferredOutputOwners (rx p r5) = [] /\ Rx.DeferredOutputBytes (rx p r5) = 0) as (Hst5 & Ho5 & Hd5).
  { destruct (steady_given_back (refused (log (recv s))) (refused (log r5)) (clear x) (rx p r5)
                (Tx.ReceiveCompleteBytes w)) as (T1 & T2 & T3 & _); try done.
    - by apply clear_steady.
    - by apply clear_ok.
    - auto.
    - apply (wf_complete _ _ _ Hw).
    - destruct G8 as [[-> ->]|[? [[? ->]| -> ]]]; rewrite ?Hx4; auto. }
  assert (Sound (h + Rx.DeferredOutputBytes x) (p :: q) (TqUvRequestTerminal TcpError (set_recv r5 s))) as H5.
  { destruct H as [Ha Hre Hr]. constructor; [done|intros E; by eapply not_emptied, Hre|].
  rewrite request_doomed.
    change (ended (TqUvRequestTerminal TcpError _)) with (ended s). rewrite He in *.
    apply (rel_front false (doomed s) false true h _ p q (recv s) r5 t t [] []); try done.
    - change (Posted (queue r5) = Posted (queue (recv s))). rewrite G3. apply F4.
    - intros z Hz. change (rx z r5 = rx z (recv s)). rewrite G2 by done. by apply Hne.
    - change (log (recv (TqUvRequestTerminal TcpError (set_recv r5 s)))) with (log r5). by rewrite G5.
    - intros Ed. unfold t. by rewrite Ed.
    - intros _. split; [done|].
      change (log (recv (TqUvRequestTerminal TcpError (set_recv r5 s)))) with (log r5).
      change (recv (TqUvRequestTerminal TcpError (set_recv r5 s))) with r5.
      split; [apply Hst5|]. cbn. rewrite Ho5. apply sublist_nil_l. }
  exists (p :: q). set (s5 := TqUvRequestTerminal TcpError (set_recv r5 s)) in *.
  apply stopped_doomed.
  - apply sound_free; [|done]. rewrite <- B2. by apply sound_backpressure.
  - exact (request_doomed TcpError (set_recv r5 s)).
  - intros _. change (Waits (rx p (UpdateBackpressure cfg r5))).
    rewrite (same_books_rx _ _ p (books_backpressure cfg r5)). unfold Waits. by rewrite Hd5.
Qed.

(** [submitWrite]. *)
Lemma goes_submit n : Tx.Ownership w = Created -> Goes h n (inr (submitWrite cfg w (set_recv r1 s))).
Proof.
  intros Hcr. unfold submitWrite. destruct submit_facts as (Hh & Hx & Hst & W1 & W2 & W3 & _).
  destruct Hw as [V1 V2 V3 V4 V5 V6 V7 V8 V9 V10].
  destruct (length (Tx.Buffers w) =? 0)%nat eqn:El; [apply Nat.eqb_eq, length_zero_iff_nil in El; done|].
  rewrite (proj2 (Z.ltb_ge _ _)) by done. cbn [orb]. cbn zeta.
  pose proof (quiet_ask r1) as Hq. change (recv (set_recv r1 s)) with r1.
  destruct (ask_ok r1) as [inserted r2]. cbn [snd] in Hq.
  destruct (negb inserted); [by apply (goes_abandoned n AllocationFailureTrigger r2)|].
  destruct (_ <? _); [by apply (goes_abandoned n PressureFailure r2)|].
  assert (PendingTcpWriteBytes (ledger r2) = 0 /\ TcpWrites (flow r2) = []) as [W4 W5].
  { rewrite (q_ledger _ _ Hq), (q_flow _ _ Hq), (tk_ledger _ _ _ Ht). done. }
  set (r3 := log_taken w (on_ledger (fun l => set_PendingTcpWriteBytes (Tx.TotalBytes w) l) r2)).
  assert (on_recv (log_taken (Tx.set_Ownership Submitted w))
            (on_recv (on_ledger (fun l => set_PendingTcpWriteBytes
               (PendingTcpWriteBytes l + Tx.TotalBytes (Tx.set_Ownership Submitted w)) l))
               (set_recv r2 (set_recv r1 s))) = set_recv r3 s) as ->.
  { unfold on_recv. cbn [recv set_recv]. unfold on_ledger at 1. cbn. rewrite W4. done. }
  change (recv (set_recv r3 s)) with r3. unfold ask_ok. destruct (default true _).
  - pose proof (goes_written n r2 Hq) as Hg. cbn zeta in Hg. fold r3 in Hg. unfold ask_ok in Hg.
    rewrite <- V1 in Hg.
    assert (TcpWrites (flow r3) = []) as W6 by (unfold r3, log_taken; by destruct (negb _)).
    unfold on_recv, on_flow. cbn [recv set_recv flow set_world]. rewrite W6. exact Hg.
  - pose proof (goes_refused n r2 Hq) as Hg. cbn zeta in Hg.
    assert (on_ledger (fun l => set_PendingTcpWriteBytes (PendingTcpWriteBytes l - Tx.TotalBytes w) l)
              (set_world (set_oracle (list.tail (oracle (world r3))) (world r3)) r3) =
            snd (ask_ok (log_taken w r2))) as Heq.
    { unfold r3, log_taken, ask_ok, on_ledger. destruct r2 as [? [] ? ? ? ?]. cbn in W4. subst.
      destruct (negb _); cbn; by rewrite Z.sub_diag. }
    rewrite <- Heq in Hg. exact Hg.
Qed.

End Submit.
(** The two kinds of writes. *)
Lemma goes_write_deferred h n p q s :
  Sound h (p :: q) s -> ended s = false -> Decompressing cfg = true ->
  Rx.TcpWriteSubmitted (rx p (recv s)) = false -> Rx.CompletionPendingBytes (rx p (recv s)) = 0 ->
  Rx.DeferredOutputBytes (rx p (recv s)) <> 0 -> (doomed s = false -> Pace cfg (recv s)) ->
  Goes h n (inr (write_deferred cfg p s)).
Proof.
  intros H He Ed Hs H0 Hd Hp. unfold write_deferred, new_write.
  pose proof (held_cells _ _ _ _ _ (sound_held _ _ _ H)) as Hx.
  destruct (r_steady _ _ _ _ _ _ (so_rel _ _ _ _ H) He) as [Hst _].
  set (r1 := on_flow (set_NextRequest (S (NextRequest (flow (recv s)))))
               (on_rx (fun x => Rx.set_DeferredOutputBytes 0 (Rx.set_DeferredOutputOwners [] x)) p (recv s))).
  apply (goes_submit h p q s r1); try done; [by rewrite Ed| |].
  - constructor; try done. split; [exact (rx_on_rx _ p (recv s))|]. intros z Hz. by apply rx_on_rx_ne.
  - constructor; cbn; try done; rewrite ?Ed; try done.
    + apply (rx_deferred _ Hx).
    + intros E. apply Hd. rewrite (rx_deferred _ Hx), E. done.
    + pose proof (s_owners _ _ _ Hst). unfold UINT32_MAX. lia.
Qed.

Lemma nonempty_slices l :
  concat (filter (fun slice => length slice <> 0)%nat l) = concat l :> list Z /\
  (length (filter (fun slice => length slice <> 0)%nat l) <= length l)%nat.
Proof.
  split; [|apply length_filter]. induction l as [|b l IH]; [done|]. rewrite filter_cons.
  destruct (decide _) as [Hb|Hb]; cbn; rewrite IH; [done|]. destruct b; [done|]. by destruct Hb.
Qed.

Lemma unsent_all x :
  Rx.SliceIndex x = 0%nat -> Rx.SliceOffset x = 0%nat ->
  concat (unsent_slices x) = concat (Rx.Slices x) /\
  (length (unsent_slices x) <= length (Rx.Slices x))%nat.
Proof.
  intros H1 H2. unfold unsent_slices. rewrite H1, H2. cbn [drop].
  destruct (Rx.Slices x) as [|b l]; [done|]. destruct (nonempty_slices l) as [Hc Hl].
  destruct b; cbn; rewrite Hc; (split; [done|lia]).
Qed.

Lemma goes_write_plain h n p q s :
  Sound h (p :: q) s -> ended s = false -> Decompressing cfg = false ->
  Rx.TcpWriteSubmitted (rx p (recv s)) = false -> Rx.CompletionPendingBytes (rx p (recv s)) = 0 ->
  Rx.Settled (rx p (recv s)) = false -> (doomed s = false -> Pace cfg (recv s)) ->
  Goes h n (inr (write_plain cfg p s)).
Proof.
  intros H He Ed Hs H0 Hopen Hp. unfold write_plain, new_write.
  pose proof (held_cells _ _ _ _ _ (sound_held _ _ _ H)) as Hx.
  destruct (r_steady _ _ _ _ _ _ (so_rel _ _ _ _ H) He) as [Hst _].
  destruct (s_plain _ _ _ Hst Ed) as (T1 & T2 & T3 & T4 & _).
  pose proof (no_outputs _ _ Hx Hst T3) as Hno. destruct (unsent_all _ T1 T2) as [U1 U2].
  set (r1 := on_flow (set_NextRequest (S (NextRequest (flow (recv s))))) (recv s)).
  apply (goes_submit h p q s r1); try done.
  - constructor; try done. split; [|done]. symmetry. by eapply clear_id.
  - pose proof (rx_count _ Hx). constructor; cbn; try done; rewrite ?Ed, ?T3, ?Hno; try done; [|lia].
    intros E. rewrite E in U1. cbn in U1. pose proof (rx_width _ Hx) as Hwd.
    rewrite (rx_total _ Hx), bytes_in_concat, <- U1 in Hwd. cbn in Hwd. lia.
Qed.

(** ** The outer loop *)

(** Not drained, so that only a plain receive is finished with in the outer loop. *)
Lemma finished_plain x : RxOk x -> finished cfg x = true -> Decompressing cfg = false /\ Rx.Settled x = true.
Proof.
  intros Hx. unfold finished. rewrite (rx_drained _ Hx). destruct (Rx.Settled x), (Decompressing cfg); done.
Qed.

(** Popping a plain receive. *)
Lemma pop_plain h p q s :
  Sound h (p :: q) s -> Decompressing cfg = false -> Rx.Settled (rx p (recv s)) = true ->
  Popped h p q (rx p (recv s)) s (PopReceive p s).
Proof.
  intros H Ed Hset. pose proof (sound_held _ _ _ H) as Hh. pose proof (held_cells _ _ _ _ _ Hh) as Hx.
  pose proof (settled_done _ Hx Hset) as Hrem. destruct (h_plain _ _ _ _ Hh Ed) as [P1 P2].
  apply sound_pop; try done.
  - split_and!; try done. destruct (Rx.TcpWriteSubmitted _) eqn:E; [|done]. by destruct (P2 eq_refl).
  - intros _. unfold front_unread. rewrite Ed, Hset, !orb_true_r. done.
  - intros He. destruct (r_steady _ _ _ _ _ _ (so_rel _ _ _ _ H) He) as [Hst _]. by eapply no_outputs.
Qed.

(** A popped queue is between two steps if the queue was. *)
Lemma rested_popped q q' s s' :
  (doomed s = false -> Pace cfg (recv s)) ->
  (ended s' = true \/ q' = q /\ term s' = term s /\ Forall (fun y => Fresh (rx y (recv s'))) q' /\
   ledger (recv s') = ledger (recv s) /\ log (recv s') = log (recv s)) ->
  Rested cfg q' s'.
Proof.
  intros Hp [He|(_ & Ht & Hf & Hl & Hg)]; [by apply rested_ended|]. constructor.
  - intros _. destruct q' as [|y q']; [done|]. apply list.Forall_cons in Hf as [[-> _ _ _] _]. done.
  - intros Hd. assert (doomed s = false) as Hds by (unfold doomed, ended in *; by rewrite Ht in Hd).
    unfold Pace. rewrite Hl, Hg. by apply Hp.
Qed.

Lemma goes_finished h p q b s :
  Sound h (p :: q) s -> Rested cfg (p :: q) s -> in_budget b -> finished cfg (rx p (recv s)) = true ->
  Goes h (fuel cfg (Outer, b, s)) (inl (Outer, b, PopReceive p s)).
Proof.
  intros H Hre Hb Hf. pose proof (sound_held _ _ _ H) as Hh. pose proof (held_cells _ _ _ _ _ Hh) as Hx.
  destruct (finished_plain _ Hx Hf) as [Ed Hset].
  destruct (pop_plain h p q s H Ed Hset) as (q' & P1 & P2 & P3 & _ & P5). exists q'. split.
  - split_and!; try done. eapply rested_popped; [apply Hre|exact P5].
  - apply fuel_weight; try done. eapply weight_less; [exact Hh|by apply sound_held|].
    apply suffix_length in P2. cbn. lia.
Qed.

Lemma goes_failed h n q s :
  Sound h q s -> (ended s = false -> match q with [] => True | p :: _ => Waits (rx p (recv s)) end) ->
  Goes h n (decompression_failed s).
Proof.
  intros H Hw. unfold decompression_failed. apply (goes_request h n q); [|exact Hw].
  apply (sound_recv h h q q s _ H); [done|]. intros Hr. apply (rel_same _ _ h q (recv s)); try done.
Qed.

Lemma goes_enter h p q b n s :
  Sound h (p :: q) s -> Rested cfg (p :: q) s -> in_budget b -> ended s = false ->
  Decompressing cfg = true -> Rx.TcpWriteSubmitted (rx p (recv s)) = false ->
  Rx.CompletionPendingBytes (rx p (recv s)) = 0 -> Rx.DeferredOutputBytes (rx p (recv s)) = 0 ->
  fuel cfg (Inflate p, b, s) < n -> Goes h n (enter_inflate cfg p b s).
Proof.
  intros H Hre Hb He Ed Hs H0 Hd Hn. unfold enter_inflate. destruct (negb _).
  - apply (goes_failed h n (p :: q)); [done|apply Hre].
  - exists (p :: q). split; [|done]. refine (conj H (conj Hre (conj Hb _))).
    split_and!; [by exists q|done..].
Qed.

(** A completion that waited is made good. *)
Lemma rel_completed e d h p q r r1 bytes :
  Rel e d h (p :: q) r -> Quiet r r1 -> e = false -> Rx.TcpWriteSubmitted (rx p r) = false ->
  bytes = Rx.CompletionPendingBytes (rx p r) -> bytes <> 0 ->
  let y := Rx.set_CompletionPendingBytes 0
             (Rx.set_CompletionRetryCount 0 (complete bytes (rx p r))) in
  let r' := release_completed bytes (on_rx (fun _ => y) p r1) in
  Rel e d h (p :: q) r' /\ rx p r' = y /\ flow r' = flow r /\ log r' = log r1 /\
  PendingQuicReceiveBytes (ledger r') = PendingQuicReceiveBytes (ledger r) - bytes /\ 0 < bytes.
Proof.
  intros H Hq He Hw Hb Hn. cbn zeta. pose proof (r_held _ _ _ _ _ _ H) as Hh.
  pose proof (held_cells _ _ _ _ _ Hh) as Hx. pose proof (rx_pending _ Hx) as Hp.
  pose proof (remaining_ok _ Hx) as Hrem.
  destruct (rx_ok_complete (rx p r) bytes 0 0 Hx) as (Y1 & Y2 & Y3 & Y4); [lia|lia|done|].
  set (y := Rx.set_CompletionPendingBytes 0 _) in *.
  destruct (completed_part (cfg:=cfg) h p q r r1 bytes y) as (C1 & C2 & C3 & C4 & C5 & C6 & C7);
    try done; [lia|congruence|].
  set (r' := release_completed bytes _) in *. split_and!; try done; [|lia].
  assert (y = Rx.set_CompletionPendingBytes 0 (Rx.set_CompletionRetryCount 0
            (Rx.set_Settled (Rx.CompletedBytes (rx p r) + bytes =? Rx.TotalBytes (rx p r))
              (Rx.set_CompletedBytes (Rx.CompletedBytes (rx p r) + bytes) (rx p r))))) as Hy.
  { unfold y. rewrite complete_fields by (done || lia). done. }
  destruct (r_steady _ _ _ _ _ _ H He) as [[S1 S2 S3 S4 S5] _].
  assert (Decompressing cfg = false -> Rx.Settled y = true) as Hset.
  { intros Ed. rewrite Hy. destruct (S2 Ed) as (_ & _ & _ & _ & [?|Hcp]); [lia|].
    cbn -[RemainingBytes Z.eqb]. apply Z.eqb_eq. lia. }
  apply (rel_front e d e d h h p q r r' [] [] [] []); rewrite ?C5, ?C6, ?app_nil_r; try done.
  - apply (q_streams _ _ Hq).
  - intros _. rewrite C2. split_and!; [done| |].
    + constructor; rewrite ?Hy; cbn -[RemainingBytes Z.eqb]; try done.
      * intros Ed. destruct (S1 Ed) as [T1 T2]. split; [done|].
        fold (position (rx p r)). lia.
      * intros Ed. destruct (S2 Ed) as (T1 & T2 & T3 & T4 & T5). rewrite <- Hy in *. split_and!; try done.
        -- right. rewrite Hy in Hset. by apply Hset.
        -- by left.
    + cbn. rewrite C2, Hy. done.
  - intros Hd. rewrite C2. split_and!; try done.
    + unfold front_unread. destruct (Decompressing cfg) eqn:Ed; [by rewrite Hy|].
      rewrite Hset by done. rewrite !orb_true_r. by rewrite <- Hb, (proj2 (Z.eqb_neq _ _)), orb_true_r.
    + cbn. rewrite C2, Hy. done.
    + unfold Flag. by rewrite C5, C6, (q_disabled _ _ Hq), (q_lost _ _ Hq).
Qed.

Lemma pace_backpressure h q s :
  Sound h q s -> doomed s = false -> Pace cfg (recv (on_recv (UpdateBackpressure cfg) s)).
Proof.
  intros H Hd. apply backpressure_paces. by apply (r_flowing _ _ _ _ _ _ (so_rel _ _ _ _ H)).
Qed.

(** What follows a completion that had waited. *)
Lemma goes_after_completion h p q b n s :
  Sound h (p :: q) s -> in_budget b -> ended s = false -> refused (log (recv s)) = true ->
  Rx.TcpWriteSubmitted (rx p (recv s)) = false -> Rx.CompletionPendingBytes (rx p (recv s)) = 0 ->
  (Decompressing cfg = false -> Rx.Settled (rx p (recv s)) = true) ->
  fuel cfg (Inflate p, b, s) < n -> Goes h n (after_completion cfg p b s).
Proof.
  intros H Hb He Hr Hw H0 Hset Hn. unfold after_completion.
  pose proof (sound_held _ _ _ H) as Hh. pose proof (held_cells _ _ _ _ _ Hh) as Hx.
  destruct (Decompressing cfg) eqn:Ed.
  - assert (finished cfg (rx p (recv s)) = false) as ->.
    { destruct (finished cfg _) eqn:E; [|done]. destruct (finished_plain _ Hx E). congruence. }
    pose proof (sound_backpressure _ _ _ H) as H1. pose proof (pace_backpressure _ _ _ H) as Hp.
    assert (rx p (recv (on_recv (UpdateBackpressure cfg) s)) = rx p (recv s)) as Hx1
      by apply (same_books_rx _ _ p (books_backpressure cfg (recv s))).
    assert (weight (recv (on_recv (UpdateBackpressure cfg) s)) = weight (recv s)) as Hwt
      by apply (weight_books _ _ (books_backpressure cfg (recv s))).
    set (s1 := on_recv (UpdateBackpressure cfg) s) in *. cbn zeta. rewrite Hx1, (rx_drained _ Hx).
    destruct (_ =? 0) eqn:E; to_prop; cbn [andb orb negb].
    + apply (goes_enter h p q); rewrite ?Hx1; try done.
      * apply (rested_backpressure h (p :: q) s H). intros _. unfold Waits. by rewrite E.
      * by rewrite (fuel_same _ _ _ _ Hwt).
    + apply (goes_write_deferred h n p q); rewrite ?Hx1; done.
  - assert (finished cfg (rx p (recv s)) = true) as ->.
    { unfold finished. by rewrite Hset, Ed. }
    destruct (pop_plain h p q s H Ed (Hset eq_refl)) as (q' & P1 & P2 & P3 & P4 & P5).
    assert (rx p (recv (on_recv (UpdateBackpressure cfg) (PopReceive p s))) = rx p (recv s)) as Hx1.
    { rewrite <- P4. apply (same_books_rx _ _ p (books_backpressure cfg (recv (PopReceive p s)))). }
    cbn zeta. rewrite Hx1. destruct (h_plain _ _ _ _ Hh Ed) as [-> _]. cbn [Z.eqb negb orb andb].
    exists q'. split_and!; [by apply sound_backpressure| |].
    + apply (rested_backpressure h q'); [done|]. intros He'. destruct P5 as [?|(_ & _ & Hf & _)]; [congruence|].
      destruct q' as [|y q']; [done|]. apply list.Forall_cons in Hf as [[-> _ _ _] _]. done.
    + destruct P5 as [He'|(_ & _ & _ & _ & Hl)]; [left; by apply doomed_ended|right; left].
      apply (backpressure_streams (cfg:=cfg) (recv (PopReceive p s))). by rewrite Hl.
Qed.

Lemma goes_resume h p q b s :
  Sound h (p :: q) s -> Rested cfg (p :: q) s -> in_budget b -> ended s = false ->
  Rx.TcpWriteSubmitted (rx p (recv s)) = false -> finished cfg (rx p (recv s)) = false ->
  Goes h (fuel cfg (Outer, b, s)) (resume_front cfg p b s).
Proof.
  intros H Hre Hb He Hw Hfin. unfold resume_front.
  pose proof (quiet_ask (recv s)) as Hq. destruct (ask_ok (recv s)) as [made r]. cbn [snd] in Hq.
  pose proof (sound_quiet _ _ _ _ H Hq) as H1. pose proof (rested_quiet _ _ _ Hre Hq) as Hre1.
  assert (rx p (recv (set_recv r s)) = rx p (recv s)) as Hx1 by apply (quiet_rx _ _ p Hq).
  assert (fuel cfg (Outer, b, set_recv r s) = fuel cfg (Outer, b, s)) as Hfu
    by (apply fuel_same, weight_books, quiet_books, Hq).
  assert (ended (set_recv r s) = false) as He1 by done.
  rewrite <- Hfu. set (s1 := set_recv r s) in *. clearbody s1. rewrite <- Hx1 in Hw, Hfin. clear Hx1 Hfu Hq.
  destruct (negb made); [apply (goes_request h _ (p :: q)); [done|apply Hre1]|].
  pose proof (sound_held _ _ _ H1) as Hh. pose proof (held_cells _ _ _ _ _ Hh) as Hx. cbn zeta.
  destruct (_ =? 0) eqn:E; to_prop; cbn [negb].
  - assert (Rx.DeferredOutputBytes (rx p (recv s1)) = 0) as Hd.
    { destruct (decide (Rx.DeferredOutputBytes (rx p (recv s1)) = 0)) as [?|Hne]; [done|].
      destruct (re_waits _ _ _ Hre1 He1 Hne). done. }
    unfold start_writing. destruct (Decompressing cfg) eqn:Ed; cbn [negb].
    + apply (goes_enter h p q); try done. unfold fuel. lia.
    + apply (goes_write_plain h _ p q); try done; [|apply Hre1].
      unfold finished in Hfin. rewrite Ed in Hfin. by destruct (Rx.Settled _).
  - pose proof (rx_pending _ Hx) as Hpe. pose proof (remaining_ok _ Hx) as Hrem.
    assert (0 < Rx.CompletionPendingBytes (rx p (recv s1)) <= RemainingBytes (rx p (recv s1))) as Hr by lia.
    destruct (complete_spec p _ _ Hx Hr)
      as (r1 & Hq1 & [[-> Hr1]| -> ]); cbn [negb].
    + eapply goes_less; [apply (goes_retry h p q Outer b); try done; [by eapply sound_quiet|by eapply rested_quiet]|].
      rewrite (fuel_same Outer b s1); [lia|]. apply weight_books, quiet_books, Hq1.
    + destruct (r_steady _ _ _ _ _ _ (so_rel _ _ _ _ H1) He1) as [Hst _].
      pose proof (s_refused _ _ _ Hst E) as Href.
      destruct (rel_completed (ended s1) (doomed s1) h p q (recv s1) r1 _ (so_rel _ _ _ _ H1) Hq1 He1 Hw eq_refl E)
        as (R1 & R2 & R3 & R4 & R5 & R6).
      set (bytes := Rx.CompletionPendingBytes (rx p (recv s1))) in *.
      set (y := Rx.set_CompletionPendingBytes 0 (Rx.set_CompletionRetryCount 0 (complete bytes (rx p (recv s1))))) in *.
      assert (on_rx (fun x => Rx.set_CompletionPendingBytes 0 (Rx.set_CompletionRetryCount 0 x)) p
                (on_rx (complete bytes) p r1) = on_rx (fun _ => y) p r1) as Heq.
      { rewrite on_rx_compose. unfold y. rewrite <- (quiet_rx _ _ p Hq1). done. }
      assert (Sound h (p :: q) (set_recv (release_completed bytes (on_rx (fun _ => y) p r1)) s1)) as H2.
      { apply (sound_recv h h (p :: q) (p :: q) s1 _ H1); [apply not_emptied|done]. }
      pose proof (goes_after_completion h p q b (fuel cfg (Outer, b, s1)) _ H2 Hb He1) as Hg.
      rewrite <- Heq in Hg. apply Hg; rewrite Heq; cbn [recv set_recv]; rewrite ?R2, ?R4; try done.
      * by apply (q_refused _ _ Hq1).
      * unfold y, complete. by destruct (_ =? _).
      * intros Ed. destruct (s_plain _ _ _ Hst Ed) as (_ & _ & _ & _ & [?|Hall]); [done|].
        unfold y. rewrite complete_fields by (done || lia). cbn -[Z.eqb RemainingBytes]. apply Z.eqb_eq.
        unfold bytes. lia.
      * apply fuel_weight; try done. eapply weight_less; [exact Hh|by apply (sound_held h (p :: q) _ H2)|].
        cbn [recv set_recv]. lia.
Qed.

(** One turn of the outer loop. *)
Lemma goes_outer h q b s :
  Sound h q s -> Rested cfg q s -> in_budget b -> Goes h (fuel cfg (Outer, b, s)) (outer_step cfg b s).
Proof.
  intros H Hre Hb. unfold outer_step. pose proof (sound_held _ _ _ H) as Hh.
  pose proof (front_cases q (recv s) (h_shape _ _ _ _ Hh)) as Hf.
  destruct (FrontReceive (recv s)) as [p|].
  2: { exists q. split_and!; try done. unfold Driven. tauto. }
  destruct Hf as [q' ->]. cbn zeta. pose proof (sound_backpressure _ _ _ H) as H1.
  pose proof (rested_backpressure _ _ _ H (re_waits _ _ _ Hre)) as Hre1.
  assert (fuel cfg (Outer, b, on_recv (UpdateBackpressure cfg) s) = fuel cfg (Outer, b, s)) as Hfu
    by apply fuel_same, weight_books, books_backpressure.
  rewrite <- Hfu. set (s1 := on_recv (UpdateBackpressure cfg) s) in *. clearbody s1.
  destruct (finished cfg (rx p (recv s1))) eqn:Ef; [by apply (goes_finished h p q')|].
  assert (TerminalStarted (term s1) || QuicShutdownObserved (term s1) ||
          negb (bool_decide (Activation (term s1) = Active)) = ended s1) as ->.
  { fold (ended s1). destruct (ended s1) eqn:Ee; [done|]. unfold ended in Ee. apply orb_false_iff in Ee as [Es _].
    by rewrite bool_decide_eq_true_2 by (by apply (so_active _ _ _ _ H1)). }
  destruct (ended s1) eqn:Ee; [by apply (goes_discard h p q')|].
  destruct (Rx.TcpWriteSubmitted (rx p (recv s1))) eqn:Ew; [|by apply (goes_resume h p q')].
  exists (p :: q'). split_and!; try done. right; right; right; left.
  pose proof (h_writes _ _ _ _ (sound_held _ _ _ H1)) as HW. cbn in HW. rewrite Ew in HW.
  destruct HW as (w & -> & _). done.
Qed.

(** ** Decompression *)

Lemma next_input_unread b x : Cursor x -> exists k, next_input cfg b x = take k (unread x).
Proof.
  intros Hc. rewrite (drop_position x Hc). unfold next_input. unfold Cursor in Hc.
  destruct (Rx.Slices x !! Rx.SliceIndex x) as [slice|] eqn:E; [|by exists 0%nat].
  rewrite (drop_S _ _ _ E). cbn [concat]. rewrite drop_app_le by done. eexists.
  rewrite take_app_le; [done|]. rewrite length_drop. lia.
Qed.

Lemma no_input x : Cursor x -> has_input x = false -> position x = length (concat (Rx.Slices x)).
Proof.
  intros Hc Hi. unfold has_input in Hi. apply Nat.ltb_ge in Hi. unfold Cursor in Hc.
  rewrite lookup_ge_None_2 in Hc by done. destruct Hc as [H1 H2]. unfold position.
  rewrite H1, H2, firstn_all. lia.
Qed.

Lemma position_le x : Cursor x -> (position x <= length (concat (Rx.Slices x)))%nat.
Proof.
  intros Hc. unfold position. unfold Cursor in Hc.
  destruct (Rx.Slices x !! Rx.SliceIndex x) as [slice|] eqn:E.
  - rewrite <- (take_drop (Rx.SliceIndex x) (Rx.Slices x)) at 2.
    rewrite (drop_S _ _ _ E), concat_app, length_app. cbn. rewrite length_app. lia.
  - destruct Hc as [H1 H2]. rewrite H1, H2, firstn_all. lia.
Qed.

(** The input of a call, and what is left of the receive. *)
Lemma input_consumed c b x n :
  RxOk x -> Steady cfg c x -> Decompressing cfg = true -> Rx.CompletionPendingBytes x = 0 ->
  (n <= length (next_input cfg b x))%nat ->
  let y := AdvanceInput n x in
  (y = Rx.set_SliceIndex (Rx.SliceIndex y) (Rx.set_SliceOffset (Rx.SliceOffset y) x)) /\
  Cursor y /\ Z.of_nat (position y) = Rx.CompletedBytes x + Z.of_nat n /\
  Z.of_nat n <= RemainingBytes x /\ unread x = take n (next_input cfg b x) ++ unread y.
Proof.
  intros Hx Hs Ed H0 Hn. destruct (s_inflate _ _ _ Hs Ed) as [Hc Hpos]. cbn zeta.
  destruct (next_input_unread b x Hc) as [k Hk]. rewrite Hk in *. rewrite length_take in Hn.
  destruct (advance_input n x Hc) as (A1 & A2 & A3); [lia|]. cbn zeta in *.
  assert (Rx.Slices (AdvanceInput n x) = Rx.Slices x) as Hsl by (by rewrite A1).
  split_and!; try done; [lia| |].
  - rewrite (remaining_ok _ Hx), (rx_total _ Hx), bytes_in_concat.
    pose proof (position_le _ A2) as Hle. rewrite Hsl in Hle. lia.
  - rewrite take_take, Nat.min_l by lia. unfold unread. rewrite A3, Hsl.
    rewrite <- drop_drop. by rewrite take_drop.
Qed.

(** The post of a continuation. *)
Lemma goes_continuation h n q s :
  Sound h q s -> Rested cfg q s -> Goes h n (inr (ScheduleProcessingContinuation s)).
Proof.
  intros H Hre. unfold ScheduleProcessingContinuation.
  destruct (QuicToTcpContinuationPending _) eqn:E.
  { exists q. split_and!; try done. unfold Driven. tauto. }
  pose proof (quiet_ask (recv s)) as Hq. destruct (ask_ok (recv s)) as [posted r]. cbn [snd] in Hq.
  pose proof (sound_quiet _ _ _ _ H Hq) as H1. pose proof (rested_quiet _ _ _ Hre Hq) as Hre1.
  destruct posted.
  - exists q. split_and!.
    + apply (sound_recv h h q q _ _ H1); [done|]. intros Hr. by apply (rel_same _ _ h q (recv (set_recv r s))).
    + destruct Hre1 as [R1 R2]. by constructor.
    + unfold Driven. do 4 right. done.
  - destruct (onward_facts h q _ (sound_request h q QueueFailure _ H1)) as [q' [O1 _ _ _ _]].
    exists q'. assert (ended (TqUvProcessTerminalFactsLocal
      (TqUvRequestTerminal QueueFailure (set_recv r s))) = true) as He.
    { unfold ended. destruct (facts_live (TqUvRequestTerminal QueueFailure (set_recv r s))) as [-> |(E0 & _)]; [done|].
      by apply mask_nonzero in E0. }
    apply stopped_doomed; [done|by apply doomed_ended|by rewrite He].
Qed.

(** The front's record with one more buffer of output. *)
Definition with_output (out : list Z) (x : Rx.t) : Rx.t :=
  if Z.of_nat (length out) =? 0 then x
  else Rx.set_DeferredOutputOwners (Rx.DeferredOutputOwners x ++ [out])
         (Rx.set_DeferredOutputBytes (Rx.DeferredOutputBytes x + Z.of_nat (length out)) x).

(** What [keep_output] has left when it succeeds. *)
Record Kept (h : Z) (p : nat) (q : list nat) (s : State) (out : list Z) (s' : State) : Prop := {
  kp_held : Held cfg h (p :: q) (recv s');
  kp_rx : rx p (recv s') = with_output out (rx p (recv s));
  kp_ne : forall z, z <> p -> rx z (recv s') = rx z (recv s);
  kp_links : same_links (recv s) (recv s');
  kp_pending : PendingQuicReceiveBytes (ledger (recv s')) = PendingQuicReceiveBytes (ledger (recv s));
  kp_streams : streams (log (recv s')) = streams (log (recv s));
  kp_refused : refused (log (recv s)) = true -> refused (log (recv s')) = true;
  kp_flag : Flag cfg (recv s) -> Flag cfg (recv s');
  kp_term : term s' = term s }.

Lemma allocate_spec h q r bytes :
  Held cfg h q r -> 0 < bytes <= Z.max (PrecommitMaxPendingBytes cfg) 65536 ->
  let '(ok, r') := AllocateOutput cfg bytes r in
  if ok then exists n r1, Quiet r r1 /\ r' = on_ledger (fun l => set_OutputPendingBufferBytes
                 (OutputPendingBufferBytes (ledger r) + bytes) (set_OutputAllocateCount n l)) r1 /\
               OutputPendingBufferBytes (ledger r) + bytes <= PrecommitMaxPendingBytes cfg
  else Quiet r r'.
Proof.
  intros H Hb. unfold AllocateOutput. destruct (_ <? _) eqn:E; [done|]. to_prop.
  pose proof (k_outputs_limit _ _ _ _ (h_books _ _ _ _ H)). pose proof (rc_room _ Hcfg).
  assert (0 <= OutputPendingBufferBytes (ledger r)) as Hn.
  { destruct H as [_ Hc _ Hw _ Hbk]. rewrite (k_outputs _ _ _ _ Hbk). pose proof (k_held _ _ _ _ Hbk).
    pose proof (writes_nonneg _ _ _ Hw). assert (0 <= deferred r q); [|lia].
    apply sum_nonneg, list.Forall_forall. intros p Hp. rewrite list.Forall_forall in Hc.
    rewrite (rx_deferred _ (Hc p Hp)). apply bytes_in_nonneg. }
  rewrite u64_small in * by (unfold is_u64, UINT64_MAX in *; lia).
  pose proof (quiet_ask r) as Hq. destruct (ask_ok r) as [[] r1]; cbn [snd] in Hq; [|done].
  by eexists _, r1.
Qed.

(** A buffer that could not be kept. *)
Lemma goes_unkept h n p q t s r1 c out :
  Sound h (p :: q) s -> ended s = false -> Rx.DeferredOutputBytes (rx p (recv s)) = 0 ->
  Quiet (recv s) r1 ->
  OutputPendingBufferBytes (ledger (recv s)) + Z.of_nat (length out) <= PrecommitMaxPendingBytes cfg ->
  let r2 := on_ledger (fun l => set_OutputPendingBufferBytes
              (OutputPendingBufferBytes (ledger (recv s)) + Z.of_nat (length out))
              (set_OutputAllocateCount c l)) r1 in
  forall f, Goes h n (inr (TqUvRequestTerminal t (on_recv (free_outputs [out]) (count f (set_recv r2 s))))).
Proof.
  intros H He Hd Hq Hl r2 f. pose proof (sound_held _ _ _ H) as Hh.
  assert (bytes_in [out] = Z.of_nat (length out)) as Hb by (unfold bytes_in; by rewrite sum_one).
  pose proof (k_held _ _ _ _ (h_books _ _ _ _ Hh)) as Hn.
  apply (goes_request h n (p :: q)).
  - apply sound_free; [|done]. rewrite Hb.
    apply (sound_recv h _ (p :: q) (p :: q) s _ H); [apply not_emptied|]. intros Hr.
    destruct (rel_quiet _ _ _ _ _ _ Hr Hq) as [Hh1 Hs1 Hf1 Hl1]. constructor; [|exact Hs1| |].
    + destruct Hh1 as [A1 A2 A3 A4 A5 [K1 K2 K3 K4 K5 K6 K7 K8 K9 K10 K11 K12 K13]].
      constructor; try done; [by eapply shape_links|].
      constructor; try done; [|lia]. cbn. rewrite <- (q_ledger _ _ Hq).
      change (deferred _ (p :: q)) with (deferred r1 (p :: q)). lia.
    + intros E. destruct (Hf1 E). by constructor.
    + destruct Hl1. by constructor.
  - intros _. cbn. change (Waits (rx p r1)). rewrite (quiet_rx _ _ p Hq). unfold Waits. by rewrite Hd.
Qed.

Lemma keep_output_spec h p q s out :
  Sound h (p :: q) s -> ended s = false -> Decompressing cfg = true ->
  Rx.TcpWriteSubmitted (rx p (recv s)) = false -> Rx.DeferredOutputBytes (rx p (recv s)) = 0 ->
  Z.of_nat (length out) <= Z.max (PrecommitMaxPendingBytes cfg) 65536 ->
  match keep_output cfg p out s with
  | inl s' => forall n, Goes h n (inr s')
  | inr s' => Kept h p q s out s'
  end.
Proof.
  intros H He Ed Hs Hd Hout. unfold keep_output. pose proof (sound_held _ _ _ H) as Hh.
  pose proof (held_cells _ _ _ _ _ Hh) as Hx.
  destruct (_ =? 0) eqn:E; to_prop.
  { constructor; try done. unfold with_output. by rewrite E. }
  assert (0 < Z.of_nat (length out)) as Hpos by lia.
  pose proof (allocate_spec h (p :: q) (recv s) _ Hh (conj Hpos Hout)) as Ha.
  destruct (AllocateOutput cfg _ (recv s)) as [ok r1]. destruct ok; cbn [negb].
  2: { intros n. apply (goes_request h n (p :: q)); [by eapply sound_quiet|]. intros _.
       cbn. rewrite (quiet_rx _ _ p Ha). unfold Waits. by rewrite Hd. }
  destruct Ha as (c & r0 & Hq & -> & Hlim). cbn zeta.
  destruct (_ <? _).
  { intros n. by apply (goes_unkept h n p q). }
  set (f := fun c => set_DecompressedTcpBytes_ _ c). set (s1 := count f _).
  assert (rx p (recv s1) = rx p (recv s)) as Hx1 by apply (quiet_rx _ _ p Hq).
  unfold ReservePressure. destruct (_ || _) eqn:Er; cbn [negb].
  { intros n. by apply (goes_unkept h n p q PressureFailure s r0 c out H He Hd Hq Hlim f). }
  apply orb_false_iff in Er as [_ Er]. to_prop.
  assert (QuicToTcpPressureBytes (ledger (recv s1)) = QuicToTcpPressureBytes (ledger (recv s))) as Hp1.
  { cbn. by rewrite (q_ledger _ _ Hq). }
  set (s3 := set_recv (on_ledger _ (recv s1)) s1).
  set (x2 := with_output out (rx p (recv s))). set (r4 := on_rx (fun _ => x2) p (recv s3)).
  assert (RxOk x2 /\ RemainingBytes x2 = RemainingBytes (rx p (recv s)) /\
          Rx.DeferredOutputBytes x2 = Z.of_nat (length out) /\ Rx.TcpWriteSubmitted x2 = false)
    as (Y1 & Y2 & Y3 & Y4).
  { unfold x2, with_output. rewrite (proj2 (Z.eqb_neq _ _)), Hd by done. split_and!; try done.
    destruct Hx. constructor; try done. cbn. unfold bytes_in in *. rewrite sum_app, sum_one, <- rx_deferred, Hd. done. }
  assert (on_recv (UpdateBackpressure cfg) (on_recv (on_rx (fun x =>
            Rx.set_DeferredOutputOwners (Rx.DeferredOutputOwners x ++ [out])
              (Rx.set_DeferredOutputBytes (Rx.DeferredOutputBytes x + Z.of_nat (length out)) x)) p) s3) =
          set_recv (UpdateBackpressure cfg r4) s3) as ->.
  { unfold r4, x2, with_output. rewrite (proj2 (Z.eqb_neq _ _)) by done. rewrite <- Hx1. done. }
  assert (rx p r4 = x2 /\ forall z, p <> z -> rx z r4 = rx z (recv s)) as [Hx4 Hne4].
  { split; [apply rx_on_rx|]. intros z Hz. unfold r4. rewrite rx_on_rx_ne by done. apply (quiet_rx _ _ z Hq). }
  assert (Held cfg h (p :: q) r4) as Hh4.
  { pose proof (h_writes _ _ _ _ Hh) as HW. cbn in HW. rewrite Hs in HW.
    destruct (h_books _ _ _ _ Hh) as [K1 K2 K3 K4 K5 K6 K7 K8 K9 K10 K11 K12 K13].
    assert (flow r4 = flow (recv s)) as Hf4 by apply (q_flow _ _ Hq).
    assert (lost (log r4) = lost (log (recv s)) /\ OtherQuicToTcp (log r4) = OtherQuicToTcp (log (recv s)))
      as [Hl4 Ho4] by (split; apply Hq).
    apply (touch_held cfg h h p q (recv s) r4 x2); try done; unfold shift;
      rewrite ?Hf4, ?Hl4, ?Ho4, ?Y2, ?Y3, ?Y4, ?Hd; cbn; rewrite ?(q_ledger _ _ Hq); try done; try lia.
    - unfold same_links. cbn. by rewrite (q_queue _ _ Hq).
    - intros Ed'. congruence. }
  assert (same_books r4 (UpdateBackpressure cfg r4)) as Hbk by apply books_backpressure.
  destruct (backpressure_streams (cfg:=cfg) r4) as (B1 & B2 & _).
  constructor; cbn [recv set_recv]; try done.
  - by eapply held_ext.
  - by rewrite (same_books_rx _ _ p Hbk).
  - intros z Hz. rewrite (same_books_rx _ _ z Hbk). by apply Hne4.
  - etrans; [|apply Hbk]. unfold same_links. cbn. by rewrite (q_queue _ _ Hq).
  - destruct Hbk as (_ & _ & -> & _). cbn. by rewrite (q_ledger _ _ Hq).
  - rewrite B1. apply (q_streams _ _ Hq).
  - intros Hr. apply B2. by apply (q_refused _ _ Hq).
  - intros Hfl. apply backpressure_paces. unfold Flag in *. cbn. by rewrite (q_flow _ _ Hq), (q_disabled _ _ Hq), (q_lost _ _ Hq).
Qed.

Lemma advance_with_output n out x : AdvanceInput n (with_output out x) = with_output out (AdvanceInput n x).
Proof.
  unfold AdvanceInput, with_output. destruct (_ =? 0); [done|]. cbn -[advance drop]. by destruct (advance _ _ _ _).
Qed.

Lemma with_output_fields out x :
  let y := with_output out x in
  Rx.Slices y = Rx.Slices x /\ Rx.CompletedBytes y = Rx.CompletedBytes x /\
  Rx.TotalBytes y = Rx.TotalBytes x /\ Rx.CompletionPendingBytes y = Rx.CompletionPendingBytes x /\
  Rx.CompletionRetryCount y = Rx.CompletionRetryCount x /\
  Rx.TcpWriteSubmitted y = Rx.TcpWriteSubmitted x /\
  Rx.DeferredOutputBytes y = Rx.DeferredOutputBytes x + Z.of_nat (length out).
Proof. unfold with_output. destruct (_ =? 0) eqn:E; to_prop; split_and!; try done. lia. Qed.

Lemma same_cursor x y :
  Rx.Slices y = Rx.Slices x -> Rx.SliceIndex y = Rx.SliceIndex x -> Rx.SliceOffset y = Rx.SliceOffset x ->
  (Cursor x -> Cursor y) /\ position y = position x /\ unread y = unread x.
Proof. intros H1 H2 H3. unfold Cursor, unread, position. by rewrite H1, H2, H3. Qed.

Lemma sound_term h q s s' : Sound h q s -> term s' = term s -> recv s' = recv s -> Sound h q s'.
Proof.
  intros [Ha Hre Hr] Ht Hrv. assert (ended s' = ended s /\ doomed s' = doomed s) as [He Hd].
  { unfold doomed, ended. by rewrite Ht. }
  constructor; [by rewrite Ht|by rewrite Ht, Hrv|]. by rewrite He, Hd, Hrv.
Qed.

Section Consume.
  Context (h : Z) (p : nat) (q : list nat) (s0 : State) (b : Budget) (result : Inflation).
  Context (H : Sound h (p :: q) s0) (He : ended s0 = false) (Ed : Decompressing cfg = true).
  Local Abbreviation x := (rx p (recv s0)).
  Context (Hs : Rx.TcpWriteSubmitted x = false) (H0 : Rx.CompletionPendingBytes x = 0).
  Context (Hd : Rx.DeferredOutputBytes x = 0).
  Local Abbreviation n := (InputConsumed result).
  Local Abbreviation out := (Output result).
  Local Abbreviation input := (next_input cfg b x).
  Context (Hn : (n <= length input)%nat).

(** The front after a call: its cursor has moved and it keeps the output. *)
Lemma rel_inflated r' y :
  Held cfg h (p :: q) r' -> Posted (queue r') = Posted (queue (recv s0)) -> (forall z, z <> p -> rx z r' = rx z (recv s0)) ->
  streams (log r') = (admitted (log (recv s0)), taken (log (recv s0)) ++ take n input,
    output (log (recv s0)) ++ out, written (log (recv s0)) ++ [],
    inflated (log (recv s0)) ++ [(take n input, out)]) ->
  (Flag cfg (recv s0) -> Flag cfg r') ->
  rx p r' = y -> Cursor y -> Z.of_nat (position y) = Rx.CompletedBytes y + Rx.CompletionPendingBytes y ->
  unread x = take n input ++ unread y ->
  Rx.DeferredOutputOwners y = Rx.DeferredOutputOwners (with_output out x) ->
  (Rx.CompletionPendingBytes y <> 0 -> refused (log r') = true) ->
  Sound h (p :: q) (set_recv r' s0).
Proof.
  intros Hh' Hl Hne Hst Hfl Hy Hcu Hpos Hun Hown Href.
  pose proof (held_cells _ _ _ _ _ (sound_held _ _ _ H)) as Hx.
  destruct (r_steady _ _ _ _ _ _ (so_rel _ _ _ _ H) He) as [Hs0 _].
  pose proof (no_outputs _ _ Hx Hs0 Hd) as Hno.
  assert (Rx.DeferredOutputOwners y = if Z.of_nat (length out) =? 0 then [] else [out]) as Ho.
  { rewrite Hown. unfold with_output. destruct (_ =? 0); cbn; by rewrite Hno. }
  assert (concat (Rx.DeferredOutputOwners y) = out) as Hoc.
  { rewrite Ho. destruct (_ =? 0) eqn:E; to_prop; cbn; [|by rewrite app_nil_r]. symmetry. apply length_zero_iff_nil. lia. }
  apply (sound_recv h h (p :: q) (p :: q) s0 r' H); [apply not_emptied|]. intros Hr. rewrite He in *.
  apply (rel_front false (doomed s0) false (doomed s0) h h p q (recv s0) r' (take n input) out []
           [(take n input, out)]); try done.
  - by rewrite Ed.
  - intros _. cbn. by rewrite !app_nil_r.
  - intros _. split_and!; [done| |cbn; by rewrite Hy, Hoc, Hno].
    rewrite Hy. constructor; try done; [by rewrite Ed|rewrite Ho; destruct (_ =? 0); cbn; lia|].
    rewrite Ho. destruct (_ =? 0) eqn:E; to_prop; [done|]. repeat constructor. intros E0. by rewrite E0 in E.
  - intros Hdo. split_and!; try done; [|cbn; by rewrite Hy, Hoc, Hno]. unfold front_unread. by rewrite Ed, Hy.
Qed.

Context (s : State) (Hk : Kept h p q s0 out s).

Lemma consume_spec :
  match consume_input p input result s with
  | inl m => forall at_ b', in_budget b' -> Goes h (fuel cfg (at_, b', s0)) m
  | inr s' =>
      Sound h (p :: q) s' /\ ended s' = false /\ Rx.TcpWriteSubmitted (rx p (recv s')) = false /\
      Rx.CompletionPendingBytes (rx p (recv s')) = 0 /\
      Rx.DeferredOutputBytes (rx p (recv s')) = Z.of_nat (length out) /\
      RemainingBytes (rx p (recv s')) = RemainingBytes x - Z.of_nat n /\
      weight (recv s') <= weight (recv s0)
  end.
Proof.
  pose proof (held_cells _ _ _ _ _ (sound_held _ _ _ H)) as Hx.
  destruct (r_steady _ _ _ _ _ _ (so_rel _ _ _ _ H) He) as [Hst _].
  destruct Hk as [K1 K2 K3 K4 K5 K6 K7 K8 K9].
  destruct (input_consumed _ b x n Hx Hst Ed H0 Hn) as (A1 & A2 & A3 & A4 & A5).
  destruct (with_output_fields out x) as (W1 & W2 & W3 & W4 & W5 & W6 & W7).
  set (a := AdvanceInput n x) in *.
  set (x1 := Rx.set_SliceIndex (Rx.SliceIndex a) (Rx.set_SliceOffset (Rx.SliceOffset a) (with_output out x))).
  assert (AdvanceInput n (rx p (recv s)) = x1) as Hx1.
  { rewrite K2, advance_with_output. fold a. rewrite A1. unfold x1, with_output. by destruct (_ =? 0). }
  assert (Rx.Slices a = Rx.Slices x) as Hsl by (by rewrite A1).
  destruct (same_cursor a x1) as (C1 & C2 & C3); [cbn; congruence|done|done|]. specialize (C1 A2).
  assert (RxOk x1) as Hok1.
  { pose proof (held_cells _ _ _ _ _ K1) as Hz. rewrite K2 in Hz. destruct Hz. by constructor. }
  assert (RemainingBytes x1 = RemainingBytes x) as Hrem.
  { unfold RemainingBytes, x1. cbn -[Z.leb Z.sub]. by rewrite W2, W3. }
  set (t := take n input) in *. clearbody a.
  set (ra := on_log (log_inflation t out) (on_rx (fun _ => x1) p (recv s))).
  assert (Held cfg h (p :: q) ra) as Hha.
  { apply (held_ext cfg h (p :: q) (on_rx (fun _ => x1) p (recv s))); [|by split_and!].
    apply held_touch; try done; by rewrite K2. }
  assert (rx p ra = x1 /\ forall z, z <> p -> rx z ra = rx z (recv s0)) as [Hxa Hna].
  { split; [apply rx_on_rx|]. intros z Hz. rewrite <- K3 by done. by apply rx_on_rx_ne. }
  assert (same_links (recv s0) ra) as Hla by exact K4.
  assert (streams (log ra) = (admitted (log (recv s0)), taken (log (recv s0)) ++ t,
            output (log (recv s0)) ++ out, written (log (recv s0)) ++ [],
            inflated (log (recv s0)) ++ [(t, out)])) as Hsa.
  { unfold streams in K6. injection K6 as E1 E2 E3 E4 E5. unfold streams, ra. cbn.
    by rewrite E1, E2, E3, E4, E5, app_nil_r. }
  assert (Flag cfg (recv s0) -> Flag cfg ra) as Hfa by exact K8.
  assert (refused (log (recv s0)) = true -> refused (log ra) = true) as Hra by exact K7.
  assert (weight ra = weight (recv s0)) as Hwa.
  { assert (PendingQuicReceiveBytes (ledger ra) = PendingQuicReceiveBytes (ledger (recv s0))) as Hp by exact K5.
    unfold weight, work, retries_left. rewrite (same_links_receives _ _ Hla), (same_links_front _ _ Hla), Hp.
    destruct (FrontReceive (recv s0)) as [y|]; [|done]. destruct (decide (y = p)) as [-> |Hyp].
    - rewrite Hxa. unfold x1. cbn -[Z.leb]. by rewrite W5.
    - by rewrite Hna. }
  unfold consume_input. cbn zeta.
  assert (on_recv (on_log (log_inflation (take n input) out)) (on_recv (on_rx (AdvanceInput n) p) s) =
          set_recv ra s) as ->.
  { unfold ra. by rewrite <- Hx1. }
  destruct (_ =? 0) eqn:En; to_prop.
  - (* nothing was consumed *)
    assert (Sound h (p :: q) (set_recv ra s0)) as H1.
    { apply (rel_inflated ra x1); try done.
      - apply Hla.
      - rewrite C2, A3. unfold x1. cbn. rewrite W2, W4, H0. lia.
      - by rewrite C3.
      - unfold x1. cbn. by rewrite W4, H0. }
    split_and!; [by eapply sound_term; [exact H1| |]|unfold ended; cbn; by rewrite K9|..];
      change (recv (set_recv ra s)) with ra; rewrite ?Hxa, ?Hrem; try lia;
      unfold x1; cbn -[weight]; rewrite ?W4, ?W6, ?W7, ?Hd; done.
  - set (k := Z.of_nat n) in *. set (x2 := Rx.set_CompletionPendingBytes k x1).
    set (rb := on_rx (Rx.set_CompletionPendingBytes k) p ra).
    change (on_recv (on_rx (Rx.set_CompletionPendingBytes k) p) (set_recv ra s)) with (set_recv rb s).
    change (recv (set_recv rb s)) with rb.
    assert (0 < k <= RemainingBytes x1) as Hk1 by (unfold k in *; lia).
    assert (rx p rb = x2) as Hxb by (unfold rb; by rewrite rx_on_rx, Hxa).
    assert (RxOk x2) as Hok2 by (apply rx_ok_pending; [done|unfold x1; cbn; congruence|lia]).
    assert (Held cfg h (p :: q) rb) as Hhb.
    { apply (held_touch cfg h p q ra (Rx.set_CompletionPendingBytes k (rx p ra))); try done; by rewrite Hxa. }
    assert (forall z, z <> p -> rx z rb = rx z (recv s0)) as Hnb.
    { intros z Hz. unfold rb. rewrite rx_on_rx_ne by done. by apply Hna. }
    assert (weight rb = weight (recv s0)) as Hwb.
    { rewrite <- Hwa. apply weight_same; try done. intros z.
      destruct (decide (p = z)) as [<-|Hz]; [by rewrite Hxb, Hxa|]. unfold rb. by rewrite rx_on_rx_ne. }
    assert (Z.of_nat (position x1) = Rx.CompletedBytes x + k) as Hpos by (rewrite C2; exact A3).
    destruct (complete_spec p k rb) as (r1 & Hq & [[-> Hr1]| -> ]);
      [by rewrite Hxb|rewrite Hxb; change (RemainingBytes x2) with (RemainingBytes x1); lia|..]; cbn [negb].
    + intros at_ b' Hb'. rewrite <- (fuel_same at_ b' s0 (set_recv (snd (false, r1)) (set_recv rb s))).
      2: { cbn [recv set_recv snd]. rewrite <- Hwb. apply weight_books, quiet_books, Hq. }
      assert (rx p r1 = x2) as Hx1' by (by rewrite (quiet_rx _ _ p Hq)).
      assert (Sound h (p :: q) (set_recv r1 s0)) as H1.
      { apply (rel_inflated r1 x2); try done.
        - eapply held_ext; [exact Hhb|by apply quiet_books].
        - rewrite (q_queue _ _ Hq). apply Hla.
        - intros z Hz. rewrite (quiet_rx _ _ z Hq). by apply Hnb.
        - rewrite (q_streams _ _ Hq). exact Hsa.
        - intros Hf. specialize (Hfa Hf). unfold Flag in *. by rewrite (q_flow _ _ Hq), (q_disabled _ _ Hq), (q_lost _ _ Hq).
        - change (position x2) with (position x1). unfold x2, x1. cbn [Rx.CompletedBytes Rx.CompletionPendingBytes
            Rx.set_CompletionPendingBytes Rx.set_SliceIndex Rx.set_SliceOffset]. rewrite W2. exact Hpos.
        - change (unread x2) with (unread x1). by rewrite C3. }
      apply (goes_retry h p q); try done.
      * by eapply sound_term; [exact H1| |].
      * constructor.
        -- intros _. cbn. rewrite Hx1'. intros _. split; [unfold x2, x1; cbn; congruence|]. unfold x2. cbn. lia.
        -- intros _ E. cbn in E. congruence.
    + set (y := Rx.set_CompletionPendingBytes 0 (Rx.set_CompletionRetryCount 0 (complete k x2))).
      assert (on_rx (fun x => Rx.set_CompletionPendingBytes 0 (Rx.set_CompletionRetryCount 0 x)) p
                (on_rx (complete k) p r1) = on_rx (fun _ => y) p r1) as Heq.
      { rewrite on_rx_compose. unfold y. rewrite <- Hxb, <- (quiet_rx _ _ p Hq). done. }
      set (r5 := release_completed k (on_rx (fun _ => y) p r1)).
      assert (on_recv (release_completed k) (on_recv (on_rx (fun x => Rx.set_CompletionPendingBytes 0
                (Rx.set_CompletionRetryCount 0 x)) p) (set_recv (on_rx (complete k) p r1) (set_recv rb s))) =
              set_recv r5 s) as -> by (unfold r5; by rewrite <- Heq).
      destruct (rx_ok_complete x2 k 0 0 Hok2) as (Y1 & Y2 & Y3 & Y4);
        [exact Hk1|done|done|].
      fold y in Y1, Y2, Y3, Y4.
      destruct (completed_part (cfg:=cfg) h p q rb r1 k y) as (D1 & D2 & D3 & D4 & D5 & D6 & D7); rewrite ?Hxb; try done.
      { lia. }
      { unfold x2, x1. cbn. congruence. }
      { rewrite Y4. unfold x2, x1. cbn. congruence. }
      fold r5 in D1, D2, D3, D4, D5, D6, D7.
      assert (y = Rx.set_CompletionPendingBytes 0 (Rx.set_CompletionRetryCount 0
                (Rx.set_Settled (Rx.CompletedBytes x2 + k =? Rx.TotalBytes x2)
                  (Rx.set_CompletedBytes (Rx.CompletedBytes x2 + k) x2)))) as Hy.
      { unfold y. rewrite complete_fields; [done|done|exact Hk1]. }
      assert (Sound h (p :: q) (set_recv r5 s0)) as H1.
      { apply (rel_inflated r5 y); try done.
        - rewrite D4. apply Hla.
        - intros z Hz. rewrite D3 by done. by apply Hnb.
        - rewrite D6, (q_streams _ _ Hq). exact Hsa.
        - intros Hf. specialize (Hfa Hf). unfold Flag in *. by rewrite D5, D6, (q_disabled _ _ Hq), (q_lost _ _ Hq).
        - rewrite Hy. exact C1.
        - rewrite Hy. etrans; [exact Hpos|]. unfold x2, x1.
          cbn [Rx.CompletedBytes Rx.CompletionPendingBytes Rx.set_CompletionPendingBytes Rx.set_CompletedBytes
            Rx.set_Settled Rx.set_CompletionRetryCount Rx.set_SliceIndex Rx.set_SliceOffset].
          rewrite W2. lia.
        - rewrite Hy. change (unread _) with (unread x1) at 2. by rewrite C3.
        - by rewrite Hy. }
      split_and!; [by eapply sound_term; [exact H1| |]|unfold ended; cbn; by rewrite K9|..];
        change (recv (set_recv r5 s)) with r5; rewrite ?D2.
      * rewrite Y4. unfold x2, x1. cbn. congruence.
      * done.
      * rewrite Y3. unfold x2, x1. cbn. lia.
      * rewrite Y2. change (RemainingBytes x2) with (RemainingBytes x1). by rewrite Hrem.
      * rewrite <- Hwb. apply Z.lt_le_incl. eapply weight_less; [exact Hhb|exact D1|]. lia.
Qed.

End Consume.

(** *** Draining *)

(** A receive the relay no longer has is nobody's business. *)
Lemma held_outside h q r p f :
  Held cfg h q r -> p ∉ q ++ waiting r -> Held cfg h q (on_rx f p r).
Proof.
  intros [Hs Hc Hf Hw Hp Hb] Hn. apply not_elem_of_app in Hn as [Hn1 Hn2].
  assert (forall y, y ∈ q \/ y ∈ waiting r -> rx y (on_rx f p r) = rx y r) as Hrx.
  { intros y Hy. apply rx_on_rx_ne. intros ->. tauto. }
  assert (forall l (P : Rx.t -> Prop), (forall y, y ∈ l -> y ∈ q \/ y ∈ waiting r) ->
            Forall (fun p => P (rx p r)) l -> Forall (fun y => P (rx y (on_rx f p r))) l) as Hall.
  { intros l P Hl HF. rewrite list.Forall_forall in *. intros y Hy. rewrite Hrx by auto. by apply HF. }
  destruct (sums_ext r (on_rx f p r) q) as [S1 S2]; [auto|].
  destruct (sums_ext r (on_rx f p r) (waiting r)) as [S3 _]; [auto|].
  constructor.
  - by eapply shape_links.
  - apply (Hall q RxOk); auto.
  - apply (Hall _ Fresh); [|done]. intros y. rewrite elem_of_app. intros [Hy|Hy]; [|auto].
    left. destruct q; [by apply elem_of_nil in Hy|]. by right.
  - unfold Writes in *. destruct q as [|y q]; [done|]. rewrite Hrx by (left; left). done.
  - destruct q as [|y q]; [done|]. rewrite Hrx by (left; left). done.
  - destruct Hb. constructor; change (waiting (on_rx f p r)) with (waiting r); rewrite ?S1, ?S2, ?S3; done.
Qed.

Lemma sound_outside h q s p f :
  Sound h q s -> p ∉ q ++ waiting (recv s) -> Sound h q (on_recv (on_rx f p) s).
Proof.
  intros H Hn. apply (sound_recv h h q q s _ H); [done|]. intros [Hh Hs Hf Hl].
  assert (forall y, y ∈ q -> rx y (on_rx f p (recv s)) = rx y (recv s)) as Hrx.
  { intros y Hy. apply rx_on_rx_ne. intros ->. apply Hn, elem_of_app. by left. }
  assert (queued cfg q (on_rx f p (recv s)) = queued cfg q (recv s) /\
          pent q (on_rx f p (recv s)) = pent q (recv s)) as [Hq Hpe].
  { destruct q as [|y q]; [done|]. cbn. rewrite Hrx by left. split; [|done]. f_equal.
    apply contents_ext. intros z Hz. apply Hrx. by right. }
  constructor; [by apply held_outside| | |by destruct Hl].
  - intros He. destruct (Hs He) as [H1 H2]. rewrite Hpe. split; [|done].
    destruct q as [|y q]; [done|]. by rewrite Hrx by left.
  - intros Hd. destruct (Hf Hd) as [F1 F2 F3]. constructor; rewrite ?Hq, ?Hpe; try done.
    cbn. rewrite F1. do 2 f_equal. symmetry. apply contents_ext. intros y Hy. apply rx_on_rx_ne.
    intros ->. apply Hn, elem_of_app. right. apply elem_of_app. by left.
Qed.

Lemma pop_on_rx f p r :
  (forall x, Rx.Fin (f x) = Rx.Fin x) -> pop p (on_rx f p r) = (fst (pop p r), on_rx f p (snd (pop p r))).
Proof.
  intros Hf. unfold pop. cbn [queue on_rx on_queue set_queue PrecommitReceives set_Store FallbackReceiveHead].
  assert (forall r1 r2 : Recv, r1 = on_rx f p r2 ->
    (Rx.Fin (rx p r1), if Rx.Fin (rx p r1) then on_flow (set_QuicFinObserved true) r1 else r1) =
    (Rx.Fin (rx p r2), on_rx f p (if Rx.Fin (rx p r2) then on_flow (set_QuicFinObserved true) r2 else r2)))
    as Hfin.
  { intros r1 r2 ->. rewrite rx_on_rx, Hf. by destruct (Rx.Fin (rx p r2)). }
  assert (on_queue (unlink_fallback p) (on_rx f p r) = on_rx f p (on_queue (unlink_fallback p) r)) as Hu.
  { unfold unlink_fallback, on_rx, on_queue. cbn. by destruct (bool_decide _). }
  destruct (PrecommitReceives (queue r)) as [|y l];
    [|destruct (y =? p)%nat]; try destruct (bool_decide _); cbn [fst snd]; try done; by apply Hfin.
Qed.

(** A drained receive goes: all of it was consumed, so it is settled. *)
Lemma pop_drained h p q s :
  Sound h (p :: q) s -> ended s = false -> Decompressing cfg = true -> done_with (rx p (recv s)) ->
  Rx.CompletionPendingBytes (rx p (recv s)) = 0 ->
  let f := Rx.set_DecompressionDrained true in
  Popped h p q (f (rx p (recv s))) s (PopReceive p (on_recv (on_rx f p) s)).
Proof.
  intros H He Ed Hd H0. cbn zeta. set (f := Rx.set_DecompressionDrained true).
  pose proof (sound_held _ _ _ H) as Hh. pose proof (held_cells _ _ _ _ _ Hh) as Hx.
  destruct (r_steady _ _ _ _ _ _ (so_rel _ _ _ _ H) He) as [Hst _].
  destruct (s_inflate _ _ _ Hst Ed) as [Hc Hpos]. pose proof Hd as (D1 & D2 & D3).
  rewrite (remaining_ok _ Hx), (rx_total _ Hx), bytes_in_concat in D1.
  destruct (sound_popped h p q s H Hd) as (H1 & _ & _ & H3 & H4 & H5).
  { intros _. unfold front_unread, unread. rewrite Ed. apply drop_ge. lia. }
  { intros _. by eapply no_outputs. }
  destruct (pop_queue p q _ (h_shape _ _ _ _ Hh)) as (_ & _ & Hw & _).
  pose proof (nodup_front _ _ _ (h_shape _ _ _ _ Hh)) as Hn.
  pose proof (h_fresh _ _ _ _ Hh) as Hf. cbn [list.tail] in Hf. apply Forall_app in Hf as [Hf _].
  unfold PopReceive, Pop_body. change (recv (on_recv (on_rx f p) s)) with (on_rx f p (recv s)).
  rewrite pop_on_rx by done. destruct (pop p (recv s)) as [fin r]. cbn [fst snd] in *.
  assert (Sound h q (on_recv (on_rx f p) (set_recv r s))) as H2.
  { apply sound_outside; [done|]. cbn. by rewrite Hw. }
  assert (forall y, y <> p -> rx y (on_rx f p r) = rx y (recv s)) as Hrx.
  { intros y Hy. rewrite rx_on_rx_ne by done. unfold rx. by rewrite H3. }
  apply not_elem_of_app in Hn as [Hn _].
  destruct (sound_checked h q (on_recv (on_rx f p) (set_recv r s)) fin H2) as (q' & S1 & S2 & S3 & S4 & S5).
  { rewrite list.Forall_forall in *. intros y Hy. cbn. rewrite Hrx; [by apply Hf|]. by intros ->. }
  cbn [recv set_recv on_recv] in S3, S4, S5. change (ledger (on_rx f p r)) with (ledger r) in *.
  change (log (on_rx f p r)) with (log r) in *. rewrite H4 in S3, S5. rewrite H5 in S5.
  exists q'. split_and!; try done. etrans; [by apply (S4 p Hn)|]. rewrite rx_on_rx. unfold rx. by rewrite H3.
Qed.

Lemma goes_after_inflate h p q b n s :
  Sound h q s -> Rested cfg q s -> in_budget b -> Rx.DecompressionDrained (rx p (recv s)) = true ->
  fuel cfg (Outer, b, s) < n -> Goes h n (after_inflate cfg p b s).
Proof.
  intros H Hre Hb Hd Hn. unfold after_inflate. rewrite Hd. destruct (_ && _).
  - by apply (goes_continuation h n q).
  - exists q. by split.
Qed.

(** *** The end of a turn *)

Lemma fuel_points b s p : fuel cfg (Inflate p, b, s) < fuel cfg (Outer, b, s).
Proof. unfold fuel. lia. Qed.

Lemma goes_end h p q b n s :
  Sound h (p :: q) s -> ended s = false -> Decompressing cfg = true -> in_budget b ->
  Rx.TcpWriteSubmitted (rx p (recv s)) = false -> Rx.CompletionPendingBytes (rx p (recv s)) = 0 ->
  fuel cfg (Outer, b, s) < n -> Goes h n (inflate_end cfg p b s).
Proof.
  intros H He Ed Hb Hs H0 Hn. unfold inflate_end. pose proof (fuel_points b s p) as Hfp.
  pose proof (held_cells _ _ _ _ _ (sound_held _ _ _ H)) as Hx.
  rewrite (rx_drained _ Hx), andb_false_r. cbn zeta.
  pose proof (sound_backpressure _ _ _ H) as H1. pose proof (pace_backpressure _ _ _ H) as Hp.
  assert (rx p (recv (on_recv (UpdateBackpressure cfg) s)) = rx p (recv s)) as Hx1
    by apply (same_books_rx _ _ p (books_backpressure cfg (recv s))).
  assert (weight (recv (on_recv (UpdateBackpressure cfg) s)) = weight (recv s)) as Hwt
    by apply (weight_books _ _ (books_backpressure cfg (recv s))).
  rewrite Hx1. destruct (_ =? 0) eqn:E; to_prop.
  - rewrite (rx_drained _ Hx).
    assert (Rested cfg (p :: q) (on_recv (UpdateBackpressure cfg) s)) as Hre.
    { apply (rested_backpressure h (p :: q) s H). intros _. unfold Waits. by rewrite E. }
    destruct (budgetExhausted _ _); [by apply (goes_continuation h n (p :: q))|].
    exists (p :: q). split; [|rewrite (fuel_same _ _ _ _ Hwt); lia].
    refine (conj H1 (conj Hre (conj Hb _))). rewrite Hx1. split_and!; [by exists q|done..].
  - apply (goes_write_deferred h n p q); rewrite ?Hx1; done.
Qed.

Lemma goes_end_drained h p q b n s :
  Sound h (p :: q) s -> ended s = false -> Decompressing cfg = true -> in_budget b ->
  done_with (rx p (recv s)) -> Rx.CompletionPendingBytes (rx p (recv s)) = 0 ->
  (forall at_ b' s', in_budget b' -> weight (recv s') < weight (recv s) -> fuel cfg (at_, b', s') < n) ->
  Goes h n (inflate_end cfg p b (on_recv (on_rx (Rx.set_DecompressionDrained true) p) s)).
Proof.
  intros H He Ed Hb Hd H0 Hn. unfold inflate_end. pose proof (sound_held _ _ _ H) as Hh.
  pose proof (held_cells _ _ _ _ _ Hh) as Hx. pose proof Hd as (D1 & D2 & D3).
  destruct (pop_drained h p q s H He Ed Hd H0) as (q' & P1 & P2 & P3 & P4 & P5).
  set (s1 := on_recv (on_rx (Rx.set_DecompressionDrained true) p) s) in *.
  assert (rx p (recv s1) = Rx.set_DecompressionDrained true (rx p (recv s))) as -> by apply rx_on_rx.
  cbn [Rx.Settled Rx.DecompressionDrained Rx.set_DecompressionDrained].
  rewrite (done_fields _ Hx D1). cbn [andb]. cbn zeta.
  set (s2 := PopReceive p s1) in *. set (s3 := on_recv (UpdateBackpressure cfg) s2).
  assert (rx p (recv s3) = Rx.set_DecompressionDrained true (rx p (recv s))) as Hx3.
  { rewrite <- P4. apply (same_books_rx _ _ p (books_backpressure cfg (recv s2))). }
  rewrite Hx3. cbn [Rx.DeferredOutputBytes Rx.DecompressionDrained Rx.set_DecompressionDrained].
  rewrite D2. cbn [Z.eqb]. apply (goes_after_inflate h p q'); try done.
  - by apply sound_backpressure.
  - apply (rested_backpressure h q' s2 P1). intros He'. destruct P5 as [?|(_ & _ & Hf & _)]; [congruence|].
    destruct q' as [|y q']; [done|]. apply list.Forall_cons in Hf as [[-> _ _ _] _]. done.
  - by rewrite Hx3.
  - apply Hn; [done|]. unfold s3. cbn [recv on_recv set_recv].
    rewrite (weight_books _ _ (books_backpressure cfg (recv s2))).
    eapply weight_less; [exact Hh|by apply sound_held|]. apply suffix_length in P2. cbn. lia.
Qed.

(** *** A call *)

Lemma spend_in_budget k b :
  in_budget b -> decompressionCalls b < callBudget cfg -> in_budget (spend k b).
Proof. unfold in_budget, spend. cbn. lia. Qed.

Lemma fuel_spent k at_ p b s s' :
  in_budget b -> weight (recv s') <= weight (recv s) ->
  fuel cfg (at_, spend k b, s') < fuel cfg (Inflate p, b, s).
Proof.
  unfold in_budget, fuel, spend. cbn [decompressionCalls]. fold (weight (recv s)) (weight (recv s')).
  pose proof callBudget_pos. intros.
  assert (weight (recv s') * (callBudget cfg + 1) <= weight (recv s) * (callBudget cfg + 1)) by nia.
  destruct at_; lia.
Qed.

Lemma sound_count f h q s :
  Sound h q s -> Sound h q (count f s) /\ (forall p, rx p (recv (count f s)) = rx p (recv s)) /\
                 weight (recv (count f s)) = weight (recv s).
Proof.
  intros H. split_and!; [|done|apply weight_books, books_counters].
  apply (sound_recv h h q q s _ H); [done|]. intros Hr. by apply (rel_same _ _ h q (recv s)).
Qed.

(** The decompressor's answer. *)
Lemma goes_answer h p q b s result :
  Sound h (p :: q) s -> in_budget b -> decompressionCalls b < callBudget cfg ->
  ended s = false -> Decompressing cfg = true -> Rx.TcpWriteSubmitted (rx p (recv s)) = false ->
  Rx.CompletionPendingBytes (rx p (recv s)) = 0 -> Rx.DeferredOutputBytes (rx p (recv s)) = 0 ->
  let input := next_input cfg b (rx p (recv s)) in
  (InputConsumed result <= length input)%nat ->
  Z.of_nat (length (Output result)) <= Z.max (Z.of_nat (length input)) 65536 ->
  let idle := (InputConsumed result =? 0)%nat && (length (Output result) =? 0)%nat in
  Goes h (fuel cfg (Inflate p, b, s))
    match keep_output cfg p (Output result) s with
    | inl s => inr s
    | inr s1 =>
        match consume_input p input result s1 with
        | inl next => next
        | inr s2 =>
            if idle && (has_input (rx p (recv s)) || negb (NeedsMoreInput result))
            then decompression_failed s2
            else inflate_end cfg p (spend (InputConsumed result) b)
                   (if idle then on_recv (on_rx (Rx.set_DecompressionDrained true) p) s2 else s2)
        end
    end.
Proof.
  intros H Hb Hcb He Ed Hs H0 Hd. cbn zeta. intros Hn Hout.
  pose proof (sound_held _ _ _ H) as Hh. pose proof (held_cells _ _ _ _ _ Hh) as Hx.
  destruct (r_steady _ _ _ _ _ _ (so_rel _ _ _ _ H) He) as [Hst _].
  assert (Z.of_nat (length (Output result)) <= Z.max (PrecommitMaxPendingBytes cfg) 65536) as Hlim.
  { destruct (input_consumed _ b _ _ Hx Hst Ed H0 (Nat.le_refl _)) as (_ & _ & _ & Hle & _).
    pose proof (held_bounds _ _ _ _ _ Hh) as Hbd. cbn zeta in Hbd.
    pose proof (k_limit _ _ _ _ (h_books _ _ _ _ Hh)). pose proof (k_lost _ _ _ _ (h_books _ _ _ _ Hh)).
    pose proof (writes_nonneg _ _ _ (h_writes _ _ _ _ Hh)). lia. }
  pose proof (keep_output_spec h p q s (Output result) H He Ed Hs Hd Hlim) as Hk.
  destruct (keep_output cfg p (Output result) s) as [s1|s1]; [apply Hk|].
  pose proof (consume_spec h p q s b result H He Ed Hs H0 Hd Hn s1 Hk) as Hc.
  destruct (consume_input p _ result s1) as [m|s2]; [by apply Hc|].
  destruct Hc as (C1 & C2 & C3 & C4 & C5 & C6 & C7).
  pose proof (spend_in_budget (InputConsumed result) b Hb Hcb) as Hb'.
  destruct ((InputConsumed result =? 0)%nat && (length (Output result) =? 0)%nat) eqn:Ei; cbn [andb].
  - apply andb_true_iff in Ei as [E1 E2]. apply Nat.eqb_eq in E1, E2. rewrite E2 in C5. rewrite E1 in C6.
    destruct (has_input _) eqn:Ehi; cbn [orb].
    { apply (goes_failed h _ (p :: q)); [done|]. intros _. unfold Waits. by rewrite C5. }
    destruct (negb _). { apply (goes_failed h _ (p :: q)); [done|]. intros _. unfold Waits. by rewrite C5. }
    destruct (s_inflate _ _ _ Hst Ed) as [Hcu Hpos]. pose proof (no_input _ Hcu Ehi) as Hend.
    apply (goes_end_drained h p q); try done.
    + split_and!; try done. rewrite C6, (remaining_ok _ Hx), (rx_total _ Hx), bytes_in_concat. lia.
    + intros at_ b' s' Hb'' Hlt. apply fuel_weight; try done. lia.
  - apply (goes_end h p q); try done. by apply fuel_spent.
Qed.

Lemma goes_call h p q b s :
  Sound h (p :: q) s -> Rested cfg (p :: q) s -> in_budget b -> decompressionCalls b < callBudget cfg ->
  ended s = false -> Decompressing cfg = true -> Rx.TcpWriteSubmitted (rx p (recv s)) = false ->
  Rx.CompletionPendingBytes (rx p (recv s)) = 0 -> Rx.DeferredOutputBytes (rx p (recv s)) = 0 ->
  Goes h (fuel cfg (Inflate p, b, s)) (inflate_call cfg p b s).
Proof.
  intros H Hre Hb Hcb He Ed Hs H0 Hd. unfold inflate_call. cbn zeta.
  pose proof (quiet_ask (recv s)) as Hq. destruct (ask_ok (recv s)) as [made r]. cbn [snd] in Hq.
  destruct (negb made).
  { apply (goes_request h _ (p :: q)); [by apply sound_quiet|].
    apply (re_waits _ _ _ (rested_quiet _ _ _ Hre Hq)). }
  assert (Quiet (recv s) (snd (ask_inflation r))) as Hq2 by (etrans; [exact Hq|by constructor]).
  change (recv (set_recv r s)) with r. destruct (ask_inflation r) as [result r2]. cbn [snd] in Hq2.
  set (f := fun c => set_ZstdDecompressCalls_ (u64 (ZstdDecompressCalls_ c + 1)) c).
  destruct (sound_count f h (p :: q) _ (sound_quiet _ _ _ _ H Hq2)) as (G1 & G2 & G3).
  assert (weight (recv (count f (set_recv r2 s))) = weight (recv s)) as G4.
  { rewrite G3. by apply weight_books, quiet_books. }
  assert (rx p (recv (count f (set_recv r2 s))) = rx p (recv s)) as G5.
  { rewrite G2. apply (quiet_rx _ _ p Hq2). }
  change (count f (set_recv r2 (set_recv r s))) with (count f (set_recv r2 s)).
  destruct (_ || _ || _) eqn:Ebad.
  { apply (goes_failed h _ (p :: q)); [done|]. intros _. unfold Waits. by rewrite G5, Hd. }
  apply orb_false_iff in Ebad as [Ebad Eout]. apply orb_false_iff in Ebad as [_ Ein].
  apply Nat.ltb_ge in Ein. to_prop. unfold count_inflation. set (g := fun c => _).
  destruct (sound_count g h (p :: q) _ G1) as (J1 & J2 & J3).
  set (s3 := count g (count f (set_recv r2 s))) in *.
  assert (rx p (recv s3) = rx p (recv s)) as J4 by (by rewrite J2).
  pose proof (goes_answer h p q b s3 result J1 Hb Hcb He Ed) as Hg. rewrite J4 in Hg.
  rewrite <- (fuel_same (Inflate p) b s s3) by (by rewrite J3). by apply Hg.
Qed.

Lemma goes_inflate h q p b s :
  Ready h q (Inflate p, b, s) -> Goes h (fuel cfg (Inflate p, b, s)) (inflate_step cfg p b s).
Proof.
  intros (H & Hre & Hb & [q' ->] & He & Ed & Hs & H0 & Hd). unfold inflate_step. cbn zeta.
  pose proof (held_cells _ _ _ _ _ (sound_held _ _ _ H)) as Hx.
  rewrite (rx_drained _ Hx), andb_false_r. destruct (_ || _) eqn:E.
  - by apply (goes_continuation h _ (p :: q')).
  - apply orb_false_iff in E as [E _]. to_prop. by apply (goes_call h p q').
Qed.

Lemma goes_step h q m : Ready h q m -> Goes h (fuel cfg m) (process_step cfg m).
Proof.
  destruct m as [[[|p] b] s]; [|apply goes_inflate]. intros (H & Hre & Hb & _). by apply (goes_outer h q).
Qed.

(** ** Termination *)

(** A machine that gets lighter at each step stops within its weight. *)
Lemma until_stops h n q m :
  Ready h q m -> fuel cfg m < Z.pos n ->
  exists s q', until (process_step cfg) n m = inr s /\ Stopped h q' s.
Proof.
  assert (forall n m q, Ready h q m ->
    match until (process_step cfg) n m with
    | inl m' => exists q', Ready h q' m' /\ fuel cfg m' <= fuel cfg m - Z.pos n
    | inr s => exists q', Stopped h q' s
    end) as Hu.
  { clear n q m. intros n. induction n as [n IH|n IH|]; intros m q H; cbn [until].
    - pose proof (goes_step h q m H) as Hs. destruct (process_step cfg m) as [m1|s1]; [|exact Hs].
      destruct Hs as (q1 & H1 & L1). pose proof (IH m1 q1 H1) as I1.
      destruct (until (process_step cfg) n m1) as [m2|s2]; [|exact I1].
      destruct I1 as (q2 & H2 & L2). pose proof (IH m2 q2 H2) as I2.
      destruct (until (process_step cfg) n m2) as [m3|s3]; [|exact I2].
      destruct I2 as (q3 & H3 & L3). exists q3. split; [done|lia].
    - pose proof (IH m q H) as I1. destruct (until (process_step cfg) n m) as [m2|s2]; [|exact I1].
      destruct I1 as (q2 & H2 & L2). pose proof (IH m2 q2 H2) as I2.
      destruct (until (process_step cfg) n m2) as [m3|s3]; [|exact I2].
      destruct I2 as (q3 & H3 & L3). exists q3. split; [done|lia].
    - pose proof (goes_step h q m H) as Hs. destruct (process_step cfg m) as [m1|s1]; [|exact Hs].
      destruct Hs as (q1 & H1 & L1). exists q1. split; [done|lia]. }
  intros H Hf. pose proof (Hu n m q H) as Hn.
  destruct (until (process_step cfg) n m) as [m'|s]; [|destruct Hn as [q' ?]; by exists s, q'].
  destruct Hn as (q' & H' & L). destruct m' as [[at_ b] s']. destruct H' as (H' & _ & Hb & _).
  pose proof (fuel_nonneg h q' at_ b s' (sound_held _ _ _ H') Hb). lia.
Qed.

Lemma fresh_in_budget : in_budget fresh_budget.
Proof. unfold in_budget, fresh_budget. cbn. pose proof callBudget_pos. lia. Qed.

(** The processing stops with a result, and something is left to drive the queue. *)
Lemma processing_stops h q s :
  Sound h q s -> Rested cfg q s -> exists s' q', processing cfg s = inr s' /\ Stopped h q' s'.
Proof.
  intros H Hre. unfold processing. apply (until_stops h _ q).
  - split_and!; try done. apply fresh_in_budget.
  - pose proof (fuel_nonneg h q Outer fresh_budget s (sound_held _ _ _ H) fresh_in_budget).
    rewrite Z2Pos.id; lia.
Qed.

Lemma process_stops h q s :
  Sound h q s -> Rested cfg q s -> exists q', Stopped h q' (TqUvProcessQuicToTcp cfg s).
Proof.
  intros H Hre. unfold TqUvProcessQuicToTcp. destruct (QuicToTcpContinuationPending _) eqn:E.
  - exists q. split_and!; try done. unfold Driven. tauto.
  - destruct (processing_stops h q s H Hre) as (s' & q' & -> & ?). by exists q'.
Qed.

End Machine.

#[global] Arguments Stopped cfg h q s : clear implicits.
