(* ===== verification/UvStream.v ===== *)
(** What the libuv relay carries from QUIC to TCP.

    Every action of UvRelay.v leaves a relay [Stopped] (UvMachine.v): the layers of UvFlow.v hold,
    receiving is paused only for a reason and the queue does not stand still.  The properties
    follow: the bytes written to TCP are those MsQuic delivered, in order; the counters are exact
    and within their limits; the processing terminates and is driven on. *)

From stdpp Require Import base gmap list numbers decidable.
From Stdlib Require Import ZArith Lia.
From S2P Require Import Prelude RelayBuffer UvSend UvReceive UvTerminal UvWrite UvRelay.
From S2P Require Import UvHeld UvFlow UvMachine.

Section Handlers.
  Context {K : ITqCompressor} (cfg : Config) {rcfg : ReceiveConfig} {Hrcfg : ReceiveConfig_ok rcfg}.

Local Abbreviation Rel := (Rel rcfg).
Local Abbreviation Sound := (Sound rcfg).
Local Abbreviation Stopped := (Stopped rcfg).

(** ** The other direction *)

(** What the sending half and the terminal protocol do beside this direction's own handlers. *)
Inductive Aside : State -> State -> Prop :=
| aside_own s s' : term s' = term s -> recv s' = recv s -> Aside s s'
| aside_request t s : Aside s (TqUvRequestTerminal t s)
| aside_check s : Aside s (TqUvCheckTerminalConvergence s)
| aside_facts s : Aside s (TqUvProcessTerminalFactsLocal s)
| aside_trans s1 s2 s3 : Aside s1 s2 -> Aside s2 s3 -> Aside s1 s3.

#[local] Instance aside_preorder : PreOrder Aside.
Proof. split; [intros s; by apply aside_own|exact aside_trans]. Qed.

(** Going on keeps what holds between handlers. *)
Lemma stopped_onward h q s s' q' :
  Stopped h q s -> Onward rcfg h q s s' q' -> Stopped h q' s'.
Proof.
  intros (H & Hre & Hdr) [O1 _ _ _ O5]. destruct O5 as [He|(-> & Ht & [L1 L2 L3 [b L4]])].
  { split_and!; [done|by apply rested_ended|left; by apply doomed_ended]. }
  assert (ended s' = ended s /\ doomed s' = doomed s) as [He Hd] by (unfold doomed, ended; by rewrite Ht).
  split_and!; [done| |].
  - destruct Hre as [R1 R2]. constructor; rewrite ?He, ?Hd.
    + intros E. specialize (R1 E). destruct q; [done|]. unfold rx in *. by rewrite L1.
    + intros E. specialize (R2 E). unfold Pace in *. by rewrite L2, L3.
  - unfold Driven in *. rewrite Hd, L3, L4. exact Hdr.
Qed.

Lemma stopped_request h q t s : Stopped h q s -> Stopped h q (TqUvRequestTerminal t s).
Proof.
  intros (H & Hre & _). apply stopped_doomed; [by apply sound_request|apply request_doomed|apply Hre].
Qed.

Lemma stopped_aside h s s' :
  Aside s s' -> (exists q, Stopped h q s) -> exists q, Stopped h q s'.
Proof.
  induction 1 as [s s' Ht Hr|t s|s|s|s1 s2 s3 _ IH1 _ IH2]; intros [q H].
  - exists q. destruct H as (H & [R1 R2] & Hdr).
    assert (ended s' = ended s /\ doomed s' = doomed s) as [He Hd] by (unfold doomed, ended; by rewrite Ht).
    split_and!; [by eapply sound_term|constructor; by rewrite ?He, ?Hd, Hr|].
    unfold Driven in *. by rewrite Hd, Hr.
  - exists q. by apply stopped_request.
  - destruct (onward_check h q s) as [q' Ho]; [apply H|]. exists q'. by eapply stopped_onward.
  - destruct (onward_facts h q s) as [q' Ho]; [apply H|]. exists q'. by eapply stopped_onward.
  - apply IH2, IH1. by exists q.
Qed.

Lemma aside_terminate t s : Aside s (terminate t s).
Proof. unfold terminate. etrans; [apply aside_request|apply aside_facts]. Qed.

Lemma aside_data f s : Aside s (on_data f s).
Proof. by apply aside_own. Qed.

(** Follows the branches of a handler of the sending half. *)
Ltac aside_leaf :=
  cbn zeta;
  first [ reflexivity
        | apply aside_terminate | apply aside_check | apply aside_facts | apply aside_request
        | apply aside_data | by apply aside_own
        | match goal with
          | |- Aside _ (terminate ?t ?x) => etrans; [|exact (aside_terminate t x)]
          | |- Aside _ (TqUvCheckTerminalConvergence ?x) => etrans; [|exact (aside_check x)]
          | |- Aside _ (on_data ?f ?x) => etrans; [|exact (aside_data f x)]
          | |- Aside _ (set_data ?d ?x) => etrans; [|by apply (aside_own x (set_data d x))]
          | |- Aside _ (if ?b then _ else _) => destruct b
          | |- Aside _ (match ?b with _ => _ end) => destruct b
          | |- Aside _ (let '_ := ?b in _) => destruct b
          end ].

Lemma aside_pause stop s : Aside s (pause_reading stop s).
Proof. unfold pause_reading. repeat aside_leaf. Qed.

Lemma aside_build_failed failed views s : Aside s (build_failed failed views s).
Proof. unfold build_failed. repeat aside_leaf. Qed.

Lemma aside_read_bytes e owner bytes s : Aside s (read_bytes cfg e owner bytes s).
Proof.
  unfold read_bytes. destruct owner as [capacity|]; [|repeat aside_leaf].
  destruct (_ <? _); [repeat aside_leaf|]. cbn zeta. destruct (BuildViews _ _ _ _ _ _ _) as [[[[built views] ?] ?] d].
  set (s1 := set_data _ _). assert (Aside s s1) as H1 by (unfold s1; repeat aside_leaf). clearbody s1.
  destruct (negb built); [etrans; [exact H1|apply aside_build_failed]|].
  destruct (bool_decide _); [done|]. destruct (Submit _ _ _ _ _ _ _) as [result d'].
  set (s2 := set_data d' s1). assert (Aside s s2) as H2 by (etrans; [exact H1|by apply aside_own]). clearbody s2.
  destruct result; (etrans; [exact H2|]); repeat first [apply aside_pause|aside_leaf].
Qed.

Lemma aside_read_eof e owner s : Aside s (read_eof cfg e owner s).
Proof.
  unfold read_eof. cbn zeta. set (s1 := if TcpReadStarted _ then _ else _).
  assert (Aside s s1) as H1 by (unfold s1; repeat aside_leaf). clearbody s1.
  destruct (BuildViews _ _ _ _ _ _ _) as [[[[built views] ?] ?] d]. set (s2 := set_data _ s1).
  assert (Aside s s2) as H2 by (etrans; [exact H1|by apply aside_own]). clearbody s2.
  etrans; [|apply aside_data]. etrans; [exact H2|]. destruct (negb built); [apply aside_build_failed|].
  destruct (Submit _ _ _ _ _ _ _) as [result d']. destruct result; repeat aside_leaf.
Qed.

Lemma aside_read e received base s : Aside s (TqUvHandleTcpRead cfg e received base s).
Proof.
  unfold TqUvHandleTcpRead. destruct (take_buffer _ _) as [owner d]. set (s1 := set_data d s).
  assert (Aside s s1) as H1 by (by apply aside_own). clearbody s1. cbn zeta.
  destruct received as [[|b l]| | |]; (etrans; [exact H1|]);
    [repeat aside_leaf|apply aside_read_bytes|apply aside_read_eof| |repeat aside_leaf].
  unfold read_enobufs. cbn zeta. repeat first [apply aside_pause|aside_leaf].
  etrans; [|apply aside_pause]. apply aside_data.
Qed.

Lemma aside_retry_loop fuel es s : Aside s (retry_loop fuel es s).
Proof.
  revert es s. induction fuel as [|fuel IH]; intros es s; [done|]. cbn [retry_loop].
  destruct (TerminalStarted _); [done|]. destruct (PendingQuicSendRetries _) as [|o rest]; [done|].
  destruct (TrySubmitOperation _ _ _ _) as [result d]. cbn zeta.
  assert (Aside s (set_data d s)) as H1 by (by apply aside_own).
  destruct result; (etrans; [exact H1|]); [apply IH|done|apply aside_terminate].
Qed.

Lemma aside_complete es start_ok a cancelled s :
  Aside s (TqUvHandleSendComplete cfg es start_ok a cancelled s).
Proof.
  unfold TqUvHandleSendComplete. destruct (find_send _ _) as [o|]; [|done]. cbn zeta.
  set (s1 := on_data (ReleasePendingSend _) _). assert (Aside s s1) as H1 by (unfold s1; repeat aside_leaf).
  clearbody s1. destruct (negb _); [etrans; [exact H1|apply aside_check]|].
  destruct cancelled; [etrans; [exact H1|apply aside_terminate]|].
  etrans; [|apply aside_check]. unfold resume_reading. cbn zeta.
  set (s2 := TqUvRetryPendingQuicSends es _).
  assert (Aside s s2) as H2.
  { unfold s2, TqUvRetryPendingQuicSends. etrans; [|apply aside_retry_loop]. etrans; [exact H1|]. repeat aside_leaf. }
  clearbody s2. etrans; [exact H2|]. repeat aside_leaf.
Qed.

Lemma aside_readable ok suggested e received s : Aside s (tcp_readable cfg ok suggested e received s).
Proof.
  unfold tcp_readable. destruct (TqUvOnTcpAlloc _ _ _ _) as [[[a n]|] d]; etrans;
    [|apply aside_read| |apply aside_read]; by apply aside_own.
Qed.

(** ** Small changes *)

Lemma stopped_same h q s r :
  Stopped h q s -> same_books (recv s) r -> streams (log r) = streams (log (recv s)) ->
  (refused (log (recv s)) = true -> refused (log r) = true) ->
  QuicReceivePausedByTcpBacklog (flow r) = QuicReceivePausedByTcpBacklog (flow (recv s)) ->
  QuicToTcpContinuationPending (flow r) = QuicToTcpContinuationPending (flow (recv s)) ->
  disabled (log r) = disabled (log (recv s)) -> Stopped h q (set_recv r s).
Proof.
  intros (H & [R1 R2] & Hdr) Hb Hs Hr Hp Hc Hd. split_and!.
  - apply (sound_recv h h q q s r H); [by apply emptied_books_same|]. intros Hrel. apply (rel_same _ _ h q (recv s)); try done.
    unfold Flag. destruct Hb as (_ & _ & _ & _ & _ & Hlo & _). by rewrite Hp, Hd, Hlo.
  - constructor.
    + intros E. specialize (R1 E). destruct q as [|p q]; [done|]. cbn. by rewrite (same_books_rx _ _ p Hb).
    + intros E Hre Hdi. cbn in *. rewrite Hd in Hdi. destruct Hb as (_ & _ & -> & _). apply (R2 E); [|done].
      destruct (refused (log (recv s))); [|done]. by rewrite Hr in Hre.
  - unfold Driven in *. cbn. destruct Hb as (_ & _ & _ & -> & _). rewrite Hc.
    change (doomed (set_recv r s)) with (doomed s). destruct Hdr as [?|[?|?]]; auto.
Qed.

Lemma stopped_tell h q t s : Stopped h q s -> Stopped h q (tell t s).
Proof.
  intros H. pose proof (stopped_same h q s (set_world {| oracle := api t; inflations := inflates t |} (recv s)) H) as Hs.
  destruct Hs as (H1 & [R1 R2] & Hdr); [by split_and!|done..|].
  split_and!; [|by constructor|done]. by eapply sound_term.
Qed.

Lemma stopped_quiet h q s r : Stopped h q s -> Quiet (recv s) r -> Stopped h q (set_recv r s).
Proof.
  intros H Hq. apply stopped_same; try done; [by apply quiet_books|..]; try apply Hq; by rewrite (q_flow _ _ Hq).
Qed.

(** The flags of the write side. *)
Lemma stopped_flow h q s f :
  Stopped h q s ->
  (forall x, TcpWrites (f x) = TcpWrites x /\ NextRequest (f x) = NextRequest x /\
    QuicToTcpContinuationPending (f x) = QuicToTcpContinuationPending x /\
    QuicReceivePausedByTcpBacklog (f x) = QuicReceivePausedByTcpBacklog x) ->
  Stopped h q (on_recv (on_flow f) s).
Proof.
  intros H Hf. destruct (Hf (flow (recv s))) as (F1 & F2 & F3 & F4). by apply stopped_same.
Qed.

(** Nothing this direction reads of the terminal has changed. *)
Lemma stopped_term h q s r :
  Stopped h q s -> TerminalStarted r = TerminalStarted (term s) ->
  QuicShutdownObserved r = QuicShutdownObserved (term s) ->
  TerminalTriggerMask r = TerminalTriggerMask (term s) -> Activation r = Activation (term s) ->
  TerminalReleased r = TerminalReleased (term s) -> Stopped h q (set_term r s).
Proof.
  intros ([Ha Hre Hr] & [R1 R2] & Hdr) H1 H2 H3 H4 H5.
  assert (ended (set_term r s) = ended s /\ doomed (set_term r s) = doomed s) as [He Hd].
  { unfold doomed, ended. cbn. by rewrite H1, H2, H3. }
  split_and!.
  - constructor; cbn; [by rewrite H1, H4|by rewrite H5|]. by rewrite He, Hd.
  - constructor; by rewrite ?He, ?Hd.
  - unfold Driven in *. by rewrite Hd.
Qed.

(** The stream's shutdown ends the relay. *)
Lemma stopped_shutdown h q s : Stopped h q s -> Stopped h q (quic_shutdown_complete s).
Proof.
  intros ([Ha Hem Hr] & Hre & _). unfold quic_shutdown_complete.
  set (s1 := on_term (set_QuicShutdownObserved true) s).
  assert (ended s1 = true) as He by (unfold ended; cbn; apply orb_true_r).
  assert (Stopped h q s1) as H1.
  { split_and!; [|by apply rested_ended|left; by apply doomed_ended]. constructor; [exact Ha|exact Hem|].
    rewrite He, doomed_ended by done. by eapply rel_weaken. }
  destruct (negb _); [by apply stopped_request|done].
Qed.

(** ** Admission *)

Lemma total_length_spec slices n total :
  total_length slices n = Some total -> n <= UINT64_MAX ->
  total = n + bytes_in slices /\ total <= UINT64_MAX.
Proof.
  revert n. induction slices as [|b l IH]; intros n; cbn [total_length].
  - intros [= ->] Hn. unfold bytes_in. rewrite sum_nil. lia.
  - destruct (_ <? _) eqn:E; [done|]. to_prop. intros H Hn. destruct (IH _ H) as [-> ?]; [lia|].
    split; [|done]. unfold bytes_in. rewrite sum_cons. lia.
Qed.

(** The counters with one receive more on its way. *)
Definition admitted_ledger (total : Z) (l : Ledger) : Ledger :=
  {| PendingQuicReceiveBytes := PendingQuicReceiveBytes l;
     AdmittedQuicReceiveBytes := AdmittedQuicReceiveBytes l + total;
     QuicToTcpPressureBytes := QuicToTcpPressureBytes l + total;
     PendingTcpWriteBytes := PendingTcpWriteBytes l;
     AccountedQuicToTcpBytes := AccountedQuicToTcpBytes l + total;
     QuicToTcpPendingBytes_ := QuicToTcpPendingBytes_ l + total;
     OutputPendingBufferBytes := OutputPendingBufferBytes l;
     OutputAllocateCount := OutputAllocateCount l |}.

(** A receive that nothing else knows of. *)
Lemma held_new h q r x p k :
  Held rcfg h q r -> Fresh x -> p = NextReceive (queue r) -> Admitting (queue r) = None ->
  QuicToTcpPressureBytes (ledger r) + Rx.TotalBytes x <= PrecommitMaxPendingBytes rcfg ->
  QuicToTcpPendingBytes_ (ledger r) + Rx.TotalBytes x <= UINT64_MAX ->
  k = set_Store (<[p := x]> (Store (queue r))) (set_NextReceive (S p) (set_Admitting (Some p) (queue r))) ->
  Held rcfg h q (set_queue k (set_ledger (admitted_ledger (Rx.TotalBytes x) (ledger r)) r)) /\
  forall y, y ∈ q ++ waiting r -> rx y (set_queue k r) = rx y r.
Proof.
  intros [Hs Hc Hf Hw Hpl Hb] Hx -> Ha Hlim Hwid ->. set (p := NextReceive (queue r)).
  destruct Hs as [(k & Hk & Hq & Hm) Hn Hbd]. set (r' := set_queue _ _).
  assert (waiting r' = waiting r ++ [p]) as Hwt.
  { unfold waiting, r'. cbn. by rewrite Ha, app_nil_r. }
  assert (p ∉ q ++ waiting r) as Hp.
  { intros H. rewrite list.Forall_forall in Hbd. specialize (Hbd p H). unfold p in Hbd. lia. }
  assert (rx p r' = x) as Hxp by (unfold rx, r'; cbn; by rewrite lookup_total_insert_eq).
  assert (forall y, y ∈ q ++ waiting r -> rx y r' = rx y r) as Hrx.
  { intros y Hy. unfold rx, r'. cbn. rewrite lookup_total_insert_ne; [done|]. by intros <-. }
  assert (forall l P, (forall y, y ∈ l -> y ∈ q ++ waiting r) ->
            Forall (fun p => P (rx p r)) l -> Forall (fun p => P (rx p r')) l) as Hall.
  { intros l P Hl HF. rewrite list.Forall_forall in *. intros y Hy. rewrite Hrx by auto. by apply HF. }
  destruct (sums_ext r r' q) as [S1 S2]; [intros y Hy; apply Hrx, elem_of_app; by left|].
  destruct (sums_ext r r' (waiting r)) as [S3 _]; [intros y Hy; apply Hrx, elem_of_app; by right|].
  split; [|exact Hrx]. constructor.
  - constructor; rewrite ?Hwt, ?app_assoc.
    + exists k. split_and!; try done. destruct Hk. by constructor.
    + apply list.NoDup_app. split_and!; [done| |apply NoDup_singleton].
      intros y Hy ->%list_elem_of_singleton. done.
    + apply Forall_app. split; [|constructor; [cbn; lia|constructor]].
      eapply Forall_impl; [|exact Hbd]. intros y Hy. cbn in *. lia.
  - apply (Hall q RxOk); [|done]. intros y Hy. apply elem_of_app. by left.
  - rewrite Hwt, app_assoc. apply Forall_app. split; [|constructor; [by rewrite Hxp|constructor]].
    apply (Hall _ Fresh); [|done]. intros y. rewrite !elem_of_app. intros [Hy|?]; [|by right].
    left. destruct q; [by apply elem_of_nil in Hy|by right].
  - unfold Writes in *. destruct q as [|y q]; [done|]. rewrite Hrx by (by left). done.
  - destruct q as [|y q]; [done|]. by rewrite Hrx by (by left).
  - pose proof (fresh_remaining x Hx) as Hrem. destruct Hb.
    assert (owed r' (waiting r') = owed r (waiting r) + Rx.TotalBytes x) as Hw'.
    { rewrite Hwt. unfold owed in *. rewrite sum_app, sum_one, Hxp, S3. lia. }
    constructor; rewrite ?Hw', ?S1, ?S2; cbn; try lia; done.
Qed.

Definition room (total : Z) (r : Recv) : Prop :=
  QuicToTcpPressureBytes (ledger r) + total <= PrecommitMaxPendingBytes rcfg /\
  QuicToTcpPendingBytes_ (ledger r) + total <= UINT64_MAX.

(** The ledgers of a queue are counts. *)
Lemma held_ledger h q r :
  Held rcfg h q r ->
  0 <= PendingQuicReceiveBytes (ledger r) <= AdmittedQuicReceiveBytes (ledger r) /\
  AdmittedQuicReceiveBytes (ledger r) <= QuicToTcpPressureBytes (ledger r) /\
  AccountedQuicToTcpBytes (ledger r) = AdmittedQuicReceiveBytes (ledger r) /\
  AdmittedQuicReceiveBytes (ledger r) <= QuicToTcpPendingBytes_ (ledger r) <= UINT64_MAX /\
  QuicToTcpPressureBytes (ledger r) <= PrecommitMaxPendingBytes rcfg <= UINT64_MAX.
Proof.
  intros [_ Hc Hf Hw _ Hb]. apply Forall_app in Hf as [_ Hf]. destruct (fresh_sums r (waiting r) Hf) as [F1 _].
  pose proof (writes_nonneg _ _ _ Hw). pose proof (rc_max _ Hrcfg). destruct Hb.
  assert (0 <= owed r q) by (apply sum_nonneg, list.Forall_forall; intros; apply remaining_nonneg).
  assert (0 <= deferred r q).
  { apply sum_nonneg, list.Forall_forall. intros p Hp. rewrite list.Forall_forall in Hc.
    rewrite (rx_deferred _ (Hc p Hp)). apply bytes_in_nonneg. }
  lia.
Qed.

Lemma add_spec total r :
  total <> 0 -> AccountedQuicToTcpBytes (ledger r) <= QuicToTcpPendingBytes_ (ledger r) ->
  AddQuicToTcp total r = (false, r) \/
  QuicToTcpPendingBytes_ (ledger r) + total <= UINT64_MAX /\
  AddQuicToTcp total r = (true, on_ledger (fun l =>
    set_AccountedQuicToTcpBytes (AccountedQuicToTcpBytes l + total)
      (set_QuicToTcpPendingBytes_ (QuicToTcpPendingBytes_ l + total) l)) r).
Proof.
  intros Ht Hl. unfold AddQuicToTcp. rewrite (proj2 (Z.eqb_neq _ _)) by done. cbn zeta.
  destruct (_ <? _) eqn:E; [by left|]. to_prop. rewrite (proj2 (Z.ltb_ge _ total)) by lia.
  right. split; [lia|done].
Qed.

Lemma admit_spec h q active slices fin r :
  Held rcfg h q r -> event_ok slices = true ->
  let r' := snd (admit_receive rcfg active slices fin r) in
  Quiet r r' \/
  active = true /\
  exists r1 x, Quiet r r1 /\ Fresh x /\ room (Rx.TotalBytes x) r /\ Rx.Slices x = slices /\
    r' = set_queue (set_Store (<[NextReceive (queue r) := x]> (Store (queue r)))
                      (set_NextReceive (S (NextReceive (queue r)))
                         (set_Admitting (Some (NextReceive (queue r))) (queue r))))
           (set_ledger (admitted_ledger (Rx.TotalBytes x) (ledger r)) r1).
Proof.
  intros H Hev. cbn zeta. unfold admit_receive. pose proof (quiet_ask r) as Hq.
  destruct (ask_ok r) as [made r1]. cbn [snd] in Hq. destruct (negb made); [by left|].
  destruct (total_length slices 0) as [total|] eqn:Et; [|by left].
  destruct (total_length_spec _ _ _ Et) as [Htot Hmax]; [done|].
  destruct (total =? 0) eqn:E0; [by left|]. to_prop. destruct active; [|by left].
  cbn [negb].
  unfold ReservePressure. destruct (_ || _) eqn:Er; [by left|]. cbn [negb].
  apply orb_false_iff in Er as [_ Er]. to_prop. pose proof (held_ledger _ _ _ H) as Hl.
  pose proof (bytes_in_nonneg slices) as Hn. cbn zeta in *.
  assert (ledger r1 = ledger r) as Hl1 by apply Hq. rewrite Hl1 in *.
  assert (u64 (AdmittedQuicReceiveBytes (ledger r) + total) = AdmittedQuicReceiveBytes (ledger r) + total) as Hu.
  { apply u64_small. unfold is_u64, UINT64_MAX in *. lia. }
  set (r2 := on_ledger _ (on_ledger _ r1)).
  destruct (add_spec total r2 E0) as [-> |[Hw -> ]]; [cbn; rewrite Hl1; lia|..]; cbn [negb snd].
  - left. etrans; [exact Hq|]. constructor; try done. cbn -[u64 Z.sub Z.add less]. rewrite Hl1, Hu.
    unfold less. rewrite (proj2 (Z.leb_le _ _)) by lia.
    replace (AdmittedQuicReceiveBytes (ledger r) + total - total) with (AdmittedQuicReceiveBytes (ledger r)) by lia.
    replace (QuicToTcpPressureBytes (ledger r) + total - total) with (QuicToTcpPressureBytes (ledger r)) by lia.
    rewrite u64_small by (unfold is_u64, UINT64_MAX in *; lia). by destruct (ledger r).
  - right. split; [done|]. exists r1, (new_receive slices total fin). cbn in Hw. rewrite Hl1 in Hw. split_and!; try done.
    + apply andb_true_iff in Hev as [Hc _]. to_prop. constructor; cbn; try done; lia.
    + split; cbn; lia.
    + unfold r2, on_queue, on_ledger, set_queue, set_ledger, admitted_ledger.
      cbn -[u64 Z.add]. by rewrite (q_queue _ _ Hq), Hl1, Hu.
Qed.

Lemma stopped_receive h q slices fin s :
  (TerminalReleased (term s) = true -> Activation (term s) <> Active) ->
  Stopped h q s -> event_ok slices = true -> Stopped h q (accept_receive rcfg slices fin s).
Proof.
  intros Hact H Hev. unfold accept_receive. destruct (Admitting _) eqn:Ea; [done|].
  pose proof H as (Hso & Hre & Hdr). pose proof (sound_held _ _ _ Hso) as Hh.
  destruct (admit_spec h q (bool_decide (Activation (term s) = Active)) slices fin (recv s) Hh Hev)
    as [Hq|(Hac & r1 & x & Hq & Hx & [Hr1 Hr2] & Hsl & Heq)]; [by apply stopped_quiet|].
  apply bool_decide_eq_true in Hac.
  set (r' := snd _) in *. change (Stopped h q (set_recv r' s)). clearbody r'.
  pose proof (h_shape _ _ _ _ Hh) as Hsh.
  edestruct (held_new h q (recv s)) as [Hn Hrx]; try done.
  assert (forall y, y ∈ q ++ waiting (recv s) -> rx y r' = rx y (recv s)) as Hrx'.
  { intros y Hy. rewrite <- (Hrx y Hy), Heq. done. }
  assert (forall y, y ∈ q -> rx y r' = rx y (recv s)) as Hrq by (intros; apply Hrx', elem_of_app; by left).
  assert (queued rcfg q r' = queued rcfg q (recv s) /\ pent q r' = pent q (recv s)) as [Hqu Hpe].
  { destruct q as [|p q]; [done|]. cbn. rewrite Hrq by left. split; [|done]. f_equal.
    apply contents_ext. intros y Hy. apply Hrq. by right. }
  assert (log r' = log r1 /\ flow r' = flow (recv s) /\ Posted (queue r') = Posted (queue (recv s)) /\
          ledger r' = admitted_ledger (Rx.TotalBytes x) (ledger (recv s))) as (F1 & F2 & F3 & F4).
  { rewrite Heq. cbn. split_and!; try done. apply (q_flow _ _ Hq). }
  split_and!.
  - destruct Hso as [Ha _ [_ Hs1 Hf1 [G1 G2 G3]]].
    constructor; [done|intros E; by destruct (Hact E)|]. change (Rel (ended s) (doomed s) h q r').
    assert (Held rcfg h q r') as Hh'.
    { eapply held_ext; [exact Hn|]. rewrite Heq. split_and!; try done; cbn; try apply Hq.
      - by rewrite (q_flow _ _ Hq).
      - by rewrite (q_flow _ _ Hq). }
    pose proof (q_streams _ _ Hq) as Hst. rewrite <- F1 in Hst. unfold streams in Hst.
    injection Hst as T1 T2 T3 T4 T5. pose proof (q_refused _ _ Hq) as Hrf. rewrite <- F1 in Hrf.
    constructor; [done| | |constructor; rewrite ?T2, ?T3, ?T4, ?T5; done].
    + intros He. destruct (Hs1 He) as [S1 S2]. rewrite Hpe, T3, T4. split; [|done].
      destruct q as [|p q]; [done|]. rewrite Hrq by left. destruct S1. constructor; auto.
    + intros Hd. destruct (Hf1 Hd) as [A1 A2 A3]. constructor.
      * rewrite T1, T2, Hqu, F3, A1. do 2 f_equal. symmetry. apply contents_ext. intros y Hy.
        apply Hrx', elem_of_app. right. apply elem_of_app. by left.
      * by rewrite T3, T4, Hpe.
      * unfold Flag in *. by rewrite F2, F1, (q_disabled _ _ Hq), (q_lost _ _ Hq).
  - destruct Hre as [R1 R2]. constructor.
    + intros He. specialize (R1 He). destruct q as [|p q]; [done|]. cbn. by rewrite Hrq by left.
    + intros Hd Hr Hdi. cbn in *. rewrite F1 in Hr, Hdi. rewrite (q_disabled _ _ Hq) in Hdi. rewrite F4. cbn.
      pose proof (fresh_width _ Hx). enough (PrecommitMaxPendingBytes rcfg / 2 < QuicToTcpPressureBytes (ledger (recv s))) by lia.
      apply (R2 Hd); [|done]. destruct (refused (log (recv s))) eqn:E; [|done]. by rewrite (q_refused _ _ Hq) in Hr.
  - unfold Driven in *. cbn. rewrite F1, F2. change (doomed (set_recv r' s)) with (doomed s).
    destruct Hdr as [?|[Hr|?]]; auto. right; left. by apply (q_refused _ _ Hq).
Qed.


(** ** The post of a receive *)

(** The receives on their way are the same, or one fewer. *)
Lemma held_waiting h q r r' l :
  Held rcfg h q r -> waiting r = waiting r' ++ l -> Store (queue r') = Store (queue r) ->
  FallbackNext (queue r') = FallbackNext (queue r) ->
  FallbackReceiveHead (queue r') = FallbackReceiveHead (queue r) ->
  FallbackReceiveTail (queue r') = FallbackReceiveTail (queue r) ->
  PrecommitReceives (queue r') = PrecommitReceives (queue r) ->
  ActiveReceiveFallbackMode (queue r') = ActiveReceiveFallbackMode (queue r) ->
  NextReceive (queue r') = NextReceive (queue r) -> flow r' = flow r ->
  lost (log r') = lost (log r) -> OtherQuicToTcp (log r') = OtherQuicToTcp (log r) ->
  let d := owed r l in
  ledger r' = {| PendingQuicReceiveBytes := PendingQuicReceiveBytes (ledger r);
     AdmittedQuicReceiveBytes := AdmittedQuicReceiveBytes (ledger r) - d;
     QuicToTcpPressureBytes := QuicToTcpPressureBytes (ledger r) - d;
     PendingTcpWriteBytes := PendingTcpWriteBytes (ledger r);
     AccountedQuicToTcpBytes := AccountedQuicToTcpBytes (ledger r) - d;
     QuicToTcpPendingBytes_ := QuicToTcpPendingBytes_ (ledger r) - d;
     OutputPendingBufferBytes := OutputPendingBufferBytes (ledger r);
     OutputAllocateCount := OutputAllocateCount (ledger r) |} ->
  Held rcfg h q r'.
Proof.
  intros [Hs Hc Hf Hw Hpl Hb] Hwt Hst H1 H2 H3 H4 H5 H6 Hfl Hlo Hot d Hl.
  assert (forall y, rx y r' = rx y r) as Hrx by (intros; unfold rx; by rewrite Hst).
  destruct Hs as [(k & [C1 C2 C3 C4] & Hq & Hm) Hn Hbd]. rewrite Hwt in Hn, Hbd, Hf.
  rewrite !app_assoc in Hn, Hbd, Hf. apply list.NoDup_app in Hn as (Hn & _ & _).
  apply Forall_app in Hbd as [Hbd _]. apply Forall_app in Hf as [Hf1 Hf2].
  destruct (sums_ext r r' q) as [S1 S2]; [auto|]. destruct (sums_ext r r' (waiting r')) as [S3 _]; [auto|].
  destruct (fresh_sums r l Hf2) as [Hd _].
  constructor.
  - constructor; [|done|by rewrite H6]. exists k. rewrite H4, H5. split_and!; try done.
    constructor; rewrite ?H1, ?H2, ?H3; done.
  - eapply Forall_impl; [|exact Hc]. intros y Hy. by rewrite Hrx.
  - eapply Forall_impl; [|exact Hf1]. intros y Hy. by rewrite Hrx.
  - unfold Writes in *. destruct q; [by rewrite Hfl|]. by rewrite Hrx, Hfl.
  - destruct q; [done|]. by rewrite Hrx.
  - destruct Hb as [K1 K2 K3 K4 K5 K6 K7 K8 K9 K10 K11 K12 K13]. rewrite Hwt in K2.
    assert (owed r (waiting r' ++ l) = owed r (waiting r') + d) as Ho by (unfold d, owed; by rewrite sum_app).
    fold d in Hd. constructor; rewrite ?Hl, ?Hfl, ?Hlo, ?Hot, ?S1, ?S2, ?S3; cbn; try lia; done.
Qed.

Lemma release_unposted bytes r :
  let l := ledger r in
  0 < bytes <= AdmittedQuicReceiveBytes l -> AccountedQuicToTcpBytes l = AdmittedQuicReceiveBytes l ->
  AccountedQuicToTcpBytes l <= QuicToTcpPendingBytes_ l <= UINT64_MAX -> bytes <= QuicToTcpPressureBytes l ->
  ReleasePressure bytes (ReleaseAdmitted bytes r) =
  set_ledger {| PendingQuicReceiveBytes := PendingQuicReceiveBytes l;
                AdmittedQuicReceiveBytes := AdmittedQuicReceiveBytes l - bytes;
                QuicToTcpPressureBytes := QuicToTcpPressureBytes l - bytes;
                PendingTcpWriteBytes := PendingTcpWriteBytes l;
                AccountedQuicToTcpBytes := AccountedQuicToTcpBytes l - bytes;
                QuicToTcpPendingBytes_ := QuicToTcpPendingBytes_ l - bytes;
                OutputPendingBufferBytes := OutputPendingBufferBytes l;
                OutputAllocateCount := OutputAllocateCount l |} r.
Proof.
  destruct r as [qu [a b c d e f g i] fl co lo wo]. intros l. unfold l. clear l.
  cbn [ledger AdmittedQuicReceiveBytes QuicToTcpPressureBytes AccountedQuicToTcpBytes QuicToTcpPendingBytes_].
  intros H1 H2 H3 H4. unfold ReleaseAdmitted, ReleasePressure, CompleteQuicToTcp, less, on_ledger, set_ledger.
  cbn -[Z.leb Z.eqb Z.ltb Z.sub Z.add u64]. rewrite (proj2 (Z.leb_le bytes b)) by lia.
  replace (b - (b - bytes)) with bytes by lia. rewrite (proj2 (Z.eqb_neq _ _)) by lia.
  cbn -[Z.leb Z.eqb Z.ltb Z.sub Z.add u64]. rewrite (proj2 (Z.ltb_ge _ _)) by lia.
  cbn -[Z.leb Z.eqb Z.ltb Z.sub Z.add u64]. rewrite u64_small by (unfold is_u64, UINT64_MAX in *; lia).
  by rewrite (proj2 (Z.leb_le _ _)) by lia.
Qed.

Lemma stopped_post h q s : Stopped h q s -> Stopped h q (on_recv (fun r => snd (post r)) s).
Proof.
  intros H. unfold post. destruct (Admitting (queue (recv s))) as [p|] eqn:Ea.
  2: { unfold on_recv. rewrite Ea. by apply stopped_quiet. }
  pose proof H as (Hso & [R1 R2] & Hdr). pose proof (sound_held _ _ _ Hso) as Hh.
  unfold on_recv. rewrite Ea. cbn zeta. set (r1 := on_queue (set_Admitting None) (recv s)).
  pose proof (quiet_ask r1) as Hq. destruct (ask_ok r1) as [posted r2]. cbn [snd] in Hq.
  assert (Fresh (rx p (recv s))) as Hx.
  { pose proof (h_fresh _ _ _ _ Hh) as Hf. unfold waiting in Hf. rewrite Ea in Hf. cbn [option_list] in Hf.
    rewrite !Forall_app in Hf. destruct Hf as (_ & _ & Hf). by apply list.Forall_cons in Hf as [? _]. }
  assert (forall y, rx y r2 = rx y (recv s)) as Hrx by (intros y; apply (quiet_rx _ _ y Hq)).
  set (r3 := snd _).
  assert (Held rcfg h q r3 /\ (forall y, rx y r3 = rx y (recv s)) /\ flow r3 = flow (recv s) /\
          disabled (log r3) = disabled (log (recv s)) /\ lost (log r3) = lost (log (recv s)) /\
          (refused (log (recv s)) = true -> refused (log r3) = true) /\
          (exists l, Posted (queue r3) = Posted (queue (recv s)) ++ l /\
             streams (log r3) = (admitted (log (recv s)) ++ contents (recv s) l, taken (log (recv s)),
               output (log (recv s)), written (log (recv s)), inflated (log (recv s)))) /\
          (refused (log r3) = true \/ QuicToTcpPressureBytes (ledger r3) = QuicToTcpPressureBytes (ledger (recv s))))
    as (F1 & F2 & F3 & F4 & Flo & F5 & (l & F6 & F7) & F8).
  { assert (waiting (recv s) = Posted (queue (recv s)) ++ [p]) as Hwt by (unfold waiting; by rewrite Ea).
    pose proof (held_ledger _ _ _ Hh) as Hl. pose proof (fresh_remaining _ Hx) as Hrem.
    pose proof (q_streams _ _ Hq) as Hst. unfold streams in Hst. injection Hst as T1 T2 T3 T4 T5.
    pose proof (q_queue _ _ Hq) as Q1. assert (ledger r2 = ledger (recv s)) as Q2 by apply (q_ledger _ _ Hq).
    destruct posted; unfold r3; cbn [snd].
    - split_and!; try apply Hq; try done.
      + apply (held_waiting h q (recv s) _ []); try apply Hq; try done; cbn; rewrite ?Q1; try done.
        * rewrite !app_nil_r. exact Hwt.
        * rewrite Q2. unfold owed. rewrite sum_nil, !Z.sub_0_r. by destruct (ledger (recv s)).
      + exists [p]. cbn. rewrite Q1. split; [done|]. unfold streams. cbn. rewrite T1, T2, T3, T4, T5, Hrx.
        unfold contents. cbn. by rewrite app_nil_r.
      + right. cbn. by rewrite Q2.
    - change (rx p r1) with (rx p (recv s)). pose proof (fresh_width _ Hx) as Hwd.
      pose proof (k_admitted _ _ _ _ (h_books _ _ _ _ Hh)) as Ka. rewrite Hwt in Ka.
      unfold owed in Ka. rewrite sum_app, sum_one, Hrem in Ka.
      pose proof (sum_nonneg (fun p => RemainingBytes (rx p (recv s))) q) as N1.
      pose proof (sum_nonneg (fun p => RemainingBytes (rx p (recv s))) (Posted (queue (recv s)))) as N2.
      rewrite !list.Forall_forall in N1, N2. specialize (N1 (fun _ _ => remaining_nonneg _)).
      specialize (N2 (fun _ _ => remaining_nonneg _)).
      rewrite release_unposted by (rewrite ?Q2; lia).
      split_and!; try apply Hq; try done; [|exists []; split; [cbn; by rewrite Q1, app_nil_r|]|by left].
      + apply (held_waiting h q (recv s) _ [p]); try apply Hq; try done; cbn; rewrite ?Q1; try done.
        * etrans; [exact Hwt|]. f_equal. unfold waiting. cbn. rewrite Q1. symmetry. apply app_nil_r.
        * rewrite Q2. unfold owed. by rewrite sum_one, Hrem.
      + unfold streams. cbn. by rewrite T1, T2, T3, T4, T5, app_nil_r. }
  change (Stopped h q (set_recv r3 s)). clearbody r3.
  assert (forall l, contents r3 l = contents (recv s) l) as Hco by (intros; by apply contents_ext).
  assert (queued rcfg q r3 = queued rcfg q (recv s) /\ pent q r3 = pent q (recv s)) as [Hqu Hpe].
  { destruct q; [done|]. cbn. by rewrite F2, Hco. }
  unfold streams in F7. injection F7 as T1 T2 T3 T4 T5. split_and!.
  - apply (sound_recv h h q q s r3 Hso); [|].
    { intros (_ & Hn & _). unfold waiting in Hn. rewrite Ea in Hn. by destruct (Posted (queue (recv s))). }
    intros [_ Hs1 Hf1 [G1 G2 G3]].
    constructor; [done| | |constructor; rewrite ?T2, ?T3, ?T4, ?T5; done].
    + intros He. destruct (Hs1 He) as [S1 S2]. rewrite Hpe, T3, T4. split; [|done].
      destruct q as [|y q]; [done|]. rewrite F2. destruct S1. constructor; auto.
    + intros Hd. destruct (Hf1 Hd) as [A1 A2 A3]. constructor.
      * rewrite T1, T2, Hqu, F6, A1, Hco. unfold contents. by rewrite fmap_app, concat_app, <- !app_assoc.
      * by rewrite T3, T4, Hpe.
      * unfold Flag in *. by rewrite F3, F4, Flo.
  - constructor.
    + intros He. specialize (R1 He). destruct q as [|y q]; [done|]. cbn. by rewrite F2.
    + intros Hd Hr Hdi. cbn in *. rewrite F4 in Hdi. destruct F8 as [?| -> ]; [congruence|].
      apply (R2 Hd); [|done]. destruct (refused (log (recv s))) eqn:E; [|done]. by rewrite F5 in Hr.
  - unfold Driven in *. cbn. rewrite F3. change (doomed (set_recv r3 s)) with (doomed s).
    destruct Hdr as [?|[Hr|?]]; auto.
Qed.

(** ** Queueing *)

Lemma shape_enqueue p rest q r k :
  Shape q r -> Posted (queue r) = p :: rest ->
  (ActiveReceiveFallbackMode (queue r) = false /\ k = set_PrecommitReceives (PrecommitReceives (queue r) ++ [p]) (set_Posted rest (queue r)) \/
   k = AppendFallbackReceive p (set_ActiveReceiveFallbackMode true (set_Posted rest (queue r)))) ->
  forall r', queue r' = k -> Shape (q ++ [p]) r' /\ (q ++ [p]) ++ waiting r' = q ++ waiting r.
Proof.
  intros [(l & Hk & Hq & Hm) Hn Hb] Hp Hcase r' Hr'.
  assert (waiting r' = rest ++ option_list (Admitting (queue r)) /\ NextReceive (queue r') = NextReceive (queue r)) as [Hw Hnx].
  { unfold waiting. rewrite Hr'. destruct Hcase as [[_ ->]| -> ]; [done|].
    unfold AppendFallbackReceive. by destruct (FallbackReceiveTail _). }
  assert ((q ++ [p]) ++ waiting r' = q ++ waiting r) as He.
  { rewrite Hw. unfold waiting. rewrite Hp, <- app_assoc. done. }
  split; [|done]. constructor; rewrite ?He, ?Hnx; try done. rewrite Hr'.
  destruct Hcase as [[Hmode ->]| -> ].
  - exists l. rewrite (Hm Hmode) in *. destruct Hk. split_and!; [by constructor|by rewrite Hq, !app_nil_r|done].
  - exists (l ++ [p]). rewrite <- He in Hn. apply list.NoDup_app in Hn as (Hn & _ & _).
    rewrite Hq, <- app_assoc in Hn. apply list.NoDup_app in Hn as (_ & _ & Hn). split_and!.
    + apply chain_append; [|done]. destruct Hk. by constructor.
    + rewrite Hq, <- app_assoc. f_equal. unfold AppendFallbackReceive. by destruct (FallbackReceiveTail _).
    + unfold AppendFallbackReceive. by destruct (FallbackReceiveTail _).
Qed.

Lemma append_store p q : Store (AppendFallbackReceive p q) = Store q.
Proof. unfold AppendFallbackReceive. cbn. by destruct (FallbackReceiveTail q). Qed.

Lemma enqueue_fields p rest r :
  let r' := enqueue p (on_queue (set_Posted rest) r) in
  (ActiveReceiveFallbackMode (queue r) = false /\
   queue r' = set_PrecommitReceives (PrecommitReceives (queue r) ++ [p]) (set_Posted rest (queue r)) \/
   queue r' = AppendFallbackReceive p (set_ActiveReceiveFallbackMode true (set_Posted rest (queue r)))) /\
  Store (queue r') = Store (queue r) /\ flow r' = flow r /\ log r' = log r /\
  ledger r' = set_PendingQuicReceiveBytes
    (u64 (PendingQuicReceiveBytes (ledger r) + Rx.TotalBytes (rx p r))) (ledger r).
Proof.
  assert (forall r1 : Recv, Store (queue r1) = Store (queue r) -> rx p r1 = rx p r) as Hrx
    by (intros r1 H1; unfold rx; by rewrite H1).
  cbn zeta. unfold enqueue, ask_ok. cbn zeta beta iota.
  change (ActiveReceiveFallbackMode (queue (on_queue (set_Posted rest) r))) with (ActiveReceiveFallbackMode (queue r)).
  destruct (ActiveReceiveFallbackMode (queue r)) eqn:Em; cbn [negb]; [|destruct (default true _)].
  - split_and!; try done; [right|..].
    + cbn. f_equal. rewrite <- Em. by destruct (queue r).
    + exact (append_store p _).
    + cbn -[u64 rx AppendFallbackReceive]. rewrite Hrx; [done|]. exact (append_store p _).
  - split_and!; try done. by left.
  - split_and!; try done; [by right|exact (append_store p _)|].
    cbn -[u64 rx AppendFallbackReceive]. rewrite Hrx; [done|]. exact (append_store p _).
Qed.

Lemma sound_enqueue h p rest q s :
  Sound h q s -> Posted (queue (recv s)) = p :: rest ->
  (ended s = false -> match q with [] => True | y :: _ => Waits (rx y (recv s)) end) ->
  (doomed s = false -> Pace rcfg (recv s)) ->
  let s' := on_recv (enqueue p) (on_recv (on_queue (set_Posted rest)) s) in
  Sound h (q ++ [p]) s' /\ Rested rcfg (q ++ [p]) s'.
Proof.
  intros H Hp Hwa Hpa. cbn zeta. pose proof (sound_held _ _ _ H) as Hh.
  pose proof Hh as [Hs Hc Hf Hw Hpl Hb].
  destruct (enqueue_fields p rest (recv s)) as (Hk & F1 & F2 & F3 & F4).
  set (r' := enqueue p (on_queue (set_Posted rest) (recv s))) in *.
  change (on_recv (enqueue p) (on_recv (on_queue (set_Posted rest)) s)) with (set_recv r' s).
  destruct (shape_enqueue p rest q (recv s) _ Hs Hp Hk r' eq_refl) as [Hs' He].
  assert (Fresh (rx p (recv s))) as Hx.
  { unfold waiting in Hf. rewrite Hp, !Forall_app in Hf. destruct Hf as (_ & Hf & _).
    by apply list.Forall_cons in Hf as [? _]. }
  assert (forall y, rx y r' = rx y (recv s)) as Hrx by (intros; unfold rx; by rewrite F1).
  clearbody r'. pose proof (fresh_width _ Hx) as Hwd. pose proof (fresh_remaining _ Hx) as Hrem.
  pose proof (held_ledger _ _ _ Hh) as Hl.
  assert (forall l, owed r' l = owed (recv s) l /\ deferred r' l = deferred (recv s) l) as Hsum
    by (intros; by apply sums_ext).
  assert (owed (recv s) q + owed (recv s) (waiting (recv s)) =
          owed (recv s) (q ++ [p]) + owed (recv s) (waiting r')) as Ho.
  { unfold owed. by rewrite <- !sum_app, He. }
  assert (owed (recv s) (q ++ [p]) = owed (recv s) q + Rx.TotalBytes (rx p (recv s)) /\
          deferred (recv s) (q ++ [p]) = deferred (recv s) q) as [Ho1 Ho2].
  { unfold owed, deferred. rewrite !sum_app, !sum_one, Hrem. split; [done|].
    destruct Hx as [-> _ _ _]. cbn. lia. }
  assert (0 <= owed (recv s) (waiting r')) as Hn.
  { apply sum_nonneg, list.Forall_forall. intros. apply remaining_nonneg. }
  assert (Held rcfg h (q ++ [p]) r') as Hh'.
  { constructor; [done| | | | |].
    - apply Forall_app. split; [|constructor; [rewrite Hrx; by apply fresh_ok|constructor]].
      eapply Forall_impl; [|exact Hc]. intros y Hy. by rewrite Hrx.
    - assert (list.tail (q ++ [p]) ++ waiting r' = list.tail q ++ waiting (recv s) \/
              list.tail (q ++ [p]) ++ waiting r' `suffix_of` list.tail q ++ waiting (recv s)) as Hsuf.
      { destruct q as [|y q]; cbn in *; [right|left; by injection He].
        exists [p]. by rewrite <- He. }
      assert (Forall (fun y => Fresh (rx y (recv s))) (list.tail (q ++ [p]) ++ waiting r')) as Hfr.
      { destruct Hsuf as [-> |[l Hl']]; [done|]. rewrite Hl' in Hf. by apply Forall_app in Hf as [_ ?]. }
      eapply Forall_impl; [|exact Hfr]. intros y Hy. by rewrite Hrx.
    - unfold Writes in *. rewrite F2. destruct q as [|y q]; cbn; rewrite Hrx; [|done].
      by destruct Hx as [-> _ _ _].
    - destruct q as [|y q]; cbn; rewrite Hrx; [|done]. intros _. by destruct Hx as [-> _ _ _].
    - destruct Hb as [K1 K2 K3 K4 K5 K6 K7 K8 K9 K10 K11 K12 K13].
      constructor; rewrite ?F2, ?F3, ?F4, ?(proj1 (Hsum _)), ?(proj2 (Hsum _)), ?Ho1, ?Ho2; cbn -[u64];
        rewrite ?u64_small by (unfold is_u64, UINT64_MAX in *; lia); try lia; done. }
  assert (forall l, contents r' l = contents (recv s) l) as Hco by (intros; by apply contents_ext).
  assert (Posted (queue r') = rest) as Hpo.
  { destruct Hk as [[_ ->]| -> ]; [done|]. unfold AppendFallbackReceive. by destruct (FallbackReceiveTail _). }
  assert (queued rcfg (q ++ [p]) r' ++ contents r' rest =
          queued rcfg q (recv s) ++ contents (recv s) (p :: rest) /\
          pent (q ++ [p]) r' = pent q (recv s)) as [Hqu Hpe].
  { destruct q as [|y q]; cbn; rewrite !Hrx, ?Hco.
    - rewrite (fresh_unread _ _ Hx). destruct Hx as [-> _ _ _]. split; [|done]. unfold contents. cbn.
      by rewrite app_nil_r.
    - split; [|done]. unfold contents. rewrite fmap_app, concat_app. cbn. by rewrite app_nil_r, <- !app_assoc. }
  split.
  - apply (sound_recv h h q (q ++ [p]) s r' H); [|].
    { intros (_ & Hn' & _). unfold waiting in Hn'. by rewrite Hp in Hn'. }
    intros [_ Hs1 Hf1 [G1 G2 G3]].
    constructor; [done| | |constructor; by rewrite F3].
    + intros E. destruct (Hs1 E) as [S1 S2]. rewrite F3, Hpe. split; [|done].
      destruct q as [|y q]; cbn; rewrite Hrx; [by apply fresh_steady|done].
    + intros E. destruct (Hf1 E) as [A1 A2 A3]. constructor.
      * rewrite F3, Hpo, A1, Hp. by rewrite Hqu.
      * by rewrite F3, Hpe.
      * unfold Flag in *. by rewrite F2, F3.
  - constructor.
    + intros E. specialize (Hwa E). destruct q as [|y q]; cbn; rewrite Hrx; [|done].
      by destruct Hx as [-> _ _ _].
    + intros E. specialize (Hpa E). unfold Pace in *. cbn. by rewrite F3, F4.
Qed.

Lemma stopped_dispatch h q s :
  Stopped h q s -> exists q', Stopped h q' (QueueReceiveOnLoop rcfg s).
Proof.
  intros (H & [R1 R2] & Hdr). unfold QueueReceiveOnLoop.
  destruct (Posted (queue (recv s))) as [|p rest] eqn:Ep; [by exists q|].
  destruct (sound_enqueue h p rest q s H Ep R1 R2) as [H1 H2]. by eapply process_stops.
Qed.

Lemma sound_unpended h q s :
  Sound h q s -> Sound h q (on_recv (on_flow (set_QuicToTcpContinuationPending false)) s).
Proof. intros H. apply (sound_recv h h q q s _ H); [done|]. intros Hr. by apply (rel_same _ _ h q (recv s)). Qed.

Lemma stopped_continue h q s :
  Stopped h q s -> exists q', Stopped h q' (continue_processing rcfg s).
Proof.
  intros H. unfold continue_processing. destruct (QuicToTcpContinuationPending _); [|by exists q].
  destruct H as (H & [R1 R2] & _). apply (process_stops h q); [by apply sound_unpended|by constructor].
Qed.

(** ** The end of a write *)

Lemma stopped_free h q s owners :
  Stopped (h + bytes_in owners) q s -> 0 <= h -> Stopped h q (on_recv (free_outputs owners) s).
Proof.
  intros (H & [R1 R2] & Hdr) Hh. split_and!; [by apply sound_free|by constructor|done].
Qed.

(** The front's write is over and its receive given back. *)
Lemma sound_written h p q s w shut :
  Sound h (p :: q) s -> TcpWrites (flow (recv s)) = [w] -> Rx.TcpWriteSubmitted (rx p (recv s)) = true ->
  WriteOk rcfg (NextRequest (flow (recv s))) p (rx p (recv s)) w ->
  let r4 := on_rx (Rx.set_TcpWriteSubmitted false) p
              (ReleasePressure (Tx.PressureBytes w)
                 (on_ledger (fun l => set_PendingTcpWriteBytes (less (PendingTcpWriteBytes l) (Tx.TotalBytes w)) l)
                    (on_flow (set_TcpWrites []) (recv s)))) in
  let r5 := give_back (CompleteReceiveForRelay shut) w r4 in
  Sound (h + Tx.PressureBytes w) (p :: q) (set_recv r5 s) /\
  Rx.DeferredOutputBytes (rx p r5) = Rx.DeferredOutputBytes (rx p (recv s)).
Proof.
  intros H Hws Hsub Hw. cbn zeta. pose proof (sound_held _ _ _ H) as Hh.
  pose proof (held_cells _ _ _ _ _ Hh) as Hx. pose proof (rx_writing _ Hx Hsub) as H0.
  destruct Hw as [V1 V2 V3 V4 V5 V6]. set (r4 := on_rx _ p _).
  set (x4 := Rx.set_TcpWriteSubmitted false (rx p (recv s))).
  pose proof (bytes_in_nonneg (Tx.OutputOwners w)) as Hpn. rewrite <- V4 in Hpn.
  pose proof (held_bounds _ _ _ _ _ Hh) as Hbd. cbn zeta in Hbd. rewrite Hws, sum_one in Hbd.
  pose proof (h_books _ _ _ _ Hh) as [K1 K2 K3 K4 K5 K6 K7 K8 K9 K10 K11 K12 K13].
  assert (rx p r4 = x4 /\ forall z, p <> z -> rx z r4 = rx z (recv s)) as [Hx4 Hne].
  { split; [apply rx_on_rx|]. intros z Hz. unfold r4. by rewrite rx_on_rx_ne. }
  assert (ledger r4 = set_QuicToTcpPressureBytes (QuicToTcpPressureBytes (ledger (recv s)) - Tx.PressureBytes w)
            (set_PendingTcpWriteBytes 0 (ledger (recv s)))) as Hl4.
  { rewrite Hws, sum_one in K6. unfold r4. cbn -[less]. rewrite K6. unfold less.
    rewrite (proj2 (Z.leb_le _ _)) by lia. rewrite Z.leb_refl, Z.sub_diag. done. }
  assert (flow r4 = set_TcpWrites [] (flow (recv s)) /\ log r4 = log (recv s) /\ same_links (recv s) r4)
    as (Hf4 & Hg4 & Hk4) by done.
  assert (RxOk x4) as Hok4 by (destruct Hx; by constructor).
  assert (Held rcfg (h + Tx.PressureBytes w) (p :: q) r4) as Hh4.
  { assert (RemainingBytes x4 = RemainingBytes (rx p (recv s)) /\
            Rx.DeferredOutputBytes x4 = Rx.DeferredOutputBytes (rx p (recv s)) /\
            sum Tx.PressureBytes [] = 0) as (Y1 & Y2 & Y3) by done.
    apply (touch_held rcfg h _ p q (recv s) r4 x4); try done; unfold shift;
      rewrite ?Hl4, ?Hf4, ?Hg4, ?Hws, ?sum_one, ?Y1, ?Y2; cbn; rewrite ?Y3; try lia; try done.
    intros Ed. destruct (h_plain _ _ _ _ Hh Ed). done. }
  clearbody r4.
  destruct (give_back_spec (cfg:=rcfg) (CompleteReceiveForRelay shut) (h + Tx.PressureBytes w) p q r4 w)
    as (G1 & G2 & G3 & G4 & G5 & G6 & Glo & G7 & G8); rewrite ?Hx4; try done.
  { rewrite V5. pose proof (remaining_nonneg (rx p (recv s))).
    change (RemainingBytes x4) with (RemainingBytes (rx p (recv s))). destruct (Decompressing rcfg); lia. }
  { rewrite <- Hx4. intros bytes ? ?. by apply complete_for_spec. }
  set (r5 := give_back (CompleteReceiveForRelay shut) w r4) in *. clearbody r5.
  assert (forall c, Steady rcfg c (rx p (recv s)) -> (c = true -> refused (log r5) = true) ->
     Steady rcfg (refused (log r5)) (rx p r5) /\
     Rx.DeferredOutputOwners (rx p r5) = Rx.DeferredOutputOwners (rx p (recv s)) /\
     front_unread rcfg (rx p r5) = front_unread rcfg (rx p (recv s))) as Hgb.
  { intros c Hc Hcr. destruct (steady_given_back (cfg:=rcfg) c (refused (log r5)) x4 (rx p r5) (Tx.ReceiveCompleteBytes w))
      as (T1 & T2 & T3 & T4 & T5 & T6); try done.
    - destruct Hc. by constructor.
    - destruct G8 as [[-> ->]|[? [[? ->]| -> ]]]; rewrite ?Hx4; auto.
    - split_and!; try done. unfold front_unread. destruct (Decompressing rcfg) eqn:Ed; [by rewrite T5|].
      rewrite T4, Hsub. cbn [orb Rx.TcpWriteSubmitted x4 Rx.set_TcpWriteSubmitted]. by rewrite T6. }
  assert (refused (log (recv s)) = true -> refused (log r5) = true) as Hrf by (rewrite <- Hg4; exact G7).
  split.
  2: { destruct G8 as [[_ ->]|[_ [[_ ->]| -> ]]]; rewrite ?Hx4; try done. unfold complete. by destruct (_ =? _). }
  apply (sound_recv h _ (p :: q) (p :: q) s r5 H); [apply not_emptied|]. intros Hr.
  apply (rel_front (ended s) (doomed s) (ended s) (doomed s) h _ p q (recv s) r5 [] [] [] []);
    rewrite ?app_nil_r; try done.
  - rewrite G3. apply Hk4.
  - intros z Hz. rewrite G2 by done. by apply Hne.
  - rewrite G5, Hg4. done.
  - intros He. destruct (r_steady _ _ _ _ _ _ Hr He) as [Hst _]. destruct (Hgb _ Hst Hrf) as (T1 & T2 & _).
    split_and!; try done. cbn. by rewrite T2.
  - intros Hd. assert (ended s = false) as He.
    { destruct (ended s) eqn:E; [|done]. by rewrite doomed_ended in Hd. }
    destruct (r_steady _ _ _ _ _ _ Hr He) as [Hst _]. destruct (Hgb _ Hst Hrf) as (T1 & T2 & T3).
    split_and!; try done; [cbn; by rewrite T2|]. unfold Flag. by rewrite G4, G6, Glo, Hf4, Hg4.
Qed.

(** Popping what is finished with. *)
Lemma sound_pop_finished h p q s :
  Sound h (p :: q) s -> (ended s = false -> Rx.DeferredOutputBytes (rx p (recv s)) = 0) ->
  let s' := if finished rcfg (rx p (recv s)) then PopReceive p s else s in
  exists q', Sound h q' s' /\
    (ended s' = false -> match q' with [] => True | y :: _ => Waits (rx y (recv s')) end).
Proof.
  intros H Hd. cbn zeta. pose proof (held_cells _ _ _ _ _ (sound_held _ _ _ H)) as Hx.
  destruct (finished rcfg _) eqn:Ef.
  - destruct (finished_plain _ Hx Ef) as [Ed Hset].
    destruct (pop_plain h p q s H Ed Hset) as (q' & P1 & _ & _ & _ & P5). exists q'. split; [done|].
    intros He. destruct P5 as [?|(_ & _ & Hf & _)]; [congruence|]. destruct q' as [|y q']; [done|].
    apply list.Forall_cons in Hf as [[-> _ _ _] _]. done.
  - exists (p :: q). split; [done|]. intros He. unfold Waits. by rewrite Hd.
Qed.

Lemma waits_onward h q s s' q' :
  Onward rcfg h q s s' q' ->
  (ended s = false -> match q with [] => True | y :: _ => Waits (rx y (recv s)) end) ->
  (ended s' = false -> match q' with [] => True | y :: _ => Waits (rx y (recv s')) end).
Proof.
  intros [_ _ _ _ O5] Hw He. destruct O5 as [?|(-> & Ht & [L1 _ _ _])]; [congruence|].
  assert (ended s = false) as He' by (unfold ended in *; by rewrite <- Ht). specialize (Hw He').
  destruct q as [|y q]; [done|]. unfold rx in *. by rewrite L1.
Qed.

(** The end of the routine: the write's outcome is told. *)
Lemma told_of_write (ok : bool) bytes h q s :
  Sound h q s ->
  (ended s = false -> match q with [] => True | y :: _ => Waits (rx y (recv s)) end) ->
  let s' := on_recv (UpdateBackpressure rcfg)
    (if ok
     then TqUvCheckTerminalConvergence
            (count (fun c => set_TcpWriteBytes_ (u64 (TcpWriteBytes_ c + bytes)) c) s)
     else TqUvRequestTerminal TcpError s) in
  exists q', Sound h q' s' /\ Rested rcfg q' s' /\ (ok = false -> doomed s' = true).
Proof.
  intros H W. cbn zeta. destruct ok.
  - destruct (sound_count (cfg:=rcfg) (fun c => set_TcpWriteBytes_ (u64 (TcpWriteBytes_ c + bytes)) c)
                _ q s H) as (H7 & C7 & _).
    set (s7 := count _ s) in *.
    destruct (onward_check _ q s7 H7) as [q8 Ho].
    assert (ended s7 = false -> match q with [] => True | y :: _ => Waits (rx y (recv s7)) end) as W7.
    { intros He. specialize (W He). destruct q; [done|]. by rewrite C7. }
    pose proof (waits_onward _ _ _ _ _ Ho W7) as W8. destruct Ho as [H8 _ _ _ _].
    exists q8. split_and!; [by apply sound_backpressure|by eapply rested_backpressure|done].
  - exists q. split_and!.
    + by apply sound_backpressure, sound_request.
    + constructor; [|intros Hd; exfalso; revert Hd; change (doomed (on_recv (UpdateBackpressure rcfg)
        (TqUvRequestTerminal TcpError s))) with (doomed (TqUvRequestTerminal TcpError s));
        by rewrite request_doomed].
      intros He. specialize (W He). destruct q as [|y q]; [done|].
      change (Waits (rx y (UpdateBackpressure rcfg (recv s)))).
      by rewrite (same_books_rx _ _ y (books_backpressure rcfg (recv s))).
    + intros _. exact (request_doomed TcpError s).
Qed.

(** What the routine processes, and what is left to free. *)
Lemma write_ended_rests n ok w q s :
  Stopped 0 q s -> find_write n (TcpWrites (flow (recv s))) = Some w ->
  Tx.Ownership w = Submitted /\
  exists q', Sound (0 + bytes_in (Tx.OutputOwners w)) q' (write_ended rcfg n ok w s) /\
    Rested rcfg q' (write_ended rcfg n ok w s) /\
    (ok = false -> doomed (write_ended rcfg n ok w s) = true).
Proof.
  intros (H & [R1 R2] & Hdr) Ew.
  pose proof (sound_held _ _ _ H) as Hh. pose proof (h_writes _ _ _ _ Hh) as HW.
  destruct q as [|p q]; [by rewrite HW in Ew|]. cbn in HW.
  destruct (Rx.TcpWriteSubmitted (rx p (recv s))) eqn:Es; [|by rewrite HW in Ew].
  destruct HW as (w' & HW & Hok). rewrite HW in Ew. unfold find_write in Ew. cbn in Ew.
  destruct (Tx.Request w' =? n)%nat eqn:En; [|done]. injection Ew as ->. apply Nat.eqb_eq in En.
  assert (erase_write n (TcpWrites (flow (recv s))) = []) as Her.
  { rewrite HW. unfold erase_write. rewrite filter_cons_False by (intros E; by apply E). done. }
  split; [apply Hok|]. unfold write_ended. cbn zeta. rewrite (w_owner _ _ _ _ _ Hok).
  destruct (sound_written 0 p q s w (QuicShutdownObserved (term s)) H HW Es Hok) as [H5 Hd5].
  set (r5 := give_back _ w _) in *.
  match goal with |- context [on_recv (give_back ?c w) ?x] =>
    assert (on_recv (give_back c w) x = set_recv r5 s) as -> end.
  { unfold r5, on_recv, on_flow. cbn [recv set_recv flow set_flow]. by rewrite Her. }
  clearbody r5. set (s5 := set_recv r5 s) in *.
  destruct (sound_pop_finished (0 + Tx.PressureBytes w) p q s5 H5) as (q6 & H6 & W6).
  { intros He. change (rx p (recv s5)) with (rx p r5). rewrite Hd5.
    destruct (decide (Rx.DeferredOutputBytes (rx p (recv s)) = 0)) as [?|Hne]; [done|].
    destruct (R1 He Hne). congruence. }
  set (s6 := if finished rcfg _ then _ else s5) in *. clearbody s6.
  rewrite (w_outputs _ _ _ _ _ Hok) in H6. by apply (told_of_write ok (Tx.TotalBytes w) _ q6).
Qed.

Lemma stopped_write_complete n ok q s :
  Stopped 0 q s -> exists q', Stopped 0 q' (TqUvOnTcpWriteComplete rcfg n ok s).
Proof.
  intros H. unfold TqUvOnTcpWriteComplete.
  destruct (find_write n (TcpWrites (flow (recv s)))) as [w|] eqn:Ew; [|by exists q].
  destruct (write_ended_rests n ok w q s H Ew) as (Hsub & q' & H1 & H2 & H3).
  rewrite bool_decide_eq_true_2 by done. cbn [negb]. cbn zeta. destruct ok.
  - destruct (process_stops _ q' _ H1 H2) as [q2 H4]. exists q2. by apply stopped_free.
  - exists q'. apply stopped_free; [|done]. apply stopped_doomed; [done|by apply H3|apply H2].
Qed.

(** ** The other relays *)

Lemma stopped_other_receives h q bytes s : Stopped h q s -> Stopped h q (on_recv (other_receives bytes) s).
Proof.
  intros (H & [R1 R2] & Hdr). unfold on_recv, other_receives. destruct (_ && _) eqn:E; cycle 1.
  { split_and!; [|by constructor|done]. by apply (sound_recv h h q q s _ H). }
  apply andb_true_iff in E as [E1 E2]. to_prop. split_and!; [|by constructor|done].
  apply (sound_recv h h q q s _ H); [done|]. intros [[Hs Hc Hf Hw Hpl Hb] S1 F1 L1].
  constructor; [|done| |by destruct L1].
  - constructor; try done; [by eapply shape_links|]. destruct Hb. constructor; cbn; try done; lia.
  - intros E. destruct (F1 E). by constructor.
Qed.

(** ** Before the activation *)

(** A relay being prepared: what has come waits untouched. *)
Record Prep (q : list nat) (r : Recv) : Prop := {
  pr_shape : Shape q r;
  pr_mode : ActiveReceiveFallbackMode (queue r) = false;
  pr_waiting : waiting r = [];
  pr_fresh : Forall (fun p => Fresh (rx p r)) q;
  pr_pending : PendingQuicReceiveBytes (ledger r) = owed r q;
  pr_limit : PendingQuicReceiveBytes (ledger r) <= PrecommitMaxPendingBytes rcfg;
  pr_accounted : AccountedQuicToTcpBytes (ledger r) = PendingQuicReceiveBytes (ledger r);
  pr_worker : QuicToTcpPendingBytes_ (ledger r) = AccountedQuicToTcpBytes (ledger r) + OtherQuicToTcp (log r);
  pr_width : QuicToTcpPendingBytes_ (ledger r) <= UINT64_MAX;
  pr_other : 0 <= OtherQuicToTcp (log r);
  pr_writes : PendingTcpWriteBytes (ledger r) = 0 /\ OutputPendingBufferBytes (ledger r) = 0 /\
              TcpWrites (flow r) = [] /\ QuicReceivePausedByTcpBacklog (flow r) = false;
  pr_log : admitted (log r) = contents r q /\ taken (log r) = [] /\ output (log r) = [] /\
           written (log r) = [] /\ inflated (log r) = [] /\ disabled (log r) = false /\ lost (log r) = 0 }.

Lemma prepared_prep bytes t : 0 <= bytes <= UINT64_MAX -> Prep [] (prepared bytes t).
Proof.
  intros Hb. pose proof (rc_max _ Hrcfg). constructor; cbn; try done; try lia.
  constructor; cbn; try constructor. exists []. split_and!; try done. constructor; cbn; try done.
  intros p [y Hy]. by rewrite lookup_empty in Hy.
Qed.

Lemma u64_total slices :
  event_ok slices = true ->
  fold_left (fun n slice => u64 (n + Z.of_nat (length slice))) slices 0 = bytes_in slices /\
  bytes_in slices <= UINT64_MAX.
Proof.
  intros H. apply andb_true_iff in H as [H1 H2]. to_prop.
  assert (forall l n, forallb (fun slice : list Z => Z.of_nat (length slice) <=? UINT32_MAX) l = true -> 0 <= n ->
            n + UINT32_MAX * Z.of_nat (length l) <= UINT64_MAX ->
            fold_left (fun n slice => u64 (n + Z.of_nat (length slice))) l n = n + bytes_in l /\
            n + bytes_in l <= UINT64_MAX) as Hl.
  { clear. induction l as [|b l IH]; intros n Hf Hn Hm; cbn [fold_left].
    - unfold bytes_in. rewrite sum_nil. cbn [length] in Hm. unfold UINT32_MAX in Hm. lia.
    - cbn [forallb] in Hf. apply andb_true_iff in Hf as [Hb Hf]. to_prop. cbn [length] in Hm.
      rewrite u64_small by (unfold is_u64, UINT64_MAX, UINT32_MAX in *; lia).
      destruct (IH (n + Z.of_nat (length b)) Hf) as [I1 I2]; [lia|unfold UINT64_MAX, UINT32_MAX in *; lia|].
      unfold bytes_in in *. rewrite sum_cons. split; [rewrite I1; lia|lia]. }
  destruct (Hl slices 0 H2) as [I1 I2]; [lia|unfold UINT64_MAX, UINT32_MAX in *; lia|]. split; [by rewrite I1|lia].
Qed.

Lemma precommit_prep slices fin q r r' :
  Prep q r -> event_ok slices = true -> precommit_receive rcfg slices fin r = Some r' ->
  exists q', Prep q' r'.
Proof.
  intros Hp Hev. unfold precommit_receive. destruct (u64_total slices Hev) as [Ht Hm]. rewrite Ht.
  fold (bytes_in slices). destruct (_ =? 0) eqn:E0; to_prop.
  { intros [= <-]. exists q. destruct Hp. destruct fin; constructor; try done. by eapply shape_links. }
  pose proof (quiet_ask r) as Hq. destruct (ask_ok r) as [made r1]. cbn [snd] in Hq.
  assert (Prep q r1) as [P1 P2 P3 P4 P5 P6 P7 P8 P9 P10 P11 P12].
  { pose proof (fun y => quiet_rx _ _ y Hq) as Hrx. pose proof (quiet_books _ _ Hq) as (Hl & _).
    pose proof (q_streams _ _ Hq) as Hst. unfold streams in Hst. injection Hst as T1 T2 T3 T4 T5.
    destruct Hp as [P1 P2 P3 P4 P5 P6 P7 P8 P9 P10 P11 P12].
    constructor; rewrite ?(q_ledger _ _ Hq), ?(q_other _ _ Hq), ?(q_flow _ _ Hq), ?(q_queue _ _ Hq); try done.
    - by eapply shape_links.
    - by rewrite (same_books_waiting _ _ Hl).
    - eapply Forall_impl; [|exact P4]. intros y Hy. by rewrite Hrx.
    - rewrite P5. symmetry. by apply sums_ext.
    - rewrite T1, T2, T3, T4, T5, (q_disabled _ _ Hq), (q_lost _ _ Hq).
      by rewrite (contents_ext r r1). }
  clear Hq Hp. cbn zeta. destruct (negb made || _) eqn:Em; [done|].
  apply orb_false_iff in Em as [_ Em]. to_prop. pose proof (bytes_in_nonneg slices) as Hn.
  destruct (add_spec (bytes_in slices) r1 E0) as [-> |[Hw -> ]]; [lia|done|]. cbn [negb].
  set (p := NextReceive (queue r1)). set (x := new_receive slices (bytes_in slices) fin).
  intros [= <-]. exists (q ++ [p]). set (r2 := on_log _ _).
  assert (p ∉ q) as Hpq.
  { intros Hin. pose proof (sh_bound _ _ P1) as Hb. rewrite P3, app_nil_r, list.Forall_forall in Hb.
    specialize (Hb p Hin). unfold p in Hb. lia. }
  assert (rx p r2 = x /\ forall y, y ∈ q -> rx y r2 = rx y r1) as [Hx Hne].
  { split; [|intros y Hy]; unfold rx, r2; cbn; [by rewrite lookup_total_insert_eq|].
    rewrite lookup_total_insert_ne; [done|]. intros E. fold p in E. congruence. }
  assert (Fresh x) as Hfr.
  { apply andb_true_iff in Hev as [Hc _]. to_prop. constructor; cbn; try done; lia. }
  destruct (sums_ext r1 r2 q Hne) as [So _]. assert (waiting r2 = []) as Hwt by exact P3.
  assert (owed r1 q <= AccountedQuicToTcpBytes (ledger r1)) as Hle by lia.
  assert (owed r2 (q ++ [p]) = owed r1 q + bytes_in slices) as Hso.
  { unfold owed in *. rewrite sum_app, sum_one, Hx, So, (fresh_remaining _ Hfr). done. }
  assert (0 <= PendingQuicReceiveBytes (ledger r1)) as Hpn.
  { rewrite P5. apply sum_nonneg, list.Forall_forall. intros. apply remaining_nonneg. }
  pose proof (rc_max _ Hrcfg) as Hmax. destruct P11 as (W1 & W2 & W3 & W4). destruct P12 as (L1 & L2 & L3 & L4 & L5 & L6 & L7).
  assert (u64 (PendingQuicReceiveBytes (ledger r1) + bytes_in slices) =
          PendingQuicReceiveBytes (ledger r1) + bytes_in slices) as Hu.
  { apply u64_small. unfold is_u64, UINT64_MAX in *. lia. }
  constructor; rewrite ?Hwt, ?Hso; try done; try (cbn -[u64 Z.add]; rewrite ?Hu; lia).
  - destruct P1 as [(k & [C1 C2 C3 C4] & Hk & Hmd) Hnd Hbd]. rewrite P3, !app_nil_r in *.
    specialize (Hmd P2). subst k. constructor; rewrite ?Hwt, ?app_nil_r.
    + exists []. split_and!; [by constructor| |done]. cbn. rewrite app_nil_r in *. by rewrite Hk.
    + apply list.NoDup_app. split_and!; [done| |apply NoDup_singleton].
      intros y Hy ->%list_elem_of_singleton. done.
    + apply Forall_app. split; [|constructor; [cbn; lia|constructor]].
      eapply Forall_impl; [|exact Hbd]. intros y Hy. cbn in *. lia.
  - apply Forall_app. split; [|constructor; [by rewrite Hx|constructor]].
    rewrite list.Forall_forall in *. intros y Hy. rewrite Hne by done. by apply P4.
  - split_and!; try done. cbn. rewrite L1. unfold contents. rewrite fmap_app, concat_app. cbn.
    rewrite Hx, app_nil_r. cbn. f_equal. f_equal. apply list_fmap_ext. intros i y Hy.
    rewrite Hne; [done|]. by eapply list_elem_of_lookup_2.
Qed.


Lemma precommit_all events q r r' :
  Prep q r -> precommit rcfg events r = Some r' -> exists q', Prep q' r'.
Proof.
  revert q r. induction events as [|[slices fin] events IH]; intros q r Hp; cbn [precommit].
  - intros [= <-]. by exists q.
  - destruct (event_ok slices) eqn:He; [|done]. destruct (precommit_receive _ _ _ _) as [r1|] eqn:E; [|done].
    destruct (precommit_prep _ _ _ _ _ Hp He E) as [q1 H1]. by apply (IH q1).
Qed.

(** The activation takes over what was prepared. *)
Lemma prep_held q r : Prep q r -> Held rcfg 0 q (activate r).
Proof.
  intros [P1 P2 P3 P4 P5 P6 P7 P8 P9 P10 (W1 & W2 & W3 & _) (_ & _ & _ & _ & _ & _ & L7)].
  assert (waiting (activate r) = []) as Hw by exact P3.
  assert (forall p, p ∈ q -> Fresh (rx p r)) as Hf by (by apply list.Forall_forall).
  destruct (fresh_sums r q P4) as [Ho Hd].
  assert (deferred (activate r) q = 0 /\ owed (activate r) q = owed r q) as [Hd' Ho'] by done.
  constructor.
  - by eapply shape_links.
  - apply list.Forall_forall. intros p Hp. by apply fresh_ok, Hf.
  - rewrite Hw, app_nil_r. destruct q as [|p q]; [constructor|]. by apply list.Forall_cons in P4 as [_ ?].
  - destruct q as [|p q]; [done|]. cbn. change (rx p (activate r)) with (rx p r).
    destruct (Hf p) as [-> _ _ _]; [by left|]. done.
  - destruct q as [|p q]; [done|]. change (rx p (activate r)) with (rx p r).
    destruct (Hf p) as [-> _ _ _]; [by left|]. by intros _.
  - rewrite P5 in *. constructor; rewrite ?Hw, ?Hd', ?Ho'; cbn; rewrite ?W1, ?W2, ?W3, ?L7, ?sum_nil; try done; try lia.
    rewrite P5. unfold owed at 3. rewrite sum_nil. lia.
Qed.

Lemma stopped_start bytes events bytes' t r :
  0 <= bytes' <= UINT64_MAX -> precommit rcfg events (prepared bytes' t) = Some r ->
  exists q, Stopped 0 q (start rcfg bytes r).
Proof.
  intros Hb Hr. destruct (precommit_all _ _ _ _ (prepared_prep bytes' t Hb) Hr) as [q Hp].
  pose proof (prep_held _ _ Hp) as Hh. destruct Hp as [_ _ P3 P4 _ _ _ _ _ _ (_ & _ & _ & W4) (L1 & L2 & L3 & L4 & L5 & L6 & L7)].
  destruct (fresh_front rcfg r q P4) as (Hq & Hpe & Hst).
  assert (Posted (queue r) = []) as Hpo by (unfold waiting in P3; by apply app_eq_nil in P3 as [? _]).
  apply process_stops with (q := q); constructor; cbn.
  - done.
  - done.
  - constructor; [exact Hh| | |].
    + intros _. split; [exact Hst|]. change (pent q (activate r)) with (pent q r).
      change (log (activate r)) with (log r). rewrite Hpe, L4. apply sublist_nil_l.
    + intros _. constructor.
      * change (queued rcfg q (activate r)) with (queued rcfg q r). cbn. rewrite Hpo, L1, L2, Hq. by rewrite app_nil_r.
      * change (pent q (activate r)) with (pent q r). cbn. by rewrite Hpe, L3, L4.
      * unfold Flag. cbn. by rewrite W4, L6, L7.
    + constructor; cbn; rewrite ?L2, ?L3, ?L4, ?L5; done || apply sublist_nil_l.
  - intros _. destruct q as [|p q]; [done|]. apply list.Forall_cons in P4 as [[E _ _ _] _].
    change (rx p (activate r)) with (rx p r). rewrite E. done.
  - intros _ _. cbn. by rewrite L6.
Qed.

(** ** Every action *)

Lemma stopped_closed s :
  TermInv s -> TcpClosePending (term s) = true -> (exists q, Stopped 0 q s) ->
  exists q, Stopped 0 q (TqUvOnTcpClosed s).
Proof.
  intros Hi Hp [q H]. unfold TqUvOnTcpClosed. set (s1 := on_term _ s).
  assert (Stopped 0 q s1) as H1 by (by apply stopped_term).
  assert (TerminalStarted (term s1) = true) as ->.
  { destruct (TerminalStarted (term s)) eqn:E; [exact E|].
    destruct (t_before _ _ Hi E) as [Hx _]. congruence. }
  eapply stopped_aside; [apply aside_check|by exists q].
Qed.

Lemma stopped_shut_down ok s :
  (exists q, Stopped 0 q s) -> exists q, Stopped 0 q (TqUvOnTcpShutdownComplete ok s).
Proof.
  intros [q H]. unfold TqUvOnTcpShutdownComplete.
  assert (Stopped 0 q (on_recv (on_flow (set_TcpShutdownPending false)) s)) as H1 by (by apply stopped_flow).
  destruct ok.
  - eapply stopped_aside; [apply aside_check|]. exists q. by apply stopped_flow.
  - eapply stopped_aside; [apply aside_terminate|]. by exists q.
Qed.

Lemma stopped_perform act s :
  TermInv s -> (exists q, Stopped 0 q s) -> exists q, Stopped 0 q (perform cfg rcfg act s).
Proof.
  intros Hi [q H]. assert (forall s', Aside s s' -> exists q, Stopped 0 q s') as Ha.
  { intros s' Hs'. eapply stopped_aside; [exact Hs'|]. by exists q. }
  destruct act; cbn [perform].
  - destruct (TcpReadStarted _); [|by exists q]. by apply Ha, aside_readable.
  - by apply Ha, aside_data.
  - destruct (bool_decide _); [|by exists q]. apply Ha. etrans; [|apply aside_complete]. apply aside_data.
  - apply Ha. unfold retry_scan, TqUvRetryPendingQuicSends. destruct (_ && _); [apply aside_retry_loop|done].
  - apply Ha. unfold terminal_scan. destruct (_ && _); [apply aside_facts|done].
  - apply Ha. destruct (Registered _); [apply aside_terminate|done].
  - by apply Ha, aside_request.
  - destruct (TcpShutdownPending _); [|by exists q]. apply stopped_shut_down. by exists q.
  - destruct (TcpClosePending _) eqn:E; [|by exists q]. apply stopped_closed; [done|done|by exists q].
  - exists q. by apply stopped_shutdown.
  - destruct (event_ok _) eqn:E; [|by exists q]. exists q. apply stopped_receive; [|done|done].
    intros Hre. destruct (TerminalStarted (term s)) eqn:Es.
    + destruct (t_after _ _ Hi Es) as (_ & _ & -> & _). done.
    + destruct (t_before _ _ Hi Es) as (_ & _ & _ & _ & _ & _ & ? & _). congruence.
  - exists q. by apply stopped_post.
  - exists q. unfold accept_fin. case_bool_decide; [by apply stopped_flow|done].
  - by eapply stopped_dispatch.
  - by eapply stopped_continue.
  - by eapply stopped_write_complete.
  - exists q. by apply stopped_other_receives.
  - apply Ha. destruct (_ && _); [apply aside_data|done].
Qed.

Lemma stopped_run acts s :
  Config_ok cfg -> Sys (cfg := cfg) s -> (exists q, Stopped 0 q s) ->
  exists q, Stopped 0 q (run cfg rcfg acts s).
Proof.
  intros Hcfg. revert s. induction acts as [|[act t] acts IH]; intros s Hs [q H]; [by exists q|]. cbn.
  assert (Sys (cfg := cfg) (tell t s)) as Ht by (by eapply sys_ext).
  apply IH; [by apply sys_perform|]. apply stopped_perform; [apply Ht|]. exists q. by apply stopped_tell.
Qed.
End Handlers.

(** ** Properties *)

Section Properties.
  Context {K : ITqCompressor} (cfg : Config) (rcfg : ReceiveConfig).
  Context (Hcfg : Config_ok cfg) (Hrcfg : ReceiveConfig_ok rcfg).
  Context (events : list (list (list Z) * bool)) (sent held : Z) (t : Told) (early : Recv).
  Context (Hsent : 0 <= sent <= UINT64_MAX) (Hheld : 0 <= held <= UINT64_MAX).
  Context (Hearly : precommit rcfg events (prepared held t) = Some early).
  Context (acts : list (Action * Told)).

Local Abbreviation after := (run cfg rcfg acts (start rcfg sent early)).

Lemma stopped_reachable : exists q, Stopped rcfg 0 q after.
Proof.
  apply stopped_run; [done|done|by apply sys_start|]. by eapply stopped_start.
Qed.

(** C2. What MsQuic delivers is what TCP is given.  As long as nothing has asked for the relay's
    end, the bytes handed on are the first of the bytes admitted, what they became (themselves, or
    the decompressor's outputs on them) is what was written followed by at most what is kept for the
    next write, and when nothing is queued everything admitted has been handed on and everything
    produced that is not kept has been written.  Whatever happens later, the bytes written are taken
    in order from those produced. *)
Theorem received_bytes_are_written_in_order :
  let g := log (recv after) in
  (if Decompressing rcfg
   then taken g = concat (fst <$> inflated g) /\ output g = concat (snd <$> inflated g)
   else taken g = output g) /\
  written g `sublist_of` output g /\
  (doomed after = false ->
   taken g `prefix_of` admitted g /\ written g `prefix_of` output g /\
   (FrontReceive (recv after) = None -> written g = output g /\
    (Posted (queue (recv after)) = [] -> taken g = admitted g))).
Proof.
  destruct stopped_reachable as (q & [_ _ [Hh _ Hf [L1 L2 L3]]] & _). cbn zeta. split_and!.
  - destruct (Decompressing rcfg); auto.
  - exact L3.
  - intros Hd. destruct (Hf Hd) as [F1 F2 _]. split_and!; [rewrite F1; by eexists|rewrite F2; by eexists|].
    intros He. pose proof (front_cases q _ (h_shape _ _ _ _ Hh)) as Hq. rewrite He in Hq. subst q.
    cbn in F1, F2. rewrite app_nil_r in F2. split; [done|]. intros Hp.
    rewrite F1, Hp. cbn. by rewrite app_nil_r.
Qed.

(** C8. The books of the receiving half balance after any history.  With [q] the queue in order, the
    pending bytes are those the queue still owes MsQuic, the admitted ones add those on their way to
    the loop, the relay's and the worker's ledgers agree with them without wrapping, the pressure
    adds the output that is kept or being written and never exceeds the limit, and the output
    buffers are exactly that output.  The pressure also keeps, for ever, the bytes [lost] with
    writes that could not be recorded because [TcpWrites.emplace] threw; there are none as long as
    nothing has asked for the relay's end, and a relay that has lost some is never released. *)
Theorem receive_books_balance :
  let r := recv after in
  let l := ledger r in
  exists q, Shape q r /\
  PendingQuicReceiveBytes l = sum (fun p => RemainingBytes (rx p r)) q /\
  AdmittedQuicReceiveBytes l =
    PendingQuicReceiveBytes l + sum (fun p => RemainingBytes (rx p r)) (waiting r) /\
  AccountedQuicToTcpBytes l = AdmittedQuicReceiveBytes l /\
  QuicToTcpPendingBytes_ l = AccountedQuicToTcpBytes l + OtherQuicToTcp (log r) /\
  QuicToTcpPendingBytes_ l <= UINT64_MAX /\
  PendingTcpWriteBytes l = sum Tx.TotalBytes (TcpWrites (flow r)) /\
  QuicToTcpPressureBytes l =
    AdmittedQuicReceiveBytes l + OutputPendingBufferBytes l + lost (log r) /\
  0 <= lost (log r) /\ (doomed after = false -> lost (log r) = 0) /\
  (TerminalReleased (term after) = true -> lost (log r) = 0) /\
  OutputPendingBufferBytes l =
    sum (fun p => Rx.DeferredOutputBytes (rx p r)) q + sum Tx.PressureBytes (TcpWrites (flow r)) /\
  QuicToTcpPressureBytes l <= PrecommitMaxPendingBytes rcfg.
Proof.
  destruct stopped_reachable as (q & [_ He [Hh _ Hfl _]] & _). cbn zeta. exists q.
  destruct Hh as [Hs _ _ _ _ [B1 B2 B3 B4 B5 B6 B7 B8 B9 _ B11 _ _]].
  assert (doomed after = false -> lost (log (recv after)) = 0) as Hl1.
  { intros E. by destruct (Hfl E) as [_ _ (_ & _ & ?)]. }
  assert (TerminalReleased (term after) = true -> lost (log (recv after)) = 0) as Hl2 by (intros E; by apply He).
  fold (owed (recv after) q) (owed (recv after) (waiting (recv after))) (deferred (recv after) q).
  split_and!; try done; lia.
Qed.

(** C20. The receive queue is well formed after any history: the receives that came before the
    activation followed by the linked list of the later ones form one queue without repetition,
    whose tail pointer and size agree with it; every receive in it has its bytes counted exactly and
    its completed, pending and deferred bytes in range; all but the first are untouched; and at most
    one write is in flight, of the first receive, whose bytes and buffers it accounts for. *)
Theorem receive_queue_is_well_formed :
  let r := recv after in
  exists q, Shape q r /\ FrontReceive r = head q /\ receives r = length q /\
  Forall (fun p => RxOk (rx p r)) q /\
  Forall (fun p => Fresh (rx p r)) (tail q ++ waiting r) /\
  (length (TcpWrites (flow r)) <= 1)%nat /\
  Forall (fun w => exists p, head q = Some p /\ Rx.TcpWriteSubmitted (rx p r) = true /\
                   WriteOk rcfg (NextRequest (flow r)) p (rx p r) w) (TcpWrites (flow r)).
Proof.
  destruct stopped_reachable as (q & [_ _ [Hh _ _ _]] & _). cbn zeta. exists q.
  destruct Hh as [Hs Hc Hf Hw _ _]. pose proof (front_cases _ _ Hs) as Hfr.
  split_and!; try done; [|by apply receives_shape| |].
  - destruct (FrontReceive _); [by destruct Hfr as [? ->]|by subst q].
  - destruct q as [|p q]; cbn in Hw; [rewrite Hw; cbn; lia|].
    destruct (Rx.TcpWriteSubmitted _); [destruct Hw as (w & -> & _)|rewrite Hw]; cbn; lia.
  - destruct q as [|p q]; cbn in Hw; [by rewrite Hw|].
    destruct (Rx.TcpWriteSubmitted _) eqn:E; [destruct Hw as (w & -> & Hw)|by rewrite Hw].
    constructor; [|done]. by exists p.
Qed.

(** C12. The processing of the receive queue terminates: wherever the relay is in its history, the
    fuel of [processing] is not used up, be it started by the activation's state, by a receive that
    reaches the loop, by the continuation or by the end of a write. *)
Theorem processing_terminates :
  let s := after in
  (exists s', processing rcfg s = inr s') /\
  (forall p rest, Posted (queue (recv s)) = p :: rest ->
   exists s', processing rcfg (on_recv (enqueue p) (on_recv (on_queue (set_Posted rest)) s)) = inr s') /\
  (exists s', processing rcfg (on_recv (on_flow (set_QuicToTcpContinuationPending false)) s) = inr s') /\
  (forall n w, find_write n (TcpWrites (flow (recv s))) = Some w ->
   exists s', processing rcfg (write_ended rcfg n true w s) = inr s').
Proof.
  destruct stopped_reachable as (q & Hst). cbn zeta. pose proof Hst as (H & Hre & _).
  assert (forall h q s, Sound rcfg h q s -> Rested rcfg q s -> exists s', processing rcfg s = inr s') as Hp.
  { intros h q' s H1 H2. destruct (processing_stops h q' s H1 H2) as (s' & _ & ? & _). by exists s'. }
  split_and!.
  - by apply (Hp 0 q).
  - intros p rest Ep. destruct (sound_enqueue 0 p rest q after H Ep) as [H1 H2]; try apply Hre. by eapply Hp.
  - apply (Hp 0 q); [by apply sound_unpended|by destruct Hre; constructor].
  - intros n w Ew. destruct (write_ended_rests n true w q after Hst Ew) as (_ & q' & H1 & H2 & _). by eapply Hp.
Qed.

(** C19. The terminal begins once and the relay is released once.  From its start nothing is read;
    an abort leaves no retry queued; a released relay has its handle closed and its handoff
    complete, is off the worker's map and owns nothing in either direction: no send, retry,
    completion or read buffer, no receive queued or on its way, no write, and every counter of the
    two halves is zero.  What is published to the handoff control says ready only for a released
    relay. *)
Theorem terminal_begins_and_releases_once :
  let d := data after in
  let r := recv after in
  let x := term after in
  TerminalBeginCount x = (if TerminalStarted x then 1 else 0) /\
  TerminalReleaseCount x = (if TerminalReleased x then 1 else 0) /\
  (TerminalStarted x = true -> TcpReadStarted d = false) /\
  (TerminalAborted x = true -> PendingQuicSendRetries d = []) /\
  (TerminalReleased x = true ->
   TcpCloseCompleted x = true /\ TerminalHandoffComplete x = true /\ Registered x = false /\
   (QuicSends d = [] /\ PendingQuicSendRetries d = [] /\ Completions d = [] /\
    PendingQuicSendBytes d = 0 /\ AccountedTcpToQuicBytes d = 0 /\ PendingBufferBytes d = 0) /\
   PrecommitReceives (queue r) = [] /\ FallbackReceiveHead (queue r) = None /\
   Posted (queue r) = [] /\ Admitting (queue r) = None /\ TcpWrites (flow r) = [] /\
   PendingQuicReceiveBytes (ledger r) = 0 /\ AdmittedQuicReceiveBytes (ledger r) = 0 /\
   AccountedQuicToTcpBytes (ledger r) = 0 /\ QuicToTcpPressureBytes (ledger r) = 0 /\
   PendingTcpWriteBytes (ledger r) = 0 /\ OutputPendingBufferBytes (ledger r) = 0) /\
  (TqTerminalReleaseReady x = true -> TerminalReleased x = true).
Proof.
  destruct (terminal_course cfg rcfg Hcfg sent Hsent early acts) as (H1 & H2 & H3 & H4 & H5 & H6).
  cbn zeta. split; [done|]. split; [done|]. split; [done|]. split; [done|]. split; [|done].
  intros Hr. destruct (H5 Hr) as (R1 & R2 & R3 & R4). do 4 (split; [done|]).
  destruct stopped_reachable as (q & [_ He [Hh _ _ _]] & _). specialize (He Hr).
  pose proof (proj1 (emptied_books 0 q _ Hh) He) as (Hf & Ha & Hp). destruct He as (-> & Hw & _).
  pose proof (h_writes _ _ _ _ Hh) as Hwr. cbn in Hwr. destruct (h_books _ _ _ _ Hh).
  apply app_eq_nil in Hw as [Hw1 Hw2]. unfold FrontReceive in Hf. rewrite Hwr in *.
  destruct (PrecommitReceives _) as [|? ?]; [|done]. destruct (Admitting _); [done|].
  split_and!; try done; congruence.
Qed.

(** C13. The receive queue does not stand still, and receiving is not paused for nothing.  As long
    as nothing has asked for the relay's end and no API has refused, a queue that is not empty has a
    write in flight or a continuation posted, either of which processes it again; and while MsQuic
    has been told to stop delivering, more than half of the limit is held. *)
Theorem queued_receives_are_driven :
  doomed after = false -> refused (log (recv after)) = false ->
  (FrontReceive (recv after) <> None ->
   TcpWrites (flow (recv after)) <> [] \/ QuicToTcpContinuationPending (flow (recv after)) = true) /\
  QuicReceivePausedByTcpBacklog (flow (recv after)) = disabled (log (recv after)) /\
  (disabled (log (recv after)) = true ->
   PrecommitMaxPendingBytes rcfg / 2 < QuicToTcpPressureBytes (ledger (recv after))).
Proof.
  destruct stopped_reachable as (q & [_ _ [Hh _ Hf _]] & [_ Hpa] & Hdr). intros Hd Hr.
  destruct (Hf Hd) as [_ _ [Hfl _]]. split_and!; [|done|by apply Hpa].
  intros Hfr. destruct Hdr as [?|[?|[->|[?|?]]]]; [congruence|congruence| |by left|by right].
  by rewrite (shape_empty _ (h_shape _ _ _ _ Hh)) in Hfr.
Qed.

End Properties.

(** ** Small relays *)

Module Examples.
Import Demo.
#[local] Existing Instance stored.

(** A compressed stream; the decompressor's answers are told with the actions. *)
Definition inflating : ReceiveConfig :=
  {| Decompressing := true; HasDecompressor := true; PrecommitMaxPendingBytes := 64;
     QuicToTcpCallBudget := 4; QuicToTcpByteBudgetPerTick := 64 |}.

Lemma receiving_ok : ReceiveConfig_ok receiving.
Proof. constructor; cbn; unfold is_u32, UINT64_MAX; lia. Qed.
Lemma inflating_ok : ReceiveConfig_ok inflating.
Proof. constructor; cbn; unfold is_u32, UINT64_MAX; lia. Qed.

Definition inflation (n : nat) (out : list Z) : Inflation :=
  {| decompressed := true; InputConsumed := n; Output := out; NeedsMoreInput := true;
     NeedsMoreOutput := false |}.
Definition told (act : Action) (l : list Inflation) : Action * Told :=
  (act, {| terminal := []; api := []; inflates := l |}).

(** One receive before the activation, two after it; the decompressor makes output of each. *)
Definition before : list (list (list Z) * bool) := [([[1; 2]; [3]], false)].
Definition prepared_receives (rcfg : ReceiveConfig) : Recv :=
  default (prepared 0 nothing) (precommit rcfg before (prepared 0 nothing)).

Definition arriving : list (Action * Told) :=
  [plain (QuicReceive [[4]] false); plain PostReceive; plain DispatchReceive;
   plain (QuicReceive [[5]; [6]] true); plain PostReceive].
Definition drained : list (Action * Told) :=
  arriving ++
  [plain DispatchReceive; plain (TcpWriteComplete 0 true); plain (TcpWriteComplete 1 true);
   plain (TcpWriteComplete 2 true)].
Definition inflated_all : list (Action * Told) :=
  [plain (QuicReceive [[1; 2]; [3]] false); plain PostReceive;
   told DispatchReceive [inflation 2 [7; 7]]; plain (QuicReceive [[4]] true); plain PostReceive;
   plain DispatchReceive; told (TcpWriteComplete 0 true) [inflation 1 [8]];
   told (TcpWriteComplete 1 true) [inflation 0 []; inflation 1 [9]];
   told (TcpWriteComplete 2 true) [inflation 0 []]].

Example drained_is_written :
  let s := run (relay 0) receiving drained (start receiving 0 (prepared_receives receiving)) in
  written (log (recv s)) = [1; 2; 3; 4; 5; 6] /\ TcpShutdownPending (flow (recv s)) = true /\
  QuicToTcpPressureBytes (ledger (recv s)) = 0 /\ doomed s = false.
Proof. vm_compute. done. Qed.

Lemma received_bytes_are_written_in_order_witness :
  let g := log (recv (run (relay 0) inflating inflated_all (start inflating 0 (prepared 0 nothing)))) in
  admitted g = [1; 2; 3; 4] /\ output g = [7; 7; 8; 9] /\ written g = output g /\
  taken g = admitted g.
Proof.
  destruct (received_bytes_are_written_in_order (relay 0) inflating (relay_ok 0) inflating_ok
    [] 0 0 nothing (prepared 0 nothing) ltac:(unfold UINT64_MAX; lia) ltac:(unfold UINT64_MAX; lia)
    ltac:(reflexivity) inflated_all) as (_ & _ & H).
  destruct H as (_ & _ & H); [vm_compute; reflexivity|].
  destruct H as (H1 & H2); [vm_compute; reflexivity|].
  split; [vm_compute; reflexivity|]. split; [vm_compute; reflexivity|].
  split; [exact H1|]. apply H2. vm_compute. reflexivity.
Defined.

Lemma receive_books_balance_witness :
  let r := recv (run (relay 0) receiving arriving (start receiving 9 (prepared_receives receiving))) in
  PendingQuicReceiveBytes (ledger r) = 4 /\ AdmittedQuicReceiveBytes (ledger r) = 6 /\
  exists q, Shape q r /\ PendingQuicReceiveBytes (ledger r) = sum (fun p => RemainingBytes (rx p r)) q.
Proof.
  split; [vm_compute; reflexivity|]. split; [vm_compute; reflexivity|].
  destruct (receive_books_balance (relay 0) receiving (relay_ok 0) receiving_ok
    before 9 0 nothing (prepared_receives receiving) ltac:(unfold UINT64_MAX; lia)
    ltac:(unfold UINT64_MAX; lia) ltac:(reflexivity) arriving) as (q & H1 & H2 & _).
  exists q. split; [exact H1|exact H2].
Defined.

Lemma receive_queue_is_well_formed_witness :
  let r := recv (run (relay 0) receiving arriving (start receiving 9 (prepared_receives receiving))) in
  receives r = 2%nat /\ exists q, Shape q r /\ FrontReceive r = head q /\ receives r = length q.
Proof.
  split; [vm_compute; reflexivity|].
  destruct (receive_queue_is_well_formed (relay 0) receiving (relay_ok 0) receiving_ok
    before 9 0 nothing (prepared_receives receiving) ltac:(unfold UINT64_MAX; lia)
    ltac:(unfold UINT64_MAX; lia) ltac:(reflexivity) arriving) as (q & H1 & H2 & H3 & _).
  exists q. split; [exact H1|]. split; [exact H2|exact H3].
Defined.

(** Receives are queued, being written and on their way when the stream aborts. *)
Definition aborted_receiving : list (Action * Told) :=
  arriving ++
  [plain (RequestTerminal QuicAbort); plain TerminalScan; plain DispatchReceive;
   plain (TcpWriteComplete 0 false); plain QuicShutdownComplete; plain TcpClosed;
   plain TerminalScan].

Lemma terminal_begins_and_releases_once_witness :
  let s := run (relay 0) receiving aborted_receiving (start receiving 7 (prepared_receives receiving)) in
  TerminalReleased (term s) = true /\ PendingBufferBytes (data s) = 0 /\
  QuicToTcpPressureBytes (ledger (recv s)) = 0.
Proof.
  destruct (terminal_begins_and_releases_once (relay 0) receiving (relay_ok 0) receiving_ok before 7 0
              nothing (prepared_receives receiving) ltac:(unfold UINT64_MAX; lia)
              ltac:(unfold UINT64_MAX; lia) ltac:(vm_compute; reflexivity) aborted_receiving)
    as (_ & _ & _ & _ & H & _).
  destruct H as (_ & _ & _ & (_ & _ & _ & _ & _ & H1) & _ & _ & _ & _ & _ & _ & _ & _ & H2 & _);
    [vm_compute; reflexivity|].
  split; [vm_compute; reflexivity|]. split; [exact H1|exact H2].
Defined.

Lemma processing_terminates_witness :
  let s := run (relay 0) receiving arriving (start receiving 9 (prepared_receives receiving)) in
  exists s', processing receiving s = inr s'.
Proof.
  exact (proj1 (processing_terminates (relay 0) receiving (relay_ok 0) receiving_ok
    before 9 0 nothing (prepared_receives receiving) ltac:(unfold UINT64_MAX; lia)
    ltac:(unfold UINT64_MAX; lia) ltac:(reflexivity) arriving)).
Defined.

Lemma queued_receives_are_driven_witness :
  let r := recv (run (relay 0) receiving arriving (start receiving 9 (prepared_receives receiving))) in
  FrontReceive r = Some 0%nat /\
  (TcpWrites (flow r) <> [] \/ QuicToTcpContinuationPending (flow r) = true).
Proof.
  destruct (queued_receives_are_driven (relay 0) receiving (relay_ok 0) receiving_ok
    before 9 0 nothing (prepared_receives receiving) ltac:(unfold UINT64_MAX; lia)
    ltac:(unfold UINT64_MAX; lia) ltac:(reflexivity) arriving) as (H & _);
    [vm_compute; reflexivity|vm_compute; reflexivity|].
  split; [vm_compute; reflexivity|]. apply H. vm_compute. discriminate.
Defined.

(** The end of the stream, when it comes without bytes, overtakes the receives that are queued: the
    socket's sending side is shut down before the second receive is written. *)
Definition overtaken : list (Action * Told) :=
  [plain (QuicReceive [[1; 2]; [3]] false); plain PostReceive; plain (QuicReceive [[4]] false);
   plain PostReceive; plain DispatchReceive; plain DispatchReceive; plain QuicFinReceived].

Example end_overtakes_queued_receives :
  let s := run (relay 0) receiving overtaken (start receiving 0 (prepared 0 nothing)) in
  let w := write_ended receiving 0 true
             (default {| Tx.Request := 0; Tx.ReceiveOwner := 0; Tx.OutputOwners := []; Tx.Buffers := [];
                         Tx.TotalBytes := 0; Tx.ReceiveCompleteBytes := 0; Tx.PressureBytes := 0;
                         Tx.Ownership := Created |} (head (TcpWrites (flow (recv s))))) s in
  admitted (log (recv s)) = [1; 2; 3; 4] /\ written (log (recv w)) = [1; 2; 3] /\
  TcpShutdownPending (flow (recv w)) = true /\ doomed w = false.
Proof. vm_compute. done. Qed.

(** A completion that MsQuic refuses once is retried; the receive behind it is left where it is,
    with nothing in flight and nothing posted to process it. *)
Definition refusing : list (Action * Told) :=
  [plain (QuicReceive [[1]] false); plain PostReceive; plain DispatchReceive;
   plain (QuicReceive [[2]] false); plain PostReceive; plain DispatchReceive;
   (TcpWriteComplete 0 true, {| terminal := []; api := [false]; inflates := [] |})].

Example retried_completion_leaves_the_next_receive :
  let s := run (relay 0) receiving refusing (start receiving 0 (prepared 0 nothing)) in
  FrontReceive (recv s) = Some 1%nat /\ written (log (recv s)) = [1] /\
  TcpWrites (flow (recv s)) = [] /\ QuicToTcpContinuationPending (flow (recv s)) = false /\
  doomed s = false.
Proof. vm_compute. done. Qed.

(** The write of a receive's output cannot be recorded: its pressure stays, and the relay is not
    released although everything else has ended. *)
Definition unrecorded : list (Action * Told) :=
  [plain (QuicReceive [[1; 2]] false); plain PostReceive;
   (DispatchReceive, {| terminal := []; api := [true; true; true; true; true; false];
                        inflates := [inflation 2 [7; 7]] |});
   plain (RequestTerminal QuicAbort); plain TerminalScan; plain QuicShutdownComplete;
   plain TcpClosed; plain TerminalScan].

Example unrecorded_write_keeps_the_relay :
  let s := run (relay 0) inflating unrecorded (start inflating 0 (prepared 0 nothing)) in
  lost (log (recv s)) = 2 /\ QuicToTcpPressureBytes (ledger (recv s)) = 2 /\
  FrontReceive (recv s) = None /\ TcpWrites (flow (recv s)) = [] /\
  TcpCloseCompleted (term s) = true /\ TerminalHandoffComplete (term s) = true /\
  TerminalReleased (term s) = false.
Proof. vm_compute. done. Qed.

End Examples.
